(* ===== verification/_CoqProject ===== *)
-Q . S2P
Prelude.v
CString.v
Utf8.v
ShellParse.v
ElfFormat.v
Mouse.v
Keyboard.v
Ext2Core.v
Ext2Dir.v
Ext2Ops.v
Ext2Mount.v
Ext2Format.v
Ext2Logic.v
Ext2Frame.v
Ext2Blocks.v
Ext2Walk.v
Ext2Alloc.v
Ext2Create.v
Ext2Files.v
Ext2Bodies.v
Ext2Engine.v
Ext2Listing.v
Ext2Api.v
State.v
Disk.v
DiskProofs.v
DiskRam.v
LinuxMemory.v
LinuxMemoryProofs.v
LinuxKernel.v
LinuxFiles.v
LinuxPipes.v
LinuxRefs.v
LinuxTask.v
LinuxExec.v
LinuxSyscall.v
LinuxDescriptors.v
LinuxImage.v
Font.v
ConsoleVideo.v
ConsoleVideoProofs.v
Console.v
ConsoleProofs.v
Stdio.v
StdioProofs.v
