(* ===== verification/Prelude.v ===== *)
(** * Barnix: a verification of the kernel's logic

    Barnix is a 32-bit kernel in C with an ext2 file system, a shell, native
    programs that call the kernel through a table of functions, and a Linux side
    that runs static i386 programs in an address space of their own.  This library
    models parts of the kernel that compute and decide, one file or group of
    files per part, and proves what makes each of them correct.  Code below a part (ports,
    drivers, the files behind a system call) is an interface, a type class, with stated laws.

    ** How the code is modelled

    - An integer of w bits is a [Z] with its wrap-around written out ([u8], [u16],
      [u32], [s32] below); signed overflow wraps as in an unoptimised build, which is what the
      makefile makes of the kernel.
    - A byte array is a [list Z]; a C string is the bytes of its object up to
      the first NUL.  What would be undefined behaviour (an access outside its object, a
      null dereference) is the value [None] (for the Linux side [Fault]), so every theorem that says
      "returns" or "is defined" also says that the code stays inside its objects.
    - A component with state is a [Record] of the static variables of its file.
      Code that cannot fail threads it through the state monad of State; code with undefined
      behaviour through a monad of the component ([M] of Ext2Core, [KM] of LinuxKernel).
    - Keys, packets of the mouse and answers of devices are inputs: lists, the state behind an interface or
      steps of a relation, over which the theorems quantify.
    - A loop has the recursion of its data where it has one, and otherwise fuel.  The
      theorems say that an operation returns, never "if it returns", so the fuel is enough wherever one is
      stated: a directory block has at most 128 records and gets 129 steps, a supported
      directory twelve blocks and gets 13, a file 268 blocks and gets 270 rounds of copying, an ATA wait the code's own
      million, a pipe transfer the vectors and bytes left.  The scheduler (LinuxTask) has
      sixteen rounds; no theorem here depends on it.

    ** The parts

    Text and tables:
    - CString: the string, memory and number routines of src/barnix.c.  memmove copies
      right for every overlap; atoi inverts itoa.
    - Utf8: src/text.c.  Decoding what was encoded gives the code points back; arbitrary bytes give
      scalar values only.
    - ShellParse: src/shell_parse.c.  Printing a plan and parsing it gives the plan back; no
      line makes the parser leave its arrays.
    - ElfFormat: src/elf_format.c.  What an accepted image guarantees to the loaders.
    - Mouse, Keyboard: src/mouse.c and the decoder of src/keyboard.c.
    - Font, ConsoleVideo(Proofs), Console(Proofs): src/font.c, src/console_video.c and the
      output and line input of src/barnix.c.  Drawing only what changed shows the same
      screen; nothing is stored outside the cells, the line or the history; the line editor is a list of characters.

    Storage:
    - The ext2 engine, src/fs.c and src/ext2_format.inc.  Ext2Core (cache, geometry, inodes, allocation),
      Ext2Dir (directories and paths), Ext2Ops (transactions, files), Ext2Mount (mounting, listings, entry points) and
      Ext2Format (the formatter) define it over the interface [BlockDevice].  Ext2Logic and Ext2Frame give weakest
      preconditions, the geometry of a volume and what steps leave alone; Ext2Blocks, Ext2Walk,
      Ext2Alloc, Ext2Create, Ext2Files, Ext2Bodies, Ext2Engine and Ext2Listing specify the operations
      from the cache up to mounting; Ext2Api has all 22 entry points under one invariant [wf]
      and the results: every entry point is safe, a failed writer changes nothing, a reader nothing ever, allocation
      is fresh, mounting checks the layout.
    - State, Disk, DiskProofs, DiskRam: src/disk.c over its ports and the drivers of USB and PCI
      disks, the interface [Drivers].  Selections and reads stay in range, the ATA registers carry the sector; the RAM
      disk is a device that keeps the laws of the engine.

    Programs:
    - LinuxMemory(Proofs): src/linux_memory.c with the translation that the
      processor makes of its tables: programs reach their window and nothing else, the check of user
      pointers is exact, the heap and the switch between programs keep what they should.
    - LinuxKernel, LinuxFiles, LinuxTask, LinuxExec, LinuxSyscall: the state behind the system calls, the descriptors and
      pipes and the dispatcher of src/linux_syscall.c, src/linux_task.c, src/linux_exec.c and the trap of
      src/linux_idt.c.  The files behind the calls are the interface [Services].
    - LinuxPipes: a pipe refines a queue of bytes.  LinuxRefs, LinuxDescriptors: reference counts are exact
      after any sequence of calls.  LinuxImage: the memory in which a program starts.
    - Stdio(Proofs): src/barnixiolib/stdio.c, the library of native programs, over the functions the kernel
      gives them, the interface [Kernel].

    The parts call each other as the code does: the console prints through Utf8 and draws through ConsoleVideo,
    whose framebuffer is device memory of LinuxMemory; LinuxExec starts what ElfFormat accepts in the window that LinuxMemory maps;
    the engine runs on any [BlockDevice], and DiskRam makes one of Disk.

    ** Interfaces and hypotheses

    [DeviceLaws] is what the engine relies on of its device: reads give the sectors of an image and do not change it, a write changes its
    sector and no other, and a range that could not be read stays unreadable as long as only reads follow (a transient
    read error is not covered).  It is discharged by the RAM disk (DiskRam) and by a memory disk
    (Ext2Api).  Mounting is covered for images whose superblock names a first inode of at most 8193
    ([first_inode_fits]); on others [engine_init] reads past the block of the inode bitmap.
    [DriversOk] (drivers give sectors of bytes), [Layout] (the linker aligns the page tables) and [KernelLaws] (files of a
    program keep what is written) are facts about code below the parts.
    Each theorem with a hypothesis has an instance at a concrete system.

    ** What is not modelled

    The namespace and its mounts (src/vfs.inc), accounts and access rights (src/permissions.c, src/password.c), partition
    tables (src/partition.c, src/fdisk.inc), the loader of programs (src/elf.c), shell sessions (src/bssh.c), languages and settings
    (src/lang.c, src/settings.c) and the network (src/net.c, src/net_ip.c) are left for extensions of this library.  Device access without
    logic of its own is left out: the polling of ports in src/keyboard.c and src/mouse.c, USB (src/usb_storage.c, src/usb_hid.c,
    src/usb_xhci.c, src/usb_legacy.c), PCI disks (src/storage_pci.c), network adapters, the font load.  So are
    assembly and segment tables (boot.S, linux_*.S, src/linux_tss.c), the order in which src/kernel.c starts
    everything, the listings of src/disk.c, interactive programs (src/apps, src/userland, src/Setup), the
    development kit (src/BDK) and the tests.  Timing, caches of the
    processor and interrupts during kernel code do not occur in the model: the kernel runs with them off. *)
From Stdlib Require Export ZArith Lia Bool.
From stdpp Require Export base numbers option list relations.
Global Open Scope Z_scope.

(** ** Machine integers: a w-bit unsigned integer is a [Z] in [0, 2^w). *)
Definition u8 (z : Z) : Z := z mod 2 ^ 8.
Definition u16 (z : Z) : Z := z mod 2 ^ 16.
Definition u32 (z : Z) : Z := z mod 2 ^ 32.
(** Two's complement reading of a 32-bit pattern: the conversion
    [(int)x] of an [unsigned int] on this target. *)
Definition s32 (z : Z) : Z := (z + 2 ^ 31) mod 2 ^ 32 - 2 ^ 31.

Definition is_byte (b : Z) : Prop := 0 <= b < 256.
Definition is_u32 (z : Z) : Prop := 0 <= z < 2 ^ 32.
Definition bytes_ok (l : list Z) : Prop := Forall is_byte l.

#[global] Instance is_byte_dec b : Decision (is_byte b).
Proof. unfold is_byte. apply _. Defined.
#[global] Instance is_u32_dec z : Decision (is_u32 z).
Proof. unfold is_u32. apply _. Defined.

(** C conditions: an [int] is true when it is not zero. *)
Definition truth (z : Z) : bool := negb (z =? 0).
Definition c_bool (b : bool) : Z := if b then 1 else 0.

(** Byte at an index of a buffer; past the end of a C string this is the
    terminating NUL of the string whose contents the list holds. *)
Definition byte_at (l : list Z) (i : Z) : Z := nth (Z.to_nat i) l 0.
Definition zlen {A} (l : list A) : Z := Z.of_nat (length l).

(** [land z m] is not zero / has exactly the bits of [v]. *)
Definition has_bits (z m : Z) : bool := truth (Z.land z m).

(** ** Arithmetic automation *)
Ltac dm_lia := zify; Z.to_euclidean_division_equations; lia.

(** Turn boolean comparisons in the context and the goal into [Prop]s. *)
Ltac bool_to_prop :=
  repeat match goal with
  | H : (_ && _) = true |- _ => apply andb_true_iff in H as [? ?]
  | H : (_ || _) = false |- _ => apply orb_false_iff in H as [? ?]
  | H : negb _ = true |- _ => apply negb_true_iff in H
  | H : negb _ = false |- _ => apply negb_false_iff in H
  | H : (_ =? _) = true |- _ => apply Z.eqb_eq in H
  | H : (_ =? _) = false |- _ => apply Z.eqb_neq in H
  | H : (_ <? _) = true |- _ => apply Z.ltb_lt in H
  | H : (_ <? _) = false |- _ => apply Z.ltb_ge in H
  | H : (_ <=? _) = true |- _ => apply Z.leb_le in H
  | H : (_ <=? _) = false |- _ => apply Z.leb_gt in H
  | H : (_ >? _) = true |- _ => rewrite Z.gtb_ltb in H
  | H : (_ >? _) = false |- _ => rewrite Z.gtb_ltb in H
  | H : (_ >=? _) = true |- _ => rewrite Z.geb_leb in H
  | H : (_ >=? _) = false |- _ => rewrite Z.geb_leb in H
  | H : truth _ = true |- _ => unfold truth in H
  | H : truth _ = false |- _ => unfold truth in H
  end.

(** Decide a closed boolean test of the goal with [lia]. *)
Ltac ztrue b := replace b with true by (symmetry; unfold truth in *; bool_to_prop; first [lia | dm_lia]).
Ltac zfalse b := replace b with false by (symmetry; unfold truth in *; bool_to_prop; first [lia | dm_lia]).
Ltac split_if :=
  match goal with |- context [if ?b then _ else _] => destruct b eqn:? end.

Create HintDb barnix.

(** ** Bit operations as arithmetic *)
Lemma land_mask n x : 0 <= n -> Z.land x (2 ^ n - 1) = x mod 2 ^ n.
Proof. intros. rewrite <- Z.land_ones by lia. f_equal. rewrite Z.ones_equiv. lia. Qed.

Lemma lor_low n a b :
  0 <= n -> 0 <= b < 2 ^ n -> a mod 2 ^ n = 0 -> Z.lor a b = a + b.
Proof.
  intros Hn Hb Ha. symmetry. rewrite <- Z.lxor_lor, Z.add_nocarry_lxor; try done.
  all: apply Z.bits_inj'; intros i Hi; rewrite Z.land_spec, Z.bits_0.
  all: destruct (Z.lt_ge_cases i n) as [Hlt|Hge].
  all: try (rewrite <- (Z.mod_pow2_bits_low a n i) by lia; rewrite Ha, Z.bits_0; done).
  all: rewrite <- (Z.mod_small b (2 ^ n)) by lia;
       rewrite (Z.mod_pow2_bits_high b n i) by lia; apply andb_false_r.
Qed.

Lemma shr n x : 0 <= n -> Z.shiftr x n = x / 2 ^ n.
Proof. intros. by apply Z.shiftr_div_pow2. Qed.
Lemma shl n x : 0 <= n -> Z.shiftl x n = x * 2 ^ n.
Proof. intros. by apply Z.shiftl_mul_pow2. Qed.

Lemma testbit_high c n i : 0 <= c < 2 ^ n -> 0 <= n <= i -> Z.testbit c i = false.
Proof. intros Hc Hi. rewrite <- (Z.mod_small c (2 ^ n)) by lia. apply Z.mod_pow2_bits_high. lia. Qed.

Lemma lor_below n a b : 0 <= n -> 0 <= a < 2 ^ n -> 0 <= b < 2 ^ n -> 0 <= Z.lor a b < 2 ^ n.
Proof.
  intros Hn Ha Hb. split; [apply Z.lor_nonneg; lia|].
  assert (Z.lor a b = Z.lor a b mod 2 ^ n) as ->; [|apply Z.mod_pos_bound; lia].
  symmetry. apply Z.bits_inj'. intros i Hi.
  destruct (Z.lt_ge_cases i n) as [Hlt|Hge].
  - by rewrite Z.mod_pow2_bits_low.
  - rewrite Z.mod_pow2_bits_high by lia. rewrite Z.lor_spec.
    by rewrite (testbit_high a n), (testbit_high b n) by lia.
Qed.

Lemma s32_range z : - 2 ^ 31 <= s32 z < 2 ^ 31.
Proof. unfold s32. pose proof (Z.mod_pos_bound (z + 2 ^ 31) (2 ^ 32)). lia. Qed.

(** A boolean fact about every byte is checked on the 256 of them. *)
Lemma byte_cases (P : Z -> bool) :
  forallb P (seqZ 0 256) = true -> forall b, is_byte b -> P b = true.
Proof.
  intros H b Hb. rewrite forallb_forall in H. apply H.
  apply list_elem_of_In, elem_of_seqZ. unfold is_byte in Hb. lia.
Qed.

Lemma u32_range z : is_u32 (u32 z).
Proof. unfold is_u32, u32. apply Z.mod_pos_bound. lia. Qed.
Lemma u8_range z : is_byte (u8 z).
Proof. unfold is_byte, u8. apply Z.mod_pos_bound. lia. Qed.
Lemma u32_small z : is_u32 z -> u32 z = z.
Proof. apply Z.mod_small. Qed.
Lemma u8_small z : is_byte z -> u8 z = z.
Proof. apply Z.mod_small. Qed.
#[export] Hint Resolve u32_range u8_range : barnix.

Lemma byte_at_ok l i : bytes_ok l -> is_byte (byte_at l i).
Proof.
  unfold bytes_ok. intros H. unfold byte_at. destruct (nth_in_or_default (Z.to_nat i) l 0) as [Hin| ->].
  - rewrite Forall_forall in H. apply H. by apply list_elem_of_In.
  - unfold is_byte. lia.
Qed.
#[export] Hint Resolve byte_at_ok : barnix.

Lemma zlen_cons {A} (x : A) l : zlen (x :: l) = 1 + zlen l.
Proof. unfold zlen. cbn [length]. lia. Qed.
Lemma zlen_app {A} (a b : list A) : zlen (a ++ b) = zlen a + zlen b.
Proof. unfold zlen. rewrite length_app. lia. Qed.
Lemma zlen_nonneg {A} (l : list A) : 0 <= zlen l.
Proof. unfold zlen. lia. Qed.

Lemma zlen_replicate n (v : Z) : 0 <= n -> zlen (replicate (Z.to_nat n) v) = n.
Proof. intros. unfold zlen. rewrite length_replicate. lia. Qed.

(** ** Little-endian fields of a byte buffer *)
Definition le16 (l : list Z) (o : Z) : Z := byte_at l o + byte_at l (o + 1) * 2 ^ 8.
Definition le32 (l : list Z) (o : Z) : Z := le16 l o + le16 l (o + 2) * 2 ^ 16.
Definition le16_bytes (n : Z) : list Z := [u8 n; u8 (Z.shiftr n 8)].
Definition le32_bytes (n : Z) : list Z := le16_bytes n ++ le16_bytes (Z.shiftr n 16).

Lemma le16_range l o : bytes_ok l -> 0 <= le16 l o < 2 ^ 16.
Proof.
  intros H. pose proof (byte_at_ok l o H). pose proof (byte_at_ok l (o + 1) H).
  unfold is_byte, le16 in *. lia.
Qed.
Lemma le32_range l o : bytes_ok l -> is_u32 (le32 l o).
Proof.
  intros H. pose proof (le16_range l o H). pose proof (le16_range l (o + 2) H).
  unfold is_u32, le32. lia.
Qed.
#[export] Hint Resolve le16_range le32_range : barnix.
Lemma zeros_ok n : bytes_ok (replicate n 0).
Proof. apply Forall_forall. intros x Hx%elem_of_replicate. destruct Hx as [-> _]. unfold is_byte. lia. Qed.

(** ** Writing bytes into a buffer *)
Definition splice (l : list Z) (o : Z) (bs : list Z) : list Z :=
  take (Z.to_nat o) l ++ bs ++ drop (Z.to_nat (o + zlen bs)) l.
Lemma zlen_splice l o bs : 0 <= o -> o + zlen bs <= zlen l -> zlen (splice l o bs) = zlen l.
Proof.
  unfold splice, zlen. intros. rewrite !length_app, length_take, length_drop. lia.
Qed.
Lemma byte_splice l o bs i : 0 <= o -> o + zlen bs <= zlen l -> 0 <= i ->
  byte_at (splice l o bs) i = if (o <=? i) && (i <? o + zlen bs) then byte_at bs (i - o) else byte_at l i.
Proof.
  unfold byte_at, splice, zlen. intros Ho Hl Hi. rewrite !nth_lookup.
  destruct (Z.ltb_spec i o).
  { zfalse (o <=? i). cbn [andb]. rewrite lookup_app_l by (rewrite length_take; lia).
    by rewrite lookup_take_lt by lia. }
  ztrue (o <=? i). rewrite lookup_app_r by (rewrite length_take; lia). rewrite length_take.
  destruct (Z.ltb_spec i (o + Z.of_nat (length bs))); cbn [andb].
  - rewrite lookup_app_l by lia. do 2 f_equal. lia.
  - rewrite lookup_app_r by lia. rewrite lookup_drop. do 2 f_equal. lia.
Qed.
Lemma byte_splice_out l o bs i : 0 <= o -> o + zlen bs <= zlen l -> 0 <= i -> i < o \/ o + zlen bs <= i ->
  byte_at (splice l o bs) i = byte_at l i.
Proof.
  intros ? ? ? Hout. rewrite byte_splice by done.
  destruct Hout; [zfalse (o <=? i)|zfalse (i <? o + zlen bs); rewrite andb_false_r]; done.
Qed.
Lemma byte_splice_in l o bs i : 0 <= o -> o + zlen bs <= zlen l -> o <= i < o + zlen bs ->
  byte_at (splice l o bs) i = byte_at bs (i - o).
Proof. intros. rewrite byte_splice by lia. ztrue (o <=? i). by ztrue (i <? o + zlen bs). Qed.
Lemma le16_splice_out l o bs i : 0 <= o -> o + zlen bs <= zlen l -> 0 <= i -> i + 2 <= o \/ o + zlen bs <= i ->
  le16 (splice l o bs) i = le16 l i.
Proof. intros. unfold le16. by rewrite !byte_splice_out by lia. Qed.
Lemma le32_splice_out l o bs i : 0 <= o -> o + zlen bs <= zlen l -> 0 <= i -> i + 4 <= o \/ o + zlen bs <= i ->
  le32 (splice l o bs) i = le32 l i.
Proof. intros. unfold le32. by rewrite !le16_splice_out by lia. Qed.

Lemma le16_of_bytes n : le16 (le16_bytes n) 0 = u16 n.
Proof.
  change (le16 (le16_bytes n) 0) with (u8 n + u8 (Z.shiftr n 8) * 2 ^ 8).
  unfold u8, u16. rewrite shr by lia.
  change (2 ^ 16) with (2 ^ 8 * 2 ^ 8). rewrite Z.rem_mul_r by lia. by rewrite (Z.mul_comm (2 ^ 8)).
Qed.
Lemma le32_of_bytes n : le32 (le32_bytes n) 0 = u32 n.
Proof.
  unfold le32, le32_bytes.
  change (le16 (le16_bytes n ++ le16_bytes (Z.shiftr n 16)) 0) with (le16 (le16_bytes n) 0).
  change (le16 (le16_bytes n ++ le16_bytes (Z.shiftr n 16)) (0 + 2)) with (le16 (le16_bytes (Z.shiftr n 16)) 0).
  rewrite !le16_of_bytes. unfold u16, u32. rewrite shr by lia.
  change (2 ^ 32) with (2 ^ 16 * 2 ^ 16). rewrite Z.rem_mul_r by lia. by rewrite (Z.mul_comm (2 ^ 16)).
Qed.
Lemma le16_splice_in l o bs i : 0 <= o -> o + zlen bs <= zlen l -> o <= i -> i + 2 <= o + zlen bs ->
  le16 (splice l o bs) i = le16 bs (i - o).
Proof. intros. unfold le16. rewrite !byte_splice_in by lia. do 3 f_equal. lia. Qed.
Lemma le32_splice_in l o bs i : 0 <= o -> o + zlen bs <= zlen l -> o <= i -> i + 4 <= o + zlen bs ->
  le32 (splice l o bs) i = le32 bs (i - o).
Proof. intros. unfold le32. rewrite !le16_splice_in by lia. do 3 f_equal. lia. Qed.

Lemma le16_bytes_ok n : bytes_ok (le16_bytes n).
Proof. repeat constructor; apply u8_range. Qed.
Lemma le32_bytes_ok n : bytes_ok (le32_bytes n).
Proof. repeat constructor; apply u8_range. Qed.
Lemma splice_ok l o bs : bytes_ok l -> bytes_ok bs -> bytes_ok (splice l o bs).
Proof.
  intros Hl Hb. unfold splice, bytes_ok in *. rewrite !Forall_app.
  split_and!; [by apply Forall_take|done|by apply Forall_drop].
Qed.
