(* ===== verification/CString.v ===== *)
(** * Kernel string, memory and number routines ([barnix.c])

    A C string is the list of the bytes of the object it lives in: the
    string ends at the first NUL, or at the end of the list when the list
    holds exactly the characters.  Routines that store return [None] when
    they would write past the end of the destination object. *)
From S2P Require Import Prelude.

(** [char] is signed on this target. *)
Definition schar (c : Z) : Z := if c <? 128 then c else c - 256.
Definition head_char (s : list Z) : Z := match s with [] => 0 | c :: _ => c end.

Fixpoint strlen (s : list Z) : Z :=
  match s with
  | [] => 0
  | c :: s' => if truth c then 1 + strlen s' else 0
  end.

Fixpoint strcmp (a b : list Z) : Z :=
  match a, b with
  | c :: a', d :: b' =>
      if truth c && truth d && (c =? d) then strcmp a' b' else schar c - schar d
  | _, _ => schar (head_char a) - schar (head_char b)
  end.

Fixpoint strncmp (a b : list Z) (n : nat) : Z :=
  match n with
  | O => 0
  | S n' =>
      let c := head_char a in let d := head_char b in
      if negb (c =? d) then c - d
      else if c =? 0 then 0
      else strncmp (tail a) (tail b) n'
  end.

(** Store a byte through a pointer that must be inside the object. *)
Definition put_char (dest : list Z) (c : Z) : option (list Z) :=
  match dest with [] => None | _ :: rest => Some (c :: rest) end.

Fixpoint strcpy (dest src : list Z) {struct src} : option (list Z) :=
  match src with
  | c :: src' =>
      if truth c then
        match dest with [] => None | _ :: dest' => cons c <$> strcpy dest' src' end
      else put_char dest 0
  | [] => put_char dest 0
  end.

Fixpoint strcat (dest src : list Z) : option (list Z) :=
  match dest with
  | c :: dest' => if truth c then cons c <$> strcat dest' src else strcpy dest src
  | [] => None
  end.

Fixpoint strncpy (dest src : list Z) (n : nat) : option (list Z) :=
  match n with
  | O => Some dest
  | S n' =>
      match dest with
      | [] => None
      | _ :: dest' =>
          if truth (head_char src)
          then cons (head_char src) <$> strncpy dest' (tail src) n'
          else cons 0 <$> strncpy dest' src n'
      end
  end.

Fixpoint strnlen (s : list Z) (n : nat) : Z :=
  match n with
  | O => 0
  | S n' => if truth (head_char s) then 1 + strnlen (tail s) n' else 0
  end.

(** [strchr] returns the offset of the match instead of its address. *)
Fixpoint strchr (s : list Z) (c : Z) : option Z :=
  match s with
  | x :: s' =>
      if truth x then (if schar x =? c then Some 0 else Z.succ <$> strchr s' c)
      else if c =? 0 then Some 0 else None
  | [] => if c =? 0 then Some 0 else None
  end.

(** The inner loop of [strstr]: is [needle] at the start of [h]? *)
Fixpoint match_here (h needle : list Z) : bool :=
  match needle with
  | [] => true
  | n :: needle' =>
      if truth n then truth (head_char h) && (head_char h =? n) && match_here (tail h) needle'
      else true
  end.

Fixpoint strstr_from (haystack needle : list Z) : option Z :=
  match haystack with
  | [] => None
  | c :: rest =>
      if truth c then
        (if match_here haystack needle then Some 0 else Z.succ <$> strstr_from rest needle)
      else None
  end.
Definition strstr (haystack needle : list Z) : option Z :=
  if truth (head_char needle) then strstr_from haystack needle else Some 0.

(** ** Memory: source and destination are offsets of one address space *)
Definition mem_set (m : list Z) (a : nat) (v : Z) : list Z := <[a := v]> m.
Definition mem_get (m : list Z) (a : nat) : Z := nth a m 0.

(** The sizes are [int]s.  [while (size--)] counts a negative one down past zero, so that the loop leaves every
    object; so does a range that is not inside the object.  Both are [None]. *)
Definition reaches (m : list Z) (a : nat) (size : Z) : bool := (size =? 0) || ((0 <? size) && (Z.of_nat a + size <=? zlen m)).

(** [while (size--) *d++ = *s++;] *)
Fixpoint copy_up (m : list Z) (d s size : nat) : list Z :=
  match size with
  | O => m
  | S size' => copy_up (mem_set m d (mem_get m s)) (S d) (S s) size'
  end.

(** [while (size--) *--d = *--s;] with both pointers past the end. *)
Fixpoint copy_down (m : list Z) (d s size : nat) : list Z :=
  match size with
  | O => m
  | S size' =>
      copy_down (mem_set m (d + size') (mem_get m (s + size'))) d s size'
  end.

Definition memcpy (m : list Z) (d s : nat) (size : Z) : option (list Z) :=
  if reaches m d size && reaches m s size then Some (copy_up m d s (Z.to_nat size)) else None.

Definition memmove (m : list Z) (d s : nat) (size : Z) : option (list Z) :=
  if (d =? s)%nat then Some m
  else if negb (reaches m d size && reaches m s size) then None
  else Some (if (d <? s)%nat then copy_up m d s (Z.to_nat size) else copy_down m d s (Z.to_nat size)).

Fixpoint fill (m : list Z) (d : nat) (value : Z) (size : nat) : list Z :=
  match size with
  | O => m
  | S size' => fill (mem_set m d (u8 value)) (S d) value size'
  end.
Definition memset (m : list Z) (d : nat) (value size : Z) : option (list Z) :=
  if reaches m d size then Some (fill m d value (Z.to_nat size)) else None.

(** The first difference ends the comparison; a negative size has no other end inside the object. *)
Fixpoint compare (m : list Z) (x y size : nat) : option Z :=
  match size with
  | O => Some 0
  | S size' =>
      match m !! x, m !! y with
      | Some a, Some b => if a =? b then compare m (S x) (S y) size' else Some (a - b)
      | _, _ => None
      end
  end.
Definition memcmp (m : list Z) (x y : nat) (size : Z) : option Z :=
  compare m x y (if size <? 0 then S (length m) else Z.to_nat size).

(** ** Numbers *)
(** The two-index swap loop of [reverse]; [fuel] bounds the iterations. *)
Fixpoint reverse_loop (fuel : nat) (s : list Z) (i j : nat) : list Z :=
  match fuel with
  | O => s
  | S fuel' =>
      if (i <? j)%nat
      then reverse_loop fuel' (mem_set (mem_set s i (mem_get s j)) j (mem_get s i)) (S i) (Nat.pred j)
      else s
  end.
Definition reverse (s : list Z) : list Z :=
  reverse_loop (length s) s 0 (Z.to_nat (strlen s - 1)).

(** [while (value > 0) { buffer[i++] = '0' + value % 10; value /= 10; }]:
    the digits stored, lowest first.  Ten iterations suffice for 32 bits. *)
Fixpoint digits10 (fuel : nat) (value : Z) : list Z :=
  match fuel with
  | O => []
  | S fuel' => if 0 <? value then (48 + value mod 10) :: digits10 fuel' (value / 10) else []
  end.

(** The text of the buffer, without its terminating NUL.  Negating the most
    negative [int] is undefined in C; the kernel is built without optimisation
    (src/makefile), and there the number is left unchanged. *)
Definition itoa (value : Z) : list Z :=
  if value =? 0 then [48]
  else
    let neg := value <? 0 in
    let value' := if neg then s32 (- value) else value in
    reverse (digits10 10 value' ++ (if neg then [45] else [])).

Definition utoa (value : Z) : list Z :=
  if value =? 0 then [48] else reverse (digits10 10 value).

Definition hex_digit (d : Z) : Z := if d <? 10 then 48 + d else 65 + (d - 10).
Fixpoint digits16 (fuel : nat) (value : Z) : list Z :=
  match fuel with
  | O => []
  | S fuel' =>
      if 0 <? value then hex_digit (Z.land value 15) :: digits16 fuel' (Z.shiftr value 4) else []
  end.
Definition xtoa (value : Z) : list Z :=
  if value =? 0 then [48] else reverse (digits16 8 value).

Definition isdigit (c : Z) : bool := (48 <=? schar c) && (schar c <=? 57).
Fixpoint atoi_loop (s : list Z) (value : Z) : Z :=
  match s with
  | c :: s' => if isdigit c then atoi_loop s' (s32 (value * 10 + (schar c - 48))) else value
  | [] => value
  end.
Definition atoi (s : list Z) : Z :=
  let '(sign, s') := match s with c :: s' => if c =? 45 then (-1, s') else (1, s) | [] => (1, s) end in
  s32 (atoi_loop s' 0 * sign).

Definition isalpha (c : Z) : bool :=
  ((65 <=? schar c) && (schar c <=? 90)) || ((97 <=? schar c) && (schar c <=? 122)).
Definition isspace (c : Z) : bool := (c =? 32) || (c =? 9) || (c =? 10) || (c =? 13).
Definition toupper (c : Z) : Z := if (97 <=? schar c) && (schar c <=? 122) then c - 32 else c.
Definition tolower (c : Z) : Z := if (65 <=? schar c) && (schar c <=? 90) then c + 32 else c.

Fixpoint starts_with (s prefix : list Z) : bool :=
  match prefix with
  | [] => true
  | p :: prefix' =>
      if truth p then (head_char s =? p) && starts_with (tail s) prefix' else true
  end.
Definition ends_with (s suffix : list Z) : bool :=
  let len1 := strlen s in let len2 := strlen suffix in
  if len1 <? len2 then false
  else strcmp (drop (Z.to_nat (len1 - len2)) s) suffix =? 0.

(** ** Specification vocabulary *)
(** The characters of the string stored in a buffer. *)
Fixpoint cstr (s : list Z) : list Z :=
  match s with
  | c :: s' => if truth c then c :: cstr s' else []
  | [] => []
  end.
Definition no_nul (s : list Z) : Prop := Forall (fun c => c <> 0) s.

Lemma truth_nonzero c : c <> 0 -> truth c = true.
Proof. intros. unfold truth. by ztrue (negb (c =? 0)). Qed.

Lemma cstr_no_nul s : no_nul s -> cstr s = s.
Proof. induction 1 as [|c s Hc _ IH]; cbn; [done|]. by rewrite truth_nonzero, IH. Qed.

Lemma cstr_app_nul s r : no_nul s -> cstr (s ++ 0 :: r) = s.
Proof. induction 1 as [|c s Hc _ IH]; cbn; [done|]. by rewrite truth_nonzero, IH. Qed.

Lemma strlen_cstr s : strlen s = zlen (cstr s).
Proof.
  induction s as [|c s IH]; [done|]. cbn. destruct (truth c); [|done].
  rewrite IH. unfold zlen. cbn [length]. lia.
Qed.

Lemma strlen_nonneg s : 0 <= strlen s.
Proof. rewrite strlen_cstr. unfold zlen. lia. Qed.

(** [strcpy] succeeds exactly when the string and its NUL fit. *)
Lemma put_char_spec dest c :
  put_char dest c = if 0 <? zlen dest then Some (c :: drop 1 dest) else None.
Proof.
  destruct dest as [|x dest]; [done|]. rewrite zlen_cons. pose proof (zlen_nonneg dest).
  by ztrue (0 <? 1 + zlen dest).
Qed.

Lemma strcpy_spec dest src :
  strcpy dest src =
    if strlen src <? zlen dest
    then Some (cstr src ++ 0 :: drop (S (length (cstr src))) dest) else None.
Proof.
  revert dest. induction src as [|c src IH]; intros dest; cbn [strcpy strlen cstr].
  { apply put_char_spec. }
  destruct (truth c); [|apply put_char_spec].
  destruct dest as [|x dest].
  { pose proof (strlen_nonneg src). change (zlen []) with 0. by zfalse (1 + strlen src <? 0). }
  rewrite IH, zlen_cons.
  replace (1 + strlen src <? 1 + zlen dest) with (strlen src <? zlen dest)
    by (apply eq_true_iff_eq; rewrite !Z.ltb_lt; lia).
  by destruct (strlen src <? zlen dest).
Qed.

(** ** memmove *)
Lemma mem_set_length m a v : length (mem_set m a v) = length m.
Proof. apply length_insert. Qed.

Lemma mem_get_lookup m a : (a < length m)%nat -> m !! a = Some (mem_get m a).
Proof.
  intros H. unfold mem_get. rewrite nth_lookup.
  destruct (m !! a) eqn:E; [done|]. apply lookup_ge_None in E. lia.
Qed.

Lemma copy_up_lookup m d s n i :
  (d <= s)%nat -> (s + n <= length m)%nat ->
  copy_up m d s n !! i = if decide (d <= i < d + n)%nat then m !! (i - d + s)%nat else m !! i.
Proof.
  revert m d s. induction n as [|n IH]; intros m d s Hds Hs; cbn.
  { rewrite decide_False by lia. done. }
  rewrite IH by (rewrite ?mem_set_length; lia). unfold mem_set.
  destruct (decide (i = d)) as [->|Hne].
  { rewrite decide_False, decide_True by lia. rewrite list_lookup_insert_eq by lia.
    rewrite <- mem_get_lookup by lia. f_equal. lia. }
  destruct (decide (S d <= i < S d + n)%nat).
  - rewrite decide_True by lia. rewrite list_lookup_insert_ne by lia. f_equal. lia.
  - rewrite decide_False by lia. by rewrite list_lookup_insert_ne by lia.
Qed.

Lemma copy_down_lookup m d s n i :
  (s <= d)%nat -> (d + n <= length m)%nat ->
  copy_down m d s n !! i = if decide (d <= i < d + n)%nat then m !! (i - d + s)%nat else m !! i.
Proof.
  revert m. induction n as [|n IH]; intros m Hds Hs; cbn.
  { rewrite decide_False by lia. done. }
  rewrite IH by (rewrite ?mem_set_length; lia). unfold mem_set.
  destruct (decide (i = d + n)%nat) as [->|Hne].
  { rewrite decide_False, decide_True by lia. rewrite list_lookup_insert_eq by lia.
    rewrite <- mem_get_lookup by lia. f_equal. lia. }
  destruct (decide (d <= i < d + n)%nat).
  - rewrite decide_True by lia. by rewrite list_lookup_insert_ne by lia.
  - rewrite decide_False by lia. by rewrite list_lookup_insert_ne by lia.
Qed.

Lemma reaches_in m a n : (a + n <= length m)%nat -> reaches m a (Z.of_nat n) = true.
Proof. intros H. unfold reaches, zlen. apply orb_true_iff. destruct n as [|n]; [by left|right]. apply andb_true_iff. split; [apply Z.ltb_lt|apply Z.leb_le]; lia. Qed.

(** C27: [memmove] is correct for every overlap: a call with both ranges inside the object
    is defined, afterwards each byte of
    the destination range is the byte the source range held before the call,
    and every byte outside the destination range is unchanged. *)
Theorem memmove_overlap m d s n :
  (d + n <= length m)%nat -> (s + n <= length m)%nat ->
  exists m', memmove m d s (Z.of_nat n) = Some m' /\
    forall i, m' !! i = if decide (d <= i < d + n)%nat then m !! (i - d + s)%nat else m !! i.
Proof.
  intros Hd Hs. unfold memmove. rewrite !reaches_in, Nat2Z.id by done. cbn [negb andb].
  destruct (Nat.eqb_spec d s) as [->|Hne].
  { exists m. split; [done|]. intros i. destruct (decide _); [|done]. f_equal. lia. }
  eexists. split; [done|]. intros i. destruct (Nat.ltb_spec d s); [apply copy_up_lookup|apply copy_down_lookup]; lia.
Qed.

Lemma memmove_overlap_witness :
  memmove [1; 2; 3; 4; 5] 1 0 3 = Some [1; 1; 2; 3; 5] /\
  exists m', memmove [1; 2; 3; 4; 5] 0 1 3 = Some m' /\ m' !! 0%nat = Some 2.
Proof.
  split; [reflexivity|]. destruct (memmove_overlap [1; 2; 3; 4; 5] 0 1 3) as (m' & E & H); [cbn; lia|cbn; lia|].
  exists m'. split; [exact E|]. by rewrite (H 0%nat).
Defined.

(** ** Decimal round trip *)
Lemma mem_get_app_r l r k : mem_get (l ++ r) (length l + k) = mem_get r k.
Proof. unfold mem_get. rewrite app_nth2 by lia. f_equal. lia. Qed.

Lemma mem_set_app_r l r k v : mem_set (l ++ r) (length l + k) v = l ++ mem_set r k v.
Proof.
  unfold mem_set. rewrite insert_app_r_alt by lia. do 2 f_equal. lia.
Qed.

Lemma mem_get_mid l x r : mem_get (l ++ x :: r) (length l) = x.
Proof. rewrite <- (Nat.add_0_r (length l)). by rewrite mem_get_app_r. Qed.
Lemma mem_set_mid l x r v : mem_set (l ++ x :: r) (length l) v = l ++ v :: r.
Proof. rewrite <- (Nat.add_0_r (length l)). by rewrite mem_set_app_r. Qed.

(** One swap moves the window inwards. *)
Lemma reverse_swap l x m y r :
  let s := l ++ x :: m ++ y :: r in
  let i := length l in let j := (length l + S (length m))%nat in
  mem_set (mem_set s i (mem_get s j)) j (mem_get s i) = (l ++ [y]) ++ m ++ x :: r.
Proof.
  cbv zeta. rewrite mem_get_mid, mem_set_mid, mem_get_app_r, mem_set_app_r.
  assert (mem_get (x :: m ++ y :: r) (S (length m)) = y) as -> by apply (mem_get_mid m).
  rewrite <- app_assoc. f_equal.
  change (mem_set (y :: m ++ y :: r) (S (length m)) x)
    with (y :: mem_set (m ++ y :: r) (length m) x).
  by rewrite mem_set_mid.
Qed.

Lemma reverse_loop_mid fuel l m r :
  (length m <= fuel)%nat ->
  reverse_loop fuel (l ++ m ++ r) (length l) (Nat.pred (length l + length m)) = l ++ rev m ++ r.
Proof.
  revert l m r. induction fuel as [|fuel IH]; intros l m r Hf; cbn [reverse_loop].
  { by destruct m; [|cbn in Hf; lia]. }
  destruct m as [|x m]; [by destruct (Nat.ltb_spec (length l) (Nat.pred (length l + length (@nil Z)))); [cbn in *; lia|]|].
  destruct m as [|y m _] using rev_ind.
  { by destruct (Nat.ltb_spec (length l) (Nat.pred (length l + length [x]))); [cbn in *; lia|]. }
  replace (Nat.pred (length l + length (x :: m ++ [y]))) with (length l + S (length m))%nat
    by (cbn [length]; rewrite length_app; cbn; lia).
  destruct (Nat.ltb_spec (length l) (length l + S (length m))); [|lia].
  replace (l ++ (x :: m ++ [y]) ++ r) with (l ++ x :: m ++ y :: r) by (cbn; by rewrite <- app_assoc).
  rewrite reverse_swap.
  replace (S (length l)) with (length (l ++ [y])) by (rewrite length_app; cbn; lia).
  replace (Nat.pred (length l + S (length m))) with (Nat.pred (length (l ++ [y]) + length m))
    by (rewrite length_app; cbn; lia).
  change (x :: r) with ([x] ++ r).
  rewrite IH by (cbn [length] in Hf; rewrite length_app in Hf; cbn in Hf; lia).
  cbn [rev]. rewrite rev_app_distr. cbn. by rewrite <- !app_assoc.
Qed.

Lemma reverse_rev s : no_nul s -> reverse s = rev s.
Proof.
  intros H. unfold reverse. rewrite strlen_cstr, cstr_no_nul by done.
  pose proof (reverse_loop_mid (length s) [] s [] (Nat.le_refl _)) as E.
  rewrite !app_nil_r in E. cbn [length app] in E. rewrite <- E. f_equal. unfold zlen. lia.
Qed.

Definition is_digit (c : Z) : Prop := 48 <= c <= 57.

Lemma digits10_digits fuel v : Forall is_digit (digits10 fuel v).
Proof.
  revert v. induction fuel as [|fuel IH]; intros v; cbn; [constructor|].
  destruct (0 <? v) eqn:E; constructor; [|apply IH].
  unfold is_digit. pose proof (Z.mod_pos_bound v 10). lia.
Qed.

Lemma digit_isdigit c : is_digit c -> isdigit c = true /\ schar c = c.
Proof.
  unfold is_digit, isdigit, schar. intros H. ztrue (c <? 128).
  split; [by ztrue ((48 <=? c) && (c <=? 57))|done].
Qed.

Lemma digits_no_nul l : Forall is_digit l -> no_nul l.
Proof. unfold no_nul. intros H. eapply Forall_impl; [exact H|]. unfold is_digit. intros c Hc; cbv beta in *; lia. Qed.

Lemma s32_small z : - 2 ^ 31 <= z < 2 ^ 31 -> s32 z = z.
Proof. unfold s32. intros. rewrite Z.mod_small; lia. Qed.

Lemma atoi_digits fuel v rest :
  0 <= v < 10 ^ Z.of_nat fuel -> v < 2 ^ 31 ->
  atoi_loop (rev (digits10 fuel v) ++ rest) 0 = atoi_loop rest v.
Proof.
  revert v rest. induction fuel as [|fuel IH]; intros v rest Hv Hb.
  { cbn in *. replace v with 0 by lia. done. }
  cbn [digits10]. destruct (0 <? v) eqn:E.
  2:{ bool_to_prop. by replace v with 0 by lia. }
  rewrite Nat2Z.inj_succ, Z.pow_succ_r in Hv by lia.
  cbn [rev]. rewrite <- app_assoc, IH by dm_lia. cbn [app atoi_loop].
  assert (is_digit (48 + v mod 10)) as Hd by (unfold is_digit; dm_lia).
  destruct (digit_isdigit _ Hd) as [-> ->]. f_equal. rewrite s32_small; dm_lia.
Qed.

Lemma itoa_pos v : 0 < v < 2 ^ 31 -> itoa v = rev (digits10 10 v).
Proof.
  intros H. unfold itoa. zfalse (v =? 0). zfalse (v <? 0). rewrite app_nil_r.
  apply reverse_rev, digits_no_nul, digits10_digits.
Qed.

Lemma itoa_neg v : - 2 ^ 31 < v < 0 -> itoa v = 45 :: rev (digits10 10 (- v)).
Proof.
  intros H. unfold itoa. zfalse (v =? 0). ztrue (v <? 0). rewrite s32_small by lia.
  rewrite reverse_rev; [by rewrite rev_app_distr|].
  apply Forall_app. split; [apply digits_no_nul, digits10_digits|by repeat constructor].
Qed.

Lemma atoi_loop_nil v : atoi_loop [] v = v.
Proof. done. Qed.

(** C37: The kernel's number printer and parser agree: for every [int] except
    the most negative one, parsing the decimal text [itoa] produces gives the
    number back, sign and all ten digits included. *)
Theorem atoi_itoa v : - 2 ^ 31 < v < 2 ^ 31 -> atoi (itoa v) = v.
Proof.
  intros H. destruct (Z.lt_trichotomy v 0) as [Hn|[->|Hp]]; [|done|].
  - rewrite itoa_neg by lia. unfold atoi. cbn [Z.eqb Pos.eqb].
    rewrite <- (app_nil_r (rev _)), atoi_digits by lia. cbn [atoi_loop].
    rewrite s32_small; lia.
  - rewrite itoa_pos by lia. unfold atoi.
    pose proof (atoi_digits 10 v []) as E. rewrite app_nil_r in E.
    pose proof (Forall_rev (digits10_digits 10 v)) as Hd.
    destruct (rev (digits10 10 v)) as [|c s].
    + exfalso. cbn [atoi_loop] in E. lia.
    + apply Forall_cons in Hd as [Hc _]. unfold is_digit in Hc. zfalse (c =? 45).
      rewrite E by lia. rewrite atoi_loop_nil, s32_small; lia.
Qed.

Lemma atoi_itoa_witness : atoi (itoa (-2147483647)) = -2147483647.
Proof. apply atoi_itoa. lia. Defined.
