(* ===== verification/Utf8.v ===== *)
(** * UTF-8 stream decoder and encoder ([text.c])

    The decoder accepts a byte at a time and emits at most two code points
    per byte; malformed input becomes ['?'].  [utf8_feed] returns the code
    points stored in [out], in order: its length is the C return value. *)
From S2P Require Import Prelude.

(** [Utf8Decoder] of text.h. *)
Record Utf8Decoder := { value : Z; minimum : Z; remaining : Z }.

Definition question : Z := 63.
Definition utf8_init : Utf8Decoder := {| value := 0; minimum := 0; remaining := 0 |}.

(** The second half of [utf8_feed]: a byte that starts a sequence, after
    [n] code points have been stored already. *)
Definition utf8_start (s : Utf8Decoder) (b : Z) (out : list Z) : Utf8Decoder * list Z :=
  if b <? 0x80 then (s, out ++ [b])
  else if (0xc2 <=? b) && (b <=? 0xf4) then
    ({| remaining := if b <? 0xe0 then 1 else if b <? 0xf0 then 2 else 3;
        minimum := if b <? 0xe0 then 0x80 else if b <? 0xf0 then 0x800 else 0x10000;
        value := Z.land b (if b <? 0xe0 then 31 else if b <? 0xf0 then 15 else 7) |}, out)
  else (s, out ++ [question]).

Definition utf8_feed (s : Utf8Decoder) (b : Z) : Utf8Decoder * list Z :=
  if truth (remaining s) then
    if Z.land b 0xc0 =? 0x80 then
      let c := Z.lor (u32 (Z.shiftl (value s) 6)) (Z.land b 63) in
      let s' := {| value := c; minimum := minimum s; remaining := u32 (remaining s - 1) |} in
      if truth (remaining s') then (s', [])
      else (s', [if (c <? minimum s) || (0x10ffff <? c) || ((0xd800 <=? c) && (c <=? 0xdfff))
                 then question else c])
    else utf8_start {| value := value s; minimum := minimum s; remaining := 0 |} b [question]
  else utf8_start s b [].

(** Stored bytes are [char]s: only the low eight bits of each expression. *)
Definition utf8_encode (c : Z) : list Z :=
  if c <? 0x80 then [u8 c]
  else if c <? 0x800 then
    [u8 (Z.lor 0xc0 (Z.shiftr c 6)); u8 (Z.lor 0x80 (Z.land c 63))]
  else if (0xd800 <=? c) && (c <=? 0xdfff) then [question]
  else if c <? 0x10000 then
    [u8 (Z.lor 0xe0 (Z.shiftr c 12)); u8 (Z.lor 0x80 (Z.land (Z.shiftr c 6) 63));
     u8 (Z.lor 0x80 (Z.land c 63))]
  else if 0x10ffff <? c then [question]
  else
    [u8 (Z.lor 0xf0 (Z.shiftr c 18)); u8 (Z.lor 0x80 (Z.land (Z.shiftr c 12) 63));
     u8 (Z.lor 0x80 (Z.land (Z.shiftr c 6) 63)); u8 (Z.lor 0x80 (Z.land c 63))].

(** Character-generator cell of a code point: ASCII, Cyrillic, or ['?']. *)
Definition text_glyph (c : Z) : Z :=
  if c <? 128 then c
  else if (0x410 <=? c) && (c <=? 0x43f) then u8 (0x80 + c - 0x410)
  else if (0x440 <=? c) && (c <=? 0x44f) then u8 (0xe0 + c - 0x440)
  else if c =? 0x401 then 0xf0
  else if c =? 0x451 then 0xf1
  else if c =? 0x2116 then 0xf2
  else question.

(** A stream of bytes fed one after the other, as [print] does. *)
Fixpoint utf8_stream (s : Utf8Decoder) (bs : list Z) : Utf8Decoder * list Z :=
  match bs with
  | [] => (s, [])
  | b :: bs' =>
      let '(s1, o1) := utf8_feed s b in
      let '(s2, o2) := utf8_stream s1 bs' in
      (s2, o1 ++ o2)
  end.

(** ** Specification vocabulary *)

(** Unicode scalar values: what a well-formed sequence denotes. *)
Definition is_scalar (c : Z) : Prop :=
  0 <= c <= 0x10ffff /\ ~ (0xd800 <= c <= 0xdfff).
Definition ready (s : Utf8Decoder) : Prop := remaining s = 0.

(** Decoder states that feeding bytes can produce: the value read so far
    fits the bits that its lead byte and continuation bytes contribute. *)
Definition decoder_ok (s : Utf8Decoder) : Prop :=
  0 <= remaining s <= 3 /\ 0 <= value s < 2 ^ (21 - 6 * remaining s) /\ 0 <= minimum s.

#[global] Instance is_scalar_dec c : Decision (is_scalar c).
Proof. unfold is_scalar. apply _. Defined.

(** ** Bytes of the encoder *)
Lemma cont_byte x : u8 (Z.lor 0x80 (Z.land x 63)) = 128 + x mod 64.
Proof.
  change 63 with (2 ^ 6 - 1). rewrite land_mask by lia. change (2 ^ 6) with 64.
  rewrite (lor_low 6) by (try done; dm_lia). rewrite u8_small; [lia|].
  unfold is_byte. dm_lia.
Qed.

Lemma lead_byte n k x :
  0 <= n -> 0 <= x < 2 ^ n -> k mod 2 ^ n = 0 -> 0 <= k -> k + 2 ^ n <= 256 ->
  u8 (Z.lor k x) = k + x.
Proof.
  intros. rewrite (lor_low n) by done. apply u8_small. unfold is_byte. lia.
Qed.

Lemma encode_2 c : 0x80 <= c < 0x800 -> utf8_encode c = [192 + c / 64; 128 + c mod 64].
Proof.
  intros H. unfold utf8_encode. zfalse (c <? 0x80). ztrue (c <? 0x800).
  rewrite cont_byte, (shr 6), (lead_byte 5); try lia; try done. dm_lia.
Qed.

Lemma encode_3 c : 0x800 <= c < 0x10000 -> is_scalar c ->
  utf8_encode c = [224 + c / 4096; 128 + c / 64 mod 64; 128 + c mod 64].
Proof.
  intros H [_ Hs]. unfold utf8_encode. zfalse (c <? 0x80). zfalse (c <? 0x800).
  destruct ((0xd800 <=? c) && (c <=? 0xdfff)) eqn:E; [bool_to_prop; lia|].
  ztrue (c <? 0x10000).
  rewrite !cont_byte, (shr 12), (shr 6), (lead_byte 4); try lia; try done. dm_lia.
Qed.

Lemma encode_4 c : 0x10000 <= c <= 0x10ffff ->
  utf8_encode c = [240 + c / 262144; 128 + c / 4096 mod 64; 128 + c / 64 mod 64; 128 + c mod 64].
Proof.
  intros H. unfold utf8_encode. zfalse (c <? 0x80). zfalse (c <? 0x800).
  destruct ((0xd800 <=? c) && (c <=? 0xdfff)) eqn:E; [bool_to_prop; lia|].
  zfalse (c <? 0x10000). zfalse (0x10ffff <? c).
  rewrite !cont_byte, (shr 12), (shr 6), (shr 18), (lead_byte 3); try lia; try done. dm_lia.
Qed.

(** ** One step of the decoder *)
Lemma is_cont b : is_byte b -> (Z.land b 0xc0 =? 0x80) = (128 <=? b) && (b <? 192).
Proof.
  intros Hb. apply eqb_prop.
  exact (byte_cases (fun b => eqb (Z.land b 0xc0 =? 0x80) ((128 <=? b) && (b <? 192)))
           eq_refl b Hb).
Qed.

Lemma lead_payload b : is_byte b -> 0xc2 <= b -> b <= 0xf4 ->
  Z.land b (if b <? 0xe0 then 31 else if b <? 0xf0 then 15 else 7)
  = if b <? 0xe0 then b - 192 else if b <? 0xf0 then b - 224 else b - 240.
Proof.
  intros Hb H1 H2. apply Z.eqb_eq.
  pose proof (byte_cases (fun b => negb ((0xc2 <=? b) && (b <=? 0xf4)) ||
    (Z.land b (if b <? 0xe0 then 31 else if b <? 0xf0 then 15 else 7)
     =? if b <? 0xe0 then b - 192 else if b <? 0xf0 then b - 224 else b - 240)) eq_refl b Hb) as H.
  apply orb_true_iff in H as [H|H]; [|done].
  apply negb_true_iff, andb_false_iff in H as [H|H]; bool_to_prop; lia.
Qed.

Lemma feed_cont s x :
  0 < remaining s <= 3 -> 0 <= value s -> value s * 64 + 63 < 2 ^ 32 -> 0 <= x < 64 ->
  utf8_feed s (128 + x) =
    let c := value s * 64 + x in
    let s' := {| value := c; minimum := minimum s; remaining := remaining s - 1 |} in
    if remaining s =? 1
    then (s', [if (c <? minimum s) || (0x10ffff <? c) || ((0xd800 <=? c) && (c <=? 0xdfff))
               then question else c])
    else (s', []).
Proof.
  intros Hr Hv Hb Hx. unfold utf8_feed. rewrite is_cont by (unfold is_byte; lia).
  ztrue (truth (remaining s)). ztrue ((128 <=? 128 + x) && (128 + x <? 192)).
  rewrite (shl 6), u32_small by (unfold is_u32; lia).
  change 63 with (2 ^ 6 - 1). rewrite land_mask by lia.
  replace ((128 + x) mod 2 ^ 6) with x by dm_lia.
  rewrite (lor_low 6) by (try dm_lia). change (2 ^ 6) with 64. cbn [remaining].
  rewrite u32_small by (unfold is_u32; lia).
  destruct (Z.eqb_spec (remaining s) 1) as [->|Hne]; [done|].
  by ztrue (truth (remaining s - 1)).
Qed.

Lemma feed_lead s b : ready s -> is_byte b -> 0xc2 <= b -> b <= 0xf4 ->
  utf8_feed s b =
    ({| value := if b <? 0xe0 then b - 192 else if b <? 0xf0 then b - 224 else b - 240;
        minimum := if b <? 0xe0 then 0x80 else if b <? 0xf0 then 0x800 else 0x10000;
        remaining := if b <? 0xe0 then 1 else if b <? 0xf0 then 2 else 3 |}, []).
Proof.
  intros Hr Hb H1 H2. unfold utf8_feed, utf8_start. rewrite Hr. cbn [truth negb Z.eqb].
  zfalse (b <? 0x80). ztrue ((0xc2 <=? b) && (b <=? 0xf4)).
  by rewrite lead_payload.
Qed.

Lemma utf8_stream_app s bs1 bs2 :
  utf8_stream s (bs1 ++ bs2) =
    let '(s1, o1) := utf8_stream s bs1 in
    let '(s2, o2) := utf8_stream s1 bs2 in (s2, o1 ++ o2).
Proof.
  revert s. induction bs1 as [|b bs1 IH]; intros s; cbn; [by destruct (utf8_stream s bs2)|].
  destruct (utf8_feed s b) as [s1 o1]. rewrite IH.
  destruct (utf8_stream s1 bs1) as [s2 o2], (utf8_stream s2 bs2) as [s3 o3].
  by rewrite app_assoc.
Qed.

(** Consume one continuation byte that is not the last one. *)
Ltac step_cont :=
  rewrite feed_cont by (cbn; dm_lia); cbn [remaining value minimum];
  change (3 - 1) with 2; change (2 - 1) with 1; cbn [Z.eqb Pos.eqb].

(** ** Round trip *)
Lemma decode_one s c : ready s -> is_scalar c ->
  exists s', utf8_stream s (utf8_encode c) = (s', [c]) /\ ready s'.
Proof.
  intros Hr Hc. pose proof Hc as [Hb Hs].
  destruct (Z.lt_ge_cases c 0x80) as [H1|H1].
  { exists s. unfold utf8_encode. ztrue (c <? 0x80). cbn.
    unfold utf8_feed, utf8_start. rewrite Hr, u8_small by (unfold is_byte; lia).
    cbn [truth negb Z.eqb]. by ztrue (c <? 0x80). }
  destruct (Z.lt_ge_cases c 0x800) as [H2|H2].
  { rewrite encode_2 by lia. cbn [utf8_stream].
    rewrite feed_lead by (try done; unfold is_byte; dm_lia).
    ztrue (192 + c / 64 <? 0xe0).
    rewrite feed_cont by (cbn; dm_lia). cbn.
    replace ((192 + c / 64 - 192) * 64 + c mod 64) with c by dm_lia.
    zfalse ((c <? 128) || (1114111 <? c) || ((55296 <=? c) && (c <=? 57343))).
    eexists. split; [reflexivity|done]. }
  destruct (Z.lt_ge_cases c 0x10000) as [H3|H3].
  { rewrite encode_3 by (try lia; done). cbn [utf8_stream].
    rewrite feed_lead by (try done; unfold is_byte; dm_lia).
    zfalse (224 + c / 4096 <? 0xe0). ztrue (224 + c / 4096 <? 0xf0).
    step_cont.
    rewrite feed_cont by (cbn; dm_lia). cbn.
    replace (((224 + c / 4096 - 224) * 64 + (c / 64) mod 64) * 64 + c mod 64) with c by dm_lia.
    destruct ((c <? 2048) || (1114111 <? c) || ((55296 <=? c) && (c <=? 57343))) eqn:E.
    - apply orb_true_iff in E as [E|E]; [apply orb_true_iff in E as [E|E]|]; bool_to_prop; lia.
    - eexists. split; [reflexivity|done]. }
  rewrite encode_4 by lia. cbn [utf8_stream].
  rewrite feed_lead by (try done; unfold is_byte; dm_lia).
  zfalse (240 + c / 262144 <? 0xe0). zfalse (240 + c / 262144 <? 0xf0).
  step_cont.
  step_cont.
  rewrite feed_cont by (cbn; dm_lia). cbn.
  replace ((((240 + c / 262144 - 240) * 64 + (c / 4096) mod 64) * 64 + (c / 64) mod 64) * 64
           + c mod 64) with c by dm_lia.
  zfalse ((c <? 65536) || (1114111 <? c) || ((55296 <=? c) && (c <=? 57343))).
  eexists. split; [reflexivity|done].
Qed.

(** C20: decoding is a left inverse of encoding on whole texts: feeding the
    encoder's bytes for any sequence of Unicode scalar values, one byte at a
    time and across write boundaries, yields exactly that sequence and leaves
    the decoder ready for the next character. *)
Theorem utf8_roundtrip s cs :
  ready s -> Forall is_scalar cs ->
  exists s', utf8_stream s (concat (map utf8_encode cs)) = (s', cs) /\ ready s'.
Proof.
  intros Hr Hcs. revert s Hr. induction Hcs as [|c cs Hc _ IH]; intros s Hr; cbn.
  { by exists s. }
  destruct (decode_one s c Hr Hc) as (s1 & E1 & Hr1).
  destruct (IH s1 Hr1) as (s2 & E2 & Hr2).
  exists s2. by rewrite utf8_stream_app, E1, E2.
Qed.

Lemma utf8_roundtrip_witness :
  exists s', utf8_stream utf8_init (concat (map utf8_encode [65; 0x43f; 0x2116; 0x1f600]))
             = (s', [65; 0x43f; 0x2116; 0x1f600]) /\ ready s'.
Proof.
  apply (utf8_roundtrip utf8_init [65; 0x43f; 0x2116; 0x1f600]).
  - reflexivity.
  - repeat constructor; cbv; intuition congruence.
Defined.

(** ** Arbitrary input *)
Definition pending (s : Utf8Decoder) : Z := c_bool (truth (remaining s)).

Lemma pending_range s : 0 <= pending s <= 1.
Proof. unfold pending. destruct (truth _); cbn; lia. Qed.

Lemma scalar_question : is_scalar question.
Proof. unfold is_scalar, question. lia. Qed.
#[export] Hint Resolve scalar_question : barnix.

Lemma utf8_start_ok s b out :
  decoder_ok s -> ready s -> is_byte b -> Forall is_scalar out ->
  let '(s', o) := utf8_start s b out in
  decoder_ok s' /\ Forall is_scalar o /\ zlen o + pending s' = 1 + zlen out.
Proof.
  intros Hok Hr Hb Ho. unfold utf8_start, is_byte in *.
  assert (forall c, is_scalar c ->
    decoder_ok s /\ Forall is_scalar (out ++ [c]) /\ zlen (out ++ [c]) + pending s = 1 + zlen out).
  { intros c Hc. split; [done|]. split; [by rewrite Forall_app, Forall_singleton|].
    unfold pending, zlen. rewrite Hr, length_app. cbn. lia. }
  destruct (b <? 0x80) eqn:E1; [apply H; unfold is_scalar; bool_to_prop; lia|].
  destruct ((0xc2 <=? b) && (b <=? 0xf4)) eqn:E2; [|apply H, scalar_question].
  bool_to_prop. rewrite lead_payload by done. repeat split; try done; cbn.
  all: destruct (b <? 0xe0) eqn:?; [|destruct (b <? 0xf0) eqn:?]; cbn; bool_to_prop; lia.
Qed.

Lemma checked_scalar c m : 0 <= c ->
  is_scalar (if (c <? m) || (0x10ffff <? c) || ((0xd800 <=? c) && (c <=? 0xdfff))
             then question else c).
Proof.
  intros Hc. split_if; [apply scalar_question|]. unfold is_scalar. bool_to_prop.
  apply andb_false_iff in H0 as [?|?]; bool_to_prop; lia.
Qed.

Lemma cont_ok s b :
  decoder_ok s -> truth (remaining s) = true -> 128 <= b < 192 ->
  let '(s', o) := utf8_feed s b in
  decoder_ok s' /\ Forall is_scalar o /\ zlen o + pending s' = 1.
Proof.
  intros (Hrem & Hv & Hm) Hr Hb. unfold truth in Hr. bool_to_prop.
  assert (value s * 64 + 63 < 2 ^ (21 - 6 * (remaining s - 1))) as Hv'.
  { replace (21 - 6 * (remaining s - 1)) with (21 - 6 * remaining s + 6) by lia.
    rewrite Z.pow_add_r by lia. lia. }
  assert (2 ^ (21 - 6 * (remaining s - 1)) <= 2 ^ 21) by (apply Z.pow_le_mono_r; lia).
  replace b with (128 + (b - 128)) by lia. rewrite feed_cont by lia. cbv zeta.
  assert (decoder_ok {| value := value s * 64 + (b - 128); minimum := minimum s;
                        remaining := remaining s - 1 |}) by (unfold decoder_ok; cbn; lia).
  destruct (Z.eqb_spec (remaining s) 1) as [E|E]; split; try done.
  - rewrite Forall_singleton. split; [apply checked_scalar; lia|].
    unfold pending, zlen. cbn [remaining]. by rewrite E.
  - split; [constructor|]. unfold pending, zlen. cbn [remaining].
    by ztrue (truth (remaining s - 1)).
Qed.

Lemma feed_ok s b :
  decoder_ok s -> is_byte b ->
  let '(s', o) := utf8_feed s b in
  decoder_ok s' /\ Forall is_scalar o /\ zlen o + pending s' <= 1 + pending s /\ zlen o <= 2.
Proof.
  intros Hok Hb. destruct (truth (remaining s)) eqn:Hr.
  - assert (pending s = 1) as -> by (unfold pending; by rewrite Hr).
    destruct (Z.land b 0xc0 =? 0x80) eqn:Hc.
    + rewrite is_cont in Hc by done. pose proof (cont_ok s b Hok Hr) as Hs. bool_to_prop.
      destruct (utf8_feed s b) as [s' o]. destruct Hs as (? & ? & ?); [lia|]. pose proof (pending_range s'). split_and!; try done; lia.
    + unfold utf8_feed. rewrite Hr, Hc.
      pose proof (utf8_start_ok {| value := value s; minimum := minimum s; remaining := 0 |} b [question]) as Hs.
      destruct (utf8_start _ b _) as [s' o]. destruct Hs as (? & ? & Hl); try done.
      { destruct Hok as (? & [? Hv] & ?). repeat split; cbn; try lia.
        eapply Z.lt_le_trans; [apply Hv|]. apply (Z.pow_le_mono_r 2 _ 21); lia. }
      { repeat constructor; auto with barnix; unfold question; lia. }
      change (zlen [question]) with 1 in Hl. pose proof (pending_range s').
      split_and!; try done; lia.
  - assert (remaining s = 0) as Hr0 by (unfold truth in Hr; bool_to_prop; lia).
    unfold utf8_feed. rewrite Hr.
    pose proof (utf8_start_ok s b [] Hok Hr0 Hb (Forall_nil_2 _)) as Hs.
    destruct (utf8_start s b []) as [s' o]. destruct Hs as (? & ? & Hl).
    change (zlen []) with 0 in Hl. pose proof (pending_range s'). pose proof (pending_range s).
    split_and!; try done; lia.
Qed.

(** C34: For every byte stream, split and malformed in any way, the decoder
    emits only Unicode scalar values (never a surrogate, never above
    U+10FFFF), never stores past the two-element output array for a byte,
    never emits more code points than it was fed bytes, and its accumulator
    stays below 2^21, so no shift overflows. *)
Theorem utf8_stream_safe s bs :
  decoder_ok s -> bytes_ok bs ->
  let '(s', out) := utf8_stream s bs in
  decoder_ok s' /\ value s' < 2 ^ 21 /\ Forall is_scalar out /\
  zlen out + pending s' <= zlen bs + pending s /\
  (forall b, is_byte b -> zlen (utf8_feed s' b).2 <= 2).
Proof.
  intros Hok Hbs. revert s Hok. induction Hbs as [|b bs Hb Hbs IH]; intros s Hok; cbn.
  { pose proof Hok as (Hr & [_ Hv] & _). split_and!; try done.
    - eapply Z.lt_le_trans; [apply Hv|]. apply (Z.pow_le_mono_r 2 _ 21); lia.
    - intros b Hb. pose proof (feed_ok s b Hok Hb) as Hs. destruct (utf8_feed s b); apply Hs. }
  pose proof (feed_ok s b Hok Hb) as Hs. destruct (utf8_feed s b) as [s1 o1].
  destruct Hs as (Hok1 & Ho1 & Hl1 & _).
  specialize (IH s1 Hok1). destruct (utf8_stream s1 bs) as [s2 o2].
  destruct IH as (Hok2 & Hv2 & Ho2 & Hl2 & HF2).
  split_and!; try done; try (by apply Forall_app).
  unfold zlen in *. rewrite length_app. cbn [length]. lia.
Qed.

Lemma utf8_stream_safe_witness :
  let '(s', out) := utf8_stream utf8_init [0xe2; 0x28; 0xed; 0xa0; 0x80; 0xf4; 0x90] in
  decoder_ok s' /\ value s' < 2 ^ 21 /\ Forall is_scalar out /\
  zlen out + pending s' <= 7 + pending utf8_init /\
  (forall b, is_byte b -> zlen (utf8_feed s' b).2 <= 2).
Proof.
  apply (utf8_stream_safe utf8_init [0xe2; 0x28; 0xed; 0xa0; 0x80; 0xf4; 0x90]).
  - unfold decoder_ok. cbn. lia.
  - repeat constructor; cbv; congruence.
Defined.
