(* ===== verification/ShellParse.v ===== *)
(** * Shell command-line parser ([shell_parse.c], [shell_parse.h])

    One bounded line becomes a [ShellPlan] without executing anything.
    Argument and path pointers point into the plan's storage, so they are
    offsets here; [storage] holds the [used] characters emitted so far, and
    an array with a count is the list of its first [count] elements. *)
From Stdlib Require Import String.
From S2P Require Import Prelude CString.
Local Open Scope string_scope.
Local Open Scope Z_scope.

Definition SHELL_LINE_MAX : Z := 128.
Definition SHELL_ARGS_MAX : Z := 64.
Definition SHELL_STAGES_MAX : Z := 2.
Definition SHELL_REDIRECTS_MAX : Z := 8.

Inductive RedirectKind := SHELL_INPUT | SHELL_OUTPUT | SHELL_APPEND.
Record ShellRedirect := { kind : RedirectKind; path : Z }.
Record ShellCommand := { argv : list Z; redirects : list ShellRedirect }.
Record ShellPlan := {
  count : Z; compound : bool; commands : list ShellCommand; storage : list Z }.

Inductive Token := END | WORD | PIPE | INPUT | OUTPUT | APPEND | ERROR.
#[global] Instance token_eq_dec : EqDecision Token.
Proof. solve_decision. Defined.

Record Lexer := {
  cursor : list Z;          (* the rest of the line *)
  error : option string;
  store : list Z;           (* plan->storage[0 .. used) *)
  word : Z }.

Definition space (c : Z) : bool := (c =? 32) || (c =? 9).
Definition operator (c : Z) : bool :=
  (c =? 124) || (c =? 60) || (c =? 62) || (c =? 38) || (c =? 59) || (c =? 40) || (c =? 41).

(** [emit]: [None] when the storage is full ("command is too long"). *)
Definition emit (st : list Z) (c : Z) : option (list Z) :=
  if zlen st =? SHELL_LINE_MAX then None else Some (st ++ [c])%list.

Fixpoint skip_spaces (p : list Z) : list Z :=
  match p with
  | c :: p' => if space c then skip_spaces p' else p
  | [] => []
  end.

(** The loop of [next] that reads one word: quotes, escapes and digits. *)
Inductive WordResult :=
| WordError (msg : string) (st : list Z)
| WordDone (p : list Z) (quote : Z) (number : bool) (st : list Z).

Fixpoint word_loop (p : list Z) (quote : Z) (number : bool) (st : list Z) : WordResult :=
  match p with
  | [] => WordDone p quote number st
  | c :: p1 =>
      if truth quote || (negb (space c) && negb (operator c)) then
        if (quote =? 0) && ((c =? 39) || (c =? 34)) then word_loop p1 c false st
        else if truth quote && (c =? quote) then word_loop p1 0 number st
        else if (c =? 92) && negb (quote =? 39) then
          match p1 with
          | [] => WordError "unfinished escape" st
          | d :: p2 =>
              if (quote =? 34) && negb (d =? 34) && negb (d =? 92) && negb (d =? 36) && negb (d =? 96)
              then match emit st c with
                   | None => WordError "command is too long" st
                   | Some st' => word_loop p1 quote false st'
                   end
              else match emit st d with
                   | None => WordError "command is too long" st
                   | Some st' => word_loop p2 quote false st'
                   end
          end
        else match emit st c with
             | None => WordError "command is too long" st
             | Some st' => word_loop p1 quote (number && (48 <=? c) && (c <=? 57)) st'
             end
      else WordDone p quote number st
  end.

Definition lex_error (lx : Lexer) (msg : string) (st : list Z) : Token * Lexer :=
  (ERROR, {| cursor := cursor lx; error := Some msg; store := st; word := word lx |}).

Definition next (lx : Lexer) : Token * Lexer :=
  let p := skip_spaces (cursor lx) in
  match p with
  | [] => (END, lx)
  | c :: p1 =>
      if operator c then
        let ok p' := {| cursor := p'; error := error lx; store := store lx; word := word lx |} in
        let token := if c =? 124 then PIPE else if c =? 60 then INPUT else OUTPUT in
        if (c =? 62) && (head_char p1 =? 62) then (APPEND, ok (tail p1))
        else if (negb (c =? 124) && negb (c =? 60) && negb (c =? 62)) || (head_char p1 =? c)
        then lex_error lx "unsupported shell operator" (store lx)
        else (token, ok p1)
      else
        let lx' := {| cursor := cursor lx; error := error lx; store := store lx; word := zlen (store lx) |} in
        match word_loop p 0 true (store lx) with
        | WordError msg st => lex_error lx' msg st
        | WordDone p' quote number st =>
            if truth quote then lex_error lx' "unclosed quote" st
            else if number && ((head_char p' =? 60) || (head_char p' =? 62))
            then lex_error lx' "descriptor redirection is unsupported" st
            else match emit st 0 with
                 | None => lex_error lx' "command is too long" st
                 | Some st' => (WORD, {| cursor := p'; error := error lx; store := st'; word := word lx' |})
                 end
        end
  end.

(** The first loop of [shell_parse]: reject newlines and long lines. *)
Fixpoint check_line (line : list Z) (length : Z) : option string :=
  match line with
  | [] => None
  | c :: line' =>
      if (c =? 10) || (c =? 13) then Some "multiline commands are unsupported"
      else if length + 1 =? SHELL_LINE_MAX then Some "command is too long"
      else check_line line' (length + 1)
  end.

(** The mutable variables of [shell_parse] around its token loop. *)
Record Parser := { lexer : Lexer; cmds : list ShellCommand; stage : nat; is_compound : bool }.

Definition no_command : ShellCommand := {| argv := []; redirects := [] |}.
Definition current (ps : Parser) : ShellCommand := nth (stage ps) (cmds ps) no_command.
Definition set_current (ps : Parser) (c : ShellCommand) : list ShellCommand :=
  <[stage ps := c]> (cmds ps).
Definition redirect_kind (t : Token) : RedirectKind :=
  match t with INPUT => SHELL_INPUT | OUTPUT => SHELL_OUTPUT | _ => SHELL_APPEND end.

(** One iteration of the token loop: stop with a result, or go on. *)
Inductive Step := Stop (err : option string) (ps : Parser) | Next (ps : Parser).

Definition parse_step (ps : Parser) : Step :=
  let command := current ps in
  let '(token, lx) := next (lexer ps) in
  let ps1 := {| lexer := lx; cmds := cmds ps; stage := stage ps; is_compound := is_compound ps |} in
  match token with
  | END => Stop None ps1
  | ERROR => Stop (error lx) ps1
  | WORD =>
      if zlen (argv command) =? SHELL_ARGS_MAX then Stop (Some "too many arguments") ps1
      else Next {| lexer := lx; stage := stage ps; is_compound := is_compound ps;
                   cmds := set_current ps {| argv := (argv command ++ [word lx])%list;
                                             redirects := redirects command |} |}
  | PIPE =>
      if zlen (argv command) =? 0 then Stop (Some "missing command before pipe") ps1
      else if Z.of_nat (stage ps) + 1 =? SHELL_STAGES_MAX
      then Stop (Some "at most two commands per pipeline") ps1
      else Next {| lexer := lx; stage := S (stage ps); is_compound := true; cmds := cmds ps |}
  | _ =>
      if zlen (redirects command) =? SHELL_REDIRECTS_MAX then Stop (Some "too many redirections") ps1
      else
        let '(target, lx2) := next lx in
        let ps2 := {| lexer := lx2; cmds := cmds ps; stage := stage ps; is_compound := is_compound ps |} in
        match target with
        | ERROR => Stop (error lx2) ps2
        | WORD =>
            Next {| lexer := lx2; stage := stage ps; is_compound := true;
                    cmds := set_current ps
                      {| argv := argv command;
                         redirects := (redirects command ++
                                       [{| kind := redirect_kind token; path := word lx2 |}])%list |} |}
        | _ => Stop (Some "missing redirection path") ps2
        end
  end.

(** [None]: more iterations than [fuel] would be needed. *)
Fixpoint parse_loop (fuel : nat) (ps : Parser) : option (option string * Parser) :=
  match fuel with
  | O => None
  | S fuel' => match parse_step ps with
               | Stop err ps' => Some (err, ps')
               | Next ps' => parse_loop fuel' ps'
               end
  end.

(** The characters of the word at an offset of the storage. *)
Definition word_at (st : list Z) (o : Z) : list Z := cstr (drop (Z.to_nat o) st).

(** The loop that checks each stage after the last token. *)
Fixpoint check_stages (st : list Z) (cs : list ShellCommand) : option string :=
  match cs with
  | [] => None
  | c :: cs' =>
      match argv c with
      | [] => Some "missing command"
      | a :: _ => if head_char (drop (Z.to_nat a) st) =? 0 then Some "empty command name"
                  else check_stages st cs'
      end
  end.

Definition empty_plan : ShellPlan :=
  {| count := 0; compound := false; commands := [no_command; no_command]; storage := [] |}.
Definition plan_of (ps : Parser) (count : Z) : ShellPlan :=
  {| count := count; compound := is_compound ps; commands := cmds ps; storage := store (lexer ps) |}.

(** [shell_parse]: the diagnostic ([None] is success) and the plan. *)
Definition shell_parse (line : list Z) : option (option string * ShellPlan) :=
  let line := cstr line in
  match check_line line 0 with
  | Some msg => Some (Some msg, empty_plan)
  | None =>
      let start := {| lexer := {| cursor := line; error := None; store := []; word := 0 |};
                      cmds := [no_command; no_command]; stage := 0; is_compound := false |} in
      '(err, ps) ← parse_loop (S (length line)) start;
      match err with
      | Some msg => Some (Some msg, plan_of ps 0)
      | None =>
          if (zlen (argv (nth 0 (cmds ps) no_command)) =? 0) && negb (is_compound ps)
          then Some (None, plan_of ps 0)
          else match check_stages (store (lexer ps)) (take (S (stage ps)) (cmds ps)) with
               | Some msg => Some (Some msg, plan_of ps 0)
               | None => Some (None, plan_of ps (Z.of_nat (S (stage ps))))
               end
      end
  end.

(** ** Bounds and termination *)
Section Bounds.
Local Open Scope list_scope.

Definition fits (st : list Z) : Prop := zlen st <= SHELL_LINE_MAX.
(** The storage only grows, and stays inside its array. *)
Definition grows (st st' : list Z) : Prop := (exists w, st' = st ++ w) /\ fits st'.

Lemma shell_grows_refl st : fits st -> grows st st.
Proof. split; [exists []; by rewrite app_nil_r|done]. Qed.
Lemma shell_grows_trans a b c : grows a b -> grows b c -> grows a c.
Proof. intros [[w ->] _] [[v ->] ?]. split; [exists (w ++ v); by rewrite app_assoc|done]. Qed.

Lemma emit_grows st c st' : fits st -> emit st c = Some st' -> st' = st ++ [c] /\ fits st'.
Proof.
  unfold emit, fits. intros Hf E. case_match; [done|]. simplify_eq. bool_to_prop.
  split; [done|]. unfold zlen in *. rewrite length_app. cbn. lia.
Qed.

Definition word_result_ok (p : list Z) (st : list Z) (r : WordResult) : Prop :=
  match r with
  | WordError _ st' => grows st st'
  | WordDone p' _ _ st' => grows st st' /\ (length p' <= length p)%nat
  end.

(** A longer remaining line only weakens the bound. *)
Lemma word_result_weaken p q st st' r :
  grows st st' -> (length q <= length p)%nat -> word_result_ok q st' r -> word_result_ok p st r.
Proof.
  destruct r; cbn; intros; [by eapply shell_grows_trans|]. destruct_and!. split; [by eapply shell_grows_trans|lia].
Qed.

Lemma word_loop_ok p quote number st :
  fits st -> word_result_ok p st (word_loop p quote number st).
Proof.
  assert (forall n, forall p, (length p <= n)%nat -> forall quote number st, fits st ->
    word_result_ok p st (word_loop p quote number st)) as H; [|by intros; eapply H].
  clear. induction n as [|n IH]; intros p Hn quote number st Hf.
  { destruct p; [|cbn in Hn; lia]. cbn. split; [by apply shell_grows_refl|lia]. }
  assert (forall q st' m quote', grows st st' -> (length q < length p)%nat ->
    word_result_ok p st (word_loop q quote' m st')) as Hrec.
  { intros q st' m quote' Hg Hl. eapply word_result_weaken; [done| |apply IH]; try lia.
    by destruct Hg. }
  destruct p as [|c p1]; cbn [word_loop]; [split; [by apply shell_grows_refl|cbn; lia]|].
  pose proof (shell_grows_refl st Hf).
  repeat case_match; cbn [word_result_ok]; try done; try (apply Hrec; [|cbn [length]; lia]); try done.
  all: try (split; [done|cbn; lia]).
  all: match goal with E : emit _ _ = Some _ |- _ => apply emit_grows in E as [-> ?] end; try done.
  all: split; [by eexists|done].
Qed.

Lemma skip_spaces_length p : (length (skip_spaces p) <= length p)%nat.
Proof. induction p as [|c p IH]; cbn; [lia|]. case_match; cbn; lia. Qed.

Lemma skip_spaces_head p c p' : skip_spaces p = c :: p' -> space c = false.
Proof. induction p as [|d p IH]; cbn; [done|]. case_match; [done|congruence]. Qed.

(** A word that starts at an ordinary character consumes it. *)
Lemma word_loop_consumes c p1 st p' quote number st' :
  fits st -> space c = false -> operator c = false ->
  word_loop (c :: p1) 0 true st = WordDone p' quote number st' -> (length p' <= length p1)%nat.
Proof.
  intros Hf Hs Ho E. cbn [word_loop] in E. rewrite Hs, Ho in E. cbn in E.
  assert (forall q q' n s, fits s -> word_loop q q' n s = WordDone p' quote number st' ->
    (length p' <= length q)%nat) as Hq.
  { intros q q' n s Hfs Eq. pose proof (word_loop_ok q q' n s Hfs) as Hk. rewrite Eq in Hk. apply Hk. }
  repeat case_match; try done.
  all: try match goal with E : emit _ _ = Some _ |- _ => apply emit_grows in E as [-> ?] end; try done.
  all: apply Hq in E; [|done]; cbn in *; lia.
Qed.

Lemma next_ok lx :
  fits (store lx) ->
  let '(t, lx') := next lx in
  grows (store lx) (store lx') /\
  match t with
  | END => True
  | ERROR => is_Some (error lx')
  | WORD => (length (cursor lx') < length (cursor lx))%nat /\
            exists w, store lx' = store lx ++ w ++ [0] /\ word lx' = zlen (store lx)
  | _ => (length (cursor lx') < length (cursor lx))%nat
  end.
Proof.
  intros Hf. pose proof (shell_grows_refl _ Hf) as Hr. unfold next.
  pose proof (skip_spaces_length (cursor lx)) as Hlen.
  destruct (skip_spaces (cursor lx)) as [|c p1] eqn:Esp; [done|]. apply skip_spaces_head in Esp.
  cbn [length] in Hlen. destruct (operator c) eqn:Eop.
  - repeat case_match; unfold lex_error in *; simplify_eq; cbn; try done; try (split; [done|]); try lia.
    all: destruct p1; cbn in *; lia.
  - pose proof (word_loop_ok (c :: p1) 0 true (store lx) Hf) as Hw.
    destruct (word_loop (c :: p1) 0 true (store lx)) as [msg st|p' quote number st] eqn:Ew.
    { cbn. done. }
    apply word_loop_consumes in Ew; try done. destruct Hw as [Hg _].
    destruct (truth quote); [cbn; done|].
    destruct (number && _); [cbn; done|].
    destruct (emit st 0) as [st'|] eqn:Ee; [|cbn; done].
    apply emit_grows in Ee as [-> ?]; [|by destruct Hg]. destruct Hg as [[w ->] _].
    cbn. split_and!; [|lia|].
    + split; [|done]. exists (w ++ [0]). by rewrite app_assoc.
    + exists w. by rewrite app_assoc.
Qed.

(** An offset names a NUL-terminated string inside the storage. *)
Definition valid_word (st : list Z) (o : Z) : Prop := 0 <= o /\ 0 ∈ drop (Z.to_nat o) st.

Lemma valid_word_grows st st' o : grows st st' -> valid_word st o -> valid_word st' o.
Proof.
  intros [[w ->] _] [Ho Hin]. split; [done|]. rewrite drop_app.
  apply elem_of_app. by left.
Qed.

Lemma valid_word_new st w : valid_word (st ++ w ++ [0]) (zlen st).
Proof.
  split; [unfold zlen; lia|]. unfold zlen. rewrite Nat2Z.id, drop_app_length.
  apply elem_of_app. right. by apply list_elem_of_singleton.
Qed.

Definition command_ok (st : list Z) (c : ShellCommand) : Prop :=
  zlen (argv c) <= SHELL_ARGS_MAX /\ zlen (redirects c) <= SHELL_REDIRECTS_MAX /\
  Forall (valid_word st) (argv c) /\ Forall (fun r => valid_word st (path r)) (redirects c).

Record parser_ok (ps : Parser) : Prop := {
  ok_fits : fits (store (lexer ps));
  ok_two : length (cmds ps) = 2%nat;
  ok_stage : (stage ps < 2)%nat;
  ok_cmds : Forall (command_ok (store (lexer ps))) (cmds ps) }.

Lemma command_ok_grows st st' c : grows st st' -> command_ok st c -> command_ok st' c.
Proof.
  intros Hg (? & ? & ? & ?). split_and!; try done.
  all: eapply Forall_impl; [done|]; intros; by eapply valid_word_grows.
Qed.

(** Only the lexer moved on. *)
Lemma parser_ok_lexer ps lx :
  parser_ok ps -> grows (store (lexer ps)) (store lx) ->
  parser_ok {| lexer := lx; cmds := cmds ps; stage := stage ps; is_compound := is_compound ps |}.
Proof.
  intros [] Hg. constructor; cbn; try done; [by destruct Hg|].
  eapply Forall_impl; [done|]. intros. by eapply command_ok_grows.
Qed.

Lemma parser_ok_set ps lx c b :
  parser_ok ps -> grows (store (lexer ps)) (store lx) -> command_ok (store lx) c ->
  parser_ok {| lexer := lx; cmds := set_current ps c; stage := stage ps; is_compound := b |}.
Proof.
  intros Hok Hg Hc. destruct (parser_ok_lexer _ lx Hok Hg) as []. constructor; cbn in *; unfold set_current; try done.
  - by rewrite length_insert.
  - by apply Forall_insert.
Qed.

Lemma current_ok ps lx :
  parser_ok ps -> grows (store (lexer ps)) (store lx) -> command_ok (store lx) (current ps).
Proof.
  intros [] Hg. eapply command_ok_grows; [done|]. unfold current.
  rewrite nth_lookup. destruct (cmds ps !! stage ps) eqn:E; cbn.
  - by eapply Forall_lookup_1.
  - apply lookup_ge_None in E. lia.
Qed.

Lemma command_ok_arg st c o :
  command_ok st c -> valid_word st o -> zlen (argv c) <> SHELL_ARGS_MAX ->
  command_ok st {| argv := argv c ++ [o]; redirects := redirects c |}.
Proof.
  intros (? & ? & ? & ?) ? ?. split_and!; cbn; try done.
  - unfold zlen in *. rewrite length_app. cbn. lia.
  - by apply Forall_app; split; [|apply Forall_singleton].
Qed.

Lemma command_ok_redirect st c r :
  command_ok st c -> valid_word st (path r) -> zlen (redirects c) <> SHELL_REDIRECTS_MAX ->
  command_ok st {| argv := argv c; redirects := redirects c ++ [r] |}.
Proof.
  intros (? & ? & ? & ?) ? ?. split_and!; cbn; try done.
  - unfold zlen in *. rewrite length_app. cbn. lia.
  - by apply Forall_app; split; [|apply Forall_singleton].
Qed.

Definition step_ok (ps : Parser) (r : Step) : Prop :=
  match r with
  | Stop _ ps' => parser_ok ps'
  | Next ps' => parser_ok ps' /\
                (length (cursor (lexer ps')) < length (cursor (lexer ps)))%nat
  end.

Lemma word_result (lx lx' : Lexer) :
  (exists w, store lx' = store lx ++ w ++ [0] /\ word lx' = zlen (store lx)) ->
  valid_word (store lx') (word lx').
Proof. intros (w & -> & ->). apply valid_word_new. Qed.

Lemma parse_redirect_ok ps token lx :
  parser_ok ps -> grows (store (lexer ps)) (store lx) ->
  (length (cursor lx) < length (cursor (lexer ps)))%nat ->
  token <> END -> token <> ERROR -> token <> WORD -> token <> PIPE ->
  next (lexer ps) = (token, lx) -> step_ok ps (parse_step ps).
Proof.
  intros Hok Hg Hl ???? E. unfold parse_step. rewrite E.
  pose proof (parser_ok_lexer ps lx Hok Hg) as Hok1.
  assert (fits (store lx)) as Hf by (by destruct Hg).
  pose proof (next_ok lx Hf) as Hn. destruct (next lx) as [target lx2]. destruct Hn as [Hg2 Ht].
  assert (grows (store (lexer ps)) (store lx2)) as Hg' by (by eapply shell_grows_trans).
  pose proof (parser_ok_lexer ps lx2 Hok Hg') as Hok2.
  destruct token; try done.
  all: destruct (zlen (redirects (current ps)) =? SHELL_REDIRECTS_MAX) eqn:Er; [done|]; bool_to_prop.
  all: destruct target; try done; destruct Ht as [? Hw]; split; [|cbn; lia].
  all: apply parser_ok_set; [done|done|].
  all: apply command_ok_redirect; [by apply current_ok|by eapply word_result|done].
Qed.

Lemma parse_step_ok ps : parser_ok ps -> step_ok ps (parse_step ps).
Proof.
  intros Hok. pose proof (next_ok _ (ok_fits _ Hok)) as Hn.
  destruct (next (lexer ps)) as [token lx] eqn:En. destruct Hn as [Hg Ht].
  pose proof (parser_ok_lexer ps lx Hok Hg) as Hok1.
  destruct token; try (refine (parse_redirect_ok ps _ lx Hok Hg Ht _ _ _ _ En); discriminate);
    unfold parse_step; rewrite En; cbn; try done.
  - destruct (zlen (argv (current ps)) =? SHELL_ARGS_MAX) eqn:E; [done|]. bool_to_prop.
    destruct Ht as [? Hw]. split; [|done]. apply parser_ok_set; [done|done|].
    apply command_ok_arg; [by apply current_ok|by eapply word_result|done].
  - destruct (zlen (argv (current ps)) =? 0); [done|].
    destruct (Z.of_nat (stage ps) + 1 =? SHELL_STAGES_MAX) eqn:E; [done|]. bool_to_prop.
    destruct Hok1 as [? ? Hs ?]. split; [|done]. constructor; cbn in *; try done.
    unfold SHELL_STAGES_MAX in *. lia.
Qed.

Lemma parse_loop_ok fuel ps :
  parser_ok ps -> (length (cursor (lexer ps)) < fuel)%nat ->
  exists err ps', parse_loop fuel ps = Some (err, ps') /\ parser_ok ps'.
Proof.
  revert ps. induction fuel as [|fuel IH]; intros ps Hok Hf; [lia|].
  cbn [parse_loop]. pose proof (parse_step_ok ps Hok) as Hs.
  destruct (parse_step ps) as [err ps'|ps']; cbn in Hs; [by exists err, ps'|].
  apply IH; [apply Hs|lia].
Qed.

(** A command that can be run: a non-empty program name. *)
Definition runnable (st : list Z) (c : ShellCommand) : Prop :=
  exists a rest, argv c = a :: rest /\ word_at st a <> [].

Lemma check_stages_ok st cs : check_stages st cs = None -> Forall (runnable st) cs.
Proof.
  induction cs as [|c cs IH]; cbn; [constructor|]. intros H.
  destruct (argv c) as [|a rest] eqn:Ea; [done|]. destruct (head_char _ =? 0) eqn:E; [done|].
  bool_to_prop. constructor; [|by apply IH]. exists a, rest. split; [done|].
  unfold word_at. destruct (drop (Z.to_nat a) st) as [|x t]; cbn in *; [done|].
  by rewrite truth_nonzero.
Qed.

Definition plan_ok (plan : ShellPlan) : Prop :=
  fits (storage plan) /\ length (commands plan) = 2%nat /\ 0 <= count plan <= SHELL_STAGES_MAX /\
  Forall (command_ok (storage plan)) (commands plan) /\
  Forall (runnable (storage plan)) (take (Z.to_nat (count plan)) (commands plan)).

Lemma plan_of_ok ps : parser_ok ps -> plan_ok (plan_of ps 0).
Proof. intros []. by split_and!. Qed.

Lemma start_ok line :
  parser_ok {| lexer := {| cursor := line; error := None; store := []; word := 0 |};
               cmds := [no_command; no_command]; stage := 0; is_compound := false |}.
Proof.
  constructor; cbn; [done|done|lia|].
  by repeat constructor.
Qed.

(** C23: the parser is total and memory-safe: for every input line it
    terminates with a verdict, never fills the 128-byte storage, 64-argument,
    8-redirection or 2-stage arrays past their end, every argument and path
    points at a NUL-terminated string inside the plan's storage, a plan with
    an error has no command to run, and each stage of a counted plan has a
    non-empty program name. *)
Theorem shell_parse_safe line :
  exists err plan, shell_parse line = Some (err, plan) /\ plan_ok plan /\
                   (err <> None -> count plan = 0).
Proof.
  unfold shell_parse. destruct (check_line (cstr line) 0) as [msg|].
  { eexists _, _. split; [done|]. split; [|done]. apply (plan_of_ok _ (start_ok [])). }
  destruct (parse_loop_ok (S (length (cstr line))) _ (start_ok (cstr line))) as (err & ps & E & Hok);
    [cbn; lia|].
  rewrite E. cbn [mbind option_bind]. pose proof (plan_of_ok ps Hok) as Hp.
  destruct err as [msg|]; [by eexists _, _|].
  destruct (_ && _); [by eexists _, _|].
  destruct (check_stages _ _) as [msg|] eqn:Ec; [by eexists _, _|].
  eexists _, _. split; [done|]. split; [|done].
  destruct Hp as (? & ? & _ & ? & _). destruct Hok as [_ _ Hs _].
  apply check_stages_ok in Ec. unfold plan_ok, plan_of, SHELL_STAGES_MAX in *.
  cbn [count storage commands] in *. rewrite Nat2Z.id. split_and!; try done; lia.
Qed.
End Bounds.

(** ** Printing and parsing back *)
Section RoundTrip.
Local Open Scope list_scope.

(** What a command line means: words and redirections as texts. *)
Record Command := { args : list (list Z); redirs : list (RedirectKind * list Z) }.
Definition no_args : Command := {| args := []; redirs := [] |}.

Definition abs_command (st : list Z) (c : ShellCommand) : Command :=
  {| args := map (word_at st) (argv c);
     redirs := map (fun r => (kind r, word_at st (path r))) (redirects c) |}.

(** POSIX single-quoting: a quote inside becomes ['\'']. *)
Definition quote_char (c : Z) : list Z := if c =? 39 then [39; 92; 39; 39] else [c].
Definition quote_word (w : list Z) : list Z := 39 :: flat_map quote_char w ++ [39].
Definition print_word (w : list Z) : list Z := 32 :: quote_word w.
Definition print_redirect (r : RedirectKind * list Z) : list Z :=
  32 :: (match r.1 with SHELL_INPUT => [60] | SHELL_OUTPUT => [62] | SHELL_APPEND => [62; 62] end)
  ++ print_word r.2.
Definition print_command (c : Command) : list Z :=
  flat_map print_word (args c) ++ flat_map print_redirect (redirs c).
Definition print_pipeline (c : Command) (next : option Command) : list Z :=
  print_command c ++ match next with Some d => 32 :: 124 :: print_command d | None => [] end.

Definition word_char (c : Z) : Prop := c <> 0 /\ c <> 10 /\ c <> 13.
Definition good_word (w : list Z) : Prop := Forall word_char w.
Definition good_command (c : Command) : Prop :=
  Forall good_word (args c) /\ Forall (fun r => good_word r.2) (redirs c) /\
  zlen (args c) <= SHELL_ARGS_MAX /\ zlen (redirs c) <= SHELL_REDIRECTS_MAX /\
  match args c with w :: _ => w <> [] | [] => False end.

(** What may follow a printed word. *)
Definition break (rest : list Z) : Prop := match rest with [] => True | c :: _ => c = 32 end.

Lemma good_no_nul w : good_word w -> no_nul w.
Proof. unfold good_word, no_nul. intros H. eapply Forall_impl; [exact H|]. by intros c [? _]. Qed.

Lemma emit_ok st c : zlen st < SHELL_LINE_MAX -> emit st c = Some (st ++ [c]).
Proof. intros H. unfold emit. by zfalse (zlen st =? SHELL_LINE_MAX). Qed.

Lemma word_loop_break rest st : break rest -> word_loop rest 0 false st = WordDone rest 0 false st.
Proof. destruct rest as [|c rest]; [done|]. by intros ->. Qed.

Lemma quoted_body w rest st :
  no_nul w -> zlen st + zlen w < SHELL_LINE_MAX ->
  word_loop (flat_map quote_char w ++ 39 :: rest) 39 false st
  = word_loop rest 0 false (st ++ w).
Proof.
  intros Hw. revert st. induction Hw as [|c w Hc Hw IH]; intros st Hl.
  { cbn. by rewrite app_nil_r. }
  rewrite zlen_cons in Hl. pose proof (zlen_nonneg w).
  cbn [flat_map]. rewrite <- app_assoc. unfold quote_char at 1.
  destruct (Z.eqb_spec c 39) as [->|Hne].
  - cbn [app word_loop truth negb andb orb Z.eqb Pos.eqb space operator].
    rewrite emit_ok by lia.
    rewrite IH by (rewrite zlen_app; unfold zlen in *; cbn; lia). by rewrite <- app_assoc.
  - cbn [app word_loop]. change (truth 39) with true. cbn [orb andb].
    change (39 =? 0) with false. cbn [andb]. zfalse (c =? 39).
    change (39 =? 39) with true. rewrite andb_false_r. rewrite emit_ok by lia. cbn [andb].
    rewrite IH by (rewrite zlen_app; unfold zlen in *; cbn; lia). by rewrite <- app_assoc.
Qed.

Lemma next_word w rest lx :
  no_nul w -> break rest -> zlen (store lx) + zlen w < SHELL_LINE_MAX ->
  cursor lx = print_word w ++ rest ->
  next lx = (WORD, {| cursor := rest; error := error lx;
                      store := store lx ++ w ++ [0]; word := zlen (store lx) |}).
Proof.
  intros Hw Hr Hl Hc. unfold next. rewrite Hc. unfold print_word, quote_word.
  cbn [app skip_spaces space Z.eqb Pos.eqb orb operator].
  cbn [word_loop truth negb andb orb Z.eqb Pos.eqb space operator].
  rewrite <- app_assoc. cbn [app]. rewrite quoted_body by done.
  rewrite word_loop_break by done. cbn [truth negb Z.eqb andb].
  rewrite emit_ok by (rewrite zlen_app; lia). by rewrite <- app_assoc.
Qed.

Definition redirect_token (k : RedirectKind) : Token :=
  match k with SHELL_INPUT => INPUT | SHELL_OUTPUT => OUTPUT | SHELL_APPEND => APPEND end.

Lemma next_redirect r rest lx :
  cursor lx = print_redirect r ++ rest ->
  next lx = (redirect_token r.1, {| cursor := print_word r.2 ++ rest; error := error lx;
                                    store := store lx; word := word lx |}).
Proof. intros Hc. unfold next. rewrite Hc. by destruct r as [[] w]. Qed.

(** The parser state that has read a prefix of the line. *)
Record Abs := { a_stage : nat; a_cmds : list Command; a_compound : bool }.
Definition a_current (a : Abs) : Command := nth (a_stage a) (a_cmds a) no_args.
Definition add_word (a : Abs) (w : list Z) : Abs :=
  {| a_stage := a_stage a; a_compound := a_compound a;
     a_cmds := <[a_stage a := {| args := args (a_current a) ++ [w]; redirs := redirs (a_current a) |}]>
                 (a_cmds a) |}.
Definition add_redirect (a : Abs) (r : RedirectKind * list Z) : Abs :=
  {| a_stage := a_stage a; a_compound := true;
     a_cmds := <[a_stage a := {| args := args (a_current a); redirs := redirs (a_current a) ++ [r] |}]>
                 (a_cmds a) |}.
Definition add_pipe (a : Abs) : Abs :=
  {| a_stage := S (a_stage a); a_compound := true; a_cmds := a_cmds a |}.

Record rep (ps : Parser) (rest : list Z) (a : Abs) : Prop := {
  rep_ok : parser_ok ps;
  rep_cursor : cursor (lexer ps) = rest;
  rep_stage : stage ps = a_stage a;
  rep_cmds : map (abs_command (store (lexer ps))) (cmds ps) = a_cmds a;
  rep_compound : is_compound ps = a_compound a;
  rep_room : zlen (store (lexer ps)) + zlen rest < SHELL_LINE_MAX }.

Lemma cstr_app_in a b : 0 ∈ a -> cstr (a ++ b) = cstr a.
Proof.
  induction a as [|c a IH]; [by intros H%elem_of_nil|]. intros [<-|H]%elem_of_cons; cbn; [done|].
  destruct (truth c); [by rewrite IH|done].
Qed.

Lemma word_at_grows st st' o : grows st st' -> valid_word st o -> word_at st' o = word_at st o.
Proof.
  intros [[w ->] _] [Ho Hin]. unfold word_at. rewrite drop_app. by apply cstr_app_in.
Qed.

Lemma word_at_new st w : no_nul w -> word_at (st ++ w ++ [0]) (zlen st) = w.
Proof.
  intros Hw. unfold word_at, zlen. rewrite Nat2Z.id, drop_app_length. by apply cstr_app_nul.
Qed.

Lemma abs_command_grows st st' c :
  grows st st' -> command_ok st c -> abs_command st' c = abs_command st c.
Proof.
  intros Hg (_ & _ & Ha & Hr). unfold abs_command. f_equal; apply map_ext_in.
  - intros o Ho. rewrite Forall_forall in Ha. apply word_at_grows; [done|].
    by apply Ha, list_elem_of_In.
  - intros r Ho. rewrite Forall_forall in Hr. f_equal. apply word_at_grows; [done|].
    by apply Hr, list_elem_of_In.
Qed.

Lemma abs_cmds_grows st st' cs :
  grows st st' -> Forall (command_ok st) cs -> map (abs_command st') cs = map (abs_command st) cs.
Proof.
  intros Hg Hc. apply map_ext_in. intros c Hin. apply abs_command_grows; [done|].
  rewrite Forall_forall in Hc. by apply Hc, list_elem_of_In.
Qed.

Lemma rep_current ps rest a :
  rep ps rest a -> abs_command (store (lexer ps)) (current ps) = a_current a.
Proof.
  intros []. unfold current, a_current. rewrite <- rep_cmds0, <- rep_stage0.
  symmetry. apply (map_nth (abs_command (store (lexer ps))) _ no_command).
Qed.

Lemma rep_counts ps rest a :
  rep ps rest a ->
  zlen (argv (current ps)) = zlen (args (a_current a)) /\
  zlen (redirects (current ps)) = zlen (redirs (a_current a)).
Proof.
  intros H. rewrite <- (rep_current _ _ _ H). unfold abs_command, zlen. cbn.
  by rewrite !length_map.
Qed.

Lemma map_set_current ps st c :
  map (abs_command st) (set_current ps c) =
  <[stage ps := abs_command st c]> (map (abs_command st) (cmds ps)).
Proof. apply list_fmap_insert. Qed.

Lemma zlen_print_word w : zlen w + 3 <= zlen (print_word w).
Proof.
  unfold print_word, quote_word. rewrite !zlen_cons, zlen_app.
  change (zlen [39]) with 1. assert (zlen w <= zlen (flat_map quote_char w)); [|lia].
  induction w as [|c w IH]; [done|]. cbn [flat_map]. rewrite zlen_cons, zlen_app.
  assert (1 <= zlen (quote_char c)); [|lia]. unfold quote_char. by destruct (c =? 39).
Qed.

Lemma step_word ps w rest a :
  rep ps (print_word w ++ rest) a -> break rest -> no_nul w ->
  zlen (args (a_current a)) < SHELL_ARGS_MAX ->
  exists ps', parse_step ps = Next ps' /\ rep ps' rest (add_word a w).
Proof.
  intros Hrep Hb Hw Hn. pose proof (rep_current _ _ _ Hrep) as Hcur.
  pose proof (rep_counts _ _ _ Hrep) as [Hargs _]. destruct Hrep.
  pose proof (zlen_print_word w). pose proof (zlen_nonneg rest). rewrite zlen_app in rep_room0.
  pose proof (parse_step_ok _ rep_ok0) as Hstep.
  unfold parse_step in *. rewrite (next_word w rest) in * by (try done; lia). cbn in *.
  zfalse (zlen (argv (current ps)) =? SHELL_ARGS_MAX). eexists. split; [done|].
  destruct (zlen (argv (current ps)) =? SHELL_ARGS_MAX) eqn:E; [bool_to_prop; lia|].
  assert (grows (store (lexer ps)) (store (lexer ps) ++ w ++ [0])) as Hg.
  { split; [by eexists|]. unfold fits. rewrite !zlen_app. change (zlen [0]) with 1. lia. }
  constructor; cbn; try done; [by apply Hstep| |].
  - rewrite map_set_current, rep_stage0. f_equal.
    + rewrite <- Hcur. unfold abs_command. cbn. rewrite map_app. cbn. rewrite word_at_new by done.
      pose proof (abs_command_grows _ _ _ Hg (current_ok ps (lexer ps) rep_ok0
                    (shell_grows_refl _ (ok_fits _ rep_ok0)))) as Hc.
      unfold abs_command in Hc. injection Hc as -> ->. done.
    + rewrite <- rep_cmds0. apply abs_cmds_grows; [done|apply rep_ok0].
  - rewrite !zlen_app. change (zlen [0]) with 1. lia.
Qed.

Lemma zlen_print_redirect r : zlen r.2 + 4 <= zlen (print_redirect r).
Proof.
  unfold print_redirect. pose proof (zlen_print_word r.2).
  rewrite zlen_cons, zlen_app. pose proof (zlen_nonneg r.2).
  match goal with |- context [zlen ?l + zlen (print_word _)] => pose proof (zlen_nonneg l) end. lia.
Qed.

(** A redirection operator with its path is one step of the parser. *)
Lemma parse_step_redirect ps r rest :
  cursor (lexer ps) = print_redirect r ++ rest -> break rest -> no_nul r.2 ->
  zlen (store (lexer ps)) + zlen r.2 < SHELL_LINE_MAX ->
  zlen (redirects (current ps)) <> SHELL_REDIRECTS_MAX ->
  parse_step ps =
    Next {| lexer := {| cursor := rest; error := error (lexer ps);
                        store := store (lexer ps) ++ r.2 ++ [0]; word := zlen (store (lexer ps)) |};
            stage := stage ps; is_compound := true;
            cmds := set_current ps
              {| argv := argv (current ps);
                 redirects := redirects (current ps)
                              ++ [{| kind := r.1; path := zlen (store (lexer ps)) |}] |} |}.
Proof.
  intros Hc Hb Hw Hl Hn. unfold parse_step. rewrite (next_redirect r rest) by done.
  zfalse (zlen (redirects (current ps)) =? SHELL_REDIRECTS_MAX).
  rewrite (next_word r.2 rest) by done. by destruct r as [[] w].
Qed.

Lemma step_redirect ps r rest a :
  rep ps (print_redirect r ++ rest) a -> break rest -> no_nul r.2 ->
  zlen (redirs (a_current a)) < SHELL_REDIRECTS_MAX ->
  exists ps', parse_step ps = Next ps' /\ rep ps' rest (add_redirect a r).
Proof.
  intros Hrep Hb Hw Hn. pose proof (rep_current _ _ _ Hrep) as Hcur.
  pose proof (rep_counts _ _ _ Hrep) as [_ Hargs]. destruct Hrep.
  pose proof (zlen_print_redirect r). pose proof (zlen_nonneg rest). rewrite zlen_app in rep_room0.
  pose proof (parse_step_ok _ rep_ok0) as Hstep.
  rewrite (parse_step_redirect ps r rest) in * by (try done; lia).
  eexists. split; [done|]. destruct Hstep as [Hok _].
  assert (grows (store (lexer ps)) (store (lexer ps) ++ r.2 ++ [0])) as Hg.
  { split; [by eexists|]. unfold fits. rewrite !zlen_app. change (zlen [0]) with 1. lia. }
  constructor; cbn; try done.
  - rewrite map_set_current, rep_stage0. f_equal.
    + rewrite <- Hcur. unfold abs_command. cbn. rewrite map_app. cbn. rewrite word_at_new by done.
      pose proof (abs_command_grows _ _ _ Hg (current_ok ps (lexer ps) rep_ok0
                    (shell_grows_refl _ (ok_fits _ rep_ok0)))) as Hc.
      unfold abs_command in Hc. injection Hc as -> ->. by destruct r.
    + rewrite <- rep_cmds0. apply abs_cmds_grows; [done|apply rep_ok0].
  - rewrite !zlen_app. change (zlen [0]) with 1. lia.
Qed.

Lemma step_pipe ps rest a :
  rep ps (32 :: 124 :: rest) a -> break rest -> a_stage a = 0%nat -> args (a_current a) <> [] ->
  exists ps', parse_step ps = Next ps' /\ rep ps' rest (add_pipe a).
Proof.
  intros Hrep Hb Hs Hn. pose proof (rep_counts _ _ _ Hrep) as [Hargs _]. destruct Hrep.
  pose proof (parse_step_ok _ rep_ok0) as Hstep. unfold parse_step in *.
  assert (next (lexer ps) = (PIPE, {| cursor := rest; error := error (lexer ps);
            store := store (lexer ps); word := word (lexer ps) |})) as En.
  { unfold next. rewrite rep_cursor0. cbn. destruct rest as [|c rest]; [done|].
    cbn in Hb. by subst c. }
  rewrite En in *. destruct (zlen (argv (current ps)) =? 0) eqn:E0.
  { bool_to_prop. exfalso. apply Hn. destruct (args (a_current a)) as [|w l]; [done|].
    rewrite zlen_cons in Hargs. pose proof (zlen_nonneg l). lia. }
  rewrite rep_stage0, Hs in *. cbn [Z.of_nat Z.add Z.eqb Pos.eqb SHELL_STAGES_MAX] in *.
  eexists. split; [done|]. destruct Hstep as [Hok _].
  constructor; cbn; try done; [by rewrite Hs|].
  rewrite !zlen_cons in rep_room0. lia.
Qed.

(** Iterating the token loop. *)
Definition advances (ps ps' : Parser) : Prop := parse_step ps = Next ps'.

Lemma parse_loop_advances ps ps' err pf fuel r :
  rtc advances ps ps' -> parse_step ps' = Stop err pf ->
  parse_loop fuel ps = Some r -> r = (err, pf).
Proof.
  intros Hr Hs. revert fuel. induction Hr as [ps|ps ps1 ps' E Hr IH]; intros fuel Hf.
  - destruct fuel; [done|]. cbn in Hf. rewrite Hs in Hf. congruence.
  - destruct fuel; [done|]. cbn in Hf. rewrite E in Hf. by eapply IH.
Qed.

Lemma break_words ws rest : break rest -> break (flat_map print_word ws ++ rest).
Proof. by destruct ws. Qed.
Lemma break_redirects rs rest : break rest -> break (flat_map print_redirect rs ++ rest).
Proof. by destruct rs. Qed.

Definition words_added (a : Abs) (ws : list (list Z)) : Abs := fold_left add_word ws a.
Definition redirects_added (a : Abs) (rs : list (RedirectKind * list Z)) : Abs :=
  fold_left add_redirect rs a.

Lemma a_current_set a c b :
  (a_stage a < length (a_cmds a))%nat ->
  a_current {| a_stage := a_stage a; a_cmds := <[a_stage a := c]> (a_cmds a); a_compound := b |} = c.
Proof.
  intros H. unfold a_current. cbn. rewrite nth_lookup.
  by rewrite list_lookup_insert_eq.
Qed.

Lemma rep_bound ps rest a : rep ps rest a -> (a_stage a < length (a_cmds a))%nat.
Proof.
  intros []. rewrite <- rep_cmds0, <- rep_stage0, length_map. destruct rep_ok0. lia.
Qed.

Lemma run_words ws rest : forall ps a,
  rep ps (flat_map print_word ws ++ rest) a -> break rest -> Forall no_nul ws ->
  zlen (args (a_current a)) + zlen ws <= SHELL_ARGS_MAX ->
  exists ps', rtc advances ps ps' /\ rep ps' rest (words_added a ws).
Proof.
  induction ws as [|w ws IH]; intros ps a Hrep Hb Hws Hn; [by exists ps|].
  apply Forall_cons in Hws as [Hw Hws]. cbn [flat_map] in Hrep. rewrite <- app_assoc in Hrep.
  rewrite zlen_cons in Hn. pose proof (zlen_nonneg ws).
  destruct (step_word ps w _ a Hrep (break_words _ _ Hb) Hw) as (ps1 & E1 & Hrep1); [lia|].
  destruct (IH ps1 (add_word a w) Hrep1 Hb Hws) as (ps2 & R2 & Hrep2).
  { unfold add_word. rewrite a_current_set by by eapply rep_bound. cbn.
    rewrite zlen_app. change (zlen [w]) with 1. lia. }
  exists ps2. split; [by eapply rtc_l|done].
Qed.

Lemma run_redirects rs rest : forall ps a,
  rep ps (flat_map print_redirect rs ++ rest) a -> break rest -> Forall (fun r => no_nul r.2) rs ->
  zlen (redirs (a_current a)) + zlen rs <= SHELL_REDIRECTS_MAX ->
  exists ps', rtc advances ps ps' /\ rep ps' rest (redirects_added a rs).
Proof.
  induction rs as [|r rs IH]; intros ps a Hrep Hb Hrs Hn; [by exists ps|].
  apply Forall_cons in Hrs as [Hw Hrs]. cbn [flat_map] in Hrep. rewrite <- app_assoc in Hrep.
  rewrite zlen_cons in Hn. pose proof (zlen_nonneg rs).
  destruct (step_redirect ps r _ a Hrep (break_redirects _ _ Hb) Hw) as (ps1 & E1 & Hrep1); [lia|].
  destruct (IH ps1 (add_redirect a r) Hrep1 Hb Hrs) as (ps2 & R2 & Hrep2).
  { unfold add_redirect. rewrite a_current_set by by eapply rep_bound. cbn.
    rewrite zlen_app. change (zlen [r]) with 1. lia. }
  exists ps2. split; [by eapply rtc_l|done].
Qed.

Lemma words_added_eq ws : forall a, (a_stage a < length (a_cmds a))%nat ->
  words_added a ws =
  {| a_stage := a_stage a; a_compound := a_compound a;
     a_cmds := <[a_stage a := {| args := args (a_current a) ++ ws; redirs := redirs (a_current a) |}]>
                 (a_cmds a) |}.
Proof.
  induction ws as [|w ws IH]; intros a Ha.
  - rewrite app_nil_r. cbn. destruct a as [st cs b]; cbn in *. f_equal.
    symmetry. apply list_insert_id. unfold a_current. cbn.
    destruct (lookup_lt_is_Some_2 cs st Ha) as [c Ec]. rewrite Ec.
    rewrite nth_lookup, Ec. by destruct c.
  - change (words_added a (w :: ws)) with (words_added (add_word a w) ws).
    rewrite IH; unfold add_word; cbn [a_stage a_cmds a_compound]; [|by rewrite length_insert].
    rewrite a_current_set by done. cbn [args redirs]. by rewrite list_insert_insert_eq, <- app_assoc.
Qed.

Lemma redirects_added_eq rs : forall a, (a_stage a < length (a_cmds a))%nat ->
  redirects_added a rs =
  {| a_stage := a_stage a;
     a_compound := a_compound a || match rs with [] => false | _ => true end;
     a_cmds := <[a_stage a := {| args := args (a_current a); redirs := redirs (a_current a) ++ rs |}]>
                 (a_cmds a) |}.
Proof.
  induction rs as [|r rs IH]; intros a Ha.
  - rewrite app_nil_r, orb_false_r. cbn. destruct a as [st cs b]; cbn in *. f_equal.
    symmetry. apply list_insert_id. unfold a_current. cbn.
    destruct (lookup_lt_is_Some_2 cs st Ha) as [c Ec]. rewrite Ec.
    rewrite nth_lookup, Ec. by destruct c.
  - change (redirects_added a (r :: rs)) with (redirects_added (add_redirect a r) rs).
    rewrite IH; unfold add_redirect; cbn [a_stage a_cmds a_compound]; [|by rewrite length_insert].
    rewrite a_current_set by done. cbn [args redirs].
    by rewrite list_insert_insert_eq, <- app_assoc, orb_true_r.
Qed.

(** Reading one printed command into an empty stage. *)
Lemma run_command ps rest a c :
  rep ps (print_command c ++ rest) a -> break rest -> good_command c -> a_current a = no_args ->
  exists ps', rtc advances ps ps' /\
    rep ps' rest {| a_stage := a_stage a;
                    a_compound := a_compound a || match redirs c with [] => false | _ => true end;
                    a_cmds := <[a_stage a := c]> (a_cmds a) |}.
Proof.
  intros Hrep Hb (Hw & Hr & Hwn & Hrn & _) Hcur. pose proof (rep_bound _ _ _ Hrep) as Hbound.
  unfold print_command in Hrep. rewrite <- app_assoc in Hrep.
  destruct (run_words _ _ _ _ Hrep) as (ps1 & R1 & Hrep1).
  { by apply break_redirects. }
  { eapply Forall_impl; [exact Hw|apply good_no_nul]. }
  { by rewrite Hcur. }
  rewrite words_added_eq, Hcur in Hrep1 by done. cbn in Hrep1.
  destruct (run_redirects _ _ _ _ Hrep1 Hb) as (ps2 & R2 & Hrep2).
  { eapply Forall_impl; [exact Hr|]. intros r. apply good_no_nul. }
  { by rewrite a_current_set. }
  rewrite redirects_added_eq, a_current_set in Hrep2 by (cbn; rewrite ?length_insert; done).
  cbn in Hrep2. rewrite list_insert_insert_eq in Hrep2.
  exists ps2. split; [by etrans|]. by destruct c.
Qed.

Lemma check_line_ok line n :
  Forall word_char line -> n + zlen line < SHELL_LINE_MAX -> check_line line n = None.
Proof.
  intros H. revert n. induction H as [|c line (H0 & H1 & H2) H IH]; intros n Hn; [done|].
  rewrite zlen_cons in Hn. pose proof (zlen_nonneg line). cbn [check_line].
  zfalse ((c =? 10) || (c =? 13)). zfalse (n + 1 =? SHELL_LINE_MAX). apply IH. lia.
Qed.

Lemma printed_word w : good_word w -> Forall word_char (print_word w).
Proof.
  intros Hw. unfold print_word, quote_word. do 2 (apply Forall_cons; split; [done|]).
  apply Forall_app. split; [|by apply Forall_singleton].
  induction Hw as [|c w Hc Hw IH]; [by apply Forall_nil|]. cbn [flat_map].
  apply Forall_app. split; [|done]. unfold quote_char.
  destruct (c =? 39); [|by apply Forall_singleton].
  by repeat (apply Forall_cons; split).
Qed.

Lemma Forall_flat_map_intro {A} (f : A -> list Z) l :
  Forall (fun x => Forall word_char (f x)) l -> Forall word_char (flat_map f l).
Proof. induction 1; cbn; [constructor|]. by apply Forall_app. Qed.

Lemma printed_command c : good_command c -> Forall word_char (print_command c).
Proof.
  intros (Hw & Hr & _). apply Forall_app. split; apply Forall_flat_map_intro.
  - eapply Forall_impl; [exact Hw|apply printed_word].
  - eapply Forall_impl; [exact Hr|]. intros [k w] Hg. cbn in Hg. unfold print_redirect.
    apply Forall_cons. split; [done|]. apply Forall_app. split; [|by apply printed_word].
    destruct k; by repeat (apply Forall_cons; split).
Qed.

Lemma check_stages_good st cs :
  Forall good_command (map (abs_command st) cs) -> check_stages st cs = None.
Proof.
  induction cs as [|c cs IH]; [done|]. cbn [map]. intros [Hc Hcs]%Forall_cons.
  destruct Hc as (_ & _ & _ & _ & Hc). cbn in *. destruct (argv c) as [|o os]; [done|].
  cbn in Hc. unfold word_at in Hc. destruct (drop (Z.to_nat o) st) as [|x t]; [done|]. cbn in *.
  destruct (Z.eqb_spec x 0) as [->|]; [done|]. by apply IH.
Qed.

(** The parser's verdict once every stage has been read. *)
Lemma shell_parse_end line ps c cs b :
  Forall word_char line -> zlen line < SHELL_LINE_MAX ->
  rtc advances {| lexer := {| cursor := line; error := None; store := []; word := 0 |};
                  cmds := [no_command; no_command]; stage := 0; is_compound := false |} ps ->
  rep ps [] {| a_stage := length cs; a_cmds := c :: match cs with [] => [no_args] | _ => cs end;
               a_compound := b |} ->
  Forall good_command (c :: cs) ->
  exists plan, shell_parse line = Some (None, plan) /\
    map (abs_command (storage plan)) (take (Z.to_nat (count plan)) (commands plan)) = c :: cs /\
    compound plan = b.
Proof.
  intros Hgood Hlen Hrun Hrep Hcs. unfold shell_parse.
  rewrite cstr_no_nul by (unfold no_nul; eapply Forall_impl; [exact Hgood|by intros x []]).
  rewrite check_line_ok by done.
  destruct (parse_loop_ok (S (length line)) _ (start_ok line)) as (err & pf & E & _); [cbn; lia|].
  rewrite E. cbn [mbind option_bind].
  assert (parse_step ps = Stop None {| lexer := lexer ps; cmds := cmds ps; stage := stage ps;
                                       is_compound := is_compound ps |}) as Hstop.
  { unfold parse_step, next. by rewrite (rep_cursor _ _ _ Hrep). }
  eapply parse_loop_advances in E; [|done|done]. simplify_eq. cbn [cmds is_compound lexer stage].
  destruct Hrep as [Hok _ Hst Hc Hb _]. cbn in Hst, Hc, Hb.
  assert (map (abs_command (store (lexer ps))) (take (S (stage ps)) (cmds ps)) = c :: cs) as Htake.
  { rewrite <- firstn_map, Hc, Hst. cbn. destruct cs; [done|]. by rewrite firstn_all. }
  assert (zlen (argv (nth 0 (cmds ps) no_command)) <> 0) as Hz.
  { apply Forall_cons in Hcs as [(_ & _ & _ & _ & Hc0) _]. destruct (cmds ps) as [|c0 l]; [done|].
    cbn in Hc |- *. injection Hc as <- _. cbn in Hc0. destruct (argv c0); [done|].
    rewrite zlen_cons. pose proof (zlen_nonneg l0). lia. }
  zfalse (zlen (argv (nth 0 (cmds ps) no_command)) =? 0). cbn [andb].
  rewrite check_stages_good by (by rewrite Htake).
  eexists. split; [done|]. unfold plan_of. cbn [storage count commands compound].
  rewrite Nat2Z.id. by split.
Qed.

Definition pipeline (c : Command) (next : option Command) : list Command :=
  c :: match next with Some d => [d] | None => [] end.

(** C6: quoting and parsing are inverse: any one- or two-stage pipeline whose
    words are arbitrary texts without NUL or newlines (spaces, quotes,
    backslashes and operators included), printed with POSIX single quotes and
    its redirections, parses without error back to exactly the same programs,
    arguments and redirections in the same order. *)
Theorem shell_parse_print c next :
  Forall good_command (pipeline c next) -> zlen (print_pipeline c next) < SHELL_LINE_MAX ->
  exists plan, shell_parse (print_pipeline c next) = Some (None, plan) /\
    map (abs_command (storage plan)) (take (Z.to_nat (count plan)) (commands plan)) = pipeline c next /\
    compound plan = match redirs c, next with [], None => false | _, _ => true end.
Proof.
  intros Hgood Hlen. pose proof Hgood as [Hc Hn]%Forall_cons.
  assert (Forall word_char (print_pipeline c next)) as Hchars.
  { unfold print_pipeline. apply Forall_app. split; [by apply printed_command|].
    destruct next as [d|]; [|constructor]. apply Forall_cons in Hn as [Hd _].
    do 2 (apply Forall_cons; split; [done|]). by apply printed_command. }
  set (a0 := {| a_stage := 0; a_cmds := [no_args; no_args]; a_compound := false |}).
  assert (rep {| lexer := {| cursor := print_pipeline c next; error := None; store := []; word := 0 |};
                 cmds := [no_command; no_command]; stage := 0; is_compound := false |}
              (print_pipeline c next) a0) as Hrep0.
  { constructor; try done. apply start_ok. }
  unfold print_pipeline in Hrep0 at 2.
  destruct next as [d|].
  - destruct (run_command _ _ _ _ Hrep0) as (ps1 & R1 & Hrep1); try done. cbn in Hrep1.
    assert (args c <> []) as Hargs by (destruct Hc as (_ & _ & _ & _ & Hc); by destruct (args c)).
    assert (break (print_command d)) as Hbd.
    { unfold print_command. destruct (args d); [|done]. by destruct (redirs d). }
    destruct (step_pipe _ _ _ Hrep1 Hbd) as (ps2 & E2 & Hrep2); try done. unfold add_pipe in Hrep2.
    cbn in Hrep2. rewrite <- (app_nil_r (print_command d)) in Hrep2.
    apply Forall_cons in Hn as [Hd _].
    destruct (run_command _ _ _ _ Hrep2) as (ps3 & R3 & Hrep3); try done. cbn in Hrep3.
    eapply (shell_parse_end _ ps3 c [d]) in Hrep3 as (plan & -> & Hm & Hb); try done.
    + exists plan. split_and!; try done. rewrite Hb. by destruct (redirs c).
    + etrans; [exact R1|]. eapply rtc_l; [exact E2|exact R3].
  - destruct (run_command _ _ _ _ Hrep0) as (ps1 & R1 & Hrep1); try done. cbn in Hrep1.
    eapply (shell_parse_end _ ps1 c []) in Hrep1 as (plan & -> & Hm & Hb); try done.
    exists plan. by split_and!.
Qed.

Definition witness_command : Command :=
  {| args := [[101; 99; 104; 111]; [39; 32; 124]; []]; redirs := [(SHELL_APPEND, [111; 62])] |}.
Lemma shell_parse_print_witness :
  exists plan, shell_parse (print_pipeline witness_command (Some witness_command)) = Some (None, plan) /\
    map (abs_command (storage plan)) (take (Z.to_nat (count plan)) (commands plan))
      = pipeline witness_command (Some witness_command) /\
    compound plan = true.
Proof.
  apply (shell_parse_print witness_command (Some witness_command)).
  - repeat constructor; cbv; congruence.
  - reflexivity.
Defined.
End RoundTrip.
