(* ===== verification/ElfFormat.v ===== *)
(** * ELF32 validation ([elf_format.c], [elf_format.h])

    [elf_validate] decides which images the kernel loads and computes the
    load plan.  File structures are copied out of the image byte by byte, so
    a field is a little-endian read at its offset; every field has the width
    of the C structure and sums are taken modulo 2^32.  The plan is passed in
    and out, because an error leaves it partly filled. *)
From Stdlib Require Import String.
From S2P Require Import Prelude.
Local Open Scope string_scope.
Local Open Scope Z_scope.

Definition BARNIX_APP_ABI : Z := 9.
Definition APP_LOAD_MIN : Z := 0x01000000.
Definition APP_STACK_TOP : Z := 0x01400000.
Definition APP_STACK_SIZE : Z := 0x00010000.
Definition ELF_MAX_SEGMENTS : Z := 32.

(** The fields of [Header] that the code reads. *)
Record Header := {
  ident : list Z; h_type : Z; machine : Z; version : Z; h_entry : Z; h_phoff : Z;
  h_flags : Z; ehsize : Z; phentsize : Z; h_phnum : Z }.
Record ProgramHeader := {
  p_type : Z; p_offset : Z; vaddr : Z; filesz : Z; memsz : Z; p_flags : Z; align : Z }.

Record ElfSegment := { offset : Z; address : Z; file_size : Z; memory_size : Z }.
Record ElfPlan := {
  entry : Z; base : Z; stack_top : Z; phoff : Z; phnum : Z; phdr : Z; legacy : bool;
  segments : list ElfSegment }.

Definition read_header (data : list Z) : Header :=
  {| ident := take 16 data; h_type := le16 data 16; machine := le16 data 18;
     version := le32 data 20; h_entry := le32 data 24; h_phoff := le32 data 28;
     h_flags := le32 data 36; ehsize := le16 data 40; phentsize := le16 data 42;
     h_phnum := le16 data 44 |}.
Definition read_program_header (data : list Z) (o : Z) : ProgramHeader :=
  {| p_type := le32 data o; p_offset := le32 data (o + 4); vaddr := le32 data (o + 8);
     filesz := le32 data (o + 16); memsz := le32 data (o + 20);
     p_flags := le32 data (o + 24); align := le32 data (o + 28) |}.

(** The program headers in table order. *)
Definition program_headers (data : list Z) (h : Header) : list ProgramHeader :=
  map (fun i => read_program_header data (h_phoff h + i * 32)) (seqZ 0 (h_phnum h)).

(** The checks on the ELF header, in the order of the code. *)
Definition check_header (h : Header) (size : Z) : option string :=
  let id i := byte_at (ident h) i in
  if negb (id 0 =? 0x7f) || negb (id 1 =? 69) || negb (id 2 =? 76) || negb (id 3 =? 70)
  then Some "not an ELF file"
  else if negb (id 4 =? 1) then Some "ELF64 is unsupported; use an ELF32 i386 program"
  else if negb (id 5 =? 1) then Some "big-endian ELF is unsupported"
  else if h_type h =? 3 then Some "PIE/shared ELF requires a dynamic loader; use -static -no-pie"
  else if negb (h_type h =? 2) || negb (machine h =? 3) || negb (id 6 =? 1)
          || negb (version h =? 1) || negb (ehsize h =? 52) || truth (h_flags h)
  then Some "requires static ELF32 i386 ET_EXEC"
  else if negb (truth (h_phnum h)) || (ELF_MAX_SEGMENTS <? h_phnum h) || negb (phentsize h =? 32)
          || (size <? h_phoff h) || ((size - h_phoff h) / 32 <? h_phnum h)
  then Some "invalid program header table"
  else None.

(** [Some true]: a Barnix application; [Some false]: a Linux program. *)
Definition abi_kind (h : Header) : option bool :=
  let id i := byte_at (ident h) i in
  if (id 7 =? 255) && ((id 8 =? BARNIX_APP_ABI) || (id 8 =? 8) || (id 8 =? 7)) then Some true
  else if (negb (id 7 =? 0) && negb (id 7 =? 3)) || truth (id 8) then None
  else Some false.

(** The lowest address of a non-empty PT_LOAD header. *)
Fixpoint lowest_address (ps : list ProgramHeader) (lowest : Z) : Z :=
  match ps with
  | [] => lowest
  | p :: ps' =>
      lowest_address ps'
        (if (p_type p =? 1) && truth (memsz p) && (vaddr p <? lowest) then vaddr p else lowest)
  end.

Definition ranges_overlap (p : ProgramHeader) (s : ElfSegment) : bool :=
  (vaddr p <? u32 (address s + memory_size s)) && (address s <? u32 (vaddr p + memsz p)).

Definition ignored_type (t : Z) : bool :=
  (t =? 0) || (t =? 4) || (t =? 6) || (t =? 0x6474e551) || (t =? 0x6474e552) || (t =? 0x6474e553).

(** One iteration of the second loop over the program headers. *)
Inductive SegmentStep :=
| SegError (msg : string)
| SegNext (plan : ElfPlan) (executable_entry : bool).

Definition segment_step (h : Header) (size load_end : Z) (p : ProgramHeader)
    (plan : ElfPlan) (executable_entry : bool) : SegmentStep :=
  if (p_type p =? 2) || (p_type p =? 3) then SegError "ELF interpreter/dynamic linking is not implemented"
  else if p_type p =? 7 then SegError "ELF TLS is not implemented"
  else if negb (p_type p =? 1) then
    if ignored_type (p_type p) then SegNext plan executable_entry
    else SegError "unsupported program header"
  else if (memsz p <? filesz p) || (size <? p_offset p) || (size - p_offset p <? filesz p)
  then SegError "invalid segment file range"
  else if (1 <? align p) &&
          (has_bits (align p) (align p - 1) ||
           negb (Z.land (vaddr p) (align p - 1) =? Z.land (p_offset p) (align p - 1)))
  then SegError "invalid segment alignment"
  else if negb (truth (memsz p)) then SegNext plan executable_entry
  else if (vaddr p <? base plan) || (load_end <=? vaddr p) || (u32 (load_end - vaddr p) <? memsz p)
  then SegError "segment outside application memory"
  else if existsb (ranges_overlap p) (segments plan) then SegError "overlapping load segments"
  else
    let table_size := h_phnum h * 32 in
    let phdr' :=
      if (p_offset p <=? h_phoff h) && (h_phoff h - p_offset p <=? filesz p)
         && (table_size <=? filesz p - (h_phoff h - p_offset p))
      then u32 (vaddr p + h_phoff h - p_offset p) else phdr plan in
    SegNext {| entry := entry plan; base := base plan; stack_top := stack_top plan;
               phoff := phoff plan; phnum := phnum plan; phdr := phdr'; legacy := legacy plan;
               segments := segments plan ++
                 [{| offset := p_offset p; address := vaddr p;
                     file_size := filesz p; memory_size := memsz p |}] |}
            (executable_entry ||
             (has_bits (p_flags p) 1 && (vaddr p <=? h_entry h) && (h_entry h - vaddr p <? filesz p))).

Fixpoint segment_loop (h : Header) (size load_end : Z) (ps : list ProgramHeader)
    (plan : ElfPlan) (executable_entry : bool) : option string * ElfPlan * bool :=
  match ps with
  | [] => (None, plan, executable_entry)
  | p :: ps' =>
      match segment_step h size load_end p plan executable_entry with
      | SegError msg => (Some msg, plan, executable_entry)
      | SegNext plan' e => segment_loop h size load_end ps' plan' e
      end
  end.

Definition set_window (plan : ElfPlan) (b : Z) : ElfPlan :=
  {| entry := entry plan; base := b; stack_top := stack_top plan; phoff := phoff plan;
     phnum := phnum plan; phdr := phdr plan; legacy := legacy plan; segments := segments plan |}.
Definition set_layout (plan : ElfPlan) (h : Header) : ElfPlan :=
  {| entry := entry plan; base := base plan; stack_top := u32 (base plan + (APP_STACK_TOP - APP_LOAD_MIN));
     phoff := h_phoff h; phnum := h_phnum h; phdr := phdr plan; legacy := legacy plan;
     segments := segments plan |}.
Definition set_entry (plan : ElfPlan) (e : Z) : ElfPlan :=
  {| entry := e; base := base plan; stack_top := stack_top plan; phoff := phoff plan;
     phnum := phnum plan; phdr := phdr plan; legacy := legacy plan; segments := segments plan |}.
(** [plan->count = 0; plan->phdr = 0; plan->legacy = ...;] *)
Definition reset_plan (plan : ElfPlan) (is_legacy : bool) : ElfPlan :=
  {| entry := entry plan; base := base plan; stack_top := stack_top plan; phoff := phoff plan;
     phnum := phnum plan; phdr := 0; legacy := is_legacy; segments := [] |}.

(** [elf_validate] for a plan that is not NULL: the diagnostic ([None] is
    success) and the plan.  [data] is [None] for a NULL image. *)
Definition validate_into (data : option (list Z)) (size : Z) (plan : ElfPlan) : option string * ElfPlan :=
  let plan := reset_plan plan false in
  match data with
  | None => (Some "truncated ELF header", plan)
  | Some data =>
      if size <? 52 then (Some "truncated ELF header", plan)
      else
        let h := read_header data in
        match check_header h size with
        | Some msg => (Some msg, plan)
        | None =>
            match abi_kind h with
            | None => (Some "unsupported ELF OS/ABI or ABI version", plan)
            | Some is_legacy =>
                let ps := program_headers data h in
                let b := if is_legacy then APP_LOAD_MIN
                         else Z.land (lowest_address ps 0xffffffff) (Z.lnot 0x003fffff) in
                let plan := set_window (reset_plan plan is_legacy) b in
                if negb (b =? APP_LOAD_MIN) && ((b <? 0x02000000) || (0xbfc00000 <? b))
                then (Some "unsupported ELF virtual address window", plan)
                else
                  let plan := set_layout plan h in
                  let load_end := u32 (stack_top plan - APP_STACK_SIZE) in
                  let '(err, plan, executable_entry) := segment_loop h size load_end ps plan false in
                  match err with
                  | Some msg => (Some msg, plan)
                  | None =>
                      if (zlen (segments plan) =? 0) || negb executable_entry
                      then (Some "entry is not inside executable file data", plan)
                      else (None, set_entry plan (h_entry h))
                  end
            end
        end
  end.

Definition elf_validate (data : option (list Z)) (size : Z) (plan : option ElfPlan)
  : option string * option ElfPlan :=
  match plan with
  | None => (Some "missing load plan", None)
  | Some plan => let '(err, plan') := validate_into data size plan in (err, Some plan')
  end.

(** ** What an accepted plan guarantees *)
Section Accepted.
Context (size b load_end : Z) (headers : list ProgramHeader).

Definition segment_ok (s : ElfSegment) : Prop :=
  b <= address s /\ 0 < memory_size s /\ address s + memory_size s <= load_end /\
  0 <= file_size s <= memory_size s /\ 0 <= offset s /\ offset s + file_size s <= size.

Definition disjoint_ranges (s t : ElfSegment) : Prop :=
  address s + memory_size s <= address t \/ address t + memory_size t <= address s.

Definition contains (s : ElfSegment) (a : Z) : Prop := address s <= a < address s + file_size s.

(** The entry is a byte that an executable program header loads from the file. *)
Definition segment_of (p : ProgramHeader) : ElfSegment :=
  {| offset := p_offset p; address := vaddr p; file_size := filesz p; memory_size := memsz p |}.
Definition executable_at (plan : ElfPlan) (a : Z) : Prop :=
  exists p, p ∈ headers /\ p_type p = 1 /\ has_bits (p_flags p) 1 = true /\ segment_of p ∈ segments plan /\ contains (segment_of p) a.

Definition header_fields_ok (p : ProgramHeader) : Prop :=
  is_u32 (p_type p) /\ is_u32 (p_offset p) /\ is_u32 (vaddr p) /\ is_u32 (filesz p) /\
  is_u32 (memsz p) /\ is_u32 (p_flags p) /\ is_u32 (align p).

(** A header the loop lets pass needs no interpreter, TLS or unknown feature. *)
Definition accepted_type (p : ProgramHeader) : Prop :=
  p_type p = 1 \/ ignored_type (p_type p) = true.

Definition loop_inv (h : Header) (plan : ElfPlan) (executable_entry : bool) : Prop :=
  base plan = b /\ Forall segment_ok (segments plan) /\
  ForallOrdPairs disjoint_ranges (segments plan) /\
  (executable_entry = true -> executable_at plan (h_entry h)) /\
  (phdr plan = 0 \/
   exists s, s ∈ segments plan /\ phdr plan = address s + h_phoff h - offset s /\
     offset s <= h_phoff h /\ h_phoff h + h_phnum h * 32 <= offset s + file_size s).

Lemma ForallOrdPairs_snoc {A} (R : A -> A -> Prop) l x :
  ForallOrdPairs R l -> Forall (fun y => R y x) l -> ForallOrdPairs R (l ++ [x]).
Proof.
  induction 1 as [|y l Hy Hl IH]; intros Hx; cbn; [repeat constructor|].
  apply Forall_cons in Hx as [? ?]. constructor; [|by apply IH].
  apply Forall_app. split; [done|]. by apply Forall_singleton.
Qed.

Hypothesis load_end_u32 : is_u32 load_end.
Hypothesis b_u32 : is_u32 b.
Hypothesis size_u32 : is_u32 size.

Lemma overlap_false p s :
  segment_ok s -> header_fields_ok p -> vaddr p + memsz p <= load_end ->
  ranges_overlap p s = false ->
  disjoint_ranges s {| offset := p_offset p; address := vaddr p; file_size := filesz p;
                       memory_size := memsz p |}.
Proof.
  unfold ranges_overlap, header_fields_ok, segment_ok, disjoint_ranges, is_u32 in *. cbn.
  intros Hs Hp Hl H. rewrite !u32_small in H by (unfold is_u32; lia).
  apply andb_false_iff in H as [H|H]; bool_to_prop; lia.
Qed.

Lemma segment_step_inv h p plan e :
  header_fields_ok p -> p ∈ headers -> is_u32 (h_entry h) -> is_u32 (h_phoff h) -> 0 <= h_phnum h ->
  loop_inv h plan e ->
  match segment_step h size load_end p plan e with
  | SegError _ => True
  | SegNext plan' e' => loop_inv h plan' e' /\ accepted_type p
  end.
Proof.
  intros Hp Hin He Hph Hpn Hinv. pose proof Hinv as (Hbase & Hsegs & Hpairs & Hentry & Hphdr).
  unfold segment_step. rewrite Hbase.
  destruct ((p_type p =? 2) || (p_type p =? 3)) eqn:E1; [done|].
  destruct (p_type p =? 7) eqn:E2; [done|].
  destruct (negb (p_type p =? 1)) eqn:E3.
  { destruct (ignored_type (p_type p)) eqn:E; [|done]. split; [done|by right]. }
  assert (accepted_type p) by (left; bool_to_prop; lia).
  destruct ((memsz p <? filesz p) || _ || _) eqn:E4; [done|].
  destruct (_ && _) eqn:E5; [done|].
  destruct (negb (truth (memsz p))) eqn:E6; [done|].
  destruct ((vaddr p <? b) || _ || _) eqn:E7; [done|].
  destruct (existsb _ _) eqn:E8; [done|]. split; [|done].
  unfold header_fields_ok, is_u32, truth in *. bool_to_prop.
  rewrite u32_small in * by (unfold is_u32; lia).
  assert (segment_ok {| offset := p_offset p; address := vaddr p; file_size := filesz p;
                        memory_size := memsz p |}) as Hnew by (unfold segment_ok; cbn; lia).
  split_and!; cbn; try done.
  - apply Forall_app. split; [done|]. by apply Forall_singleton.
  - apply ForallOrdPairs_snoc; [done|]. rewrite Forall_forall in *. intros s Hs.
    apply overlap_false; [by apply Hsegs|unfold header_fields_ok, is_u32; lia|lia|].
    destruct (ranges_overlap p s) eqn:Eo; [|done]. exfalso.
    assert (existsb (ranges_overlap p) (segments plan) = true); [|congruence].
    apply existsb_exists. exists s. split; [by apply list_elem_of_In|done].
  - intros Hor. apply orb_true_iff in Hor as [->|Hx].
    + destruct (Hentry eq_refl) as (q & Hq & Ht & Hf & Hs & Hc). exists q. do 3 (split; [done|]). split; [apply elem_of_app; by left|done].
    + exists p. bool_to_prop. do 3 (split; [done|]). split; [apply elem_of_app; right; by apply list_elem_of_singleton|unfold contains; cbn; lia].
  - destruct (_ && _ && _) eqn:E9.
    + right. eexists. split; [apply elem_of_app; right; by apply list_elem_of_singleton|].
      cbn. bool_to_prop. rewrite u32_small by (unfold is_u32; lia). lia.
    + destruct Hphdr as [?|(s & Hs & ?)]; [by left|]. right. exists s.
      split; [apply elem_of_app; by left|done].
Qed.

Lemma segment_loop_inv h ps plan e plan' e' :
  Forall (fun p => header_fields_ok p /\ p ∈ headers) ps -> is_u32 (h_entry h) -> is_u32 (h_phoff h) -> 0 <= h_phnum h ->
  loop_inv h plan e -> segment_loop h size load_end ps plan e = (None, plan', e') ->
  loop_inv h plan' e' /\ Forall accepted_type ps /\ base plan' = base plan /\
  stack_top plan' = stack_top plan /\ (phnum plan' = phnum plan /\ phoff plan' = phoff plan) /\ (length (segments plan') <= length (segments plan) + length ps)%nat.
Proof.
  intros Hps He Hph Hpn. revert plan e. induction Hps as [|p ps [Hp Hin] Hps IH]; intros plan e Hinv E; cbn in E.
  { simplify_eq. split_and!; try done. cbn. lia. }
  pose proof (segment_step_inv h p plan e Hp Hin He Hph Hpn Hinv) as Hs.
  destruct (segment_step h size load_end p plan e) as [msg|plan1 e1] eqn:Es; [done|].
  destruct Hs as [Hinv1 Hacc].
  destruct (IH plan1 e1 Hinv1 E) as (? & ? & Hb & Hst & [Hpn1 Hpo1] & Hl).
  assert (stack_top plan1 = stack_top plan /\ (phnum plan1 = phnum plan /\ phoff plan1 = phoff plan) /\ (length (segments plan1) <= S (length (segments plan)))%nat)
    as (Hst1 & [Hpn2 Hpo2] & Hl1).
  { unfold segment_step in Es. repeat case_match; simplify_eq; cbn; try (split; [done|split; [done|lia]]).
    all: split; [done|]; split; [done|]; rewrite length_app; cbn; lia. }
  split_and!; try done.
  - by constructor.
  - destruct Hinv as [-> _], Hinv1 as [? _]. congruence.
  - congruence.
  - congruence.
  - congruence.
  - cbn. lia.
Qed.
End Accepted.

Definition window_ok (plan : ElfPlan) : Prop :=
  base plan mod 2 ^ 22 = 0 /\
  (base plan = APP_LOAD_MIN \/ 0x02000000 <= base plan <= 0xbfc00000) /\
  stack_top plan = base plan + (APP_STACK_TOP - APP_LOAD_MIN).

Lemma program_headers_ok data h :
  bytes_ok data -> Forall header_fields_ok (program_headers data h).
Proof.
  intros Hd. unfold program_headers. apply Forall_forall. intros p Hp.
  apply list_elem_of_In, in_map_iff in Hp as (i & <- & _).
  unfold header_fields_ok, read_program_header. cbn. split_and!; by apply le32_range.
Qed.

Lemma program_headers_length data h :
  0 <= h_phnum h -> zlen (program_headers data h) = h_phnum h.
Proof. intros. unfold zlen, program_headers. rewrite length_map, length_seqZ. lia. Qed.

Lemma window_multiple x : Z.land x (Z.lnot 0x003fffff) mod 2 ^ 22 = 0.
Proof.
  rewrite <- Z.ldiff_land. change 0x003fffff with (Z.ones 22).
  rewrite Z.ldiff_ones_r, shl by lia. by rewrite Z.mod_mul by lia.
Qed.

Lemma check_header_table h size :
  check_header h size = None ->
  0 < h_phnum h <= ELF_MAX_SEGMENTS \/ h_phnum h < 0 -> 0 <= h_phoff h ->
  h_phoff h + h_phnum h * 32 <= size.
Proof.
  unfold check_header. intros H Hn Hp. repeat case_match; try done.
  unfold truth in *. bool_to_prop. dm_lia.
Qed.

Lemma check_header_count h size :
  check_header h size = None -> h_phnum h <> 0 /\ h_phnum h <= ELF_MAX_SEGMENTS.
Proof.
  unfold check_header. intros H. repeat case_match; try done.
  unfold truth in *. by bool_to_prop.
Qed.

Lemma validate_into_sound data size plan0 plan :
  bytes_ok data -> zlen data = size -> is_u32 size -> validate_into (Some data) size plan0 = (None, plan) ->
  let h := read_header data in
  let load_end := stack_top plan - APP_STACK_SIZE in
  (phnum plan = h_phnum h /\ phoff plan = h_phoff h /\ 0 <= h_phoff h /\ 0 < h_phnum h <= ELF_MAX_SEGMENTS) /\
  window_ok plan /\
  Forall (segment_ok size (base plan) load_end) (segments plan) /\
  ForallOrdPairs disjoint_ranges (segments plan) /\
  1 <= zlen (segments plan) <= ELF_MAX_SEGMENTS /\
  executable_at (program_headers data h) plan (entry plan) /\
  h_phoff h + h_phnum h * 32 <= size /\
  (phdr plan = 0 \/
   exists s, s ∈ segments plan /\ phdr plan = address s + h_phoff h - offset s /\
     offset s <= h_phoff h /\ h_phoff h + h_phnum h * 32 <= offset s + file_size s) /\
  Forall accepted_type (program_headers data h).
Proof.
  intros Hd Hsize Hu. unfold validate_into.
  destruct (size <? 52); [done|]. set (h := read_header data).
  destruct (check_header h size) eqn:Eh; [done|]. destruct (abi_kind h) as [is_legacy|]; [|done].
  set (b := if is_legacy then _ else _). destruct (negb (b =? APP_LOAD_MIN) && _) eqn:Eb; [done|].
  assert (b mod 2 ^ 22 = 0) as Hmul by (destruct is_legacy; [done|apply window_multiple]).
  assert (b = APP_LOAD_MIN \/ 0x02000000 <= b <= 0xbfc00000) as Hwin.
  { apply andb_false_iff in Eb as [Eb|Eb]; bool_to_prop; [by left|right; lia]. }
  assert (0 <= b <= 0xbfc00000) as Hb by (unfold APP_LOAD_MIN in Hwin; lia).
  cbn [set_layout set_window base stack_top].
  rewrite (u32_small (b + _)) by (unfold is_u32, APP_STACK_TOP, APP_LOAD_MIN; lia).
  rewrite u32_small by (unfold is_u32, APP_STACK_TOP, APP_LOAD_MIN, APP_STACK_SIZE; lia).
  set (load_end := b + _ - _). set (plan1 := set_layout _ h).
  destruct (segment_loop _ _ _ _ _ _) as [[err plan2] e] eqn:Eloop. destruct err; [done|].
  destruct ((zlen (segments plan2) =? 0) || negb e) eqn:Ee; [done|]. intros [= <-].
  assert (is_u32 load_end) as Hle
    by (unfold is_u32, load_end, APP_STACK_TOP, APP_LOAD_MIN, APP_STACK_SIZE; lia).
  apply (segment_loop_inv size b load_end (program_headers data h) Hle) in Eloop as (Hinv & Hacc & Hbase & Hst & [Hpn Hpo] & Hlen).
  2: unfold is_u32; lia.
  2: { pose proof (program_headers_ok data h Hd) as Hf. rewrite Forall_forall in *. intros p Hp. split; [by apply Hf|done]. }
  2: exact (le32_range data 24 Hd). 2: exact (le32_range data 28 Hd).
  2: exact (proj1 (le16_range data 44 Hd)).
  2: { split_and!; try done; [apply FOP_nil|by left]. }
  destruct Hinv as (_ & Hsegs & Hpairs & Hentry & Hphdr). bool_to_prop.
  destruct (check_header_count _ _ Eh) as [Hn0 Hn1]. pose proof (le16_range data 44 Hd) as Hn2.
  change (le16 data 44) with (h_phnum h) in Hn2.
  pose proof (le32_range data 28 Hd) as Hp2. change (le32 data 28) with (h_phoff h) in Hp2.
  pose proof (program_headers_length data h (proj1 Hn2)) as Hpl.
  unfold set_entry. cbn [segments base stack_top phdr entry phnum phoff].
  split; [rewrite Hpn, Hpo; unfold is_u32 in Hp2; split; [done|]; split; [done|lia]|].
  rewrite Hbase, Hst. change (stack_top plan1) with (u32 (b + (APP_STACK_TOP - APP_LOAD_MIN))).
  change (base plan1) with b.
  rewrite u32_small by (unfold is_u32, APP_STACK_TOP, APP_LOAD_MIN; lia).
  split_and!; try done.
  - unfold zlen in *. destruct (segments plan2); cbn [length] in *; lia.
  - cbn [plan1 set_layout set_window reset_plan segments length] in Hlen. unfold zlen in *. lia.
  - by apply Hentry.
  - apply check_header_table; try done; unfold is_u32 in *; lia.
Qed.

(** C17: an image the kernel agrees to load is safe to map.  When validation
    reports success, the load window is 4 MiB aligned and inside the user
    range, every load segment lies inside it below the stack, reads only
    bytes of the file, no two segments overlap, there are between 1 and 32 of
    them, the entry point is a byte that an executable program header loads from the file, the program header
    table is inside the file, a non-zero [phdr] points at a copy of that table
    inside a segment, and no interpreter, TLS or unknown header was accepted. *)
Theorem elf_validate_sound data size plan0 plan :
  bytes_ok data -> zlen data = size -> is_u32 size ->
  elf_validate (Some data) size (Some plan0) = (None, Some plan) ->
  let h := read_header data in
  let load_end := stack_top plan - APP_STACK_SIZE in
  window_ok plan /\
  Forall (segment_ok size (base plan) load_end) (segments plan) /\
  ForallOrdPairs disjoint_ranges (segments plan) /\
  1 <= zlen (segments plan) <= ELF_MAX_SEGMENTS /\
  executable_at (program_headers data h) plan (entry plan) /\
  h_phoff h + h_phnum h * 32 <= size /\
  (phdr plan = 0 \/
   exists s, s ∈ segments plan /\ phdr plan = address s + h_phoff h - offset s /\
     offset s <= h_phoff h /\ h_phoff h + h_phnum h * 32 <= offset s + file_size s) /\
  Forall accepted_type (program_headers data h).
Proof.
  intros Hd Hsize Hu. unfold elf_validate. destruct (validate_into _ _ _) as [err plan'] eqn:E. intros [= -> ->].
  by destruct (validate_into_sound data size plan0 plan Hd Hsize Hu E) as [_ ?].
Qed.

(** A minimal Linux program: one executable segment holding the whole file. *)
Definition le_bytes (n : nat) (v : Z) : list Z :=
  map (fun i => v / 2 ^ (8 * i) mod 256) (seqZ 0 (Z.of_nat n)).
Definition tiny_elf : list Z :=
  [0x7f; 69; 76; 70; 1; 1; 1; 0; 0; 0; 0; 0; 0; 0; 0; 0] ++
  le_bytes 2 2 ++ le_bytes 2 3 ++ le_bytes 4 1 ++ le_bytes 4 0x08048054 ++ le_bytes 4 52 ++
  le_bytes 4 0 ++ le_bytes 4 0 ++ le_bytes 2 52 ++ le_bytes 2 32 ++ le_bytes 2 1 ++
  le_bytes 2 0 ++ le_bytes 2 0 ++ le_bytes 2 0 ++
  le_bytes 4 1 ++ le_bytes 4 0 ++ le_bytes 4 0x08048000 ++ le_bytes 4 0x08048000 ++
  le_bytes 4 88 ++ le_bytes 4 0x2000 ++ le_bytes 4 5 ++ le_bytes 4 0x1000 ++
  [0xb8; 1; 0; 0].
Definition tiny_plan : ElfPlan :=
  {| entry := 0x08048054; base := 0x08000000; stack_top := 0x08400000; phoff := 52; phnum := 1;
     phdr := 0x08048034; legacy := false;
     segments := [{| offset := 0; address := 0x08048000; file_size := 88; memory_size := 0x2000 |}] |}.

Lemma elf_validate_sound_witness :
  elf_validate (Some tiny_elf) 88 (Some tiny_plan) = (None, Some tiny_plan) /\
  Forall (segment_ok 88 0x08000000 0x083f0000) (segments tiny_plan).
Proof.
  split; [vm_compute; reflexivity|].
  refine (proj1 (proj2 (elf_validate_sound tiny_elf 88 tiny_plan tiny_plan _ _ _ _))).
  - repeat constructor; cbv; congruence.
  - reflexivity.
  - split; [lia|reflexivity].
  - vm_compute; reflexivity.
Defined.
