(* ===== verification/Mouse.v ===== *)
(** * Pointer state ([mouse.c])

    One logical cursor of 640x400 pixels is shared by the PS/2 mouse and up
    to 95 USB pointers.  The static variables of the file are the fields of
    [MouseState]; the PS/2 controller handshake ([mouse_init] and the port
    helpers) only talks to hardware and is not modelled. *)
From S2P Require Import Prelude.

Record BarnixMouse := { mx : Z; my : Z; buttons : Z; sequence : Z; available : Z }.
Record MouseState := {
  ps2_mouse_state : BarnixMouse;
  source_present : list Z;
  source_buttons : list Z;
  wheel_total : Z;
  horizontal_total : Z;
  packet : list Z;
  packet_index : Z }.
Record BarnixPointer := { mouse : BarnixMouse; wheel : Z; horizontal : Z }.

Definition SOURCES : nat := 96.

(** The bytes of [packet] survive a reset; only the index is cleared. *)
Definition mouse_reset (s : MouseState) : MouseState :=
  {| ps2_mouse_state := {| mx := 320; my := 200; buttons := 0; sequence := 0; available := 0 |};
     source_present := replicate SOURCES 0; source_buttons := replicate SOURCES 0;
     wheel_total := 0; horizontal_total := 0; packet := packet s; packet_index := 0 |}.

Definition mouse_get (s : MouseState) : BarnixMouse := ps2_mouse_state s.
Definition mouse_pointer (s : MouseState) : BarnixPointer :=
  {| mouse := ps2_mouse_state s; wheel := wheel_total s; horizontal := horizontal_total s |}.

(** [if(v>hi)v=hi;if(v<lo)v=lo;] *)
Definition clamp (lo hi v : Z) : Z :=
  let v := if hi <? v then hi else v in if v <? lo then lo else v.

(** Total of a per-source table: [for(...)acc|=table[i];] *)
Definition or_all (l : list Z) : Z := fold_left Z.lor l 0.

Definition mouse_source (s : MouseState) (source : Z) (connected : bool) (dx dy btn whl hor : Z)
  : MouseState * bool :=
  if 96 <=? source then (s, false)
  else
    let i := Z.to_nat source in
    let present := <[i := c_bool connected]> (source_present s) in
    let pressed := <[i := if connected then Z.land btn 31 else 0]> (source_buttons s) in
    let all_buttons := or_all pressed in
    let avail := or_all present in
    let m := ps2_mouse_state s in
    let x := clamp 0 639 (mx m + clamp (-640) 640 dx) in
    let y := clamp 0 399 (my m + clamp (-400) 400 dy) in
    let changed := negb (x =? mx m) || negb (y =? my m) || negb (all_buttons =? buttons m)
                   || negb (avail =? available m) || truth whl || truth hor in
    ({| ps2_mouse_state :=
          {| mx := x; my := y; buttons := all_buttons;
             sequence := if changed then u32 (sequence m + 1) else sequence m; available := avail |};
        source_present := present; source_buttons := pressed;
        wheel_total := s32 (wheel_total s + whl); horizontal_total := s32 (horizontal_total s + hor);
        packet := packet s; packet_index := packet_index s |}, changed).

Definition mouse_relative (s : MouseState) (dx dy btn : Z) : MouseState * bool :=
  mouse_source s 0 true dx dy (Z.land btn 7) 0 0.

Definition set_packet (s : MouseState) (p : list Z) (i : Z) : MouseState :=
  {| ps2_mouse_state := ps2_mouse_state s; source_present := source_present s;
     source_buttons := source_buttons s; wheel_total := wheel_total s;
     horizontal_total := horizontal_total s; packet := p; packet_index := i |}.

(** One byte from the PS/2 auxiliary port. *)
Definition mouse_feed (s : MouseState) (byte : Z) : MouseState * bool :=
  if (packet_index s =? 0) && negb (has_bits byte 8) then (s, false)
  else
    let p := <[Z.to_nat (packet_index s) := byte]> (packet s) in
    let index := packet_index s + 1 in
    if index <? 3 then (set_packet s p index, false)
    else
      let s := set_packet s p 0 in
      let p0 := byte_at p 0 in
      let dx := byte_at p 1 - (if has_bits p0 16 then 256 else 0) in
      let dy := byte_at p 2 - (if has_bits p0 32 then 256 else 0) in
      let '(dx, dy) := if has_bits p0 0xc0 then (0, 0) else (dx, dy) in
      mouse_relative s dx (- dy) (Z.land p0 7).

(** A USB boot-protocol report; [None] is a NULL pointer. *)
Definition mouse_usb_report (s : MouseState) (report : option (list Z)) (length : Z)
  : MouseState * bool :=
  match report with
  | None => (s, false)
  | Some r =>
      if length <? 3 then (s, false)
      else
        let dx := byte_at r 1 - (if has_bits (byte_at r 1) 128 then 256 else 0) in
        let dy := byte_at r 2 - (if has_bits (byte_at r 2) 128 then 256 else 0) in
        mouse_relative s dx dy (byte_at r 0)
  end.

(** The calls other parts of the kernel make. *)
Inductive MouseEvent :=
| Reset
| Feed (byte : Z)
| UsbReport (report : option (list Z)) (length : Z)
| Source (source : Z) (connected : bool) (dx dy btn whl hor : Z).

Definition mouse_event (s : MouseState) (e : MouseEvent) : MouseState * bool :=
  match e with
  | Reset => (mouse_reset s, false)
  | Feed b => mouse_feed s b
  | UsbReport r n => mouse_usb_report s r n
  | Source i c dx dy b w h => mouse_source s i c dx dy b w h
  end.

(** The static initial values. *)
Definition mouse_initial : MouseState :=
  {| ps2_mouse_state := {| mx := 320; my := 200; buttons := 0; sequence := 0; available := 0 |};
     source_present := replicate SOURCES 0; source_buttons := replicate SOURCES 0;
     wheel_total := 0; horizontal_total := 0; packet := [0; 0; 0]; packet_index := 0 |}.

Definition mouse_run (s : MouseState) (es : list MouseEvent) : MouseState :=
  fold_left (fun s e => (mouse_event s e).1) es s.

(** ** The invariant *)
Record mouse_ok (s : MouseState) : Prop := {
  ok_x : 0 <= mx (ps2_mouse_state s) <= 639;
  ok_y : 0 <= my (ps2_mouse_state s) <= 399;
  ok_index : 0 <= packet_index s <= 2;
  ok_packet : length (packet s) = 3%nat;
  ok_present_len : length (source_present s) = SOURCES;
  ok_buttons_len : length (source_buttons s) = SOURCES;
  ok_buttons_range : Forall (fun b => 0 <= b < 32) (source_buttons s);
  ok_present_range : Forall (fun b => 0 <= b < 2) (source_present s);
  ok_buttons : buttons (ps2_mouse_state s) = or_all (source_buttons s);
  ok_available : available (ps2_mouse_state s) = or_all (source_present s);
  ok_wheel : - 2 ^ 31 <= wheel_total s < 2 ^ 31;
  ok_horizontal : - 2 ^ 31 <= horizontal_total s < 2 ^ 31 }.

Lemma clamp_range lo hi v : lo <= hi -> lo <= clamp lo hi v <= hi.
Proof. intros. unfold clamp. repeat case_match; bool_to_prop; lia. Qed.

Lemma clamp_id lo hi v : lo <= v <= hi -> clamp lo hi v = v.
Proof. intros. unfold clamp. zfalse (hi <? v). by zfalse (v <? lo). Qed.

Lemma or_all_below n l : 0 <= n -> Forall (fun b => 0 <= b < 2 ^ n) l -> 0 <= or_all l < 2 ^ n.
Proof.
  intros Hn Hl. unfold or_all.
  assert (forall acc, 0 <= acc < 2 ^ n -> 0 <= fold_left Z.lor l acc < 2 ^ n) as H.
  { induction Hl as [|b l Hb Hl IH]; intros acc Ha; cbn; [done|]. apply IH. by apply lor_below. }
  apply H. lia.
Qed.

Lemma mouse_source_ok s i c dx dy b w h :
  mouse_ok s -> mouse_ok (mouse_source s i c dx dy b w h).1.
Proof.
  intros Hs. unfold mouse_source. destruct (96 <=? i); [done|]. destruct Hs.
  constructor; cbn; rewrite ?length_insert; try done; try (apply clamp_range; lia); try apply s32_range.
  - apply Forall_insert; [done|]. destruct c; [|lia].
    change 31 with (2 ^ 5 - 1). rewrite land_mask by lia. apply Z.mod_pos_bound. lia.
  - apply Forall_insert; [done|]. destruct c; cbn; lia.
Qed.

Lemma mouse_feed_ok s b : mouse_ok s -> mouse_ok (mouse_feed s b).1.
Proof.
  intros Hs. unfold mouse_feed. destruct (_ && _); [done|].
  assert (forall i, 0 <= i <= 2 ->
    mouse_ok (set_packet s (<[Z.to_nat (packet_index s) := b]> (packet s)) i)) as Hset.
  { intros i Hi. destruct Hs. constructor; cbn; rewrite ?length_insert; done. }
  destruct (packet_index s + 1 <? 3) eqn:E; [apply Hset; destruct Hs; bool_to_prop; lia|].
  case_match. apply mouse_source_ok, Hset. lia.
Qed.

Lemma mouse_event_ok s e : mouse_ok s -> mouse_ok (mouse_event s e).1.
Proof.
  intros Hs. destruct e as [|b|r n|]; cbn; [|by apply mouse_feed_ok| |by apply mouse_source_ok].
  - destruct Hs. constructor; cbn -[replicate SOURCES]; rewrite ?length_replicate; try done; try lia;
      apply Forall_replicate; lia.
  - unfold mouse_usb_report. destruct r; [|done]. destruct (n <? 3); [done|].
    by apply mouse_source_ok.
Qed.

Lemma mouse_initial_ok : mouse_ok mouse_initial.
Proof.
  constructor; cbn -[replicate SOURCES]; rewrite ?length_replicate; try done; try lia;
    apply Forall_replicate; lia.
Qed.

(** C31: whatever bytes and reports the devices send, in any order and however
    large their deltas, the cursor stays on the 640x400 screen, the packet
    index stays inside the three-byte packet buffer, the visible buttons are
    exactly the union of the buttons held on the connected sources and fit
    the five-button mask, and the wheel counters stay 32-bit. *)
Theorem mouse_invariant es :
  let s := mouse_run mouse_initial es in
  mouse_ok s /\ 0 <= buttons (ps2_mouse_state s) < 32 /\ 0 <= available (ps2_mouse_state s) <= 1.
Proof.
  cbv zeta. assert (mouse_ok (mouse_run mouse_initial es)) as Hs.
  { unfold mouse_run. generalize mouse_initial_ok. generalize mouse_initial.
    induction es as [|e es IH]; intros s Hs; cbn; [done|]. by apply IH, mouse_event_ok. }
  split; [done|]. destruct Hs. rewrite ok_buttons0, ok_available0.
  pose proof (or_all_below 5 _ ltac:(lia) ok_buttons_range0).
  pose proof (or_all_below 1 _ ltac:(lia) ok_present_range0). lia.
Qed.

(** Movement of a nine-bit two's complement PS/2 delta. *)
Definition delta9 (low : Z) (sign : bool) : Z := low - (if sign then 256 else 0).

Lemma feed_first s b : packet_index s = 0 -> has_bits b 8 = true ->
  mouse_feed s b = (set_packet s (<[0%nat := b]> (packet s)) 1, false).
Proof. intros Hi Hb. unfold mouse_feed. by rewrite Hi, Hb. Qed.
Lemma feed_second s b : packet_index s = 1 ->
  mouse_feed s b = (set_packet s (<[1%nat := b]> (packet s)) 2, false).
Proof. intros Hi. unfold mouse_feed. by rewrite Hi. Qed.
Lemma feed_third s b0 b1 b p : packet_index s = 2 -> packet s = [b0; b1; p] ->
  mouse_feed s b =
    mouse_relative (set_packet s [b0; b1; b] 0)
      (if has_bits b0 0xc0 then 0 else delta9 b1 (has_bits b0 16))
      (- if has_bits b0 0xc0 then 0 else delta9 b (has_bits b0 32)) (Z.land b0 7).
Proof.
  intros Hi Hp. unfold mouse_feed. rewrite Hi, Hp.
  change (<[Z.to_nat 2 := b]> [b0; b1; p]) with [b0; b1; b].
  change (2 + 1 <? 3) with false. change (2 =? 0) with false. cbn [andb].
  change (byte_at [b0; b1; b] 0) with b0. change (byte_at [b0; b1; b] 1) with b1.
  change (byte_at [b0; b1; b] 2) with b. by destruct (has_bits b0 0xc0).
Qed.

(** The deltas of a packet are inside the clamps of [mouse_source]. *)
Lemma clamp_max_min lo hi v : lo <= hi -> clamp lo hi v = Z.max lo (Z.min hi v).
Proof. intros H. unfold clamp. destruct (Z.ltb_spec hi v); case_match; bool_to_prop; lia. Qed.
Lemma delta9_range b sign : is_byte b -> -256 <= delta9 b sign <= 255.
Proof. unfold is_byte, delta9. destruct sign; lia. Qed.

(** C38: a PS/2 packet is decoded as documented: from a packet boundary, a
    byte without the synchronisation bit is skipped without any effect, and
    the three bytes of a packet move the cursor once, by the sign-extended
    nine-bit deltas with the vertical axis flipped, as far as the edges of the
    640x400 screen, and not at all when an overflow bit is set; the three low bits of the first byte
    are the buttons of this source, the visible buttons those of all sources; and the decoder
    is at the next boundary. *)
Theorem mouse_packet s b0 b1 b2 :
  mouse_ok s -> packet_index s = 0 -> has_bits b0 8 = true -> is_byte b1 -> is_byte b2 ->
  let dx := if has_bits b0 0xc0 then 0 else delta9 b1 (has_bits b0 16) in
  let dy := if has_bits b0 0xc0 then 0 else delta9 b2 (has_bits b0 32) in
  let s' := (mouse_feed (mouse_feed (mouse_feed s b0).1 b1).1 b2).1 in
  packet_index s' = 0 /\
  mx (mouse_get s') = Z.max 0 (Z.min 639 (mx (mouse_get s) + dx)) /\
  my (mouse_get s') = Z.max 0 (Z.min 399 (my (mouse_get s) - dy)) /\
  source_buttons s' = <[0%nat := Z.land b0 7]> (source_buttons s) /\
  buttons (mouse_get s') = or_all (source_buttons s') /\
  forall noise, has_bits noise 8 = false -> mouse_feed s noise = (s, false) /\ mouse_feed s' noise = (s', false).
Proof.
  intros Hs Hi Hb H1 H2. cbv zeta.
  destruct (packet s) as [|p0 [|p1 [|p2 [|]]]] eqn:Hp;
    try (pose proof (ok_packet _ Hs) as Hl; by rewrite Hp in Hl).
  rewrite (feed_first s b0), Hp by done. cbn [fst].
  rewrite (feed_second _ b1) by done. cbn [fst].
  rewrite (feed_third _ b0 b1 b2 p2) by done.
  pose proof (delta9_range b1 (has_bits b0 16) H1). pose proof (delta9_range b2 (has_bits b0 32) H2).
  set (dx := if has_bits b0 0xc0 then 0 else delta9 b1 _). set (dy := if has_bits b0 0xc0 then 0 else delta9 b2 _).
  assert (-256 <= dx <= 255 /\ -256 <= dy <= 255) as [Hx Hy] by (unfold dx, dy; destruct (has_bits b0 0xc0); lia).
  split; [done|]. unfold mouse_relative, mouse_source, mouse_get. change (96 <=? 0) with false.
  cbn [fst ps2_mouse_state mx my buttons source_buttons set_packet].
  rewrite (clamp_id (-640) 640 dx), (clamp_id (-400) 400 (- dy)), !clamp_max_min by lia.
  assert (Z.land (Z.land (Z.land b0 7) 7) 31 = Z.land b0 7) as -> by (rewrite <- !Z.land_assoc; done). split; [done|]. split; [done|]. split; [done|]. split; [done|].
  intros noise Hn. unfold mouse_feed. rewrite Hi, Hn. by split.
Qed.

Lemma mouse_packet_witness :
  let s' := (mouse_feed (mouse_feed (mouse_feed mouse_initial 0x39).1 0xfe).1 0xf6).1 in
  packet_index s' = 0 /\ mx (mouse_get s') = 318 /\ my (mouse_get s') = 210 /\ buttons (mouse_get s') = 1.
Proof.
  destruct (mouse_packet mouse_initial 0x39 0xfe 0xf6 mouse_initial_ok eq_refl eq_refl ltac:(unfold is_byte; lia) ltac:(unfold is_byte; lia)) as (H1 & H2 & H3 & H4 & H5 & _).
  cbv zeta. rewrite H1, H2, H3, H5, H4. split_and!; reflexivity.
Defined.
