(* ===== verification/Keyboard.v ===== *)
(** * Keyboard decoder ([keyboard.c])

    A pure decoder of PC set-1 scan codes with modifier state, Caps Lock, an
    English and a Russian layout toggled by Shift+Alt.  The static variables
    are the fields of [Kbd]; the polling loops that read the controller's
    ports are not modelled. *)
From S2P Require Import Prelude Utf8.

Definition KEY_UP : Z := 0x100.
Definition KEY_DOWN : Z := 0x101.
Definition KEY_LEFT : Z := 0x102.
Definition KEY_RIGHT : Z := 0x103.
Definition KEY_HOME : Z := 0x104.
Definition KEY_END : Z := 0x105.
Definition KEY_DELETE : Z := 0x106.
Definition KEY_ESCAPE : Z := 0x107.

Record Kbd := {
  shifts : Z; alts : Z;      (* one bit per physical key held *)
  caps : bool; caps_down : bool; extended : bool; chord : bool; russian : bool; control : bool }.

(** A 128-entry table with designated initialisers: unnamed entries are 0. *)
Definition table (entries : list (Z * Z)) : list Z :=
  fold_left (fun t '(i, v) => <[Z.to_nat i := v]> t) entries (replicate 128 0).

(** Unshifted characters, indexed by scan code. *)
Definition normal_map : list Z := table [
    (0x2, 49); (0x3, 50); (0x4, 51); (0x5, 52); (0x6, 53); (0x7, 54); (0x8, 55); (0x9, 56);
    (0xa, 57); (0xb, 48); (0xc, 45); (0xd, 61); (0xe, 8); (0xf, 9); (0x10, 113); (0x11, 119);
    (0x12, 101); (0x13, 114); (0x14, 116); (0x15, 121); (0x16, 117); (0x17, 105); (0x18, 111);
    (0x19, 112); (0x1a, 91); (0x1b, 93); (0x1c, 10); (0x1e, 97); (0x1f, 115); (0x20, 100);
    (0x21, 102); (0x22, 103); (0x23, 104); (0x24, 106); (0x25, 107); (0x26, 108); (0x27, 59);
    (0x28, 39); (0x29, 96); (0x2b, 92); (0x2c, 122); (0x2d, 120); (0x2e, 99); (0x2f, 118);
    (0x30, 98); (0x31, 110); (0x32, 109); (0x33, 44); (0x34, 46); (0x35, 47); (0x39, 32)].

(** Characters with Shift. *)
Definition shift_map : list Z := table [
    (0x2, 33); (0x3, 64); (0x4, 35); (0x5, 36); (0x6, 37); (0x7, 94); (0x8, 38); (0x9, 42);
    (0xa, 40); (0xb, 41); (0xc, 95); (0xd, 43); (0xe, 8); (0xf, 9); (0x10, 81); (0x11, 87);
    (0x12, 69); (0x13, 82); (0x14, 84); (0x15, 89); (0x16, 85); (0x17, 73); (0x18, 79);
    (0x19, 80); (0x1a, 123); (0x1b, 125); (0x1c, 10); (0x1e, 65); (0x1f, 83); (0x20, 68);
    (0x21, 70); (0x22, 71); (0x23, 72); (0x24, 74); (0x25, 75); (0x26, 76); (0x27, 58);
    (0x28, 34); (0x29, 126); (0x2b, 124); (0x2c, 90); (0x2d, 88); (0x2e, 67); (0x2f, 86);
    (0x30, 66); (0x31, 78); (0x32, 77); (0x33, 60); (0x34, 62); (0x35, 63); (0x39, 32)].

(** Lower-case letters of the Russian layout. *)
Definition ru_map : list Z := table [
    (0x10, 0x439); (0x11, 0x446); (0x12, 0x443); (0x13, 0x43a); (0x14, 0x435); (0x15, 0x43d);
    (0x16, 0x433); (0x17, 0x448); (0x18, 0x449); (0x19, 0x437); (0x1a, 0x445); (0x1b, 0x44a);
    (0x1e, 0x444); (0x1f, 0x44b); (0x20, 0x432); (0x21, 0x430); (0x22, 0x43f); (0x23, 0x440);
    (0x24, 0x43e); (0x25, 0x43b); (0x26, 0x434); (0x27, 0x436); (0x28, 0x44d); (0x29, 0x451);
    (0x2c, 0x44f); (0x2d, 0x447); (0x2e, 0x441); (0x2f, 0x43c); (0x30, 0x438); (0x31, 0x442);
    (0x32, 0x44c); (0x33, 0x431); (0x34, 0x44e)].

(** A reset releases every key and selects the English layout. *)
Definition keyboard_reset : Kbd :=
  {| shifts := 0; alts := 0; caps := false; caps_down := false; extended := false;
     chord := false; russian := false; control := false |}.
Definition keyboard_set_layout (s : Kbd) (ru : Z) : Kbd :=
  {| shifts := shifts s; alts := alts s; caps := caps s; caps_down := caps_down s;
     extended := extended s; chord := chord s; russian := truth ru; control := control s |}.

Definition set_extended (s : Kbd) (b : bool) : Kbd :=
  {| shifts := shifts s; alts := alts s; caps := caps s; caps_down := caps_down s;
     extended := b; chord := chord s; russian := russian s; control := control s |}.
Definition set_control (s : Kbd) (b : bool) : Kbd :=
  {| shifts := shifts s; alts := alts s; caps := caps s; caps_down := caps_down s;
     extended := extended s; chord := chord s; russian := russian s; control := b |}.
Definition set_modifiers (s : Kbd) (sh al : Z) : Kbd :=
  {| shifts := sh; alts := al; caps := caps s; caps_down := caps_down s;
     extended := extended s; chord := chord s; russian := russian s; control := control s |}.
Definition set_caps (s : Kbd) (c down : bool) : Kbd :=
  {| shifts := shifts s; alts := alts s; caps := c; caps_down := down;
     extended := extended s; chord := chord s; russian := russian s; control := control s |}.
Definition set_chord (s : Kbd) (ch ru : bool) : Kbd :=
  {| shifts := shifts s; alts := alts s; caps := caps s; caps_down := caps_down s;
     extended := extended s; chord := ch; russian := ru; control := control s |}.

(** [if (released) m &= ~bit; else m |= bit;] *)
Definition hold (m bit : Z) (released : bool) : Z :=
  if released then Z.land m (Z.lnot bit) else Z.lor m bit.

(** The cursor and editing keys of the extended set. *)
Definition extended_key (key : Z) : option Z :=
  if key =? 0x48 then Some KEY_UP else if key =? 0x50 then Some KEY_DOWN
  else if key =? 0x4b then Some KEY_LEFT else if key =? 0x4d then Some KEY_RIGHT
  else if key =? 0x47 then Some KEY_HOME else if key =? 0x4f then Some KEY_END
  else if key =? 0x53 then Some KEY_DELETE else None.

(** The punctuation that the Russian layout changes. *)
Definition russian_symbol (key : Z) (shift : bool) : option Z :=
  if key =? 0x35 then Some (if shift then 44 else 46)
  else if key =? 0x2b then Some (if shift then 47 else 92)
  else if shift then
    if key =? 0x03 then Some 34 else if key =? 0x04 then Some 0x2116
    else if key =? 0x05 then Some 59 else if key =? 0x07 then Some 58
    else if key =? 0x08 then Some 63 else None
  else None.

Definition latin (c : Z) : bool := (97 <=? c) && (c <=? 122).

(** The character of an ordinary key press. *)
Definition key_char (s : Kbd) (key : Z) : Z :=
  let shift := truth (shifts s) in
  let c := if russian s then byte_at ru_map key else 0 in
  if truth c then
    if xorb (caps s) shift then (if c =? 0x451 then 0x401 else c - 32) else c
  else
    match (if russian s then russian_symbol key shift else None) with
    | Some c => c
    | None =>
        let c := byte_at normal_map key in
        if control s && latin c then c - 97 + 1
        else if latin c then (if xorb (caps s) shift then c - 32 else c)
        else if shift then byte_at shift_map key else c
    end.

(** The layout switch evaluated after every modifier event. *)
Definition update_chord (s : Kbd) : Kbd :=
  let s := if truth (shifts s) && truth (alts s) && negb (chord s)
           then set_chord s true (negb (russian s)) else s in
  if negb (truth (shifts s)) && negb (truth (alts s)) then set_chord s false (russian s) else s.

Definition keyboard_feed (s : Kbd) (scan : Z) : Kbd * Z :=
  if scan =? 0xe0 then (set_extended s true, 0)
  else
    let ext := extended s in
    let s := set_extended s false in
    let released := has_bits scan 0x80 in
    let key := Z.land scan 0x7f in
    match (if ext && negb released then extended_key key else None) with
    | Some k => (s, k)
    | None =>
        if negb ext && (key =? 1) && negb released then (s, KEY_ESCAPE)
        else if negb ext && (key =? 0x1d) then (update_chord (set_control s (negb released)), 0)
        else if negb ext && ((key =? 0x2a) || (key =? 0x36)) then
          (update_chord (set_modifiers s (hold (shifts s) (if key =? 0x2a then 1 else 2) released) (alts s)), 0)
        else if key =? 0x38 then
          (update_chord (set_modifiers s (shifts s) (hold (alts s) (if ext then 2 else 1) released)), 0)
        else if negb ext && (key =? 0x3a) then
          (set_caps s (if negb released && negb (caps_down s) then negb (caps s) else caps s) (negb released), 0)
        else if released || ext || truth (alts s) then (s, 0)
        else (s, key_char s key)
    end.

(** Scan codes fed one after the other, with the codes they produce. *)
Fixpoint keyboard_run (s : Kbd) (scans : list Z) : Kbd * list Z :=
  match scans with
  | [] => (s, [])
  | scan :: rest =>
      let '(s1, c) := keyboard_feed s scan in
      let '(s2, cs) := keyboard_run s1 rest in
      (s2, if truth c then c :: cs else cs)
  end.

(** ** The Shift+Alt chord *)
Definition modifiers_held (s : Kbd) : bool := truth (shifts s) || truth (alts s).

Lemma update_chord_latched s :
  chord s = true ->
  russian (update_chord s) = russian s /\ chord (update_chord s) = modifiers_held s.
Proof.
  intros H. unfold update_chord, modifiers_held. rewrite H, andb_false_r.
  by destruct (truth (shifts s)), (truth (alts s)).
Qed.

Lemma update_chord_modifiers s : modifiers_held (update_chord s) = modifiers_held s.
Proof.
  unfold update_chord, modifiers_held. destruct (_ && negb (chord s)); cbn; by destruct (_ && _).
Qed.

(** Once latched, the layout cannot change while a modifier is held. *)
Lemma feed_latched s scan :
  chord s = true -> modifiers_held (keyboard_feed s scan).1 = true ->
  russian (keyboard_feed s scan).1 = russian s /\ chord (keyboard_feed s scan).1 = true.
Proof.
  intros Hc. unfold keyboard_feed. destruct (scan =? 0xe0); [done|].
  destruct (if extended s && _ then _ else None); [done|].
  destruct (_ && _ && _); [done|]. destruct (_ && _).
  { cbn [fst]. rewrite update_chord_modifiers. intros Hm.
    destruct (update_chord_latched (set_control (set_extended s false) (negb (has_bits scan 0x80))) Hc)
      as [-> ->]. by split. }
  destruct (_ && _).
  { cbn [fst]. rewrite update_chord_modifiers. intros Hm.
    match goal with |- context [update_chord ?t] => destruct (update_chord_latched t Hc) as [-> ->] end.
    by split. }
  destruct (_ =? 0x38).
  { cbn [fst]. rewrite update_chord_modifiers. intros Hm.
    match goal with |- context [update_chord ?t] => destruct (update_chord_latched t Hc) as [-> ->] end.
    by split. }
  destruct (_ && _); [done|]. by destruct (_ || _).
Qed.

Lemma keyboard_run_cons s scan rest :
  (keyboard_run s (scan :: rest)).1 = (keyboard_run (keyboard_feed s scan).1 rest).1.
Proof. cbn. destruct (keyboard_feed s scan). cbn. by destruct (keyboard_run _ rest). Qed.

(** No prefix of the scan codes releases both modifier families. *)
Definition held_throughout (s : Kbd) (scans : list Z) : Prop :=
  forall k, (k < length scans)%nat -> modifiers_held (keyboard_run s (take (S k) scans)).1 = true.

Lemma held_tail s scan rest :
  held_throughout s (scan :: rest) -> held_throughout (keyboard_feed s scan).1 rest.
Proof.
  intros H k Hk. specialize (H (S k)). cbn [take length] in H.
  rewrite keyboard_run_cons in H. apply H. lia.
Qed.

Lemma run_latched s scans :
  chord s = true -> held_throughout s scans -> russian (keyboard_run s scans).1 = russian s.
Proof.
  revert s. induction scans as [|scan rest IH]; intros s Hc Hh; [done|].
  rewrite keyboard_run_cons. destruct (feed_latched s scan Hc) as [Hr Hc1].
  { specialize (Hh 0%nat). cbn [take] in Hh. rewrite keyboard_run_cons in Hh. apply Hh. cbn. lia. }
  rewrite IH; [done|done|by apply held_tail].
Qed.

(** C32: the layout chord toggles exactly once per press: from released
    modifiers, Shift then Alt switches the layout, and no further sequence of
    scan codes (auto-repeat, other keys, either Shift or Alt key pressed and
    released again) switches it back or forth until both modifier families
    have been released. *)
Theorem layout_chord_once s scans :
  shifts s = 0 -> alts s = 0 -> chord s = false -> extended s = false ->
  let s1 := (keyboard_run s [0x2a; 0x38]).1 in
  held_throughout s1 scans ->
  russian s1 = negb (russian s) /\ russian (keyboard_run s1 scans).1 = negb (russian s).
Proof.
  intros Hs Ha Hc He. destruct s as [sh al cp cd ex ch ru co]. cbn in *. subst.
  intros Hh. split; [done|]. by rewrite run_latched.
Qed.

Lemma layout_chord_once_witness :
  let s1 := (keyboard_run keyboard_reset [0x2a; 0x38]).1 in
  russian (keyboard_run s1 [0x38; 0x2a; 0x1e; 0xb8; 0x38]).1 = true.
Proof.
  refine (proj2 (layout_chord_once keyboard_reset [0x38; 0x2a; 0x1e; 0xb8; 0x38]
                   eq_refl eq_refl eq_refl eq_refl _)).
  intros k Hk. cbn in Hk. do 5 (destruct k as [|k]; [reflexivity|]). lia.
Defined.

(** ** What can be typed and drawn *)
(** [key_char] only looks at four bits of the state. *)
Definition kbd_of (shift cp ru co : bool) : Kbd :=
  {| shifts := c_bool shift; alts := 0; caps := cp; caps_down := false; extended := false;
     chord := false; russian := ru; control := co |}.
Lemma key_char_of s key :
  key_char s key = key_char (kbd_of (truth (shifts s)) (caps s) (russian s) (control s)) key.
Proof. unfold key_char. cbn. by destruct (truth (shifts s)). Qed.

(** Control codes, or a character with a glyph of its own. *)
Definition drawable (c : Z) : bool :=
  (0 <=? c) && (c <? 32) || (32 <=? c) && negb (c =? 127) && (negb (text_glyph c =? question) || (c =? 63)).

Definition bools : list bool := [false; true].
Definition all_states : list Kbd :=
  a ← bools; b ← bools; c ← bools; d ← bools; [kbd_of a b c d].
Lemma all_states_in a b c d : kbd_of a b c d ∈ all_states.
Proof. apply list_elem_of_In. destruct a, b, c, d; cbv; intuition. Qed.

Lemma key_char_drawable s key : 0 <= key < 128 -> drawable (key_char s key) = true.
Proof.
  intros Hk. rewrite key_char_of.
  assert (forallb (fun s => forallb (fun k => drawable (key_char s k)) (seqZ 0 128)) all_states = true) as H
    by (vm_compute; reflexivity).
  rewrite forallb_forall in H. pose proof (all_states_in (truth (shifts s)) (caps s) (russian s) (control s)) as Hin.
  apply list_elem_of_In, H in Hin. rewrite forallb_forall in Hin. apply Hin. apply list_elem_of_In, elem_of_seqZ. lia.
Qed.

Definition is_named_key (c : Z) : bool := (KEY_UP <=? c) && (c <=? KEY_ESCAPE).

(** C39: the decoder never produces a character the console cannot show:
    for every byte the controller delivers and every modifier state, the
    result is nothing, one of the eight named keys, a control code, or a
    character that the glyph table maps to a glyph of its own. *)
Theorem keyboard_feed_drawable s scan :
  is_byte scan ->
  let c := (keyboard_feed s scan).2 in is_named_key c || drawable c = true.
Proof.
  intros Hb. cbv zeta. unfold keyboard_feed.
  assert (0 <= Z.land scan 0x7f < 128).
  { change 0x7f with (2 ^ 7 - 1). rewrite land_mask by lia. apply Z.mod_pos_bound. lia. }
  destruct (scan =? 0xe0); [done|].
  destruct (if extended s && _ then _ else None) as [k|] eqn:Ek.
  { destruct (extended s && _); [|done]. unfold extended_key in Ek.
    repeat case_match; simplify_eq; done. }
  repeat (match goal with |- context [if ?b then _ else _] => destruct b; try done end). cbn [snd]. by rewrite key_char_drawable, orb_true_r.
Qed.

Lemma keyboard_feed_drawable_witness :
  is_named_key (keyboard_feed (kbd_of true false true false) 0x29).2
  || drawable (keyboard_feed (kbd_of true false true false) 0x29).2 = true.
Proof. apply (keyboard_feed_drawable (kbd_of true false true false) 0x29). split; lia || reflexivity. Defined.

(** Every scan sequence tried to type a character: plain, or with Shift. *)
Definition type_key (key : Z) (shift : bool) : list Z :=
  if shift then [0x2a; key; 0xaa] else [key].
Definition typable (ru : Z) (c : Z) : bool :=
  existsb (fun shift => existsb (fun key =>
    bool_decide ((keyboard_run (keyboard_set_layout keyboard_reset ru) (type_key key shift)).2 = [c]))
    (seqZ 0 128)) bools.
Definition drawable_chars : list Z := seqZ 32 95 ++ seqZ 0x410 64 ++ [0x401; 0x451; 0x2116].

Lemma drawable_listed c : 32 <= c -> drawable c = true -> c ∈ drawable_chars.
Proof.
  unfold drawable, text_glyph, question, drawable_chars. intros Hc Hd.
  rewrite !elem_of_app, !elem_of_seqZ, !elem_of_cons.
  apply orb_true_iff in Hd as [Hd|Hd]; bool_to_prop; [lia|].
  destruct (c <? 128) eqn:?; [bool_to_prop; lia|].
  destruct ((0x410 <=? c) && (c <=? 0x43f)) eqn:?; [bool_to_prop; lia|].
  destruct ((0x440 <=? c) && (c <=? 0x44f)) eqn:?; [bool_to_prop; lia|].
  destruct (c =? 0x401) eqn:?; [bool_to_prop; lia|].
  destruct (c =? 0x451) eqn:?; [bool_to_prop; lia|].
  destruct (c =? 0x2116) eqn:?; [bool_to_prop; lia|].
  apply orb_true_iff in H0 as [H0|H0]; bool_to_prop; [done|lia].
Qed.

(** C40: The two layouts are complete: every printable character the console
    has a glyph for, all of ASCII, both cases of the Cyrillic alphabet with
    its two extra letters and the numero sign, is produced by pressing one
    key, possibly with Shift, in the English or in the Russian layout. *)
Theorem keyboard_complete c :
  32 <= c -> drawable c = true ->
  exists ru key shift,
    (keyboard_run (keyboard_set_layout keyboard_reset ru) (type_key key shift)).2 = [c].
Proof.
  intros Hc Hd.
  assert (forallb (fun c => typable 0 c || typable 1 c) drawable_chars = true) as H
    by (vm_compute; reflexivity).
  rewrite forallb_forall in H. specialize (H c (proj1 (list_elem_of_In _ _) (drawable_listed c Hc Hd))).
  assert (exists ru, typable ru c = true) as [ru Hru]
    by (apply orb_true_iff in H as [H|H]; [by exists 0|by exists 1]).
  unfold typable in Hru. apply existsb_exists in Hru as (shift & _ & Hs).
  apply existsb_exists in Hs as (key & _ & Hk). exists ru, key, shift.
  by apply bool_decide_eq_true in Hk.
Qed.

Lemma keyboard_complete_witness :
  exists ru key shift,
    (keyboard_run (keyboard_set_layout keyboard_reset ru) (type_key key shift)).2 = [0x2116].
Proof. apply (keyboard_complete 0x2116); [lia|reflexivity]. Defined.
