(* ===== verification/Ext2Core.v ===== *)
(** * Ext2 engine: memory, block cache, geometry and allocation

    The first half of src/fs.c.  The engine keeps a superblock, the group
    descriptors and a cache that pins every block a public operation touches;
    C pointers into them are a region and an offset, and a dereference outside
    its region is undefined behaviour ([None]).  The device beneath is the
    interface [BlockDevice]: what src/disk.c offers to the engine. *)
From Stdlib Require Import String.
From S2P Require Import Prelude CString.

(** ** The device interface *)
Class BlockDevice (D : Type) := {
  disk_present : D -> bool * D;
  disk_sectors : D -> Z;
  (** Success, what the buffer holds afterwards, and the device. *)
  disk_read_many : D -> Z -> Z -> bool * list Z * D;
  disk_write : D -> Z -> list Z -> bool * D;
  disk_flush : D -> bool * D }.

Definition BLOCK_SIZE : Z := 1024.
Definition MAX_BLOCKS : Z := 5 * 1024 * 1024.
Definition MAX_GROUPS : Z := 640.
Definition CACHE_BLOCKS : Z := 2048.
Definition ROOT_INO : Z := 2.
Definition FILE_MODE : Z := 0x8000.
Definition DIR_MODE : Z := 0x4000.
Definition MAX_FILE : Z := (12 + 256) * 1024.
Definition MAX_NAME : Z := 23.

(** ** State *)
Record CacheSlot := { slot_block : Z; slot_data : list Z; slot_before : list Z }.
Record Geometry := {
  blocks : Z; inode_count : Z; inode_size : Z; first_inode : Z;
  groups : Z; blocks_per_group : Z; inodes_per_group : Z; descriptor_blocks : Z;
  table_blocks : Z; filetype : bool }.
(** What the operations print: a literal, a translated text or a number. *)
Inductive Text := Lit (s : list Z) | Tr (s : string) | Uint (n : Z).
Inductive Output := Print (color : Z) (t : Text) | Println (color : Z) (t : Text).

Record Fs (D : Type) := {
  dev : D;
  superblock : list Z; descriptors : list Z;
  saved_super : list Z; saved_descriptors : list Z;
  cache : list CacheSlot; cache_error : bool; failed_block : list Z;
  geo : Geometry;
  cwd : Z; hint_block : Z; hint_inode : Z;
  mounted : bool; output : list Output }.
Arguments dev {D}. Arguments superblock {D}. Arguments descriptors {D}.
Arguments saved_super {D}. Arguments saved_descriptors {D}.
Arguments cache {D}. Arguments cache_error {D}. Arguments failed_block {D}.
Arguments geo {D}. Arguments cwd {D}. Arguments hint_block {D}. Arguments hint_inode {D}.
Arguments mounted {D}. Arguments output {D}.

(** ** Pointers *)
Inductive Region := RSuper | RDesc | RCache (slot : nat) | RFailed.
Definition Ptr : Type := Region * Z.
Definition padd (p : Ptr) (n : Z) : Ptr := (p.1, p.2 + n).

Section Engine.
Context {D : Type} `{BD : BlockDevice D}.
#[local] Abbreviation St := (Fs D).

(** ** The monad: state, and [None] for undefined behaviour *)
Definition M (A : Type) : Type := St -> option (A * St).
Definition ret {A} (a : A) : M A := fun s => Some (a, s).
Definition bind {A B} (m : M A) (f : A -> M B) : M B :=
  fun s => match m s with Some (a, s') => f a s' | None => None end.
Definition gets {A} (f : St -> A) : M A := fun s => Some (f s, s).
Definition modify (f : St -> St) : M unit := fun s => Some (tt, f s).
Definition undefined {A} : M A := fun _ => None.

Definition set_dev (d : D) (s : St) : St :=
  {| dev := d; superblock := superblock s; descriptors := descriptors s; saved_super := saved_super s;
     saved_descriptors := saved_descriptors s; cache := cache s; cache_error := cache_error s;
     failed_block := failed_block s; geo := geo s; cwd := cwd s; hint_block := hint_block s;
     hint_inode := hint_inode s; mounted := mounted s; output := output s |}.
Definition set_super (x : list Z) (s : St) : St :=
  {| dev := dev s; superblock := x; descriptors := descriptors s; saved_super := saved_super s;
     saved_descriptors := saved_descriptors s; cache := cache s; cache_error := cache_error s;
     failed_block := failed_block s; geo := geo s; cwd := cwd s; hint_block := hint_block s;
     hint_inode := hint_inode s; mounted := mounted s; output := output s |}.
Definition set_descriptors (x : list Z) (s : St) : St :=
  {| dev := dev s; superblock := superblock s; descriptors := x; saved_super := saved_super s;
     saved_descriptors := saved_descriptors s; cache := cache s; cache_error := cache_error s;
     failed_block := failed_block s; geo := geo s; cwd := cwd s; hint_block := hint_block s;
     hint_inode := hint_inode s; mounted := mounted s; output := output s |}.
Definition set_saved (x y : list Z) (s : St) : St :=
  {| dev := dev s; superblock := superblock s; descriptors := descriptors s; saved_super := x;
     saved_descriptors := y; cache := cache s; cache_error := cache_error s;
     failed_block := failed_block s; geo := geo s; cwd := cwd s; hint_block := hint_block s;
     hint_inode := hint_inode s; mounted := mounted s; output := output s |}.
Definition set_cache (x : list CacheSlot) (s : St) : St :=
  {| dev := dev s; superblock := superblock s; descriptors := descriptors s; saved_super := saved_super s;
     saved_descriptors := saved_descriptors s; cache := x; cache_error := cache_error s;
     failed_block := failed_block s; geo := geo s; cwd := cwd s; hint_block := hint_block s;
     hint_inode := hint_inode s; mounted := mounted s; output := output s |}.
Definition set_error (b : bool) (s : St) : St :=
  {| dev := dev s; superblock := superblock s; descriptors := descriptors s; saved_super := saved_super s;
     saved_descriptors := saved_descriptors s; cache := cache s; cache_error := b;
     failed_block := failed_block s; geo := geo s; cwd := cwd s; hint_block := hint_block s;
     hint_inode := hint_inode s; mounted := mounted s; output := output s |}.
Definition set_failed (x : list Z) (s : St) : St :=
  {| dev := dev s; superblock := superblock s; descriptors := descriptors s; saved_super := saved_super s;
     saved_descriptors := saved_descriptors s; cache := cache s; cache_error := cache_error s;
     failed_block := x; geo := geo s; cwd := cwd s; hint_block := hint_block s;
     hint_inode := hint_inode s; mounted := mounted s; output := output s |}.
Definition set_geo (x : Geometry) (s : St) : St :=
  {| dev := dev s; superblock := superblock s; descriptors := descriptors s; saved_super := saved_super s;
     saved_descriptors := saved_descriptors s; cache := cache s; cache_error := cache_error s;
     failed_block := failed_block s; geo := x; cwd := cwd s; hint_block := hint_block s;
     hint_inode := hint_inode s; mounted := mounted s; output := output s |}.
Definition set_cwd (x : Z) (s : St) : St :=
  {| dev := dev s; superblock := superblock s; descriptors := descriptors s; saved_super := saved_super s;
     saved_descriptors := saved_descriptors s; cache := cache s; cache_error := cache_error s;
     failed_block := failed_block s; geo := geo s; cwd := x; hint_block := hint_block s;
     hint_inode := hint_inode s; mounted := mounted s; output := output s |}.
Definition set_hints (b i : Z) (s : St) : St :=
  {| dev := dev s; superblock := superblock s; descriptors := descriptors s; saved_super := saved_super s;
     saved_descriptors := saved_descriptors s; cache := cache s; cache_error := cache_error s;
     failed_block := failed_block s; geo := geo s; cwd := cwd s; hint_block := b;
     hint_inode := i; mounted := mounted s; output := output s |}.
Definition set_mounted (b : bool) (s : St) : St :=
  {| dev := dev s; superblock := superblock s; descriptors := descriptors s; saved_super := saved_super s;
     saved_descriptors := saved_descriptors s; cache := cache s; cache_error := cache_error s;
     failed_block := failed_block s; geo := geo s; cwd := cwd s; hint_block := hint_block s;
     hint_inode := hint_inode s; mounted := b; output := output s |}.
Definition add_output (o : Output) (s : St) : St :=
  {| dev := dev s; superblock := superblock s; descriptors := descriptors s; saved_super := saved_super s;
     saved_descriptors := saved_descriptors s; cache := cache s; cache_error := cache_error s;
     failed_block := failed_block s; geo := geo s; cwd := cwd s; hint_block := hint_block s;
     hint_inode := hint_inode s; mounted := mounted s; output := output s ++ [o] |}.

End Engine.

Declare Scope fs_scope.
Delimit Scope fs_scope with fs.
Notation "'let*' x ':=' m 'in' k" := (bind m (fun x => k))
  (at level 10, x name, m at level 100, k at level 200) : fs_scope.
Notation "m ';;' k" := (bind m (fun _ => k)) (at level 100, k at level 200, right associativity) : fs_scope.
Open Scope fs_scope.

Section Memory.
Context {D : Type} `{BD : BlockDevice D}.
#[local] Abbreviation St := (Fs D).
#[local] Abbreviation M := (@M D).

Definition print (color : Z) (t : Text) : M unit := modify (add_output (Print color t)).
Definition println (color : Z) (t : Text) : M unit := modify (add_output (Println color t)).

Definition region (s : St) (r : Region) : option (list Z) :=
  match r with
  | RSuper => Some (superblock s)
  | RDesc => Some (descriptors s)
  | RCache i => slot_data <$> cache s !! i
  | RFailed => Some (failed_block s)
  end.
Definition set_region (r : Region) (l : list Z) (s : St) : St :=
  match r with
  | RSuper => set_super l s
  | RDesc => set_descriptors l s
  | RCache i =>
      set_cache (alter (fun c => {| slot_block := slot_block c; slot_data := l; slot_before := slot_before c |}) i
                       (cache s)) s
  | RFailed => set_failed l s
  end.

(** Reading and writing [n] bytes at a pointer. *)
Definition load (p : Ptr) (n : Z) : M (list Z) := fun s =>
  match region s p.1 with
  | Some l => if (0 <=? p.2) && (0 <=? n) && (p.2 + n <=? zlen l)
              then Some (take (Z.to_nat n) (drop (Z.to_nat p.2) l), s) else None
  | None => None
  end.
Definition store (p : Ptr) (bs : list Z) : M unit := fun s =>
  match region s p.1 with
  | Some l => if (0 <=? p.2) && (p.2 + zlen bs <=? zlen l)
              then Some (tt, set_region p.1 (take (Z.to_nat p.2) l ++ bs ++ drop (Z.to_nat (p.2 + zlen bs)) l) s)
              else None
  | None => None
  end.

Definition load8 (p : Ptr) : M Z := let* l := load p 1 in ret (byte_at l 0).
Definition store8 (p : Ptr) (v : Z) : M unit := store p [u8 v].
Definition memset_at (p : Ptr) (v n : Z) : M unit := store p (replicate (Z.to_nat n) (u8 v)).

(** ** Little-endian accessors *)
Definition get16 (p : Ptr) : M Z :=
  let* a := load8 p in let* b := load8 (padd p 1) in ret (Z.lor a (Z.shiftl b 8)).
Definition get32 (p : Ptr) : M Z :=
  let* a := get16 p in let* b := get16 (padd p 2) in ret (Z.lor a (Z.shiftl b 16)).
Definition put16 (p : Ptr) (n : Z) : M unit :=
  store8 p n;; store8 (padd p 1) (Z.shiftr n 8).
Definition put32 (p : Ptr) (n : Z) : M unit :=
  put16 p n;; put16 (padd p 2) (Z.shiftr n 16).
Definition bit (map : Ptr) (n : Z) : M bool :=
  let* b := load8 (padd map (n / 8)) in ret (truth (Z.land (Z.shiftr b (n mod 8)) 1)).
Definition setbit (map : Ptr) (n : Z) (used : bool) : M unit :=
  let p := padd map (n / 8) in
  let* b := load8 p in
  if used then store8 p (Z.lor b (Z.shiftl 1 (n mod 8)))
  else store8 p (Z.land b (Z.lnot (Z.shiftl 1 (n mod 8)))).

Definition SB : Ptr := (RSuper, 0).
Definition GD : Ptr := (RDesc, 0).
Definition group_desc (g : Z) : Ptr := padd GD (g * 32).

(** ** The block cache *)
Definition cache_reset : M unit := modify (fun s => set_cache [] (set_error false s)).

Fixpoint find_slot (l : list CacheSlot) (n : Z) : option nat :=
  match l with
  | [] => None
  | c :: l' => if slot_block c =? n then Some O else S <$> find_slot l' n
  end.

Definition read_device (lba count : Z) : M (bool * list Z) := fun s =>
  let '(ok, bytes, d) := disk_read_many (dev s) lba count in Some ((ok, bytes), set_dev d s).

Definition block_fail : M Ptr :=
  modify (fun s => set_failed (replicate 1024 0) (set_error true s));; ret (RFailed, 0).

Definition block (n : Z) : M Ptr :=
  let* c := gets cache in
  match find_slot c n with
  | Some i => ret (RCache i, 0)
  | None =>
      let* g := gets geo in
      if (blocks g <=? n) || (zlen c =? CACHE_BLOCKS) then block_fail
      else
        let* r := read_device (u32 (n * 2)) 2 in
        modify (set_failed r.2);;
        if r.1 then
          modify (fun s => set_cache (c ++ [{| slot_block := n; slot_data := r.2; slot_before := r.2 |}]) s);;
          ret (RCache (length c), 0)
        else block_fail
  end.

(** ** Geometry *)
(** [while (n > 1 && n % base == 0) n /= base; return n == 1;]; 32 rounds
    empty any 32-bit number. *)
Fixpoint power_of (fuel : nat) (n base : Z) : bool :=
  match fuel with
  | O => n =? 1
  | S fuel' => if (1 <? n) && (n mod base =? 0) then power_of fuel' (n / base) base else n =? 1
  end.

Definition backup_group (g : Z) : M bool :=
  let* sparse := get32 (padd SB 100) in
  ret (negb (has_bits sparse 1) || (g =? 0) || (g =? 1) ||
       power_of 32 g 3 || power_of 32 g 5 || power_of 32 g 7).

Definition group_start (G : Geometry) (g : Z) : Z := u32 (1 + g * blocks_per_group G).
Definition group_size (G : Geometry) (g : Z) : Z :=
  let remaining := u32 (blocks G - group_start G g) in
  if remaining <? blocks_per_group G then remaining else blocks_per_group G.

Definition data_block (b : Z) : M bool :=
  let* G := gets geo in
  if (b =? 0) || (blocks G <=? b) then ret false
  else
    let g := (b - 1) / blocks_per_group G in
    let desc := group_desc g in
    let* table := get32 (padd desc 8) in
    let* backup := backup_group g in
    if backup && (b <? u32 (group_start G g + 1 + descriptor_blocks G)) then ret false
    else
      let* bitmap := get32 desc in
      if b =? bitmap then ret false
      else
        let* imap := get32 (padd desc 4) in
        if b =? imap then ret false
        else ret (negb ((table <=? b) && (b <? u32 (table + table_blocks G)))).

(** A null result is [None]. *)
Definition inode (n : Z) : M (option Ptr) :=
  let* G := gets geo in
  if (n =? 0) || (inode_count G <? n) then ret None
  else
    let g := (n - 1) / inodes_per_group G in
    let index := (n - 1) mod inodes_per_group G in
    let desc := group_desc g in
    let* imap := get32 (padd desc 4) in
    let* map := block imap in
    let* used := bit map index in
    if negb used then ret None
    else
      let offset := index * inode_size G in
      let* table := get32 (padd desc 8) in
      let* base := block (u32 (table + offset / BLOCK_SIZE)) in
      ret (Some (padd base (offset mod BLOCK_SIZE))).

Definition kind (node : Ptr) : M Z := let* m := get16 node in ret (Z.land m 0xF000).

Definition RED : Z := 4.

Definition engine_ready : M bool :=
  let* m := gets mounted in
  if m then
    let* p := (fun s => let '(p, d) := disk_present (dev s) in Some (p, set_dev d s)) in
    if negb p then
      modify (set_mounted false);;
      println RED (Tr "device removed; filesystem unmounted");; ret false
    else ret true
  else ret false.

(** ** Files: twelve direct pointers and one indirect block *)
Definition file_block (node : Ptr) (index : Z) : M Z :=
  if index <? 12 then get32 (padd node (40 + index * 4))
  else
    let* indirect := get32 (padd node 88) in
    if truth indirect then
      let* base := block indirect in get32 (padd base ((index - 12) * 4))
    else ret 0.

(** [seen] holds the blocks marked so far; [None] is the failing return. *)
Definition mark_block (seen : list Z) (b : Z) : M (option (list Z)) :=
  let* d := data_block b in
  if negb d then ret None
  else
    let* G := gets geo in
    let g := (b - 1) / blocks_per_group G in
    let* bitmap := get32 (group_desc g) in
    let* map := block bitmap in
    let* used := bit map (u32 (b - group_start G g)) in
    if negb used then ret None
    else if existsb (Z.eqb b) seen then ret None
    else if 269 <=? zlen seen then undefined  (* the array [seen[269]] *)
    else
      let* e := gets cache_error in
      if e then ret None else ret (Some (seen ++ [b])).

Fixpoint supported_blocks (fuel : nat) (node : Ptr) (dir : bool) (size i limit : Z) (seen : list Z)
  : M (option (list Z)) :=
  match fuel with
  | O => undefined
  | S fuel' =>
      if i <? limit then
        let* b := file_block node i in
        let* r := if truth b then mark_block seen b else ret (Some seen) in
        match r with
        | None => ret None
        | Some seen' =>
            if dir && (i <? size / BLOCK_SIZE) && negb (truth b) then ret None
            else supported_blocks fuel' node dir size (i + 1) limit seen'
        end
      else ret (Some seen)
  end.

(** The header checks of [supported] up to the size of a directory. *)
Definition supported_header (node : Ptr) (type : Z) : M bool :=
  let* k := kind node in
  if negb (k =? type) then ret false
  else
    let* f := get32 (padd node 32) in
    if truth f then ret false
    else
      let* acl := get32 (padd node 104) in
      if truth acl then ret false
      else
        let* size := get32 (padd node 4) in
        let* big := if negb (type =? FILE_MODE) then ret false
                    else if MAX_FILE <? size then ret true
                    else let* h := get32 (padd node 108) in ret (truth h) in
        if big : bool then ret false
        else
          let* d := get32 (padd node 92) in
          if truth d then ret false
          else let* t := get32 (padd node 96) in ret (negb (truth t)).

Definition supported (node : option Ptr) (type : Z) : M bool :=
  match node with
  | None => ret false
  | Some node =>
      let* ok := supported_header node type in
      if negb ok then ret false
      else
        let* size := get32 (padd node 4) in
        let dir := type =? DIR_MODE in
        let* ind := get32 (padd node 88) in
        if dir && ((size =? 0) || (12 * BLOCK_SIZE <? size) || negb (size mod BLOCK_SIZE =? 0) || truth ind)
        then ret false
        else
          let* r := if truth ind then mark_block [] ind else ret (Some []) in
          match r with
          | None => ret false
          | Some seen =>
              let limit := if type =? FILE_MODE then 268 else 12 in
              let* r := supported_blocks 269 node dir size 0 limit seen in
              match r with
              | None => ret false
              | Some seen =>
                  let* links := get16 (padd node 26) in
                  if links =? 0 then ret false
                  else let* count := get32 (padd node 28) in ret (count =? zlen seen * 2)
              end
          end
  end.

(** ** Allocation *)
Definition counters (is_inode : bool) (g : Z) : Ptr * Ptr :=
  (padd SB (if is_inode then 16 else 12), padd (group_desc g) (if is_inode then 14 else 12)).
Definition map_field (is_inode : bool) (g : Z) : Ptr := padd (group_desc g) (if is_inode then 4 else 0).

(** First clear bit of [map] from [i], among [n] of them. *)
Fixpoint find_clear (n : nat) (map : Ptr) (i : Z) : M (option Z) :=
  match n with
  | O => ret None
  | S n' => let* used := bit map i in if used then find_clear n' map (i + 1) else ret (Some i)
  end.

(** What [allocate] does with the clear bit [i] of group [g]. *)
Definition claim (is_inode : bool) (g : Z) (map : Ptr) (i : Z) : M Z :=
  let* G := gets geo in
  let '(sc, gc) := counters is_inode g in
  let n := u32 (if is_inode then g * inodes_per_group G + i + 1 else group_start G g + i) in
  let* bad := if is_inode then ret false else let* d := data_block n in ret (negb d) in
  if bad : bool then ret 0
  else
    let* total := get32 sc in
    let* e := gets cache_error in
    if (total =? 0) || e then ret 0
    else
      setbit map i true;;
      put32 sc (u32 (total - 1));;
      (let* c := get16 gc in put16 gc (u32 (c - 1)));;
      (if is_inode then
         let* p := inode n in
         match p with Some p => memset_at p 0 (inode_size G) | None => undefined end
       else let* p := block n in memset_at p 0 BLOCK_SIZE);;
      modify (fun s => if is_inode then set_hints (hint_block s) g s else set_hints g (hint_inode s) s);;
      let* e := gets cache_error in
      ret (if e then 0 else n).

Fixpoint allocate_from (n : nat) (is_inode : bool) (step : Z) : M Z :=
  match n with
  | O => ret 0
  | S n' =>
      let* G := gets geo in
      let* hint := gets (fun s => if is_inode then hint_inode s else hint_block s) in
      let g := u32 (hint + step) mod groups G in
      let* free := get16 (counters is_inode g).2 in
      if free =? 0 then allocate_from n' is_inode (step + 1)
      else
        let* field := get32 (map_field is_inode g) in
        let* map := block field in
        let limit := if is_inode then inodes_per_group G else group_size G g in
        let start := if is_inode && (g =? 0) then first_inode G - 1 else 0 in
        let* i := find_clear (Z.to_nat (limit - start)) map start in
        match i with Some i => claim is_inode g map i | None => ret 0 end
  end.
Definition allocate (is_inode : bool) : M Z :=
  let* G := gets geo in allocate_from (Z.to_nat (groups G)) is_inode 0.

Definition release (n : Z) (is_inode : bool) : M unit :=
  let* G := gets geo in
  let per_group := if is_inode then inodes_per_group G else blocks_per_group G in
  let g := u32 (n - 1) / per_group in
  let index := if is_inode then u32 (n - 1) mod per_group else u32 (n - group_start G g) in
  let* field := get32 (map_field is_inode g) in
  let* map := block field in
  let '(sc, gc) := counters is_inode g in
  setbit map index false;;
  (let* c := get32 sc in put32 sc (u32 (c + 1)));;
  (let* c := get16 gc in put16 gc (u32 (c + 1))).

End Memory.
