(* ===== verification/Ext2Dir.v ===== *)
(** * Ext2 engine: directories and paths

    Directory records, lookup, paths and insertion (src/fs.c, 175-253 and
    286-318).  Every loop over the records of a directory is an instance of
    one combinator, [walk]: the C code repeats the same two loops. *)
From Stdlib Require Import String.
From S2P Require Import Prelude CString Ext2Core.

Section Directory.
Context {D : Type} `{BD : BlockDevice D}.
#[local] Abbreviation M := (@M D).

(** ** Records *)
Definition record (entry : Ptr) (remaining : Z) : M bool :=
  if remaining <? 8 then ret false
  else
    let* length := get16 (padd entry 4) in
    let* names := load8 (padd entry 6) in
    if negb ((8 <=? length) && (length mod 4 =? 0) && (length <=? remaining) && (names <=? length - 8))
    then ret false
    else
      let* G := gets geo in
      let* typed := if filetype G then ret true
                    else let* t := load8 (padd entry 7) in ret (t =? 0) in
      if negb typed then ret false
      else let* ino := get32 entry in ret (ino <=? inode_count G).

Definition name_equal (e : Ptr) (name : list Z) : M bool :=
  let* n := load8 (padd e 6) in
  if negb (n =? strlen name) then ret false
  else let* text := load (padd e 8) n in ret (strncmp text name (Z.to_nat n) =? 0).

(** ** Walking the records of a block and the blocks of a directory.
    [body] sees each record and stops ([inr]) or goes on with a new
    accumulator; [bad] is the result for an invalid record, met with that
    accumulator. *)
Fixpoint walk_block {A R} (fuel : nat) (bad : A -> R) (body : A -> Ptr -> M (A + R)) (base : Ptr) (off : Z) (acc : A)
  : M (A + R) :=
  match fuel with
  | O => undefined
  | S fuel' =>
      if off <? BLOCK_SIZE then
        let e := padd base off in
        let* ok := record e (BLOCK_SIZE - off) in
        if negb ok then ret (inr (bad acc))
        else
          let* r := body acc e in
          match r with
          | inr stop => ret (inr stop)
          | inl acc' => let* len := get16 (padd e 4) in walk_block fuel' bad body base (off + len) acc'
          end
      else ret (inl acc)
  end.

(** A record is at least eight bytes long: 129 steps pass 1024 bytes. *)
Definition RECORDS : nat := 129.

Fixpoint walk_from {A R} (fuel : nat) (limit : M Z) (bad : A -> R) (body : A -> Ptr -> M (A + R))
    (node : Ptr) (i : Z) (acc : A) : M (A + R) :=
  match fuel with
  | O => undefined
  | S fuel' =>
      let* count := limit in
      if i <? count then
        let* b := get32 (padd node (40 + i * 4)) in
        let* base := block b in
        let* r := walk_block RECORDS bad body base 0 acc in
        match r with
        | inr stop => ret (inr stop)
        | inl acc' => walk_from fuel' limit bad body node (i + 1) acc'
        end
      else ret (inl acc)
  end.

(** [for (i = 0; i < get32(node + 4) / BLOCK_SIZE; i++)]: the size is read in
    every round.  A supported directory has at most twelve blocks. *)
Definition dir_count (node : Ptr) : M Z := let* size := get32 (padd node 4) in ret (size / BLOCK_SIZE).
Definition walk {A R} (bad : A -> R) (body : A -> Ptr -> M (A + R)) (node : Ptr) (acc : A) : M (A + R) :=
  walk_from 13 (dir_count node) bad body node 0 acc.

(** ** Lookup *)
(** The body of the loop: the first used record of that name. *)
Definition lookup_body (name : list Z) (_ : unit) (e : Ptr) : M (unit + (Z * option Ptr)) :=
  let* ino := get32 e in
  if ino =? 0 then ret (inl tt)
  else
    let* eq := name_equal e name in
    if eq then let* n := get32 e in ret (inr (n, Some e)) else ret (inl tt).

(** The inode, -1 for an absent name, -2 for an unsupported directory; with
    the record found, which the C code stores through [found]. *)
Definition lookup (dir : Z) (name : list Z) : M (Z * option Ptr) :=
  let* node := inode dir in
  let* ok := supported node DIR_MODE in
  match ok, node with
  | true, Some node =>
      let* r := walk (fun _ => (-2, None)) (lookup_body name) node tt in
      match r with inr found => ret found | inl _ => ret (-1, None) end
  | _, _ => ret (-2, None)
  end.

Definition dot : list Z := [46].
Definition dotdot : list Z := [46; 46].
Definition SLASH : Z := 47.

Fixpoint skip_slashes (p : list Z) : list Z :=
  match p with
  | c :: p' => if c =? SLASH then skip_slashes p' else p
  | [] => []
  end.
(** One component, at most [MAX_NAME] bytes, and the rest of the path. *)
Fixpoint take_part (p : list Z) (n : Z) : option (list Z * list Z) :=
  match p with
  | c :: p' =>
      if c =? SLASH then Some ([], p)
      else if n =? MAX_NAME then None
      else match take_part p' (n + 1) with
           | Some (part, rest) => Some (c :: part, rest)
           | None => None
           end
  | [] => Some ([], [])
  end.

(** Fuel: every round consumes at least one byte of the path. *)
Fixpoint path_loop (fuel : nat) (dir : Z) (p : list Z) : M Z :=
  match fuel with
  | O => undefined
  | S fuel' =>
      match p with
      | [] => ret dir
      | _ =>
          match take_part p 0 with
          | None => ret (-1)
          | Some (part, rest) =>
              let* child := if strcmp part dot =? 0 then ret dir
                            else let* r := lookup dir part in ret r.1 in
              if child <=? 0 then ret (-1)
              else path_loop fuel' child (skip_slashes rest)
          end
      end
  end.

Definition lookup_path (path : list Z) : M Z :=
  match path with
  | [] => ret (-1)
  | c :: _ =>
      let* current := gets cwd in
      let dir := if c =? SLASH then ROOT_INO else current in
      let p := skip_slashes path in
      match p with
      | [] => ret dir
      | _ => path_loop (S (length p)) dir p
      end
  end.

Definition valid_name (name : list Z) : bool :=
  let length := strlen name in
  (0 <? length) && (length <=? MAX_NAME) &&
  match strchr name SLASH with None => true | Some _ => false end &&
  negb (strcmp name dot =? 0) && negb (strcmp name dotdot =? 0).

(** ** Insertion *)
Definition entry_set (e : Ptr) (ino len : Z) (name : list Z) (type : Z) : M unit :=
  memset_at e 0 len;;
  put32 e ino;;
  put16 (padd e 4) len;;
  store8 (padd e 6) (strlen name);;
  (let* G := gets geo in
   store8 (padd e 7) (if filetype G then (if type =? DIR_MODE then 2 else 1) else 0));;
  let* n := load8 (padd e 6) in
  store (padd e 8) (take (Z.to_nat n) name).

(** Bytes of a record that holds a name of [n] bytes. *)
Definition record_size (n : Z) : Z := Z.land (8 + n + 3) (Z.lnot 3).

Definition insert_body (name : list Z) (ino type need : Z) (_ : unit) (e : Ptr) : M (unit + Z) :=
  let* len := get16 (padd e 4) in
  let* used_ino := get32 e in
  let* used := if used_ino =? 0 then ret 0
               else let* n := load8 (padd e 6) in ret (record_size n) in
  if need <=? u32 (len - used) then
    (if used =? 0 then ret tt else put16 (padd e 4) used);;
    entry_set (padd e used) ino (len - used) name type;;
    ret (inr 0)
  else ret (inl tt).

(** The last part of [insert]: a new block at the end of the directory. *)
Definition insert_grow (node : Ptr) (count : Z) (name : list Z) (ino type : Z) : M Z :=
  if count =? 12 then ret (-1)
  else
    let* b := allocate false in
    if b =? 0 then ret (-1)
    else
      put32 (padd node (40 + count * 4)) b;;
      put32 (padd node 4) (u32 ((count + 1) * BLOCK_SIZE));;
      (let* n := get32 (padd node 28) in put32 (padd node 28) (u32 (n + 2)));;
      (let* p := block b in entry_set p ino BLOCK_SIZE name type);;
      ret 0.

Definition insert (dir : Z) (name : list Z) (ino type : Z) : M Z :=
  let* node := inode dir in
  let* ok := supported node DIR_MODE in
  match ok, node with
  | true, Some node =>
      let* r := lookup dir name in
      if negb (r.1 =? -1) then ret (-1)
      else
        let need := record_size (strlen name) in
        let* count := dir_count node in
        let* r := walk_from 13 (ret count) (fun _ => -1) (insert_body name ino type need) node 0 tt in
        match r with
        | inr result => ret result
        | inl _ => insert_grow node count name ino type
        end
  | _, _ => ret (-1)
  end.

End Directory.
