(* ===== verification/Ext2Ops.v ===== *)
(** * Ext2 engine: transactions and the operations on files

    More of src/fs.c: [begin] and [finish], creation and removal, file
    reading and writing. *)
From Stdlib Require Import String.
From S2P Require Import Prelude CString Ext2Core Ext2Dir.

Section Operations.
Context {D : Type} `{BD : BlockDevice D}.
#[local] Abbreviation M := (@M D).

(** ** Transactions *)
(** False is success, as the return value 0. *)
Definition begin : M bool :=
  let* ready := engine_ready in
  if negb ready then ret true
  else
    let* e := gets cache_error in
    if e then ret true
    else modify (fun s => set_saved (superblock s) (descriptors s) s);; ret false.

(** [memcmp(a, b, n) != 0]. *)
Definition differs (a b : list Z) : bool := negb (bool_decide (a = b)).
Definition sector (l : list Z) (s : nat) : list Z := take 512 (drop (s * 512) l).

Definition write_device (lba : Z) (bs : list Z) : M bool := fun s =>
  let '(ok, d) := disk_write (dev s) lba bs in Some (ok, set_dev d s).
Definition flush_device : M bool := fun s =>
  let '(ok, d) := disk_flush (dev s) in Some (ok, set_dev d s).
Definition m_and (a b : M bool) : M bool := let* x := a in if x then b else ret false.
Definition skip : M bool := ret true.

Definition rollback : M unit :=
  modify (fun s =>
    set_cache (map (fun c => {| slot_block := slot_block c; slot_data := slot_before c;
                                slot_before := slot_before c |}) (cache s))
      (set_super (saved_super s) (set_descriptors (saved_descriptors s) s))).

Definition slot_changed (c : CacheSlot) : bool := differs (slot_data c) (slot_before c).
Definition something_changed : M bool :=
  gets (fun s =>
    differs (superblock s) (saved_super s)
    || differs (take (Z.to_nat (groups (geo s) * 32)) (descriptors s))
               (take (Z.to_nat (groups (geo s) * 32)) (saved_descriptors s))
    || existsb slot_changed (cache s)).

Definition write_super (lba : Z) (half : nat) : M bool :=
  let* sb := gets superblock in write_device lba (sector sb half).

(** The changed sectors of the cached blocks, in the order of the cache. *)
Fixpoint write_slots (l : list CacheSlot) : M bool :=
  match l with
  | [] => skip
  | c :: l' =>
      let half s := if differs (sector (slot_data c) s) (sector (slot_before c) s)
                    then write_device (u32 (slot_block c * 2 + Z.of_nat s)) (sector (slot_data c) s) else skip in
      m_and (half 0%nat) (m_and (half 1%nat) (write_slots l'))
  end.

(** The changed sectors [s], [s+1], ... of the descriptor table. *)
Fixpoint write_descriptors (n : nat) (s : nat) (now before : list Z) : M bool :=
  match n with
  | O => skip
  | S n' =>
      m_and (if differs (sector now s) (sector before s)
             then write_device (4 + Z.of_nat s) (sector now s) else skip)
            (write_descriptors n' (S s) now before)
  end.

Definition set_state (v : Z) : M bool := put16 (padd SB 58) v;; skip.

(** The writes of a changed transaction: the superblock goes to the disk
    marked unclean before the rest and clean after it. *)
Definition commit : M bool :=
  m_and (set_state 2) (m_and (write_super 2 0) (m_and flush_device (m_and (set_state 1)
  (let* c := gets cache in m_and (write_slots c)
  (let* now := gets descriptors in let* before := gets saved_descriptors in let* G := gets geo in
   m_and (write_descriptors (Z.to_nat (descriptor_blocks G * 2)) 0 now before)
  (let* sb := gets superblock in let* old := gets saved_super in
   m_and (if differs (sector sb 1) (sector old 1) then write_super 3 1 else skip)
  (m_and flush_device (m_and (write_super 2 0) flush_device)))))))).

Definition finish (result : Z) : M Z :=
  let* e := gets cache_error in
  if truth result || e then rollback;; ret (-1)
  else
    let* changed := something_changed in
    if negb changed then ret 0
    else
      let* ok := commit in
      if ok then ret 0
      else
        modify (set_mounted false);;
        println RED (Tr "ext2 write failed; run e2fsck before remounting");;
        ret (-1).

(** [if (begin()) return -1; return finish(body);] *)
Definition transaction (body : M Z) : M Z :=
  let* failed := begin in if failed then ret (-1) else let* r := body in finish r.

(** ** Creation *)
Definition create_directory (node : Ptr) (n : Z) : M bool :=
  let* b := allocate false in
  if b =? 0 then ret false
  else
    put32 (padd node 4) BLOCK_SIZE;; put32 (padd node 28) 2;; put32 (padd node 40) b;;
    (let* p := block b in entry_set p n 12 dot DIR_MODE);;
    (let* p := block b in let* parent := gets cwd in
     entry_set (padd p 12) parent (BLOCK_SIZE - 12) dotdot DIR_MODE);;
    let* parent := gets cwd in
    let* parent := inode parent in
    match parent with
    | None => undefined
    | Some parent =>
        let* links := get16 (padd parent 26) in
        if links =? 65535 then ret false
        else
          put16 (padd parent 26) (links + 1);;
          (let* G := gets geo in
           let d := group_desc (u32 (n - 1) / inodes_per_group G) in
           let* dirs := get16 (padd d 16) in put16 (padd d 16) (dirs + 1));;
          ret true
    end.

Definition create (name : list Z) (type : Z) : M Z :=
  if negb (valid_name name) then ret (-1)
  else
    let* dir := gets cwd in
    let* r := lookup dir name in
    if negb (r.1 =? -1) then ret (-1)
    else
      let* n := allocate true in
      if n =? 0 then ret (-1)
      else
        let* node := inode n in
        match node with
        | None => undefined
        | Some node =>
            put16 node (Z.lor type (if type =? DIR_MODE then 0x1ed else 0x1a4));;
            put16 (padd node 26) (if type =? DIR_MODE then 2 else 1);;
            (let* time := get32 (padd SB 48) in put32 (padd node 8) time);;
            (let* time := get32 (padd SB 48) in put32 (padd node 12) time);;
            (let* time := get32 (padd SB 48) in put32 (padd node 16) time);;
            let* ok := if type =? DIR_MODE then create_directory node n else ret true in
            if negb ok then ret (-1)
            else let* dir := gets cwd in insert dir name n type
        end.

Definition engine_touch (name : list Z) : M Z := transaction (create name FILE_MODE).
Definition engine_mkdir (name : list Z) : M Z := transaction (create name DIR_MODE).

(** ** File contents *)
Definition file_slot (node : Ptr) (index : Z) (create_block : bool) : M (option Ptr) :=
  if index <? 12 then ret (Some (padd node (40 + index * 4)))
  else
    let* indirect := get32 (padd node 88) in
    if (indirect =? 0) && create_block then
      let* indirect := allocate false in
      if indirect =? 0 then ret None
      else
        put32 (padd node 88) indirect;;
        (let* n := get32 (padd node 28) in put32 (padd node 28) (u32 (n + 2)));;
        let* base := block indirect in ret (Some (padd base ((index - 12) * 4)))
    else if truth indirect then
      let* base := block indirect in ret (Some (padd base ((index - 12) * 4)))
    else ret None.

Fixpoint truncate_loop (n : nat) (node : Ptr) (i : Z) : M unit :=
  match n with
  | O => ret tt
  | S n' =>
      let* slot := file_slot node i false in
      (match slot with
       | None => ret tt
       | Some slot =>
           let* b := get32 slot in
           if b =? 0 then ret tt
           else
             release b false;; put32 slot 0;;
             let* n := get32 (padd node 28) in put32 (padd node 28) (u32 (n - 2))
       end);;
      truncate_loop n' node (i + 1)
  end.

Definition truncate_blocks (node : Ptr) (keep : Z) : M unit :=
  truncate_loop (Z.to_nat (268 - keep)) node keep;;
  if keep <=? 12 then
    let* indirect := get32 (padd node 88) in
    if indirect =? 0 then ret tt
    else
      release indirect false;; put32 (padd node 88) 0;;
      let* n := get32 (padd node 28) in put32 (padd node 28) (u32 (n - 2))
  else ret tt.

(** One round per block touched: 270 rounds pass the file limit. *)
Fixpoint write_loop (fuel : nat) (node : Ptr) (offset : Z) (data : list Z) : M (option Z) :=
  match fuel with
  | O => undefined
  | S fuel' =>
      match data with
      | [] => ret (Some offset)
      | _ =>
          let index := offset / BLOCK_SIZE in
          let within := offset mod BLOCK_SIZE in
          let chunk := Z.min (BLOCK_SIZE - within) (zlen data) in
          let* slot := file_slot node index true in
          match slot with
          | None => ret None
          | Some slot =>
              let* b0 := get32 slot in
              let* b := if truth b0 then ret b0
                        else
                          let* b := allocate false in
                          if b =? 0 then ret 0
                          else
                            put32 slot b;;
                            (let* n := get32 (padd node 28) in put32 (padd node 28) (u32 (n + 2)));;
                            ret b in
              if b =? 0 then ret None
              else
                (let* p := block b in store (padd p within) (take (Z.to_nat chunk) data));;
                write_loop fuel' node (offset + chunk) (drop (Z.to_nat chunk) data)
          end
      end
  end.

Definition write_range (node : Ptr) (offset : Z) (data : list Z) : M Z :=
  let* r := write_loop 270 node offset data in
  match r with
  | None => ret (-1)
  | Some offset =>
      let* size := get32 (padd node 4) in
      (if size <? offset then put32 (padd node 4) offset else ret tt);; ret 0
  end.

(** [data] holds [size] bytes. *)
Definition write_contents (node : Ptr) (data : list Z) (size : Z) : M Z :=
  truncate_blocks node (u32 (size + BLOCK_SIZE - 1) / BLOCK_SIZE);;
  let* r := write_range node 0 (take (Z.to_nat size) data) in
  if truth r then ret (-1)
  else
    (if truth (size mod BLOCK_SIZE) then
       let* b := file_block node (size / BLOCK_SIZE) in
       let* p := block b in
       memset_at (padd p (size mod BLOCK_SIZE)) 0 (BLOCK_SIZE - size mod BLOCK_SIZE)
     else ret tt);;
    put32 (padd node 4) size;; ret 0.

(** The node of a positive inode number. *)
Definition node_of (n : Z) : M (option Ptr) := if 0 <? n then inode n else ret None.

Definition write_file (name data : list Z) (size : Z) : M Z :=
  if (size <? 0) || (MAX_FILE <? size) || negb (valid_name name) then ret (-1)
  else
    let* dir := gets cwd in
    let* r := lookup dir name in
    let* n := if r.1 =? -1 then
                let* c := create name FILE_MODE in
                if truth c then ret None
                else let* r := lookup dir name in ret (Some r.1)
              else ret (Some r.1) in
    match n with
    | None => ret (-1)
    | Some n =>
        let* node := node_of n in
        let* ok := supported node FILE_MODE in
        match ok, node with
        | true, Some node => write_contents node data size
        | _, _ => ret (-1)
        end
    end.

(** The last slash of a path: what precedes it and what follows it. *)
Fixpoint split_last (p : list Z) : option (list Z * list Z) :=
  match p with
  | [] => None
  | c :: p' =>
      match split_last p' with
      | Some (parent, base) => Some (c :: parent, base)
      | None => if c =? SLASH then Some ([], p') else None
      end
  end.

Definition engine_write (name : option (list Z)) (data : list Z) (size : Z) : M Z :=
  match name with
  | None => ret (-1)
  | Some name =>
      let* failed := begin in
      if failed then ret (-1)
      else
        let* previous := gets cwd in
        match split_last name with
        | None => let* r := write_file name data size in
                  modify (set_cwd previous);; finish r
        | Some (parent, base) =>
            if 256 <=? zlen parent then finish (-1)
            else
              let* dir := lookup_path (match parent with [] => [SLASH] | _ => parent end) in
              let* ok := if dir <=? 0 then ret false
                         else let* node := inode dir in supported node DIR_MODE in
              if negb ok then finish (-1)
              else
                modify (set_cwd dir);;
                let* r := write_file base data size in
                modify (set_cwd previous);; finish r
        end
  end.

Definition engine_size (name : list Z) : M Z :=
  let* ready := engine_ready in
  if negb ready then ret (-1)
  else
    let* n := lookup_path name in
    let* node := node_of n in
    let* ok := supported node FILE_MODE in
    match ok, node with
    | true, Some node => get32 (padd node 4)
    | _, _ => ret (-1)
    end.

Definition engine_exec_check (name : list Z) : M Z :=
  let* ready := engine_ready in
  if negb ready then ret (-5)
  else
    let* n := lookup_path name in
    if n <? 0 then ret (-2)
    else
      let* node := inode n in
      match node with
      | None => ret (-5)
      | Some node =>
          let* k := kind node in
          if negb (k =? FILE_MODE) then ret (-13)
          else
            let* mode := get16 node in
            if negb (has_bits mode 0x49) then ret (-13)
            else let* ok := supported (Some node) FILE_MODE in ret (if ok then 0 else -8)
      end.

Definition engine_is_dir (name : list Z) : M Z :=
  let* ready := engine_ready in
  if negb ready then ret 0
  else
    let* n := lookup_path name in
    if n <=? 0 then ret 0
    else let* node := inode n in let* ok := supported node DIR_MODE in ret (c_bool ok).

(** ** Reading *)
Fixpoint read_loop (fuel : nat) (node : Ptr) (offset size : Z) (out : list Z) : M (list Z) :=
  match fuel with
  | O => undefined
  | S fuel' =>
      if size =? 0 then ret out
      else
        let* b := file_block node (offset / BLOCK_SIZE) in
        let within := offset mod BLOCK_SIZE in
        let chunk := Z.min (BLOCK_SIZE - within) size in
        let* bytes := if truth b then let* p := block b in load (padd p within) chunk
                      else ret (replicate (Z.to_nat chunk) 0) in
        read_loop fuel' node (offset + chunk) (size - chunk) (out ++ bytes)
  end.

(** The result and the bytes stored in the caller's buffer. *)
Definition engine_read (name : list Z) (offset size : Z) : M (Z * list Z) :=
  let* ready := engine_ready in
  if negb ready then ret (-1, [])
  else
    let* n := lookup_path name in
    let* node := node_of n in
    let* ok := supported node FILE_MODE in
    match ok, node with
    | true, Some node =>
        let* length := get32 (padd node 4) in
        if length <? offset then ret (-1, [])
        else
          let size := Z.min size (length - offset) in
          let* out := read_loop 270 node offset size [] in ret (size, out)
    | _, _ => ret (-1, [])
    end.

Definition WHITE : Z := 15.
Definition CYAN : Z := 3.

Fixpoint cat_loop (fuel : nat) (name : list Z) (size offset : Z) : M unit :=
  match fuel with
  | O => undefined
  | S fuel' =>
      if offset <? size then
        let* r := engine_read name offset 256 in
        if r.1 <=? 0 then println RED (Tr "read failed")
        else print WHITE (Lit (cstr r.2));; cat_loop fuel' name size (offset + r.1)
      else println WHITE (Lit [])
  end.
Definition engine_cat (name : list Z) : M unit :=
  let* size := engine_size name in
  if size <? 0 then println RED (Tr "file missing or unsupported")
  else cat_loop (S (Z.to_nat size)) name size 0.

Definition engine_append (name data : list Z) (size : Z) : M Z :=
  let* ready := engine_ready in
  if negb ready || (size <? 0) || (MAX_FILE <? size) then ret (-1)
  else
    let* dir := gets cwd in
    let* r := lookup dir name in
    if r.1 =? -1 then engine_write (Some name) data size
    else
      let* node := node_of r.1 in
      let* ok := supported node FILE_MODE in
      match ok, node with
      | true, Some node =>
          let* length := get32 (padd node 4) in
          if u32 (MAX_FILE - length) <? size then ret (-1)
          else
            transaction (let* offset := get32 (padd node 4) in
                         write_range node offset (take (Z.to_nat size) data))
      | _, _ => ret (-1)
      end.

Definition engine_cp (source destination : list Z) : M Z :=
  let* size := engine_size source in
  if size <? 0 then ret (-1)
  else
    let* dir := gets cwd in
    let* r := lookup dir destination in
    if negb (r.1 =? -1) then ret (-1)
    else
      let* c := engine_read source 0 size in
      if negb (c.1 =? size) then ret (-1)
      else engine_write (Some destination) c.2 size.

(** ** Moving and removing *)
(** Clear a record that a successful lookup must have found. *)
Definition clear_record (e : option Ptr) : M unit :=
  match e with Some e => put32 e 0 | None => undefined end.

Definition move_node (source destination : list Z) : M Z :=
  let* dir := gets cwd in
  let* r := lookup dir source in
  let* node := node_of r.1 in
  if negb (valid_name source) || negb (valid_name destination) then ret (-1)
  else
    match node with
    | None => ret (-1)
    | Some node =>
        let* file := supported (Some node) FILE_MODE in
        let* ok := if file then ret true else supported (Some node) DIR_MODE in
        if negb ok then ret (-1)
        else
          let* d := lookup dir destination in
          if negb (d.1 =? -1) then ret (-1)
          else
            clear_record r.2;;
            let* k := kind node in insert dir destination r.1 k
    end.
Definition engine_mv (source destination : list Z) : M Z := transaction (move_node source destination).

(** Only the two standard entries may be left in a directory. *)
Definition empty_body (_ : unit) (child : Ptr) : M (unit + Z) :=
  let* ino := get32 child in
  if ino =? 0 then ret (inl tt)
  else
    let* d := name_equal child dot in
    if d then ret (inl tt)
    else let* dd := name_equal child dotdot in ret (if dd then inl tt else inr (-1)).

(** The part of [remove_node] for a directory. *)
Definition leave_directory (node : Ptr) (n : Z) : M bool :=
  let* r := walk (fun _ => -1) empty_body node tt in
  match r with
  | inr _ => ret false
  | inl _ =>
      let* links := get16 (padd node 26) in
      if negb (links =? 2) then ret false
      else
        let* dir := gets cwd in
        let* parent := inode dir in
        match parent with
        | None => undefined
        | Some parent =>
            (let* l := get16 (padd parent 26) in put16 (padd parent 26) (l - 1));;
            (let* G := gets geo in
             let d := group_desc (u32 (n - 1) / inodes_per_group G) in
             let* dirs := get16 (padd d 16) in put16 (padd d 16) (dirs - 1));;
            ret true
        end
  end.

(** The inode without links goes back, with its blocks. *)
Definition delete_inode (node : Ptr) (n : Z) : M unit :=
  truncate_blocks node 0;;
  let* G := gets geo in
  let* time := get32 (padd SB 48) in
  let deleted_at := if time <=? inode_count G then u32 (inode_count G + 1) else time in
  memset_at node 0 (inode_size G);; put32 (padd node 20) deleted_at;;
  release n true.

Definition remove_node (name : list Z) (type : Z) : M Z :=
  let* dir := gets cwd in
  let* r := lookup dir name in
  let n := r.1 in
  let* node := node_of n in
  let* G := gets geo in
  if negb (valid_name name) || (n <? s32 (first_inode G)) then ret (-1)
  else
    let* ok := supported node type in
    match ok, node with
    | true, Some node =>
        let* ok := if type =? DIR_MODE then leave_directory node n else ret true in
        if negb ok then ret (-1)
        else
          clear_record r.2;;
          let* links := if type =? DIR_MODE then ret 0
                        else let* l := get16 (padd node 26) in ret (l - 1) in
          put16 (padd node 26) links;;
          (if links =? 0 then delete_inode node n else ret tt);;
          ret 0
    | _, _ => ret (-1)
    end.
Definition engine_rm (name : list Z) : M Z := transaction (remove_node name FILE_MODE).
Definition engine_rmdir (name : list Z) : M Z := transaction (remove_node name DIR_MODE).

Definition engine_cd (name : list Z) : M Z :=
  let* ready := engine_ready in
  if negb ready then ret (-1)
  else
    let* n := lookup_path name in
    let* ok := if n <=? 0 then ret false else let* node := inode n in supported node DIR_MODE in
    if negb ok then ret (-1) else modify (set_cwd n);; ret 0.

End Operations.
