(* ===== verification/Ext2Mount.v ===== *)
(** * Ext2 engine: mounting, listing, and the entry points

    [engine_init], the listing operations and the [ext_] wrappers of
    src/fs.c. *)
From Stdlib Require Import String.
From S2P Require Import Prelude CString Ext2Core Ext2Dir Ext2Ops.

Section Mount.
Context {D : Type} `{BD : BlockDevice D}.
#[local] Abbreviation M := (@M D).

(** ** Mounting.  Every check returns true where the code gives up. *)
Definition m_or (a b : M bool) : M bool := let* x := a in if x then ret true else b.

(** [disk_read(lba, dest)]: the buffer is written even by a failing read. *)
Definition read_into (lba : Z) (dest : Ptr) : M bool :=
  let* r := read_device lba 1 in store dest r.2;; ret (negb r.1).

Definition parse_geometry : M Geometry :=
  let* revision := get32 (padd SB 76) in
  let* blks := get32 (padd SB 4) in let* inodes := get32 SB in
  let* isize := if truth revision then get16 (padd SB 88) else ret 128 in
  let* first := if truth revision then get32 (padd SB 84) else ret 11 in
  let* bpg := get32 (padd SB 32) in let* ipg := get32 (padd SB 40) in
  let* old := gets geo in
  ret {| blocks := blks; inode_count := inodes; inode_size := isize; first_inode := first;
         groups := groups old; blocks_per_group := bpg; inodes_per_group := ipg;
         descriptor_blocks := descriptor_blocks old; table_blocks := table_blocks old;
         filetype := filetype old |}.

Definition superblock_rejected (G : Geometry) : M bool :=
  let* revision := get32 (padd SB 76) in
  let* magic := get16 (padd SB 56) in
  let* state := get16 (padd SB 58) in
  let* log := get32 (padd SB 24) in
  let* flog := get32 (padd SB 28) in
  let* first_block := get32 (padd SB 20) in
  let* frags := get32 (padd SB 36) in
  let* compat := get32 (padd SB 92) in
  let* incompat := get32 (padd SB 96) in
  let* ro := get32 (padd SB 100) in
  let* sectors := gets (fun s => disk_sectors (dev s)) in
  ret (negb (magic =? 0xef53) || (1 <? revision) || negb (state =? 1)
       || truth log || truth flog || negb (first_block =? 1)
       || (blocks G <? 16) || (MAX_BLOCKS <? blocks G) || (sectors / 2 <? blocks G)
       || (blocks_per_group G =? 0) || (8192 <? blocks_per_group G) || negb (frags =? blocks_per_group G)
       || (inodes_per_group G =? 0) || (8192 <? inodes_per_group G)
       || (negb (inode_size G =? 128) && negb (inode_size G =? 256))
       || truth ((inodes_per_group G * inode_size G) mod BLOCK_SIZE)
       || (first_inode G <? 11) || (inode_count G <? first_inode G)
       || (truth revision && (truth compat || has_bits incompat (Z.lnot 2) || has_bits ro (Z.lnot 3)))).

Definition set_groups (G : Geometry) : Geometry :=
  let g := (blocks G - 2) / blocks_per_group G + 1 in
  {| blocks := blocks G; inode_count := inode_count G; inode_size := inode_size G;
     first_inode := first_inode G; groups := g; blocks_per_group := blocks_per_group G;
     inodes_per_group := inodes_per_group G;
     descriptor_blocks := (g * 32 + BLOCK_SIZE - 1) / BLOCK_SIZE;
     table_blocks := inodes_per_group G * inode_size G / BLOCK_SIZE; filetype := filetype G |}.
Definition set_filetype (b : bool) (G : Geometry) : Geometry :=
  {| blocks := blocks G; inode_count := inode_count G; inode_size := inode_size G;
     first_inode := first_inode G; groups := groups G; blocks_per_group := blocks_per_group G;
     inodes_per_group := inodes_per_group G; descriptor_blocks := descriptor_blocks G;
     table_blocks := table_blocks G; filetype := b |}.

Fixpoint read_descriptors (n : nat) (s : Z) : M bool :=
  match n with
  | O => ret false
  | S n' => m_or (read_into (4 + s) (padd GD (s * 512))) (read_descriptors n' (s + 1))
  end.

(** True where a bit of [first, first+n) of the bitmap is clear. *)
Fixpoint any_clear (n : nat) (map : list Z) (i : Z) : bool :=
  match n with
  | O => false
  | S n' => negb (Z.testbit (byte_at map (i / 8)) (i mod 8)) || any_clear n' map (i + 1)
  end.
Definition clear_bit (map : list Z) (i : Z) : bool := negb (Z.testbit (byte_at map (i / 8)) (i mod 8)).

(** The layout checks of one group, from its descriptor's five fields. *)
Definition group_rejected (G : Geometry) (g : Z) (backup : bool) (bitmap imap table free_b free_i : Z) : bool :=
  let first := group_start G g in
  let last := u32 (first + group_size G g) in
  let metadata_end := u32 (first + (if backup then 1 + descriptor_blocks G else 0)) in
  (last <? metadata_end) || (bitmap <? metadata_end) || (last <=? bitmap) || (imap <? metadata_end)
  || (last <=? imap) || (bitmap =? imap) || (table <? metadata_end) || (last <=? table)
  || (u32 (last - table) <? table_blocks G)
  || ((table <=? bitmap) && (bitmap <? table + table_blocks G))
  || ((table <=? imap) && (imap <? table + table_blocks G))
  || (group_size G g <? free_b) || (inodes_per_group G <? free_i).

(** The metadata of a group must be marked as used in its bitmap. *)
Definition bitmap_rejected (G : Geometry) (g : Z) (backup : bool) (bitmap imap table : Z) (map : list Z) : bool :=
  let first := group_start G g in
  let metadata := if backup then 1 + descriptor_blocks G else 0 in
  any_clear (Z.to_nat metadata) map 0
  || clear_bit map (bitmap - first) || clear_bit map (imap - first)
  || any_clear (Z.to_nat (table_blocks G)) map (table - first).

(** The loop over the groups, with the running sums of the free counts;
    [None] is the failing return. *)
Fixpoint check_groups (n : nat) (g free_blocks free_inodes : Z) : M (option (Z * Z)) :=
  match n with
  | O => ret (Some (free_blocks, free_inodes))
  | S n' =>
      let* G := gets geo in
      let d := group_desc g in
      let* bitmap := get32 d in let* imap := get32 (padd d 4) in let* table := get32 (padd d 8) in
      let* backup := backup_group g in
      let* free_b := get16 (padd d 12) in let* free_i := get16 (padd d 14) in
      if group_rejected G g backup bitmap imap table free_b free_i then ret None
      else
        let* r := read_device (u32 (bitmap * 2)) 2 in
        if negb r.1 || bitmap_rejected G g backup bitmap imap table r.2 then ret None
        else check_groups n' (g + 1) (u32 (free_blocks + free_b)) (u32 (free_inodes + free_i))
  end.

(** The reserved inodes must be marked as used. *)
Fixpoint reserved_rejected (n : nat) (imap i : Z) : M bool :=
  match n with
  | O => ret false
  | S n' =>
      let* map := block imap in
      let* used := bit map i in
      if negb used then ret true else reserved_rejected n' imap (i + 1)
  end.

Definition root_rejected : M bool :=
  let* root := inode ROOT_INO in
  let* ok := supported root DIR_MODE in
  if negb ok then ret true
  else
    let* d := lookup ROOT_INO dot in
    if negb (d.1 =? ROOT_INO) then ret true
    else
      let* dd := lookup ROOT_INO dotdot in
      if negb (dd.1 =? ROOT_INO) then ret true else gets cache_error.

(** The second half of [engine_init], for an accepted superblock. *)
Definition init_groups : M Z :=
  let* G := gets geo in
  modify (set_geo (set_groups G));;
  let* G := gets geo in
  if (MAX_GROUPS <? groups G) || negb (inode_count G =? groups G * inodes_per_group G) then ret (-1)
  else
    memset_at GD 0 (MAX_GROUPS * 32);;
    let* failed := read_descriptors (Z.to_nat (descriptor_blocks G * 2)) 0 in
    if failed : bool then ret (-1)
    else
      let* revision := get32 (padd SB 76) in
      let* incompat := get32 (padd SB 96) in
      modify (set_geo (set_filetype (truth revision && has_bits incompat 2) G));;
      let* sums := check_groups (Z.to_nat (groups G)) 0 0 0 in
      match sums with
      | None => ret (-1)
      | Some (free_blocks, free_inodes) =>
          let* fb := get32 (padd SB 12) in let* fi := get32 (padd SB 16) in
          if negb (fb =? free_blocks) || negb (fi =? free_inodes) then ret (-1)
          else
            let* imap := get32 (padd GD 4) in
            let* bad := m_or (reserved_rejected (Z.to_nat (first_inode G - 1)) imap 0) root_rejected in
            if bad then ret (-1)
            else
              modify (set_hints 0 0);; modify (set_cwd ROOT_INO);; modify (set_mounted true);; ret 0
      end.

Definition engine_init : M Z :=
  modify (set_mounted false);;
  let* failed := m_or (read_into 2 SB) (read_into 3 (padd SB 512)) in
  if failed then ret (-1)
  else
    let* G := parse_geometry in
    modify (set_geo G);;
    let* bad := superblock_rejected G in
    if bad : bool then println RED (Tr "Unsupported ext2: requires 1 KiB blocks and at most 5 GiB");; ret (-1)
    else init_groups.

(** ** Listing *)
(** A Linux [dirent]: inode, offset, length, name, and the type in the last byte. *)
Definition dirent (ino offset reclen type : Z) (name : list Z) : list Z :=
  let head := le32_bytes ino ++ le32_bytes offset ++ le16_bytes reclen ++ name in
  head ++ replicate (Z.to_nat (reclen - 1 - zlen head)) 0 ++ [type].

Definition entry_type (ino : Z) : M Z :=
  let* child := inode ino in
  match child with
  | None => ret 0
  | Some child =>
      let* k := kind child in
      if k =? DIR_MODE then ret 4 else let* k := kind child in ret (if k =? FILE_MODE then 8 else 0)
  end.

Record Dents := { d_index : Z; d_current : Z; d_written : Z; d_out : list Z }.
(** Why the walk stops: the buffer is full, or a record is invalid. *)
Inductive DentsStop := Full (a : Dents) | Broken (a : Dents).
Definition getdents_body (capacity : Z) (a : Dents) (e : Ptr) : M (Dents + DentsStop) :=
  let* ino := get32 e in
  if ino =? 0 then ret (inl a)
  else
    let a' := {| d_index := d_index a; d_current := u32 (d_current a + 1); d_written := d_written a; d_out := d_out a |} in
    if d_current a <? d_index a then ret (inl a')
    else
      let* n := load8 (padd e 6) in
      let reclen := Z.land (10 + n + 2 + 3) (Z.lnot 3) in
      if capacity - d_written a <? reclen then ret (inr (Full a'))
      else
        let* type := entry_type ino in
        let* name := load (padd e 8) n in
        ret (inl {| d_index := u32 (d_index a + 1); d_current := d_current a'; d_written := d_written a + reclen;
                    d_out := d_out a ++ dirent ino (d_current a') reclen type name |}).

(** The result, the bytes stored, and the new position. *)
Definition engine_getdents (name : list Z) (capacity position : Z) : M (Z * list Z * Z) :=
  let* ready := engine_ready in
  if negb ready then ret (-1, [], position)
  else
    let* n := lookup_path name in
    let* node := node_of n in
    let* ok := supported node DIR_MODE in
    match ok, node with
    | true, Some node =>
        let* r := walk Broken (getdents_body capacity) node
                        {| d_index := position; d_current := 0; d_written := 0; d_out := [] |} in
        match r with
        | inl a => ret (d_written a, d_out a, d_index a)
        | inr (Full a) => ret (if truth (d_written a) then d_written a else -22, d_out a, d_index a)
        | inr (Broken a) => ret (-1, d_out a, position)
        end
    | _, _ => ret (-1, [], position)
    end.

Definition hidden (e : Ptr) : M bool := m_or (name_equal e dot) (name_equal e dotdot).

Definition ls_body (_ : unit) (e : Ptr) : M (unit + unit) :=
  let* ino := get32 e in
  if ino =? 0 then ret (inl tt)
  else
    let* h := hidden e in
    if h then ret (inl tt)
    else
      let* n := load8 (padd e 6) in
      let* name := load (padd e 8) n in
      let* child := inode ino in
      print WHITE (Lit (cstr name));;
      (match child with
       | None => ret tt
       | Some child => let* k := kind child in if k =? DIR_MODE then print CYAN (Lit [SLASH]) else ret tt
       end);;
      println WHITE (Lit []);; ret (inl tt).

Definition engine_ls : M unit :=
  let* ready := engine_ready in
  if negb ready then ret tt
  else
    let* dir := gets cwd in
    let* node := inode dir in
    let* ok := supported node DIR_MODE in
    match ok, node with
    | true, Some node => let* _ := walk (fun _ => tt) ls_body node tt in ret tt
    | _, _ => ret tt
    end.

(** The climb from the current directory to the root: the directories passed,
    innermost first, or the error. *)
Fixpoint climb (fuel : nat) (n : Z) (path : list Z) : M (list Z + Z) :=
  if n =? ROOT_INO then ret (inl path)
  else
    match fuel with
    | O => ret (inr (-36))
    | S fuel' =>
        let* r := lookup n dotdot in
        if (r.1 <=? 0) || (r.1 =? n) then ret (inr (-5))
        else climb fuel' r.1 (n :: path)
    end.

(** The name of [child] in the directory [n]. *)
Definition name_body (child : Z) (_ : unit) (e : Ptr) : M (unit + option (list Z)) :=
  let* ino := get32 e in
  if negb (ino =? child) then ret (inl tt)
  else
    let* h := hidden e in
    if h then ret (inl tt)
    else
      let* n := load8 (padd e 6) in
      let* name := load (padd e 8) n in ret (inr (Some name)).
Definition child_name (n child : Z) : M (option (list Z)) :=
  let* node := inode n in
  let* ok := supported node DIR_MODE in
  match ok, node with
  | true, Some node =>
      let* r := walk (fun _ => None) (name_body child) node tt in
      match r with inr name => ret name | inl _ => ret None end
  | _, _ => ret None
  end.

(** The descent that prints the names into a buffer of [capacity] bytes: the
    text, or an error with what it stored before. *)
Fixpoint descend (path : list Z) (n capacity : Z) (out : list Z) : M (list Z + Z * list Z) :=
  match path with
  | [] => ret (inl out)
  | child :: path' =>
      let* name := child_name n child in
      match name with
      | None => ret (inr (-5, out))
      | Some name =>
          if capacity - zlen out <=? zlen name then ret (inr (-34, out))
          else
            let out := out ++ name in
            match path' with
            | [] => ret (inl out)
            | _ =>
                if capacity <=? zlen out + 1 then ret (inr (-34, out))
                else descend path' child capacity (out ++ [SLASH])
            end
      end
  end.

(** The result and the bytes stored: on success the text with its terminator. *)
Definition engine_getcwd (capacity : Z) : M (Z * list Z) :=
  if capacity <? 2 then ret (-34, [])
  else
    let* ready := engine_ready in
    if negb ready then ret (-5, [])
    else
      let* n := gets cwd in
      let* path := climb 64 n [] in
      match path with
      | inr e => ret (e, [])
      | inl path =>
          let* r := descend path ROOT_INO capacity [SLASH] in
          match r with
          | inr e => ret e
          | inl out => ret (zlen out + 1, out ++ [0])
          end
      end.

(** The same path, printed name by name. *)
Fixpoint show_path (path : list Z) (n : Z) : M unit :=
  match path with
  | [] => println WHITE (Lit [])
  | child :: path' =>
      let* name := child_name n child in
      match name with
      | None => ret tt
      | Some name =>
          print WHITE (Lit (cstr name));;
          (match path' with [] => ret tt | _ => print WHITE (Lit [SLASH]) end);;
          show_path path' child
      end
  end.
Definition engine_pwd : M unit :=
  let* ready := engine_ready in
  if negb ready then ret tt
  else
    let* n := gets cwd in
    let* path := climb 64 n [] in
    match path with
    | inr e => if e =? -36 then println RED (Tr "directory depth limit") else ret tt
    | inl path => print WHITE (Lit [SLASH]);; show_path path ROOT_INO
    end.

Definition engine_stat (name : list Z) : M Z :=
  let* ready := engine_ready in
  if negb ready then ret (-1)
  else
    let* n := lookup_path name in
    let* node := node_of n in
    match node with
    | None => ret (-1)
    | Some node =>
        print WHITE (Tr "Name: ");; println WHITE (Lit name);;
        print WHITE (Tr "Type: ");;
        (let* k := kind node in
         println WHITE (Tr (if k =? DIR_MODE then "directory" else if k =? FILE_MODE then "file" else "other")));;
        print WHITE (Tr "Bytes: ");;
        (let* size := get32 (padd node 4) in print WHITE (Uint size));; println WHITE (Lit []);;
        ret 0
    end.

Definition engine_df : M unit :=
  let* ready := engine_ready in
  if negb ready then ret tt
  else
    println WHITE (Tr "ext2 (1 KiB blocks)");;
    print WHITE (Tr "Free inodes: ");;
    (let* fi := get32 (padd SB 16) in print WHITE (Uint fi));;
    print WHITE (Lit [32; 47; 32]);;
    (let* G := gets geo in print WHITE (Uint (inode_count G)));;
    print WHITE (Tr "   Free blocks: ");;
    (let* fb := get32 (padd SB 12) in print WHITE (Uint fb));;
    print WHITE (Lit [32; 47; 32]);;
    (let* G := gets geo in print WHITE (Uint (blocks G)));; println WHITE (Lit []);;
    println WHITE (Tr "Barnix limits: 268 KiB/file, 23 chars/new name").

Definition engine_sync : M Z :=
  let* ready := engine_ready in
  if negb ready then println RED (Tr "ext2 is not mounted");; ret (-1)
  else
    let* ok := flush_device in
    if ok then ret 0 else println RED (Tr "device flush failed");; ret (-1).

(** ** Entry points: a fresh cache, and an unmount after an error of the cache;
    [failure] is what the caller then sees of the result. *)
Definition entry {A} (failure : A -> A) (op : M A) : M A :=
  cache_reset;;
  let* r := op in
  let* e := gets cache_error in
  if e then modify (set_mounted false);; ret (failure r) else ret r.

Inductive ExtOp :=
| ExtInit | ExtExecCheck (name : list Z) | ExtSize (name : list Z)
| ExtRead (name : list Z) (offset size : Z) | ExtLs | ExtCat (name : list Z)
| ExtTouch (name : list Z) | ExtWrite (name : option (list Z)) (data : list Z) (size : Z)
| ExtRm (name : list Z) | ExtMkdir (name : list Z) | ExtCd (name : list Z)
| ExtGetcwd (capacity : Z) | ExtDf | ExtStat (name : list Z)
| ExtAppend (name data : list Z) (size : Z) | ExtCp (source destination : list Z)
| ExtMv (source destination : list Z) | ExtRmdir (name : list Z) | ExtSync
| ExtIsDir (name : list Z) | ExtGetdents (name : list Z) (capacity position : Z) | ExtPwd.

(** The result of an entry point: its return value, the bytes it stores in
    the caller's buffer and the position it updates. *)
Record Reply := { value : Z; stored : list Z; position : Z }.
Definition just (m : M Z) : M Reply := let* v := m in ret {| value := v; stored := []; position := 0 |}.
Definition nothing (m : M unit) : M Reply := m;; ret {| value := 0; stored := []; position := 0 |}.
(** The return value is replaced; what was stored stays. *)
Definition failed_reply (v : Z) (r : Reply) : Reply := {| value := v; stored := stored r; position := position r |}.

Definition ext_op (op : ExtOp) : M Reply :=
  match op with
  | ExtInit => entry (failed_reply (-1)) (just engine_init)
  | ExtExecCheck name => entry (failed_reply (-1)) (just (engine_exec_check name))
  | ExtSize name => entry (failed_reply (-1)) (just (engine_size name))
  | ExtRead name offset size =>
      entry (failed_reply (-1))
        (let* r := engine_read name offset size in ret {| value := r.1; stored := r.2; position := 0 |})
  | ExtLs => entry (failed_reply 0) (nothing engine_ls)
  | ExtCat name => entry (failed_reply 0) (nothing (engine_cat name))
  | ExtTouch name => entry (failed_reply (-1)) (just (engine_touch name))
  | ExtWrite name data size => entry (failed_reply (-1)) (just (engine_write name data size))
  | ExtRm name => entry (failed_reply (-1)) (just (engine_rm name))
  | ExtMkdir name => entry (failed_reply (-1)) (just (engine_mkdir name))
  | ExtCd name => entry (failed_reply (-1)) (just (engine_cd name))
  | ExtGetcwd capacity =>
      entry (failed_reply (-1))
        (let* r := engine_getcwd capacity in ret {| value := r.1; stored := r.2; position := 0 |})
  | ExtDf => entry (failed_reply 0) (nothing engine_df)
  | ExtStat name => entry (failed_reply (-1)) (just (engine_stat name))
  | ExtAppend name data size => entry (failed_reply (-1)) (just (engine_append name data size))
  | ExtCp source destination => entry (failed_reply (-1)) (just (engine_cp source destination))
  | ExtMv source destination => entry (failed_reply (-1)) (just (engine_mv source destination))
  | ExtRmdir name => entry (failed_reply (-1)) (just (engine_rmdir name))
  | ExtSync => entry (failed_reply (-1)) (just engine_sync)
  | ExtIsDir name => entry (failed_reply 0) (just (engine_is_dir name))
  | ExtGetdents name capacity pos =>
      entry (failed_reply (-1))
        (let* r := engine_getdents name capacity pos in
         ret {| value := r.1.1; stored := r.1.2; position := r.2 |})
  | ExtPwd => entry (failed_reply 0) (nothing engine_pwd)
  end.

End Mount.
