(* ===== verification/Ext2Format.v ===== *)
(** * Ext2 engine: the formatter

    [fs_format_selected] of src/ext2_format.inc, and a memory device, the
    instance of [BlockDevice] that evaluates it: a sparse image whose
    unwritten sectors are zero. *)
From Stdlib Require Import String.
From stdpp Require Import gmap.
From S2P Require Import Prelude CString Ext2Core Ext2Dir Ext2Ops Ext2Mount.

(** ** A memory device *)
Record MemoryDisk := { md_sectors : Z; md_data : gmap Z (list Z) }.
(** 512 bytes, whatever was written. *)
Definition sector_bytes (l : list Z) : list Z := map u8 (take 512 (l ++ replicate 512 0)).
Definition md_sector (d : MemoryDisk) (lba : Z) : list Z :=
  match md_data d !! lba with Some l => sector_bytes l | None => replicate 512 0 end.
Fixpoint md_range (d : MemoryDisk) (lba : Z) (n : nat) : list Z :=
  match n with O => [] | S n' => md_sector d lba ++ md_range d (lba + 1) n' end.

#[export] Instance memory_disk : BlockDevice MemoryDisk := {
  disk_present d := (true, d);
  disk_sectors := md_sectors;
  disk_read_many d lba n :=
    if (0 <? n) && (n <=? 8) && (0 <=? lba) && (lba + n <=? md_sectors d)
    then (true, md_range d lba (Z.to_nat n), d)
    else (false, replicate (Z.to_nat (n * 512)) 0, d);
  disk_write d lba bs :=
    if (0 <=? lba) && (lba <? md_sectors d)
    then (true, {| md_sectors := md_sectors d; md_data := <[lba := bs]> (md_data d) |})
    else (false, d);
  disk_flush d := (true, d) }.

Section Format.
Context {D : Type} `{BD : BlockDevice D}.
#[local] Abbreviation M := (@M D).

(** The formatter fills a buffer apart from the cache; [setbit] on it. *)
Definition buffer_put (b : list Z) (o : Z) (bytes : list Z) : list Z :=
  take (Z.to_nat o) b ++ bytes ++ drop (Z.to_nat o + length bytes) b.
Definition empty_buffer : list Z := replicate 1024 0.

(** A bitmap whose bit [i] is [f i]. *)
Definition bitmap_byte (f : Z -> bool) (i : Z) : Z :=
  fold_right (fun k acc => c_bool (f (i * 8 + k)) * 2 ^ k + acc) 0 [0; 1; 2; 3; 4; 5; 6; 7].
Definition bitmap_of (f : Z -> bool) : list Z := map (bitmap_byte f) (seqZ 0 1024).

Definition write_block (n : Z) (data : list Z) : M bool :=
  m_and (write_device (u32 (n * 2)) (take 512 data)) (write_device (u32 (n * 2 + 1)) (drop 512 data)).

(** The last group is dropped while it cannot hold its own metadata. *)
Fixpoint trim_groups (fuel : nat) (G : Geometry) : Geometry :=
  match fuel with
  | O => G
  | S fuel' =>
      if (1 <? groups G) && (group_size G (groups G - 1) <? table_blocks G + 3 + descriptor_blocks G) then
        let g := groups G - 1 in
        trim_groups fuel'
          {| blocks := group_start G g; inode_count := inode_count G; inode_size := inode_size G;
             first_inode := first_inode G; groups := g; blocks_per_group := blocks_per_group G;
             inodes_per_group := inodes_per_group G; descriptor_blocks := (g * 32 + BLOCK_SIZE - 1) / BLOCK_SIZE;
             table_blocks := table_blocks G; filetype := filetype G |}
      else G
  end.

Definition format_geometry (sectors : Z) : Geometry :=
  let b := Z.min (sectors / 2) MAX_BLOCKS in
  let g := (b - 2) / 8192 + 1 in
  let G := trim_groups 640
    {| blocks := b; inode_count := 0; inode_size := 128; first_inode := 11; groups := g;
       blocks_per_group := 8192; inodes_per_group := 128;
       descriptor_blocks := (g * 32 + BLOCK_SIZE - 1) / BLOCK_SIZE;
       table_blocks := 128 * 128 / BLOCK_SIZE; filetype := true |} in
  {| blocks := blocks G; inode_count := groups G * inodes_per_group G; inode_size := inode_size G;
     first_inode := first_inode G; groups := groups G; blocks_per_group := blocks_per_group G;
     inodes_per_group := inodes_per_group G; descriptor_blocks := descriptor_blocks G;
     table_blocks := table_blocks G; filetype := filetype G |}.

Definition format_super (G : Geometry) : M unit :=
  put32 SB (inode_count G);; put32 (padd SB 4) (blocks G);;
  put32 (padd SB 16) (inode_count G - 10);; put32 (padd SB 20) 1;;
  put32 (padd SB 32) (blocks_per_group G);; put32 (padd SB 36) (blocks_per_group G);;
  put32 (padd SB 40) (inodes_per_group G);; put16 (padd SB 54) 0xffff;;
  put16 (padd SB 56) 0xef53;; put16 (padd SB 58) 2;; put16 (padd SB 60) 1;;
  put32 (padd SB 76) 1;; put32 (padd SB 84) (first_inode G);; put16 (padd SB 88) (inode_size G);;
  put32 (padd SB 96) 2.

Fixpoint format_descriptors (n : nat) (g total_free : Z) : M Z :=
  match n with
  | O => ret total_free
  | S n' =>
      let* G := gets geo in
      let d := group_desc g in
      let first := group_start G g in
      let* backup := backup_group g in
      let reserve := if backup then 1 + descriptor_blocks G else 0 in
      put32 d (first + reserve);; put32 (padd d 4) (first + reserve + 1);;
      put32 (padd d 8) (first + reserve + 2);;
      let used := reserve + 2 + table_blocks G + c_bool (g =? 0) in
      put16 (padd d 12) (group_size G g - used);;
      put16 (padd d 14) (inodes_per_group G - (if g =? 0 then 10 else 0));;
      put16 (padd d 16) (if g =? 0 then 1 else 0);;
      format_descriptors n' (g + 1) (total_free + (group_size G g - used))
  end.

Definition root_inode (G : Geometry) (root_block : Z) : list Z :=
  let b := buffer_put empty_buffer (inode_size G) (le16_bytes (Z.lor DIR_MODE 0x1ed)) in
  let b := buffer_put b (inode_size G + 4) (le32_bytes BLOCK_SIZE) in
  let b := buffer_put b (inode_size G + 26) (le16_bytes 2) in
  let b := buffer_put b (inode_size G + 28) (le32_bytes 2) in
  buffer_put b (inode_size G + 40) (le32_bytes root_block).

Fixpoint format_tables (n : nat) (table b : Z) (first : list Z) : M bool :=
  match n with
  | O => skip
  | S n' => m_and (write_block (table + b) first) (format_tables n' table (b + 1) empty_buffer)
  end.

Fixpoint format_groups (n : nat) (g root_block : Z) : M bool :=
  match n with
  | O => skip
  | S n' =>
      let* G := gets geo in
      let d := group_desc g in
      let* free := get16 (padd d 12) in
      let used := group_size G g - free in
      let* bitmap := get32 d in let* imap := get32 (padd d 4) in let* table := get32 (padd d 8) in
      m_and (write_block bitmap (bitmap_of (fun i => (i <? used) || (group_size G g <=? i))))
      (m_and (write_block imap (bitmap_of (fun i => ((g =? 0) && (i <? 10)) || (inodes_per_group G <=? i))))
      (m_and (format_tables (Z.to_nat (table_blocks G)) table 0
                (if g =? 0 then root_inode G root_block else empty_buffer))
             (format_groups n' (g + 1) root_block)))
  end.

Definition root_directory : list Z :=
  le32_bytes ROOT_INO ++ le16_bytes 12 ++ [1; 2; 46; 0; 0; 0] ++
  le32_bytes ROOT_INO ++ le16_bytes (BLOCK_SIZE - 12) ++ [2; 2; 46; 46] ++ replicate 1002 0.

Fixpoint format_table_copies (n : nat) (b at_block : Z) : M bool :=
  match n with
  | O => skip
  | S n' =>
      let* data := load (padd GD (b * BLOCK_SIZE)) BLOCK_SIZE in
      m_and (write_block (at_block + 1 + b) data) (format_table_copies n' (b + 1) at_block)
  end.
Fixpoint format_backups (n : nat) (g : Z) : M bool :=
  match n with
  | O => skip
  | S n' =>
      let* G := gets geo in
      let* backup := backup_group g in
      m_and
        (if backup then
           m_and (format_table_copies (Z.to_nat (descriptor_blocks G)) 0 (group_start G g))
             (if g =? 0 then skip
              else
                let* sb := gets superblock in
                write_block (group_start G g) (buffer_put (buffer_put sb 58 (le16_bytes 1)) 90 (le16_bytes g)))
         else skip)
        (format_backups n' (g + 1))
  end.

Definition fs_format_selected : M Z :=
  let* sectors := gets (fun s => disk_sectors (dev s)) in
  if sectors <? 4096 then ret (-1)
  else
    modify (set_mounted false);; cache_reset;;
    let G := format_geometry sectors in
    modify (set_geo G);;
    memset_at SB 0 BLOCK_SIZE;; memset_at GD 0 (MAX_GROUPS * 32);;
    put32 (padd SB 100) 1;;
    format_super G;;
    let* total := format_descriptors (Z.to_nat (groups G)) 0 0 in
    put32 (padd SB 12) total;;
    let* table := get32 (padd GD 8) in
    let root_block := table + table_blocks G in
    let half := let* sb := gets superblock in write_block 1 sb in
    let* ok := m_and half (m_and flush_device (m_and (write_block 0 empty_buffer)
      (m_and (format_groups (Z.to_nat (groups G)) 0 root_block)
      (m_and (write_block root_block root_directory)
      (m_and (format_backups (Z.to_nat (groups G)) 0)
      (m_and flush_device (m_and (set_state 1) (m_and half flush_device)))))))) in
    ret (if ok then 0 else -1).

End Format.

(** ** A fresh system over a memory device *)
Definition no_geometry : Geometry :=
  {| blocks := 0; inode_count := 0; inode_size := 0; first_inode := 0; groups := 0; blocks_per_group := 0;
     inodes_per_group := 0; descriptor_blocks := 0; table_blocks := 0; filetype := false |}.
Definition boot {D} (d : D) : Fs D :=
  {| dev := d; superblock := replicate 1024 0; descriptors := replicate (Z.to_nat 20480) 0;
     saved_super := replicate 1024 0; saved_descriptors := replicate (Z.to_nat 20480) 0; cache := [];
     cache_error := false; failed_block := replicate 1024 0; geo := no_geometry; cwd := 0;
     hint_block := 0; hint_inode := 0; mounted := false; output := [] |}.
