(* ===== verification/Ext2Logic.v ===== *)
(** * Ext2 engine: a program logic

    Weakest preconditions for the engine's monad, where undefined behaviour
    satisfies nothing, the memory invariant, the laws a device promises, and
    the two relations that specifications use: [reads] for steps that change
    no memory and [step] for steps that change no geometry and no disk. *)
From Stdlib Require Import String.
From S2P Require Import Prelude CString Ext2Core.

(** ** What a device promises to the engine *)
Class DeviceLaws (D : Type) `{BD : BlockDevice D} := {
  (** What a sector holds for every later read. *)
  image : D -> Z -> list Z;
  (** A range that cannot be read, now and as long as only reads follow. *)
  unreadable : D -> Z -> Z -> Prop;
  read_length : forall d lba n ok bs d', disk_read_many d lba n = (ok, bs, d') -> 0 < n ->
    zlen bs = n * 512 /\ bytes_ok bs;
  read_value : forall d lba n bs d', disk_read_many d lba n = (true, bs, d') -> 0 < n ->
    bs = concat (map (image d) (seqZ lba n));
  read_image : forall d lba n ok bs d', disk_read_many d lba n = (ok, bs, d') -> image d' = image d;
  read_fails : forall d lba n bs d', disk_read_many d lba n = (false, bs, d') -> unreadable d' lba n;
  read_unreadable : forall d lba n ok bs d', unreadable d lba n ->
    disk_read_many d lba n = (ok, bs, d') -> ok = false;
  read_sticky : forall d lba n ok bs d' lba' n', disk_read_many d lba n = (ok, bs, d') ->
    unreadable d lba' n' -> unreadable d' lba' n';
  present_image : forall d, image (disk_present d).2 = image d;
  present_sticky : forall d lba n, unreadable d lba n -> unreadable (disk_present d).2 lba n;
  flush_image : forall d, image (disk_flush d).2 = image d;
  write_image : forall d lba bs d', disk_write d lba bs = (true, d') -> zlen bs = 512 -> bytes_ok bs -> image d' lba = bs;
  write_other : forall d lba bs ok d' lba', disk_write d lba bs = (ok, d') -> lba' <> lba ->
    image d' lba' = image d lba' }.

Section Logic.
Context {D : Type} `{BD : BlockDevice D} {DL : DeviceLaws D}.
#[local] Abbreviation St := (Fs D).
#[local] Abbreviation M := (@M D).
Implicit Types (s : St) (p : Ptr) (bs l : list Z).

(** ** Weakest preconditions *)
Definition wp {A} (m : M A) (Q : A -> St -> Prop) (s : St) : Prop :=
  match m s with Some (a, s') => Q a s' | None => False end.

Lemma wp_ret {A} (a : A) Q s : Q a s -> wp (ret a) Q s.
Proof. done. Qed.
Lemma wp_bind {A B} (m : M A) (f : A -> M B) Q s : wp m (fun a s' => wp (f a) Q s') s -> wp (bind m f) Q s.
Proof. unfold wp, bind. by destruct (m s) as [[a s']|]. Qed.
Lemma wp_mono {A} (m : M A) (P Q : A -> St -> Prop) s :
  wp m P s -> (forall a s', P a s' -> Q a s') -> wp m Q s.
Proof. unfold wp. destruct (m s) as [[a s']|]; auto. Qed.
Lemma wp_use {A B} (m : M A) (f : A -> M B) (P : A -> St -> Prop) Q s :
  wp m P s -> (forall a s', P a s' -> wp (f a) Q s') -> wp (bind m f) Q s.
Proof. intros H Hf. apply wp_bind. by eapply wp_mono. Qed.
Lemma wp_gets {A B} (g : St -> A) (f : A -> M B) Q s : wp (f (g s)) Q s -> wp (bind (gets g) f) Q s.
Proof. done. Qed.
Lemma wp_modify {B} g (f : unit -> M B) Q s : wp (f tt) Q (g s) -> wp (bind (modify g) f) Q s.
Proof. done. Qed.
Lemma wp_bind_ret {A B} (a : A) (f : A -> M B) Q s : wp (f a) Q s -> wp (bind (ret a) f) Q s.
Proof. done. Qed.
Lemma wp_assoc {A B C} (m : M A) (f : A -> M B) (g : B -> M C) Q s :
  wp (bind m (fun a => bind (f a) g)) Q s -> wp (bind (bind m f) g) Q s.
Proof. unfold wp, bind. by destruct (m s) as [[a s']|]. Qed.
Lemma wp_result {A} (m : M A) Q s : wp m Q s -> exists a s', m s = Some (a, s') /\ Q a s'.
Proof. unfold wp. destruct (m s) as [[a s']|]; [eauto|done]. Qed.

(** ** Memory *)
Definition bytes_of s (r : Region) : list Z := default [] (region s r).
Definition v8 s p : Z := byte_at (bytes_of s p.1) p.2.
Definition v16 s p : Z := le16 (bytes_of s p.1) p.2.
Definition v32 s p : Z := le32 (bytes_of s p.1) p.2.
Definition slice (l : list Z) (o n : Z) : list Z := take (Z.to_nat n) (drop (Z.to_nat o) l).
Definition valid s p (n : Z) : Prop := 0 <= p.2 /\ 0 <= n /\ p.2 + n <= zlen (bytes_of s p.1).
Definition write s p bs : St := set_region p.1 (splice (bytes_of s p.1) p.2 bs) s.

Lemma valid_region s p n : valid s p n -> 0 < n -> region s p.1 = Some (bytes_of s p.1).
Proof.
  unfold valid, bytes_of, zlen. destruct (region s p.1); [done|]. cbn. lia.
Qed.
Lemma valid_sub s p n k m : valid s p n -> 0 <= k -> 0 <= m -> k + m <= n -> valid s (padd p k) m.
Proof. unfold valid, padd. cbn. lia. Qed.
Lemma valid_le s p n m : valid s p n -> 0 <= m <= n -> valid s p m.
Proof. unfold valid. lia. Qed.

Lemma load_eq s p n : valid s p n -> 0 < n -> load p n s = Some (slice (bytes_of s p.1) p.2 n, s).
Proof.
  intros Hv Hn. unfold load. rewrite (valid_region s p n Hv Hn). destruct Hv as (? & ? & ?).
  ztrue (0 <=? p.2). ztrue (0 <=? n). by ztrue (p.2 + n <=? zlen (bytes_of s p.1)).
Qed.
Lemma store_eq s p bs : valid s p (zlen bs) -> bs <> [] -> store p bs s = Some (tt, write s p bs).
Proof.
  intros Hv Hn. unfold store, write.
  rewrite (valid_region s p (zlen bs) Hv) by (destruct bs; [done|]; rewrite zlen_cons; pose proof (zlen_nonneg bs); lia).
  destruct Hv as (? & ? & ?). ztrue (0 <=? p.2). by ztrue (p.2 + zlen bs <=? zlen (bytes_of s p.1)).
Qed.

Lemma nth_drop (l : list Z) n i : nth i (drop n l) 0 = nth (n + i) l 0.
Proof. by rewrite !nth_lookup, lookup_drop. Qed.
Lemma slice_1 l o : 0 <= o -> o + 1 <= zlen l -> slice l o 1 = [byte_at l o].
Proof.
  unfold slice, byte_at, zlen. intros Ho Hl. change (Z.to_nat 1) with 1%nat.
  replace (nth (Z.to_nat o) l 0) with (nth 0 (drop (Z.to_nat o) l) 0) by (rewrite nth_drop; f_equal; lia).
  destruct (drop (Z.to_nat o) l) eqn:E.
  - apply (f_equal length) in E. rewrite length_drop in E. cbn in E. lia.
  - done.
Qed.

Lemma load8_eq s p : valid s p 1 -> load8 p s = Some (v8 s p, s).
Proof.
  intros Hv. unfold load8, bind. rewrite (load_eq s p 1 Hv) by lia.
  destruct Hv as (? & ? & ?). by rewrite slice_1 by lia.
Qed.

(** Every buffer of the engine has its size and holds bytes. *)
Definition buffer (n : Z) (l : list Z) : Prop := zlen l = n /\ bytes_ok l.
Definition slot_ok (c : CacheSlot) : Prop :=
  buffer 1024 (slot_data c) /\ buffer 1024 (slot_before c) /\ is_u32 (slot_block c).
Record mem_ok s : Prop := {
  mem_super : buffer 1024 (superblock s);
  mem_desc : buffer 20480 (descriptors s);
  mem_saved_super : buffer 1024 (saved_super s);
  mem_saved_desc : buffer 20480 (saved_descriptors s);
  mem_failed : buffer 1024 (failed_block s);
  mem_cache : Forall slot_ok (cache s);
  mem_count : zlen (cache s) <= CACHE_BLOCKS;
  mem_cwd : is_u32 (cwd s);
  mem_hints : is_u32 (hint_block s) /\ is_u32 (hint_inode s) }.

Lemma bytes_of_ok s r : mem_ok s -> bytes_ok (bytes_of s r).
Proof.
  intros H. unfold bytes_of. destruct r as [| |i|]; cbn.
  - apply H. - apply H.
  - destruct (cache s !! i) as [c|] eqn:E; cbn; [|apply Forall_nil_2].
    pose proof (mem_cache s H) as Hc. rewrite Forall_lookup in Hc. apply (Hc i c E).
  - apply H.
Qed.

Lemma or_shift8 a b : is_byte a -> Z.lor a (Z.shiftl b 8) = a + b * 2 ^ 8.
Proof.
  unfold is_byte. intros. rewrite shl by lia. rewrite Z.lor_comm, (lor_low 8); [lia..|].
  by apply Z.mod_mul.
Qed.
Lemma or_shift16 a b : 0 <= a < 2 ^ 16 -> Z.lor a (Z.shiftl b 16) = a + b * 2 ^ 16.
Proof.
  intros. rewrite shl by lia. rewrite Z.lor_comm, (lor_low 16); [lia..|]. by apply Z.mod_mul.
Qed.

Lemma get16_eq s p : mem_ok s -> valid s p 2 -> get16 p s = Some (v16 s p, s).
Proof.
  intros Hm Hv. unfold get16, bind.
  rewrite (load8_eq s p) by (apply (valid_le s p 2); [done|lia]).
  rewrite (load8_eq s (padd p 1)) by (apply (valid_sub s p 2); [done|lia..]).
  unfold ret. unfold v8, v16, le16. rewrite or_shift8 by (apply byte_at_ok, bytes_of_ok, Hm). done.
Qed.
Lemma get32_eq s p : mem_ok s -> valid s p 4 -> get32 p s = Some (v32 s p, s).
Proof.
  intros Hm Hv. unfold get32, bind.
  rewrite (get16_eq s p); [|exact Hm|apply (valid_le s p 4 2 Hv); lia].
  rewrite (get16_eq s (padd p 2)); [|exact Hm|apply (valid_sub s p 4 2 2 Hv); lia].
  unfold ret, v16, v32, le32. rewrite or_shift16 by (apply le16_range, bytes_of_ok, Hm). done.
Qed.

Lemma v8_range s p : mem_ok s -> is_byte (v8 s p).
Proof. intros. apply byte_at_ok, bytes_of_ok. done. Qed.
Lemma v16_range s p : mem_ok s -> 0 <= v16 s p < 2 ^ 16.
Proof. intros. apply le16_range, bytes_of_ok. done. Qed.
Lemma v32_range s p : mem_ok s -> is_u32 (v32 s p).
Proof. intros. apply le32_range, bytes_of_ok. done. Qed.

Lemma wp_load8 {B} p (f : Z -> M B) Q s : valid s p 1 -> wp (f (v8 s p)) Q s -> wp (bind (load8 p) f) Q s.
Proof. intros. unfold wp, bind. by rewrite load8_eq. Qed.
Lemma wp_load {B} p n (f : list Z -> M B) Q s :
  valid s p n -> 0 < n -> wp (f (slice (bytes_of s p.1) p.2 n)) Q s -> wp (bind (load p n) f) Q s.
Proof. intros. unfold wp, bind. by rewrite load_eq. Qed.
Lemma wp_get16 {B} p (f : Z -> M B) Q s :
  mem_ok s -> valid s p 2 -> wp (f (v16 s p)) Q s -> wp (bind (get16 p) f) Q s.
Proof. intros. unfold wp, bind. by rewrite get16_eq. Qed.
Lemma wp_get32 {B} p (f : Z -> M B) Q s :
  mem_ok s -> valid s p 4 -> wp (f (v32 s p)) Q s -> wp (bind (get32 p) f) Q s.
Proof. intros. unfold wp, bind. by rewrite get32_eq. Qed.

(** A bit of the map at [p]. *)
Definition vbit s p n : bool := Z.testbit (v8 s (padd p (n / 8))) (n mod 8).
Lemma land_shift_bit b k : 0 <= k -> truth (Z.land (Z.shiftr b k) 1) = Z.testbit b k.
Proof.
  intros. rewrite (land_mask 1 _) by lia. rewrite <- Z.bit0_mod, Z.shiftr_spec by lia.
  replace (0 + k) with k by lia. by destruct (Z.testbit b k).
Qed.
Lemma wp_bit {B} p n (f : bool -> M B) Q s :
  valid s (padd p (n / 8)) 1 -> 0 <= n -> wp (f (vbit s p n)) Q s -> wp (bind (bit p n) f) Q s.
Proof.
  intros Hv Hn HQ. unfold bit. apply wp_assoc, wp_load8; [done|]. apply wp_bind_ret.
  by rewrite land_shift_bit by (apply Z.mod_pos_bound; lia).
Qed.

Lemma bytes_of_set s r l : is_Some (region s r) -> bytes_of (set_region r l s) r = l.
Proof.
  intros [x Hx]. destruct r as [| |i|]; try done. unfold bytes_of. cbn in *.
  rewrite list_lookup_alter_eq. by destruct (cache s !! i).
Qed.
Lemma bytes_of_set_ne s r l r' : r' <> r -> bytes_of (set_region r l s) r' = bytes_of s r'.
Proof.
  intros Hne. unfold bytes_of. destruct r as [| |i|], r' as [| |j|]; try done.
  cbn. rewrite list_lookup_alter_ne; [done|congruence].
Qed.
Lemma valid_some s p n : valid s p n -> 0 < n -> is_Some (region s p.1).
Proof. intros H Hn. rewrite (valid_region s p n H Hn). eauto. Qed.

Lemma bytes_of_write s p bs : valid s p (zlen bs) -> bs <> [] ->
  bytes_of (write s p bs) p.1 = splice (bytes_of s p.1) p.2 bs.
Proof.
  intros Hv Hb. apply bytes_of_set, (valid_some s p (zlen bs) Hv).
  destruct bs; [done|]. rewrite zlen_cons. pose proof (zlen_nonneg bs). lia.
Qed.
Lemma bytes_of_write_ne s p bs r : r <> p.1 -> bytes_of (write s p bs) r = bytes_of s r.
Proof. apply bytes_of_set_ne. Qed.
Lemma zlen_bytes_write s p bs r : valid s p (zlen bs) -> bs <> [] ->
  zlen (bytes_of (write s p bs) r) = zlen (bytes_of s r).
Proof.
  intros Hv Hb. assert (Decision (r = p.1)) as [->|Hne] by (unfold Decision; repeat decide equality).
  - rewrite bytes_of_write by done. apply zlen_splice; unfold valid in Hv; lia.
  - by rewrite bytes_of_write_ne.
Qed.
Lemma valid_write s p bs q n : valid s p (zlen bs) -> bs <> [] -> valid s q n -> valid (write s p bs) q n.
Proof. intros Hv Hb Hq. unfold valid. by rewrite zlen_bytes_write. Qed.

Lemma set_region_twice s r l l' : set_region r l (set_region r l' s) = set_region r l s.
Proof.
  destruct r as [| |i|]; try done. unfold set_region, set_cache. cbn. f_equal.
  rewrite list_alter_alter_eq. by apply list_alter_ext.
Qed.
Lemma splice_splice l o a b : 0 <= o -> o + zlen a + zlen b <= zlen l ->
  splice (splice l o a) (o + zlen a) b = splice l o (a ++ b).
Proof.
  unfold splice, zlen. intros Ho Hl. rewrite !length_app.
  assert (length (take (Z.to_nat o) l) = Z.to_nat o) as Ht by (rewrite length_take; lia).
  replace (Z.to_nat (o + Z.of_nat (length a))) with (Z.to_nat o + length a)%nat by lia.
  replace (Z.to_nat (o + Z.of_nat (length a) + Z.of_nat (length b)))
    with (Z.to_nat o + (length a + length b))%nat by lia.
  replace (Z.to_nat (o + Z.of_nat (length a + length b)))
    with (Z.to_nat o + length a + length b)%nat by lia.
  rewrite take_app_add', take_app_length, drop_app_add', drop_app_add, drop_drop by done.
  by rewrite <- !app_assoc.
Qed.
Lemma write_write s p a b : valid s p (zlen a + zlen b) -> a <> [] ->
  write (write s p a) (padd p (zlen a)) b = write s p (a ++ b).
Proof.
  intros Hv Ha. pose proof (zlen_nonneg b).
  unfold write at 1. cbn [padd fst snd]. rewrite bytes_of_write; [|unfold valid in *; pose proof (zlen_nonneg a); lia|done].
  unfold write. rewrite set_region_twice. f_equal. apply splice_splice; unfold valid in Hv; lia.
Qed.

Lemma store8_eq s p v : valid s p 1 -> store8 p v s = Some (tt, write s p [u8 v]).
Proof. intros. by apply store_eq. Qed.
Lemma put16_eq s p n : valid s p 2 -> put16 p n s = Some (tt, write s p (le16_bytes n)).
Proof.
  intros Hv. unfold put16, bind. rewrite store8_eq by (apply (valid_le s p 2); [done|lia]).
  rewrite store8_eq; [|apply valid_write; [apply (valid_le s p 2 1 Hv); lia|done|apply (valid_sub s p 2 1 1 Hv); lia]].
  do 2 f_equal. by apply (write_write s p [u8 n] [u8 (Z.shiftr n 8)]).
Qed.
Lemma put32_eq s p n : valid s p 4 -> put32 p n s = Some (tt, write s p (le32_bytes n)).
Proof.
  intros Hv. unfold put32, bind. rewrite put16_eq by (apply (valid_le s p 4); [done|lia]).
  rewrite put16_eq; [|apply valid_write; [apply (valid_le s p 4 2 Hv); cbn; lia|done|apply (valid_sub s p 4 2 2 Hv); lia]].
  do 2 f_equal. by apply (write_write s p (le16_bytes n) (le16_bytes (Z.shiftr n 16))).
Qed.

Lemma wp_store {B} p bs (f : unit -> M B) Q s :
  valid s p (zlen bs) -> bs <> [] -> wp (f tt) Q (write s p bs) -> wp (bind (store p bs) f) Q s.
Proof. intros. unfold wp, bind. by rewrite store_eq. Qed.
Lemma wp_store8 {B} p v (f : unit -> M B) Q s :
  valid s p 1 -> wp (f tt) Q (write s p [u8 v]) -> wp (bind (store8 p v) f) Q s.
Proof. intros. unfold wp, bind. by rewrite store8_eq. Qed.
Lemma wp_put16 {B} p n (f : unit -> M B) Q s :
  valid s p 2 -> wp (f tt) Q (write s p (le16_bytes n)) -> wp (bind (put16 p n) f) Q s.
Proof. intros. unfold wp, bind. by rewrite put16_eq. Qed.
Lemma wp_put32 {B} p n (f : unit -> M B) Q s :
  valid s p 4 -> wp (f tt) Q (write s p (le32_bytes n)) -> wp (bind (put32 p n) f) Q s.
Proof. intros. unfold wp, bind. by rewrite put32_eq. Qed.
Lemma wp_memset {B} p v n (f : unit -> M B) Q s :
  valid s p n -> 0 < n -> wp (f tt) Q (write s p (replicate (Z.to_nat n) (u8 v))) ->
  wp (bind (memset_at p v n) f) Q s.
Proof.
  intros Hv Hn. apply wp_store; [by rewrite zlen_replicate by lia|].
  destruct (Z.to_nat n) eqn:E; [lia|done].
Qed.

Lemma write_mem_ok s p bs : mem_ok s -> valid s p (zlen bs) -> bytes_ok bs -> mem_ok (write s p bs).
Proof.
  intros Hm Hv Hb. unfold write. set (l := splice _ _ _).
  assert (bytes_ok l) as Hl by (by apply splice_ok; [apply bytes_of_ok|]).
  assert (zlen l = zlen (bytes_of s p.1)) as Hz by (apply zlen_splice; unfold valid in Hv; lia).
  destruct p as [[| |i|] o]; cbn in *.
  1: destruct Hm as [[H0 ?] ? ? ? ? ? ? ? ?]; constructor; cbn; try done; split; [exact (eq_trans Hz H0)|done].
  1: destruct Hm as [? [H0 ?] ? ? ? ? ? ? ?]; constructor; cbn; try done; split; [exact (eq_trans Hz H0)|done].
  2: destruct Hm as [? ? ? ? [H0 ?] ? ? ? ?]; constructor; cbn; try done; split; [exact (eq_trans Hz H0)|done].
  pose proof (mem_cache s Hm) as Hc.
  destruct (cache s !! i) as [c|] eqn:E.
  - assert (bytes_of s (RCache i) = slot_data c) as Hd by (unfold bytes_of; cbn; by rewrite E).
    clearbody l.
    assert (slot_ok c) as ((? & ?) & ? & ?) by (rewrite Forall_lookup in Hc; apply (Hc i c E)).
    destruct Hm. constructor; cbn; try done.
    + apply Forall_alter; [done|]. intros c' E'. rewrite E in E'. injection E' as <-.
      intros _. split_and!; [|done|done]. split; [exact (eq_trans Hz H)|done].
    + unfold zlen in *. by rewrite length_alter.
  - destruct Hm. constructor; cbn; try done.
    + apply Forall_alter; [done|]. intros c' E'. congruence.
    + unfold zlen in *. by rewrite length_alter.
Qed.

End Logic.

(** ** Ext2 engine: the geometry of a volume and its invariants

    What [engine_init] establishes about a volume, which blocks are data, the
    relations between the states before and after a step, and the blocks,
    inodes and bitmap bits a state has in its cache. *)
(** ** Geometry *)
Record geometry_ok (G : Geometry) : Prop := {
  ok_blocks : 16 <= blocks G <= MAX_BLOCKS;
  ok_bpg : 1 <= blocks_per_group G <= 8192;
  ok_ipg : 1 <= inodes_per_group G <= 8192;
  ok_inode_size : inode_size G = 128 \/ inode_size G = 256;
  ok_table_exact : (inodes_per_group G * inode_size G) mod 1024 = 0;
  ok_first_inode : 11 <= first_inode G <= inode_count G;
  ok_groups : groups G = (blocks G - 2) / blocks_per_group G + 1;
  ok_max_groups : groups G <= MAX_GROUPS;
  ok_inode_count : inode_count G = groups G * inodes_per_group G;
  ok_descriptors : descriptor_blocks G = (groups G * 32 + 1023) / 1024;
  ok_tables : table_blocks G = inodes_per_group G * inode_size G / 1024 }.

Definition gstart (G : Geometry) (g : Z) : Z := 1 + g * blocks_per_group G.
Definition gsize (G : Geometry) (g : Z) : Z := Z.min (blocks_per_group G) (blocks G - gstart G g).

Section Geometry.
Context (G : Geometry) (HG : geometry_ok G).

Lemma groups_pos : 1 <= groups G.
Proof.
  rewrite (ok_groups G HG). pose proof (ok_blocks G HG). pose proof (ok_bpg G HG).
  pose proof (Z.div_pos (blocks G - 2) (blocks_per_group G)). lia.
Qed.
(** The last group begins inside the volume. *)
Lemma gstart_inside g : 0 <= g < groups G -> 1 <= gstart G g < blocks G.
Proof.
  intros Hg. pose proof (ok_blocks G HG). pose proof (ok_bpg G HG). rewrite (ok_groups G HG) in Hg.
  unfold gstart. pose proof (Z.mul_div_le (blocks G - 2) (blocks_per_group G)).
  assert (g * blocks_per_group G <= (blocks G - 2) / blocks_per_group G * blocks_per_group G)
    by (apply Z.mul_le_mono_nonneg_r; lia). nia.
Qed.
Lemma gsize_range g : 0 <= g < groups G -> 1 <= gsize G g <= 8192.
Proof. intros Hg. pose proof (gstart_inside g Hg). pose proof (ok_bpg G HG). unfold gsize. lia. Qed.
Lemma gend_inside g : 0 <= g < groups G -> gstart G g + gsize G g <= blocks G.
Proof. intros Hg. pose proof (gstart_inside g Hg). unfold gsize. lia. Qed.
Lemma group_start_eq g : 0 <= g < groups G -> group_start G g = gstart G g.
Proof.
  intros Hg. pose proof (gstart_inside g Hg). pose proof (ok_blocks G HG). unfold group_start, gstart in *.
  apply u32_small. unfold is_u32, MAX_BLOCKS in *. lia.
Qed.
Lemma group_size_eq g : 0 <= g < groups G -> group_size G g = gsize G g.
Proof.
  intros Hg. pose proof (gstart_inside g Hg). pose proof (ok_blocks G HG).
  unfold group_size. rewrite group_start_eq by done. unfold gsize.
  rewrite u32_small by (unfold is_u32, MAX_BLOCKS in *; lia).
  destruct (Z.ltb_spec (blocks G - gstart G g) (blocks_per_group G)); lia.
Qed.
(** The group of a block and its place in it. *)
Lemma block_group b : 1 <= b < blocks G ->
  0 <= (b - 1) / blocks_per_group G < groups G /\
  0 <= b - gstart G ((b - 1) / blocks_per_group G) < gsize G ((b - 1) / blocks_per_group G).
Proof.
  intros Hb. pose proof (ok_bpg G HG) as Hp. pose proof (ok_blocks G HG).
  assert (0 <= (b - 1) / blocks_per_group G < groups G) as Hg.
  { rewrite (ok_groups G HG). split; [apply Z.div_pos; lia|].
    apply Z.lt_succ_r, Z.div_le_mono; lia. }
  split; [done|]. unfold gsize, gstart. pose proof (Z.mod_pos_bound (b - 1) (blocks_per_group G)).
  pose proof (Z.div_mod (b - 1) (blocks_per_group G)). lia.
Qed.
Lemma group_of_block b g : 0 <= g < groups G -> gstart G g <= b < gstart G g + gsize G g ->
  (b - 1) / blocks_per_group G = g.
Proof.
  intros Hg Hb. pose proof (ok_bpg G HG). unfold gsize, gstart in Hb.
  symmetry. apply (Z.div_unique _ _ _ (b - 1 - g * blocks_per_group G)); lia.
Qed.
(** The group of an inode and its place in the table. *)
Lemma inode_group n : 1 <= n <= inode_count G ->
  0 <= (n - 1) / inodes_per_group G < groups G /\
  0 <= (n - 1) mod inodes_per_group G < inodes_per_group G.
Proof.
  intros Hn. pose proof (ok_ipg G HG). rewrite (ok_inode_count G HG) in Hn.
  split; [split; [apply Z.div_pos; lia|apply Z.div_lt_upper_bound; lia]|apply Z.mod_pos_bound; lia].
Qed.
Lemma inode_count_range : 1 <= inode_count G <= 640 * 8192.
Proof.
  pose proof (ok_first_inode G HG). rewrite (ok_inode_count G HG) in *.
  pose proof (ok_ipg G HG). pose proof (ok_max_groups G HG). pose proof groups_pos. unfold MAX_GROUPS in *. nia.
Qed.
Lemma inode_place i : 0 <= i < inodes_per_group G ->
  0 <= i * inode_size G / 1024 < table_blocks G /\
  0 <= (i * inode_size G) mod 1024 /\ (i * inode_size G) mod 1024 + inode_size G <= 1024 /\
  ((i * inode_size G) mod 1024) mod 128 = 0.
Proof.
  intros Hi. pose proof (ok_inode_size G HG) as Hs. pose proof (ok_table_exact G HG) as Hm.
  pose proof (ok_tables G HG) as Ht.
  assert (inodes_per_group G * inode_size G = 1024 * table_blocks G) as He.
  { rewrite Ht. pose proof (Z.div_mod (inodes_per_group G * inode_size G) 1024). lia. }
  split.
  - split; [apply Z.div_pos; lia|]. apply Z.div_lt_upper_bound; [lia|]. rewrite <- He.
    destruct Hs as [-> | ->]; lia.
  - destruct Hs as [-> | ->]; dm_lia.
Qed.
End Geometry.

(** ** Layout: where the descriptors place the metadata of each group *)
Definition backup_at (sb : list Z) (g : Z) : bool :=
  negb (has_bits (le32 sb 100) 1) || (g =? 0) || (g =? 1) ||
  power_of 32 g 3 || power_of 32 g 5 || power_of 32 g 7.
Definition metadata_end (G : Geometry) (sb : list Z) (g : Z) : Z :=
  gstart G g + (if backup_at sb g then 1 + descriptor_blocks G else 0).

Definition field (gd : list Z) (g k : Z) : Z := le32 gd (g * 32 + k).
Definition bitmap_of_group (gd : list Z) (g : Z) : Z := field gd g 0.
Definition imap_of_group (gd : list Z) (g : Z) : Z := field gd g 4.
Definition table_of_group (gd : list Z) (g : Z) : Z := field gd g 8.

Record group_ok (G : Geometry) (sb gd : list Z) (g : Z) : Prop := {
  group_bitmap : metadata_end G sb g <= bitmap_of_group gd g < gstart G g + gsize G g;
  group_imap : metadata_end G sb g <= imap_of_group gd g < gstart G g + gsize G g;
  group_distinct : bitmap_of_group gd g <> imap_of_group gd g;
  group_table : metadata_end G sb g <= table_of_group gd g /\
                table_of_group gd g + table_blocks G <= gstart G g + gsize G g;
  group_bitmap_apart : ~ (table_of_group gd g <= bitmap_of_group gd g < table_of_group gd g + table_blocks G);
  group_imap_apart : ~ (table_of_group gd g <= imap_of_group gd g < table_of_group gd g + table_blocks G) }.

Record layout (G : Geometry) (sb gd : list Z) : Prop := {
  lay_geometry : geometry_ok G;
  lay_groups : forall g, 0 <= g < groups G -> group_ok G sb gd g }.

(** The block is none of the metadata of its group. *)
Definition is_data (G : Geometry) (sb gd : list Z) (b : Z) : bool :=
  if (b =? 0) || (blocks G <=? b) then false
  else
    let g := (b - 1) / blocks_per_group G in
    negb (backup_at sb g && (b <? gstart G g + 1 + descriptor_blocks G)) &&
    negb (b =? bitmap_of_group gd g) && negb (b =? imap_of_group gd g) &&
    negb ((table_of_group gd g <=? b) && (b <? table_of_group gd g + table_blocks G)).

Section Layout.
Context (G : Geometry) (sb gd : list Z) (HL : layout G sb gd).
Let HG : geometry_ok G := lay_geometry _ _ _ HL.

Lemma metadata_end_le g : gstart G g <= metadata_end G sb g.
Proof.
  unfold metadata_end. rewrite (ok_descriptors G HG). pose proof (groups_pos G HG).
  pose proof (Z.div_pos (groups G * 32 + 1023) 1024). destruct backup_at; lia.
Qed.
Lemma group_block_range g b : 0 <= g < groups G -> metadata_end G sb g <= b < gstart G g + gsize G g ->
  1 <= b < blocks G /\ (b - 1) / blocks_per_group G = g.
Proof.
  intros Hg Hb. pose proof (metadata_end_le g). pose proof (gstart_inside G HG g Hg).
  pose proof (gend_inside G HG g Hg). split; [lia|]. apply (group_of_block G HG); [done|lia].
Qed.
Lemma imap_range g : 0 <= g < groups G ->
  1 <= imap_of_group gd g < blocks G /\ (imap_of_group gd g - 1) / blocks_per_group G = g.
Proof. intros Hg. apply group_block_range; [done|]. by apply (lay_groups _ _ _ HL). Qed.
Lemma bitmap_range g : 0 <= g < groups G ->
  1 <= bitmap_of_group gd g < blocks G /\ (bitmap_of_group gd g - 1) / blocks_per_group G = g.
Proof. intros Hg. apply group_block_range; [done|]. by apply (lay_groups _ _ _ HL). Qed.
Lemma table_range g k : 0 <= g < groups G -> 0 <= k < table_blocks G ->
  1 <= table_of_group gd g + k < blocks G /\ (table_of_group gd g + k - 1) / blocks_per_group G = g.
Proof.
  intros Hg Hk. destruct (lay_groups _ _ _ HL g Hg) as [_ _ _ [? ?] _ _].
  apply group_block_range; [done|lia].
Qed.

Lemma is_data_range b : 0 <= b -> is_data G sb gd b = true -> 1 <= b < blocks G.
Proof.
  unfold is_data. destruct (Z.eqb_spec b 0), (Z.leb_spec (blocks G) b); cbn [orb]; try done. lia.
Qed.
Lemma is_data_apart b : 0 <= b -> is_data G sb gd b = true ->
  let g := (b - 1) / blocks_per_group G in
  b <> bitmap_of_group gd g /\ b <> imap_of_group gd g /\
  ~ (table_of_group gd g <= b < table_of_group gd g + table_blocks G).
Proof.
  intros Hb Hd. unfold is_data in Hd. destruct ((b =? 0) || (blocks G <=? b)); [done|].
  bool_to_prop. split_and!; [done|done|]. intros [? ?].
  match goal with H : (_ && _) = false |- _ => apply andb_false_iff in H as [H|H]; bool_to_prop; lia end.
Qed.
Lemma data_not_imap b g : 0 <= b -> is_data G sb gd b = true -> 0 <= g < groups G -> b <> imap_of_group gd g.
Proof.
  intros Hb Hd Hg ->. destruct (imap_range g Hg) as [_ Hq].
  destruct (is_data_apart _ Hb Hd) as (_ & H & _). by rewrite Hq in H.
Qed.
Lemma data_not_bitmap b g : 0 <= b -> is_data G sb gd b = true -> 0 <= g < groups G -> b <> bitmap_of_group gd g.
Proof.
  intros Hb Hd Hg ->. destruct (bitmap_range g Hg) as [_ Hq].
  destruct (is_data_apart _ Hb Hd) as (H & _ & _). by rewrite Hq in H.
Qed.
Lemma data_not_table b g k : 0 <= b -> is_data G sb gd b = true -> 0 <= g < groups G -> 0 <= k < table_blocks G ->
  b <> table_of_group gd g + k.
Proof.
  intros Hb Hd Hg Hk ->. destruct (table_range g k Hg Hk) as [_ Hq].
  destruct (is_data_apart _ Hb Hd) as (_ & _ & H). rewrite Hq in H. lia.
Qed.
Lemma table_not_imap g k g' : 0 <= g < groups G -> 0 <= k < table_blocks G -> 0 <= g' < groups G ->
  table_of_group gd g + k <> imap_of_group gd g'.
Proof.
  intros Hg Hk Hg' He. destruct (table_range g k Hg Hk) as [_ Hq]. destruct (imap_range g' Hg') as [_ Hq'].
  rewrite He, Hq' in Hq. subst g'. destruct (lay_groups _ _ _ HL g Hg). lia.
Qed.
Lemma table_not_bitmap g k g' : 0 <= g < groups G -> 0 <= k < table_blocks G -> 0 <= g' < groups G ->
  table_of_group gd g + k <> bitmap_of_group gd g'.
Proof.
  intros Hg Hk Hg' He. destruct (table_range g k Hg Hk) as [_ Hq]. destruct (bitmap_range g' Hg') as [_ Hq'].
  rewrite He, Hq' in Hq. subst g'. destruct (lay_groups _ _ _ HL g Hg). lia.
Qed.
End Layout.
