(* ===== verification/Ext2Frame.v ===== *)
(** * Ext2 engine: steps between states

    [step]: what every operation between [begin] and [finish] leaves alone
    (the disk, the geometry, the layout, the saved copies, the identity of
    the cached blocks).  [reads]: steps that only fill the cache. *)
From Stdlib Require Import String.
From S2P Require Import Prelude CString Ext2Core Ext2Logic.

Section Frame.
Context {D : Type} `{BD : BlockDevice D} {DL : DeviceLaws D}.
#[local] Abbreviation St := (Fs D).
#[local] Abbreviation M := (@M D).
Implicit Types (s : St) (p : Ptr).

(** ** The cache *)
Definition names (c : CacheSlot) : Z * list Z := (slot_block c, slot_before c).
(** A block that [block] cannot bring into the cache any more. *)
Definition unavailable s n : Prop :=
  find_slot (cache s) n = None /\
  (blocks (geo s) <= n \/ zlen (cache s) = CACHE_BLOCKS \/ unreadable (dev s) (u32 (n * 2)) 2).

(** What the disk holds of a block, and what the engine sees of it. *)
Definition disk_block (d : D) (n : Z) : list Z := image d (u32 (n * 2)) ++ image d (u32 (n * 2) + 1).
Definition view s n : list Z :=
  match find_slot (cache s) n with Some i => bytes_of s (RCache i) | None => disk_block (dev s) n end.
(** The copies of the cache are those of the disk, one per block. *)
Definition coherent s : Prop :=
  Forall (fun c => c.2 = disk_block (dev s) c.1) (map names (cache s)) /\ NoDup (map fst (map names (cache s))).
Lemma coherent_same s s' : image (dev s') = image (dev s) -> map names (cache s') = map names (cache s) ->
  coherent s -> coherent s'.
Proof. unfold coherent, disk_block. by intros -> ->. Qed.

Record step s s' : Prop := {
  step_mem : mem_ok s';
  step_geo : geo s' = geo s;
  step_fields : forall g k, 0 <= g < groups (geo s) -> k = 0 \/ k = 4 \/ k = 8 ->
    field (descriptors s') g k = field (descriptors s) g k;
  step_sparse : le32 (superblock s') 100 = le32 (superblock s) 100;
  step_image : image (dev s') = image (dev s);
  step_saved : saved_super s' = saved_super s /\ saved_descriptors s' = saved_descriptors s;
  step_cwd : cwd s' = cwd s;
  step_mounted : mounted s' = mounted s;
  step_error : cache_error s = true -> cache_error s' = true;
  step_names : map names (cache s) `prefix_of` map names (cache s');
  step_unavailable : forall n, unavailable s n -> unavailable s' n;
  step_coherent : coherent s -> coherent s' }.

Record reads s s' : Prop := {
  reads_step : step s s';
  reads_super : superblock s' = superblock s;
  reads_desc : descriptors s' = descriptors s;
  reads_hints : hint_block s' = hint_block s /\ hint_inode s' = hint_inode s;
  reads_cache : cache s `prefix_of` cache s';
  reads_view : coherent s -> forall n, view s' n = view s n }.

Lemma step_refl s : mem_ok s -> step s s.
Proof. by constructor. Qed.
Lemma reads_refl s : mem_ok s -> reads s s.
Proof. intros. by constructor; [apply step_refl| | | | |]. Qed.
Lemma step_trans s1 s2 s3 : step s1 s2 -> step s2 s3 -> step s1 s3.
Proof.
  intros [? G1 F1 S1 I1 [V1 W1] C1 M1 E1 N1 U1 K1] [? G2 F2 S2 I2 [V2 W2] C2 M2 E2 N2 U2 K2].
  constructor; try congruence; auto.
  - intros g k Hg Hk. rewrite F2, F1; [done| |done| |done]; congruence.
  - split; congruence.
  - by etrans.
Qed.
Lemma reads_trans s1 s2 s3 : reads s1 s2 -> reads s2 s3 -> reads s1 s3.
Proof.
  intros [T1 S1 D1 [H1 J1] C1 V1] [T2 S2 D2 [H2 J2] C2 V2].
  constructor; try congruence; [by eapply step_trans|split; congruence|by etrans|].
  intros Hc n. rewrite V2, V1; [done|done|by apply (step_coherent _ _ T1)].
Qed.

(** ** The layout and the data blocks survive a step *)
Definition laid s : Prop := mem_ok s /\ layout (geo s) (superblock s) (descriptors s).
Definition data s b : bool := is_data (geo s) (superblock s) (descriptors s) b.
Definition imap s g : Z := imap_of_group (descriptors s) g.
Definition bitmap s g : Z := bitmap_of_group (descriptors s) g.
Definition itable s g : Z := table_of_group (descriptors s) g.

Lemma step_backup s s' g : step s s' -> backup_at (superblock s') g = backup_at (superblock s) g.
Proof. intros H. unfold backup_at. by rewrite (step_sparse _ _ H). Qed.
Lemma step_imap s s' g : step s s' -> 0 <= g < groups (geo s) -> imap s' g = imap s g.
Proof. intros H Hg. apply (step_fields _ _ H); auto. Qed.
Lemma step_bitmap s s' g : step s s' -> 0 <= g < groups (geo s) -> bitmap s' g = bitmap s g.
Proof. intros H Hg. apply (step_fields _ _ H); auto. Qed.
Lemma step_itable s s' g : step s s' -> 0 <= g < groups (geo s) -> itable s' g = itable s g.
Proof. intros H Hg. apply (step_fields _ _ H); auto. Qed.

Lemma step_laid s s' : laid s -> step s s' -> laid s'.
Proof.
  intros [Hm HL] H. split; [apply H|]. rewrite (step_geo _ _ H). constructor; [apply HL|].
  intros g Hg. destruct (lay_groups _ _ _ HL g Hg) as [B I Di T BA IA].
  pose proof (step_fields _ _ H g 0 Hg (or_introl eq_refl)) as F0.
  pose proof (step_fields _ _ H g 4 Hg (or_intror (or_introl eq_refl))) as F4.
  pose proof (step_fields _ _ H g 8 Hg (or_intror (or_intror eq_refl))) as F8.
  unfold bitmap_of_group, imap_of_group, table_of_group, metadata_end in *.
  constructor; unfold bitmap_of_group, imap_of_group, table_of_group, metadata_end;
    rewrite ?(step_backup _ _ g H), ?F0, ?F4, ?F8; done.
Qed.
Lemma step_data s s' b : laid s -> 0 <= b -> step s s' -> data s' b = data s b.
Proof.
  intros [Hm HL] Hb H. unfold data, is_data. rewrite (step_geo _ _ H).
  destruct (Z.eqb_spec b 0), (Z.leb_spec (blocks (geo s)) b); cbn [orb]; try done.
  destruct (block_group (geo s) (lay_geometry _ _ _ HL) b) as [Hg _]; [lia|].
  cbv zeta. rewrite (step_backup _ _ _ H).
  pose proof (step_bitmap _ _ _ H Hg) as Eb. pose proof (step_imap _ _ _ H Hg) as Ei.
  pose proof (step_itable _ _ _ H Hg) as Et.
  unfold bitmap, imap, itable in Eb, Ei, Et. by rewrite Eb, Ei, Et.
Qed.

(** ** Finding a cached block *)
Lemma find_slot_lookup l n i : find_slot l n = Some i -> exists c, l !! i = Some c /\ slot_block c = n.
Proof.
  revert i. induction l as [|c l IH]; cbn; intros i; [done|].
  destruct (Z.eqb_spec (slot_block c) n).
  - intros [= <-]. eauto.
  - destruct (find_slot l n) as [j|] eqn:E; cbn; [|done]. intros [= <-]. by apply IH.
Qed.
Lemma find_slot_none l n c : find_slot l n = None -> c ∈ l -> slot_block c <> n.
Proof.
  induction l as [|c' l IH]; cbn; [by intros _ H%elem_of_nil|].
  destruct (Z.eqb_spec (slot_block c') n); [done|].
  destruct (find_slot l n) eqn:E; [done|]. intros _ [<-|H]%elem_of_cons; auto.
Qed.
Lemma find_slot_prefix l l' n i :
  map names l `prefix_of` map names l' -> find_slot l n = Some i -> find_slot l' n = Some i.
Proof.
  revert l' i. induction l as [|c l IH]; cbn; intros l' i; [done|].
  intros [k Hk]. destruct l' as [|c' l']; [done|]. cbn in *. injection Hk as Hb _ Hk. rewrite Hb.
  destruct (Z.eqb_spec (slot_block c) n); [done|].
  destruct (find_slot l n) as [j|] eqn:E; cbn; [|done]. intros [= <-].
  by rewrite (IH l' j) by (try eexists; done).
Qed.
Lemma find_slot_app_new l n c :
  find_slot l n = None -> slot_block c = n -> find_slot (l ++ [c]) n = Some (length l).
Proof.
  intros Hn Hc. induction l as [|c' l IH]; cbn in *.
  - by ztrue (slot_block c =? n).
  - destruct (Z.eqb_spec (slot_block c') n); [done|].
    destruct (find_slot l n) eqn:E; [done|]. by rewrite IH.
Qed.
Lemma find_slot_app_other l n c :
  find_slot l n = None -> slot_block c <> n -> find_slot (l ++ [c]) n = None.
Proof.
  intros Hn Hc. induction l as [|c' l IH]; cbn in *.
  - by zfalse (slot_block c =? n).
  - destruct (Z.eqb_spec (slot_block c') n); [done|].
    destruct (find_slot l n) eqn:E; [done|]. by rewrite IH.
Qed.

(** ** Pointers into a block: cached, or the failed buffer after an error *)
Definition in_block s n p : Prop :=
  (exists i, p.1 = RCache i /\ find_slot (cache s) n = Some i) \/
  (p.1 = RFailed /\ cache_error s = true /\ unavailable s n).

Lemma step_in_block s s' n p : step s s' -> in_block s n p -> in_block s' n p.
Proof.
  intros H [(i & Hp & Hf)|(Hp & He & Hu)]; [left|right].
  - exists i. split; [done|]. eapply find_slot_prefix; [apply H|done].
  - split_and!; [done|by apply (step_error _ _ H)|by apply (step_unavailable _ _ H)].
Qed.
Lemma in_block_size s n p : mem_ok s -> in_block s n p -> zlen (bytes_of s p.1) = 1024.
Proof.
  intros Hm [(i & -> & Hf)|(-> & _)]; [|apply Hm].
  destruct (find_slot_lookup _ _ _ Hf) as (c & Hc & _). unfold bytes_of. cbn. rewrite Hc. cbn.
  pose proof (mem_cache s Hm) as H. rewrite Forall_lookup in H. apply (H i c Hc).
Qed.
Lemma in_block_valid s n p k : mem_ok s -> in_block s n p -> 0 <= p.2 -> 0 <= k -> p.2 + k <= 1024 -> valid s p k.
Proof. intros Hm Hp. pose proof (in_block_size s n p Hm Hp) as E. unfold valid. rewrite E. lia. Qed.
(** Pointers into different blocks have different regions, unless both failed. *)
Lemma in_block_apart s n m p q :
  in_block s n p -> in_block s m q -> n <> m -> p.1 = q.1 -> p.1 = RFailed.
Proof.
  intros [(i & Hp & Hf)|(Hp & _)] [(j & Hq & Hg)|(Hq & _)] Hne He; try congruence.
  rewrite Hp, Hq in He. injection He as ->.
  destruct (find_slot_lookup _ _ _ Hf) as (c & Hc & <-).
  destruct (find_slot_lookup _ _ _ Hg) as (c' & Hc' & <-). congruence.
Qed.

(** Reads leave the bytes of every cached pointer alone. *)
Lemma reads_bytes s s' r : reads s s' -> r <> RFailed -> is_Some (region s r) -> bytes_of s' r = bytes_of s r.
Proof.
  intros H Hr [l Hl]. destruct r as [| |i|]; [| | |done]; unfold bytes_of; cbn in *.
  - by rewrite (reads_super _ _ H).
  - by rewrite (reads_desc _ _ H).
  - destruct (cache s !! i) as [c|] eqn:E; [|done].
    by rewrite (prefix_lookup_Some _ _ _ _ E (reads_cache _ _ H)).
Qed.
Lemma reads_data s s' b : reads s s' -> data s' b = data s b.
Proof.
  intros H. unfold data. by rewrite (reads_super _ _ H), (reads_desc _ _ H), (step_geo _ _ (reads_step _ _ H)).
Qed.
Lemma reads_laid s s' : laid s -> reads s s' -> laid s'.
Proof. intros Hl H. by apply (step_laid s); [|apply H]. Qed.
(** ** Writes are steps *)
Lemma map_names_alter l i (x : list Z) :
  map names (alter (fun c => {| slot_block := slot_block c; slot_data := x; slot_before := slot_before c |}) i l)
  = map names l.
Proof.
  revert i. induction l as [|c l IH]; intros [|i]; try done. cbn. f_equal. apply IH.
Qed.
Lemma find_slot_names l l' n : map names l = map names l' -> find_slot l n = find_slot l' n.
Proof.
  revert l'. induction l as [|c l IH]; intros [|c' l']; try done. cbn. intros [= Hb _ Hl].
  by rewrite Hb, (IH l' Hl).
Qed.
Lemma zlen_names l l' : map names l = map names l' -> zlen l = zlen l'.
Proof. intros H%(f_equal length). unfold zlen. rewrite !length_map in H. lia. Qed.

Lemma step_write_gen s p bs :
  mem_ok (write s p bs) ->
  (forall g k, 0 <= g < groups (geo s) -> k = 0 \/ k = 4 \/ k = 8 ->
     field (descriptors (write s p bs)) g k = field (descriptors s) g k) ->
  le32 (superblock (write s p bs)) 100 = le32 (superblock s) 100 ->
  step s (write s p bs).
Proof.
  intros Hm Hf Hs.
  assert (map names (cache (write s p bs)) = map names (cache s)) as Hn.
  { unfold write. destruct p.1; cbn; try done. apply map_names_alter. }
  assert (geo (write s p bs) = geo s /\ dev (write s p bs) = dev s /\ cwd (write s p bs) = cwd s /\
          mounted (write s p bs) = mounted s /\ cache_error (write s p bs) = cache_error s /\
          saved_super (write s p bs) = saved_super s /\
          saved_descriptors (write s p bs) = saved_descriptors s)
    as (Hg & Hd & Hc & Hmt & He & Hss & Hsd) by (unfold write; destruct p.1; done).
  constructor; try done; try congruence; [by rewrite Hn| |by apply coherent_same; [rewrite Hd|]].
  - intros n. unfold unavailable. rewrite (find_slot_names _ _ n Hn), (zlen_names _ _ Hn). by rewrite Hg, Hd.
Qed.

Definition in_cache p : Prop := p.1 <> RSuper /\ p.1 <> RDesc.
Lemma in_block_cache s n p : in_block s n p -> in_cache p.
Proof. intros [(i & H & _)|(H & _)]; split; congruence. Qed.

Lemma step_write_cache s p bs : mem_ok s -> valid s p (zlen bs) -> bytes_ok bs -> in_cache p -> step s (write s p bs).
Proof.
  intros Hm Hv Hb [H1 H2]. apply step_write_gen; [by apply write_mem_ok|..];
    unfold write; by destruct p.1.
Qed.
(** The counters of the superblock: bytes 12 to 19. *)
Lemma step_write_super s k bs :
  mem_ok s -> bytes_ok bs -> bs <> [] -> 12 <= k -> k + zlen bs <= 20 -> step s (write s (padd SB k) bs).
Proof.
  intros Hm Hb Hn Hk Hl.
  assert (zlen (bytes_of s RSuper) = 1024) as Hz by apply Hm.
  assert (valid s (padd SB k) (zlen bs)) as Hv
    by (unfold valid, padd, SB; cbn [fst snd]; pose proof (zlen_nonneg bs); lia).
  apply step_write_gen; [by apply write_mem_ok|done|].
  change (superblock (write s (padd SB k) bs)) with (splice (superblock s) k bs).
  apply le32_splice_out; unfold bytes_of in Hz; cbn in Hz; lia.
Qed.
(** The counters of a group descriptor: from byte 12 of its 32. *)
Lemma step_write_desc s g k bs :
  mem_ok s -> bytes_ok bs -> bs <> [] -> 0 <= g < 640 -> 12 <= k -> k + zlen bs <= 32 ->
  step s (write s (padd (group_desc g) k) bs).
Proof.
  intros Hm Hb Hn Hg Hk Hl.
  assert (zlen (bytes_of s RDesc) = 20480) as Hz by apply Hm.
  assert (valid s (padd (group_desc g) k) (zlen bs)) as Hv
    by (unfold valid, padd, group_desc, GD; cbn [fst snd padd]; pose proof (zlen_nonneg bs); lia).
  apply step_write_gen; [by apply write_mem_ok| |done].
  intros h j Hh Hj.
  change (descriptors (write s (padd (group_desc g) k) bs)) with (splice (descriptors s) (0 + g * 32 + k) bs).
  unfold field. unfold bytes_of in Hz; cbn in Hz. pose proof (zlen_nonneg bs).
  apply le32_splice_out; lia.
Qed.

(** A write elsewhere leaves the bytes of a region alone. *)
Lemma v32_write_ne s p bs q : q.1 <> p.1 -> v32 (write s p bs) q = v32 s q.
Proof. intros. unfold v32. by rewrite bytes_of_write_ne. Qed.
Lemma v8_write_ne s p bs q : q.1 <> p.1 -> v8 (write s p bs) q = v8 s q.
Proof. intros. unfold v8. by rewrite bytes_of_write_ne. Qed.
Lemma v32_write_out s p bs q : valid s p (zlen bs) -> bs <> [] -> 0 <= q.2 ->
  q.2 + 4 <= p.2 \/ p.2 + zlen bs <= q.2 -> v32 (write s p bs) q = v32 s q.
Proof.
  intros Hv Hb Hq Ho. assert (Decision (q.1 = p.1)) as [E|Hne] by (unfold Decision; repeat decide equality).
  - unfold v32. rewrite E, bytes_of_write by done. apply le32_splice_out; unfold valid in Hv; lia.
  - by apply v32_write_ne.
Qed.
Lemma v32_write_same s p n : valid s p 4 -> v32 (write s p (le32_bytes n)) p = u32 n.
Proof.
  intros Hv. unfold v32. rewrite bytes_of_write by done.
  rewrite le32_splice_in by (change (zlen (le32_bytes n)) with 4; unfold valid in Hv; lia).
  rewrite Z.sub_diag. apply le32_of_bytes.
Qed.

End Frame.
#[export] Hint Resolve le16_bytes_ok le32_bytes_ok : barnix.

(** Chains of steps. *)
Ltac rtrans :=
  match goal with
  | |- reads ?a ?b => assumption
  | H : reads ?a ?c |- reads ?a ?b => apply (reads_trans a c b); [exact H|rtrans]
  end.
Ltac strans :=
  match goal with
  | |- step ?a ?b => assumption
  | H : reads ?a ?b |- step ?a ?b => exact (reads_step a b H)
  | H : reads ?a ?c |- step ?a ?b => apply (step_trans a c b); [exact (reads_step a c H)|strans]
  | H : step ?a ?c |- step ?a ?b => apply (step_trans a c b); [exact H|strans]
  end.
