(* ===== verification/Ext2Blocks.v ===== *)
(** * Ext2 engine: specifications of the cache, the inodes and [supported]

    Every function of Ext2Core that only reads is defined on a laid-out
    volume whatever the disk holds, and what it answers is a function of the
    memory it leaves. *)
From Stdlib Require Import String.
From S2P Require Import Prelude CString Ext2Core Ext2Logic Ext2Frame.

Section Blocks.
Context {D : Type} `{BD : BlockDevice D} {DL : DeviceLaws D}.
#[local] Abbreviation St := (Fs D).
#[local] Abbreviation M := (@M D).
Implicit Types (s : St) (p : Ptr).

(** ** [block] *)
Definition zero_block : list Z := replicate 1024 0.
Lemma byte_zero i : byte_at zero_block i = 0.
Proof.
  unfold byte_at, zero_block. rewrite nth_lookup.
  destruct (replicate 1024 0 !! Z.to_nat i) as [x|] eqn:E; [|done].
  by apply lookup_replicate in E as [-> _].
Qed.
(** A result of [block]: in the cache, or the failed buffer, zeroed. *)
Definition fresh s p : Prop := p.1 = RFailed -> failed_block s = zero_block.

Lemma reads_device s d failed c e :
  mem_ok s -> image d = image (dev s) -> buffer 1024 failed ->
  cache s `prefix_of` c -> Forall slot_ok c -> zlen c <= CACHE_BLOCKS ->
  (cache_error s = true -> e = true) ->
  (forall n, unavailable s n -> unavailable (set_cache c (set_error e (set_failed failed (set_dev d s)))) n) ->
  (c = cache s \/ exists n, find_slot (cache s) n = None /\
     c = cache s ++ [{| slot_block := n; slot_data := disk_block (dev s) n; slot_before := disk_block (dev s) n |}]) ->
  reads s (set_cache c (set_error e (set_failed failed (set_dev d s)))).
Proof.
  intros Hm Hi Hf Hp Hc Hz He Hu HK.
  set (s' := set_cache c _) in *.
  assert (forall n, disk_block (dev s') n = disk_block (dev s) n) as Hdb by (intros n; unfold disk_block; cbn; by rewrite Hi).
  assert (coherent s -> coherent s') as HC.
  { intros [H1 H2]. destruct HK as [->|(n & Hn & ->)]; [apply coherent_same with (s := s); [done|done|by split]|].
    unfold coherent. change (cache s') with (cache s ++ [{| slot_block := n; slot_data := disk_block (dev s) n;
      slot_before := disk_block (dev s) n |}]). rewrite !map_app. split.
    - apply Forall_app. split; [eapply Forall_impl; [exact H1|]; cbn; intros x ->; by rewrite Hdb|].
      apply Forall_singleton. cbn. by rewrite Hdb.
    - apply NoDup_app. split; [done|]. split; [|apply NoDup_singleton]. cbn. intros x Hx ->%list_elem_of_singleton.
      rewrite map_map in Hx. apply list_elem_of_In, in_map_iff in Hx as (sl & Hsl & Hin%list_elem_of_In).
      by apply (find_slot_none _ _ sl Hn). }
  assert (coherent s -> forall n, view s' n = view s n) as HV.
  { intros _ n. unfold view. destruct HK as [->|(k & Hk & ->)].
    - change (cache s') with (cache s). destruct (find_slot (cache s) n); [done|apply Hdb].
    - change (cache s') with (cache s ++ [{| slot_block := k; slot_data := disk_block (dev s) k;
        slot_before := disk_block (dev s) k |}]). destruct (find_slot (cache s) n) as [i|] eqn:E.
      + rewrite (find_slot_prefix (cache s) _ n i); [|rewrite map_app; by eexists|done].
        destruct (find_slot_lookup _ _ _ E) as (x & Hx & _). unfold bytes_of. cbn. by rewrite (lookup_app_l_Some _ _ _ _ Hx), Hx.
      + destruct (Z.eq_dec k n) as [->|Hne].
        * rewrite find_slot_app_new by done. unfold bytes_of. cbn. by rewrite list_lookup_middle.
        * rewrite find_slot_app_other by done. apply Hdb. }
  assert (mem_ok (set_cache c (set_error e (set_failed failed (set_dev d s))))) as Hm'
    by (destruct Hm; by constructor).
  constructor; try done. constructor; try done.
  cbn. destruct Hp as [k ->]. rewrite map_app. by exists (map names k).
Qed.

Lemma unavailable_sticky s n failed e ok bs d lba k :
  disk_read_many (dev s) lba k = (ok, bs, d) -> unavailable s n ->
  unavailable (set_cache (cache s) (set_error e (set_failed failed (set_dev d s)))) n.
Proof.
  intros Hr (Hf & Hu). split; [done|]. cbn. destruct Hu as [?|[?|?]]; auto.
  do 2 right. by eapply read_sticky.
Qed.

Lemma zero_block_buffer : buffer 1024 zero_block.
Proof. split; [done|]. apply Forall_forall. intros x Hx%elem_of_replicate. destruct Hx as [-> _]. unfold is_byte. lia. Qed.

Lemma block_fail_spec s d failed n :
  mem_ok s -> image d = image (dev s) -> buffer 1024 failed ->
  (forall m e f, unavailable s m -> unavailable (set_cache (cache s) (set_error e (set_failed f (set_dev d s)))) m) ->
  unavailable (set_cache (cache s) (set_error true (set_failed zero_block (set_dev d s)))) n ->
  wp block_fail (fun p s' => reads s s' /\ in_block s' n p /\ p.2 = 0 /\ fresh s' p)
     (set_failed failed (set_dev d s)).
Proof.
  intros Hm Hi Hf Hu Hn. unfold block_fail. apply wp_modify, wp_ret.
  assert (forall x : St, set_failed zero_block (set_error true (set_failed failed (set_dev d x)))
            = set_cache (cache x) (set_error true (set_failed zero_block (set_dev d x)))) as E by done.
  change (replicate 1024 0) with zero_block. rewrite E. split_and!; try done.
  - apply reads_device; try done; [apply zero_block_buffer|apply Hm|apply Hm| |by left]. intros. by apply Hu.
  - right. done.
Qed.

Lemma block_spec s n : mem_ok s -> blocks (geo s) <= MAX_BLOCKS -> is_u32 n ->
  wp (block n) (fun p s' => reads s s' /\ in_block s' n p /\ p.2 = 0 /\ fresh s' p) s.
Proof.
  intros Hm Hb Hn. unfold block. apply wp_gets.
  destruct (find_slot (cache s) n) as [i|] eqn:Hf.
  { apply wp_ret. split_and!; [by apply reads_refl|left; eauto|done|done]. }
  apply wp_gets.
  destruct ((blocks (geo s) <=? n) || (zlen (cache s) =? CACHE_BLOCKS)) eqn:Hfull.
  - assert (s = set_failed (failed_block s) (set_dev (dev s) s)) as E by (by destruct s).
    rewrite E at 1. apply block_fail_spec; try done; [apply Hm|].
    split; [done|]. cbn. apply orb_true_iff in Hfull as [?|?]; bool_to_prop; auto.
  - apply orb_false_iff in Hfull as [Hlt Hcount]. bool_to_prop.
    destruct (disk_read_many (dev s) (u32 (n * 2)) 2) as [[ok bs] d] eqn:Hr.
    apply wp_bind. unfold wp at 1, read_device. rewrite Hr. cbn [fst snd].
    destruct (read_length _ _ _ _ _ _ Hr) as [Hlen Hbs]; [lia|].
    pose proof (read_image _ _ _ _ _ _ Hr) as Hi. apply wp_modify.
    assert (forall e f m, unavailable s m -> unavailable (set_cache (cache s) (set_error e (set_failed f (set_dev d s)))) m)
      as Hst by (intros; by eapply unavailable_sticky).
    destruct ok.
    + apply wp_modify, wp_ret. pose proof (mem_count s Hm).
      assert (bs = disk_block (dev s) n) as Hval.
      { rewrite (read_value _ _ _ _ _ Hr) by lia. rewrite !seqZ_cons, seqZ_nil by lia. cbn [map concat].
        by rewrite app_nil_r, <- Z.add_1_r. }
      set (c := {| slot_block := n; slot_data := bs; slot_before := bs |}).
      assert (forall x : St, set_cache (cache s ++ [c]) (set_failed bs (set_dev d x))
        = set_cache (cache s ++ [c]) (set_error (cache_error x) (set_failed bs (set_dev d x)))) as E by done.
      rewrite E. split_and!; try done.
      * apply reads_device; try done.
        -- by exists [c].
        -- apply Forall_app; split; [apply Hm|]. by apply Forall_singleton.
        -- rewrite zlen_app. change (zlen [c]) with 1. lia.
        -- intros m (Hfm & Hum). split; cbn.
           ++ apply find_slot_app_other; [done|]. intros Hnm. cbn in Hnm. subst m.
              destruct Hum as [?|[?|Hx]]; [lia|lia|].
              by pose proof (read_unreadable _ _ _ _ _ _ Hx Hr).
           ++ destruct Hum as [?|[?|?]]; [auto|lia|]. do 2 right. by eapply read_sticky.
        -- right. exists n. unfold c. by rewrite <- Hval.
      * left. exists (length (cache s)). split; [done|]. by apply find_slot_app_new.
    + apply block_fail_spec; try done; [intros; by apply Hst|].
      split; [done|]. do 2 right. by eapply read_fails.
Qed.

(** ** Descriptor fields *)
Lemma valid_desc s g k n : mem_ok s -> 0 <= g < 640 -> 0 <= k -> 0 <= n -> k + n <= 32 ->
  valid s (padd (group_desc g) k) n.
Proof.
  intros Hm Hg Hk Hn Hl. assert (zlen (bytes_of s RDesc) = 20480) as E by apply Hm.
  unfold valid. change (padd (group_desc g) k).1 with RDesc.
  change (padd (group_desc g) k).2 with (g * 32 + k). rewrite E. lia.
Qed.
Lemma valid_super s k n : mem_ok s -> 0 <= k -> 0 <= n -> k + n <= 1024 -> valid s (padd SB k) n.
Proof.
  intros Hm Hk Hn Hl. assert (zlen (bytes_of s RSuper) = 1024) as E by apply Hm.
  unfold valid. change (padd SB k).1 with RSuper. change (padd SB k).2 with k. rewrite E. lia.
Qed.
Lemma padd_0 p : padd p 0 = p.
Proof. destruct p. unfold padd. cbn. f_equal. lia. Qed.
Lemma v32_desc s g k : v32 s (padd (group_desc g) k) = field (descriptors s) g k.
Proof. done. Qed.

Lemma laid_geometry s : laid s -> geometry_ok (geo s).
Proof. intros H. apply H. Qed.
Lemma laid_mem s : laid s -> mem_ok s.
Proof. intros H. apply H. Qed.
Lemma laid_groups s : laid s -> 1 <= groups (geo s) <= 640.
Proof. intros H. split; [apply groups_pos, H|apply (ok_max_groups _ (laid_geometry s H))]. Qed.
#[local] Hint Resolve laid_geometry laid_mem : barnix.

Lemma wp_desc {B} s g k (f : Z -> M B) Q :
  laid s -> 0 <= g < groups (geo s) -> 0 <= k <= 28 ->
  wp (f (field (descriptors s) g k)) Q s -> wp (bind (get32 (padd (group_desc g) k)) f) Q s.
Proof.
  intros Hl Hg Hk H. pose proof (laid_groups s Hl).
  apply wp_get32; [apply Hl|apply valid_desc; [apply Hl|lia..]|]. by rewrite v32_desc.
Qed.

Lemma backup_group_spec {B} s g (f : bool -> M B) Q :
  mem_ok s -> wp (f (backup_at (superblock s) g)) Q s -> wp (bind (backup_group g) f) Q s.
Proof.
  intros Hm H. unfold backup_group. apply wp_assoc, wp_get32; [done|apply valid_super; [done|lia..]|].
  by apply wp_bind_ret.
Qed.

(** ** [data_block] *)
Lemma data_block_spec {B} s b (f : bool -> M B) Q :
  laid s -> 0 <= b -> wp (f (data s b)) Q s -> wp (bind (data_block b) f) Q s.
Proof.
  intros Hl Hb H. apply wp_bind. unfold data_block. apply wp_gets.
  unfold data, is_data in H. destruct ((b =? 0) || (blocks (geo s) <=? b)) eqn:Hz; [by apply wp_ret|].
  apply orb_false_iff in Hz as [? ?]. bool_to_prop.
  pose proof (laid_geometry s Hl) as HG. pose proof (ok_blocks _ HG).
  destruct (block_group (geo s) HG b) as [Hg _]; [lia|]. set (g := (b - 1) / _) in *.
  cbv zeta in H.
  destruct (lay_groups _ _ _ (proj2 Hl) g Hg) as [HB HI _ [_ HT] _ _].
  pose proof (gend_inside _ HG g Hg). pose proof (gstart_inside _ HG g Hg).
  pose proof (metadata_end_le _ _ _ (proj2 Hl) g) as Hme.
  assert (0 <= table_blocks (geo s)) as Ht0.
  { rewrite (ok_tables _ HG). pose proof (ok_ipg _ HG). destruct (ok_inode_size _ HG) as [-> | ->]; dm_lia. }
  assert (0 <= descriptor_blocks (geo s) <= 640) as Hd0.
  { rewrite (ok_descriptors _ HG). pose proof (laid_groups s Hl). dm_lia. }
  apply wp_desc; [done|done|lia|]. apply backup_group_spec; [apply Hl|].
  rewrite group_start_eq, u32_small by (done || (unfold is_u32, MAX_BLOCKS in *; lia)).
  destruct (backup_at (superblock s) g && (b <? gstart (geo s) g + 1 + descriptor_blocks (geo s))) eqn:Hbk;
    [by apply wp_ret|].
  cbn [negb andb] in H. rewrite <- (padd_0 (group_desc g)) at 1. apply wp_desc; [done|done|lia|].
  fold (bitmap_of_group (descriptors s) g). destruct (b =? bitmap_of_group (descriptors s) g); [by apply wp_ret|].
  apply wp_desc; [done|done|lia|]. fold (imap_of_group (descriptors s) g).
  destruct (b =? imap_of_group (descriptors s) g); [by apply wp_ret|].
  apply wp_ret. fold (table_of_group (descriptors s) g). cbn [negb andb] in H.
  pose proof (v32_range s (padd (group_desc g) 8) (laid_mem s Hl)) as Hr. rewrite v32_desc in Hr.
  fold (table_of_group (descriptors s) g) in Hr.
  rewrite u32_small; [done|]. unfold is_u32, MAX_BLOCKS in *. lia.
Qed.

(** ** Bitmap bits in the cache *)
Definition map_bit s blk i : bool :=
  match find_slot (cache s) blk with Some j => vbit s (RCache j, 0) i | None => false end.
(** The inode [n] is marked as used, in a cached bitmap. *)
Definition live s n : Prop :=
  1 <= n <= inode_count (geo s) /\
  map_bit s (imap s ((n - 1) / inodes_per_group (geo s))) ((n - 1) mod inodes_per_group (geo s)) = true.
(** The block [b] is marked as used. *)
Definition marked s b : Prop :=
  map_bit s (bitmap s ((b - 1) / blocks_per_group (geo s)))
    (b - gstart (geo s) ((b - 1) / blocks_per_group (geo s))) = true.

Lemma reads_map_bit s s' blk i : reads s s' -> map_bit s blk i = true -> map_bit s' blk i = true.
Proof.
  intros H. unfold map_bit. destruct (find_slot (cache s) blk) as [j|] eqn:E; [|done].
  rewrite (find_slot_prefix _ _ _ _ (step_names _ _ (reads_step _ _ H)) E).
  unfold vbit, v8. cbn [padd fst snd]. rewrite (reads_bytes s s' (RCache j) H); [done|done|].
  destruct (find_slot_lookup _ _ _ E) as (c & Hc & _). cbn. rewrite Hc. by eexists.
Qed.
Lemma reads_live s s' n : reads s s' -> live s n -> live s' n.
Proof.
  intros H [Hn Hb]. unfold live, imap. rewrite (step_geo _ _ (reads_step _ _ H)), (reads_desc _ _ H).
  split; [done|]. by apply (reads_map_bit s).
Qed.
Lemma reads_marked s s' b : reads s s' -> marked s b -> marked s' b.
Proof.
  intros H Hb. unfold marked, bitmap. rewrite (step_geo _ _ (reads_step _ _ H)), (reads_desc _ _ H).
  by apply (reads_map_bit s).
Qed.

(** A pointer to a bitmap block and one of its bits. *)
Lemma wp_bit_in {B} s n p i (f : bool -> M B) Q :
  mem_ok s -> in_block s n p -> p.2 = 0 -> 0 <= i < 8192 ->
  wp (f (vbit s p i)) Q s -> wp (bind (bit p i) f) Q s.
Proof.
  intros Hm Hp Hz Hi H. apply wp_bit; [|lia|done].
  apply (in_block_valid s n); [done|done|..]; cbn; rewrite ?Hz; dm_lia.
Qed.
Lemma vbit_zero s p i : p.1 = RFailed -> failed_block s = zero_block -> vbit s p i = false.
Proof.
  intros Hp Hz. unfold vbit, v8, bytes_of. change (padd p (i / 8)).1 with p.1. rewrite Hp.
  change (default [] (region s RFailed)) with (failed_block s). rewrite Hz, byte_zero. apply Z.bits_0.
Qed.
Lemma vbit_map_bit s n p i :
  in_block s n p -> p.2 = 0 -> fresh s p -> vbit s p i = map_bit s n i.
Proof.
  intros Hp Hz Hf. destruct p as [r o]. cbn in Hz. subst o. unfold map_bit.
  destruct Hp as [(j & Hr & ->)|(Hr & _ & Hu & _)]; cbn in Hr; subst r; [done|].
  rewrite Hu. apply vbit_zero; [done|]. by apply Hf.
Qed.

(** ** [inode] *)
Definition inode_offset (G : Geometry) (n : Z) : Z := ((n - 1) mod inodes_per_group G) * inode_size G.
Definition inode_block s n : Z :=
  itable s ((n - 1) / inodes_per_group (geo s)) + inode_offset (geo s) n / 1024.
Definition node_ptr s n p : Prop :=
  1 <= n <= inode_count (geo s) /\ in_block s (inode_block s n) p /\ p.2 = inode_offset (geo s) n mod 1024.

Lemma node_ptr_room s n p : laid s -> node_ptr s n p ->
  0 <= p.2 /\ p.2 + inode_size (geo s) <= 1024 /\ p.2 mod 128 = 0.
Proof.
  intros Hl (Hn & _ & ->). destruct (inode_group _ (laid_geometry s Hl) n Hn) as [_ Hi].
  destruct (inode_place _ (laid_geometry s Hl) _ Hi) as (_ & ? & ? & ?). by unfold inode_offset.
Qed.
Lemma node_valid s n p k m : laid s -> node_ptr s n p -> 0 <= k -> 0 <= m -> k + m <= 128 -> valid s (padd p k) m.
Proof.
  intros Hl Hp Hk Hm Hkm. destruct (node_ptr_room s n p Hl Hp) as (? & Hr & _).
  destruct Hp as (_ & Hb & _). apply (in_block_valid s (inode_block s n)); [apply Hl|done|..]; cbn; try lia.
  destruct (ok_inode_size _ (laid_geometry s Hl)); lia.
Qed.
Lemma step_node_ptr s s' n p : laid s -> step s s' -> node_ptr s n p -> node_ptr s' n p.
Proof.
  intros Hl H (Hn & Hb & Ho). destruct (inode_group _ (laid_geometry s Hl) n Hn) as [Hg _].
  unfold node_ptr, inode_block in *. rewrite (step_geo _ _ H), (step_itable _ _ _ H) by done.
  split; [done|]. split; [by apply (step_in_block s)|done].
Qed.
Lemma inode_block_table s n : laid s -> 1 <= n <= inode_count (geo s) ->
  exists g k, 0 <= g < groups (geo s) /\ 0 <= k < table_blocks (geo s) /\ inode_block s n = itable s g + k.
Proof.
  intros Hl Hn. destruct (inode_group _ (laid_geometry s Hl) n Hn) as [Hg Hi].
  destruct (inode_place _ (laid_geometry s Hl) _ Hi) as (Hk & _). eauto.
Qed.
Lemma inode_block_range s n : laid s -> 1 <= n <= inode_count (geo s) -> 1 <= inode_block s n < blocks (geo s).
Proof.
  intros Hl Hn. destruct (inode_block_table s n Hl Hn) as (g & k & Hg & Hk & ->).
  apply (table_range _ _ _ (proj2 Hl) g k Hg Hk).
Qed.

Lemma laid_blocks s : laid s -> blocks (geo s) <= MAX_BLOCKS.
Proof. intros Hl. apply (ok_blocks _ (laid_geometry s Hl)). Qed.
Lemma small_u32 s b : laid s -> 0 <= b < blocks (geo s) -> is_u32 b.
Proof. intros Hl Hb. pose proof (laid_blocks s Hl). unfold is_u32, MAX_BLOCKS in *. lia. Qed.

Lemma inode_spec s n : laid s -> 0 <= n ->
  wp (inode n) (fun r s' => reads s s' /\ (live s n -> is_Some r) /\
                match r with Some p => node_ptr s' n p /\ live s' n /\ fresh s' p | None => True end) s.
Proof.
  intros Hl Hn. unfold inode. apply wp_gets.
  destruct ((n =? 0) || (inode_count (geo s) <? n)) eqn:Hz.
  { apply wp_ret. split_and!; [apply reads_refl, Hl| |done]. intros [H _].
    apply orb_true_iff in Hz as [?|?]; bool_to_prop; lia. }
  apply orb_false_iff in Hz as [? ?]. bool_to_prop.
  assert (1 <= n <= inode_count (geo s)) as Hr by lia.
  pose proof (laid_geometry s Hl) as HG.
  destruct (inode_group _ HG n Hr) as [Hg Hi].
  apply wp_desc; [done|done|lia|].
  fold (imap_of_group (descriptors s) ((n - 1) / inodes_per_group (geo s))).
  set (g := (n - 1) / inodes_per_group (geo s)) in *. set (i := (n - 1) mod inodes_per_group (geo s)) in *.
  eapply wp_use; [apply block_spec; [apply Hl|by apply laid_blocks|]|].
  { apply (small_u32 s); [done|]. pose proof (imap_range _ _ _ (proj2 Hl) g Hg). lia. }
  intros map s1 (R1 & B1 & Z1 & F1). pose proof (reads_laid s s1 Hl R1) as L1.
  apply (wp_bit_in s1 (imap s g)); [apply L1|done|done|pose proof (ok_ipg _ HG); lia|].
  rewrite (vbit_map_bit s1 (imap s g)) by done.
  assert (imap s1 g = imap s g) as Ei by (unfold imap; by rewrite (reads_desc _ _ R1)).
  destruct (map_bit s1 (imap s g) i) eqn:Eb; cbn [negb].
  2: { apply wp_ret. split_and!; [done| |done]. intros [_ H']. fold g i in H'.
       apply (reads_map_bit s s1) in H'; [congruence|done]. }
  assert (live s1 n) as Lv.
  { unfold live. rewrite (step_geo _ _ (reads_step _ _ R1)). fold g i. by rewrite Ei. }
  apply wp_desc; [done| |lia|]; [by rewrite (step_geo _ _ (reads_step _ _ R1))|].
  fold (table_of_group (descriptors s1) g). fold (itable s1 g).
  assert (inode_block s1 n = itable s1 g + i * inode_size (geo s) / BLOCK_SIZE) as Eb1.
  { unfold inode_block, inode_offset. by rewrite (step_geo _ _ (reads_step _ _ R1)). }
  rewrite <- Eb1.
  assert (1 <= n <= inode_count (geo s1)) as Hr1 by (by rewrite (step_geo _ _ (reads_step _ _ R1))).
  pose proof (inode_block_range s1 n L1 Hr1) as Hbr.
  rewrite u32_small by (apply (small_u32 s1); [done|lia]).
  eapply wp_use; [apply block_spec; [apply L1|by apply laid_blocks|apply (small_u32 s1); [done|lia]]|].
  intros base s2 (R2 & B2 & Z2 & F2). apply wp_ret.
  assert (inode_block s2 n = inode_block s1 n) as E2.
  { unfold inode_block, itable. by rewrite (reads_desc _ _ R2), (step_geo _ _ (reads_step _ _ R2)). }
  split_and!.
  - by eapply reads_trans.
  - by eexists.
  - split_and!.
    + lia.
    + rewrite (step_geo _ _ (reads_step _ _ R2)), (step_geo _ _ (reads_step _ _ R1)). lia.
    + by rewrite E2.
    + unfold padd. cbn. rewrite Z2. unfold inode_offset.
      by rewrite (step_geo _ _ (reads_step _ _ R2)), (step_geo _ _ (reads_step _ _ R1)).
  - by apply (reads_live s1).
  - done.
Qed.

End Blocks.

(** ** Ext2 engine: the validation of an inode

    What a successful [supported] has established about the blocks of a file
    or a directory: they are distinct data blocks marked as used. *)
Section Supported.
Context {D : Type} `{BD : BlockDevice D} {DL : DeviceLaws D}.
#[local] Abbreviation St := (Fs D).
#[local] Abbreviation M := (@M D).
Implicit Types (s : St) (p : Ptr).

(** ** Values that reads preserve *)
Lemma reads_v32 s s' p : reads s s' -> valid s p 4 -> p.1 <> RFailed -> v32 s' p = v32 s p.
Proof. intros H Hv Hp. unfold v32. rewrite (reads_bytes s s'); [done..|]. apply (valid_some s p 4); [done|lia]. Qed.
Lemma reads_v16 s s' p : reads s s' -> valid s p 2 -> p.1 <> RFailed -> v16 s' p = v16 s p.
Proof. intros H Hv Hp. unfold v16. rewrite (reads_bytes s s'); [done..|]. apply (valid_some s p 2); [done|lia]. Qed.
Lemma v32_failed s p : p.1 = RFailed -> failed_block s = zero_block -> v32 s p = 0.
Proof.
  intros Hp Hz. unfold v32, bytes_of. rewrite Hp. change (default [] (region s RFailed)) with (failed_block s).
  rewrite Hz. unfold le32, le16. by rewrite !byte_zero.
Qed.
Lemma v16_failed s p : p.1 = RFailed -> failed_block s = zero_block -> v16 s p = 0.
Proof.
  intros Hp Hz. unfold v16, bytes_of. rewrite Hp. change (default [] (region s RFailed)) with (failed_block s).
  rewrite Hz. unfold le16. by rewrite !byte_zero.
Qed.

(** A node in the cache. *)
Definition held s n p : Prop := laid s /\ node_ptr s n p /\ p.1 <> RFailed.
Lemma held_valid s n p k m : held s n p -> 0 <= k -> 0 <= m -> k + m <= 128 -> valid s (padd p k) m.
Proof. intros (Hl & Hp & _). by apply node_valid with (n := n). Qed.
Lemma reads_held s s' n p : reads s s' -> held s n p -> held s' n p.
Proof.
  intros H (Hl & Hp & Hf). split; [by apply (reads_laid s)|]. split; [|done].
  apply (step_node_ptr s); [done|apply H|done].
Qed.
Lemma step_held s s' n p : step s s' -> held s n p -> held s' n p.
Proof.
  intros H (Hl & Hp & Hf). split; [by apply (step_laid s)|]. split; [|done]. by apply (step_node_ptr s).
Qed.
Lemma held_v32 s s' n p k : reads s s' -> held s n p -> 0 <= k <= 124 -> v32 s' (padd p k) = v32 s (padd p k).
Proof. intros H Hp Hk. apply reads_v32; [done|apply (held_valid s n); [done|lia..]|apply Hp]. Qed.
Lemma wp_node {B} s n p k (f : Z -> M B) Q : held s n p -> 0 <= k <= 124 ->
  wp (f (v32 s (padd p k))) Q s -> wp (bind (get32 (padd p k)) f) Q s.
Proof. intros Hp Hk. apply wp_get32; [apply Hp|]. by apply (held_valid s n); [|lia..]. Qed.

(** ** The block pointers of a file *)
Definition indirect s p : Z := v32 s (padd p 88).
Definition resolved s b : Prop := is_Some (find_slot (cache s) b) \/ unavailable s b.
(** Pointer [i] of the node, as far as the cache holds it. *)
Definition fptr s p (i : Z) : Z :=
  if i <? 12 then v32 s (padd p (40 + i * 4))
  else if indirect s p =? 0 then 0
  else match find_slot (cache s) (indirect s p) with
       | Some j => v32 s (RCache j, (i - 12) * 4)
       | None => 0
       end.
(** The indirect block, if any, is cached or cannot be. *)
Definition settled s p : Prop := indirect s p = 0 \/ resolved s (indirect s p).

Lemma step_resolved s s' b : step s s' -> resolved s b -> resolved s' b.
Proof.
  intros H [[i Hi]|Hu]; [left|right; by apply (step_unavailable _ _ H)].
  exists i. eapply find_slot_prefix; [apply H|done].
Qed.
Lemma reads_settled s s' n p : reads s s' -> held s n p -> settled s p -> settled s' p.
Proof.
  intros H Hp Hs. unfold settled, indirect in *. rewrite (held_v32 s s' n) by (done || lia).
  destruct Hs; [by left|]. right. by apply (step_resolved s s' _ (reads_step _ _ H)).
Qed.
Lemma slot_valid s i b j k : mem_ok s -> find_slot (cache s) b = Some i -> 0 <= j -> 0 <= k -> j + k <= 1024 ->
  valid s (RCache i, j) k.
Proof.
  intros Hm Hf Hj Hk Hjk. apply (in_block_valid s b); cbn; [done| |lia..]. left. eauto.
Qed.
Lemma reads_fptr s s' n p i : reads s s' -> held s n p -> 0 <= i < 268 -> i < 12 \/ settled s p ->
  fptr s' p i = fptr s p i.
Proof.
  intros H Hp Hi Hs. unfold fptr. destruct (Z.ltb_spec i 12).
  { apply (held_v32 s s' n); [done|done|lia]. }
  destruct Hs as [?|Hs]; [lia|]. unfold settled, indirect in *.
  rewrite (held_v32 s s' n) by (done || lia).
  destruct (Z.eqb_spec (v32 s (padd p 88)) 0); [done|]. destruct Hs as [?|[[j Hj]|Hu]]; [done| |].
  - rewrite Hj, (find_slot_prefix _ _ _ _ (step_names _ _ (reads_step _ _ H)) Hj).
    apply reads_v32; [done| |done]. apply (slot_valid s j (v32 s (padd p 88))); [apply Hp|done|lia..].
  - rewrite (proj1 Hu). by rewrite (proj1 (step_unavailable _ _ (reads_step _ _ H) _ Hu)).
Qed.
Lemma fptr_range s n p i : held s n p -> is_u32 (fptr s p i).
Proof.
  intros (Hl & _). unfold fptr. assert (is_u32 0) by (unfold is_u32; lia).
  repeat case_match; try done; apply v32_range, Hl.
Qed.

Lemma file_block_spec s n p i : held s n p -> 0 <= i < 268 ->
  wp (file_block p i) (fun r s' => reads s s' /\ r = fptr s' p i /\ (12 <= i -> settled s' p)) s.
Proof.
  intros Hp Hi. pose proof (proj1 Hp) as Hl. unfold file_block. destruct (Z.ltb_spec i 12).
  { unfold wp. rewrite get32_eq; [|apply Hl|apply (held_valid s n); [done|lia..]].
    split; [apply reads_refl, Hl|]. split; [|lia]. unfold fptr. by ztrue (i <? 12). }
  apply (wp_node s n); [done|lia|]. fold (indirect s p). unfold truth.
  destruct (Z.eqb_spec (indirect s p) 0) as [E|E]; cbn [negb].
  { apply wp_ret. split; [apply reads_refl, Hl|]. split; [|by left].
    unfold fptr. zfalse (i <? 12). by ztrue (indirect s p =? 0). }
  eapply wp_use; [apply block_spec; [apply Hl|by apply laid_blocks|apply v32_range, Hl]|].
  intros base s1 (R1 & B1 & Z1 & F1). pose proof (reads_laid s s1 Hl R1) as L1.
  assert (indirect s1 p = indirect s p) as E1 by (apply (held_v32 s s1 n); [done|done|lia]).
  assert (valid s1 (padd base ((i - 12) * 4)) 4) as Hv.
  { apply (in_block_valid s1 (indirect s p)); [apply L1|done|..]; cbn; rewrite ?Z1; lia. }
  unfold wp. rewrite get32_eq; [|apply L1|done]. split; [done|]. destruct base as [r o]. cbn in Z1. subst o.
  unfold fptr, settled. rewrite E1. zfalse (i <? 12). zfalse (indirect s p =? 0).
  destruct B1 as [(j & Hr & Hj)|(Hr & _ & Hu)]; cbn in Hr; subst r.
  - rewrite Hj. split; [done|]. intros _. right. left. by eexists.
  - rewrite (proj1 Hu). split; [|intros _; by right; right]. apply v32_failed; [done|]. by apply F1.
Qed.

(** ** [mark_block] *)
Lemma mark_block_spec s seen b : laid s -> 0 <= b -> zlen seen < 269 ->
  wp (mark_block seen b) (fun r s' => reads s s' /\
    match r with
    | Some seen' => (seen' = seen ++ [b]) /\ (b ∉ seen) /\ data s' b = true /\ marked s' b /\ cache_error s' = false
    | None => True
    end) s.
Proof.
  intros Hl Hb Hseen. unfold mark_block. apply data_block_spec; [done|done|].
  destruct (data s b) eqn:Hd; cbn [negb]; [|by apply wp_ret; split; [apply reads_refl, Hl|]].
  apply wp_gets. pose proof (laid_geometry s Hl) as HG.
  pose proof (is_data_range _ _ _ b Hb Hd) as Hr. destruct (block_group _ HG b Hr) as [Hg Hi].
  set (g := (b - 1) / blocks_per_group (geo s)) in *.
  rewrite <- (padd_0 (group_desc g)). apply wp_desc; [done|done|lia|].
  fold (bitmap_of_group (descriptors s) g). fold (bitmap s g).
  eapply wp_use; [apply block_spec; [apply Hl|by apply laid_blocks|]|].
  { apply (small_u32 s); [done|]. pose proof (bitmap_range _ _ _ (proj2 Hl) g Hg). unfold bitmap. lia. }
  intros map s1 (R1 & B1 & Z1 & F1). pose proof (reads_laid s s1 Hl R1) as L1.
  rewrite group_start_eq by done.
  pose proof (gsize_range _ HG g Hg). rewrite u32_small by (unfold is_u32; lia).
  apply (wp_bit_in s1 (bitmap s g)); [apply L1|done|done|lia|].
  rewrite (vbit_map_bit s1 (bitmap s g)) by done.
  destruct (map_bit s1 (bitmap s g) (b - gstart (geo s) g)) eqn:Eb; cbn [negb]; [|by apply wp_ret].
  destruct (existsb (Z.eqb b) seen) eqn:Ex; [by apply wp_ret|]. zfalse (269 <=? zlen seen).
  apply wp_gets. destruct (cache_error s1) eqn:Ee; [by apply wp_ret|]. apply wp_ret. split; [done|].
  split; [done|]. split.
  { intros Hin. apply list_elem_of_In in Hin.
    assert (existsb (Z.eqb b) seen = true); [|congruence]. apply existsb_exists. exists b. split; [done|lia]. }
  split; [by rewrite (reads_data s s1)|]. split; [|done].
  unfold marked. rewrite (step_geo _ _ (reads_step _ _ R1)). fold g.
  unfold bitmap in *. by rewrite (reads_desc _ _ R1).
Qed.

(** ** [supported] *)
Definition nonzero (l : list Z) : list Z := List.filter truth l.
Definition direct_ptrs s p (limit : Z) : list Z := nonzero (map (fptr s p) (seqZ 0 limit)).
Definition pointers s p (limit : Z) : list Z := nonzero [indirect s p] ++ direct_ptrs s p limit.
Definition used_block s b : Prop := data s b = true /\ marked s b.

Record file_ok s p (limit : Z) : Prop := {
  file_distinct : NoDup (pointers s p limit);
  file_blocks : Forall (used_block s) (pointers s p limit);
  file_settled : settled s p }.

Definition ptr_limit (type : Z) : Z := if type =? FILE_MODE then 268 else 12.
Record node_ok s p (type : Z) : Prop := {
  node_file : file_ok s p (ptr_limit type);
  node_kind : Z.land (v16 s p) 0xF000 = type;
  node_size : if type =? FILE_MODE then v32 s (padd p 4) <= MAX_FILE
              else indirect s p = 0 /\ exists c, v32 s (padd p 4) = c * 1024 /\ 1 <= c <= 12 /\
                   forall i, 0 <= i < c -> fptr s p i <> 0;
  node_links : v16 s (padd p 26) <> 0;
  node_count : v32 s (padd p 28) = 2 * zlen (pointers s p (ptr_limit type)) }.

Lemma reads_used s s' b : reads s s' -> used_block s b -> used_block s' b.
Proof. intros H [Hd Hm]. split; [by rewrite (reads_data s s')|by apply (reads_marked s)]. Qed.
Lemma reads_ptrs s s' n p limit : reads s s' -> held s n p -> limit <= 12 \/ settled s p -> limit <= 268 ->
  direct_ptrs s' p limit = direct_ptrs s p limit.
Proof.
  intros H Hp Hs Hl. unfold direct_ptrs. f_equal. apply map_ext_in. intros i Hi.
  apply list_elem_of_In, elem_of_seqZ in Hi. apply (reads_fptr s s' n); [done|done|lia|].
  destruct Hs; [left; lia|by right].
Qed.
Lemma reads_indirect s s' n p : reads s s' -> held s n p -> indirect s' p = indirect s p.
Proof. intros H Hp. by apply (held_v32 s s' n); [| |lia]. Qed.
Lemma reads_file_ok s s' n p limit : reads s s' -> held s n p -> limit <= 268 -> file_ok s p limit -> file_ok s' p limit.
Proof.
  intros H Hp Hl [Hn Hb Hs].
  assert (pointers s' p limit = pointers s p limit) as E.
  { unfold pointers. by rewrite (reads_indirect s s' n), (reads_ptrs s s' n) by auto. }
  constructor.
  - by rewrite E.
  - rewrite E. eapply Forall_impl; [exact Hb|]. intros b. by apply reads_used.
  - by apply (reads_settled s s' n).
Qed.
Lemma reads_node_ok s s' n p type : reads s s' -> held s n p -> node_ok s p type -> node_ok s' p type.
Proof.
  intros H Hp [Hf Hk Hs Hl Hc]. pose proof (file_settled _ _ _ Hf) as Hst.
  assert (ptr_limit type <= 268) as Hlim by (unfold ptr_limit; destruct (type =? FILE_MODE); lia).
  constructor.
  - by apply (reads_file_ok s s' n).
  - rewrite <- (padd_0 p). rewrite <- (padd_0 p) in Hk.
    rewrite (reads_v16 s s'); [done|done|apply (held_valid s n); [done|lia..]|apply Hp].
  - rewrite (held_v32 s s' n), (reads_indirect s s' n) by (done || lia). destruct (type =? FILE_MODE); [done|].
    destruct Hs as (? & c & ? & ? & Hi). split; [done|]. exists c. split_and!; try done; try lia.
    intros i Hic. rewrite (reads_fptr s s' n); [by apply Hi|done|done|lia|by right].
  - rewrite (reads_v16 s s'); [done|done|apply (held_valid s n); [done|lia..]|apply Hp].
  - rewrite (held_v32 s s' n) by (done || lia). unfold pointers.
    rewrite (reads_indirect s s' n), (reads_ptrs s s' n) by auto. done.
Qed.

Lemma nonzero_app a b : nonzero (a ++ b) = nonzero a ++ nonzero b.
Proof. apply List.filter_app. Qed.
Lemma direct_ptrs_snoc s p i : 0 <= i -> direct_ptrs s p (i + 1) = direct_ptrs s p i ++ nonzero [fptr s p i].
Proof.
  intros Hi. unfold direct_ptrs. rewrite seqZ_app by lia.
  rewrite map_app, nonzero_app. do 3 f_equal.
Qed.
Lemma nonzero_length l : (length (nonzero l) <= length l)%nat.
Proof. apply List.filter_length_le. Qed.

(** The state of the marking loop before pointer [i]. *)
Record marking s n p (i : Z) (seen : list Z) : Prop := {
  marking_held : held s n p;
  marking_seen : seen = nonzero [indirect s p] ++ direct_ptrs s p i;
  marking_distinct : NoDup seen;
  marking_used : Forall (used_block s) seen;
  marking_settled : i <= 12 \/ settled s p }.

Lemma reads_marking s s' n p i seen : reads s s' -> i <= 268 -> marking s n p i seen -> marking s' n p i seen.
Proof.
  intros H Hi [Hp Hs Hd Hu Hst]. constructor; [by apply (reads_held s)| |done| |].
  - by rewrite (reads_indirect s s' n), (reads_ptrs s s' n).
  - eapply Forall_impl; [exact Hu|]. intros b. by apply reads_used.
  - destruct Hst; [by left|right]. by apply (reads_settled s s' n).
Qed.
Lemma marking_length s n p i seen : 0 <= i -> marking s n p i seen -> zlen seen <= 1 + i.
Proof.
  intros Hi [_ -> _ _ _]. unfold direct_ptrs, zlen. rewrite length_app.
  pose proof (nonzero_length [indirect s p]). pose proof (nonzero_length (map (fptr s p) (seqZ 0 i))) as H2.
  rewrite length_map, length_seqZ in H2. cbn in *. lia.
Qed.
Lemma NoDup_snoc (l : list Z) b : NoDup l -> b ∉ l -> NoDup (l ++ [b]).
Proof.
  intros Hl Hb. apply NoDup_app. split; [done|]. split; [|apply NoDup_singleton].
  intros x Hx Hx2%list_elem_of_singleton. by subst.
Qed.

(** One round of the loop keeps the marking and moves to the next pointer. *)
Lemma marking_next s n p i seen b : 0 <= i < 268 -> marking s n p i seen -> b = fptr s p i ->
  (12 <= i -> settled s p) -> b = 0 -> marking s n p (i + 1) seen.
Proof.
  intros Hi [Hp Hs Hd Hu Hst] -> Hset Hb. constructor; try done.
  - rewrite direct_ptrs_snoc by lia. rewrite Hb. cbn. by rewrite app_nil_r.
  - destruct (Z.le_gt_cases (i + 1) 12); [by left|right; apply Hset; lia].
Qed.
Lemma marking_add s n p i seen : 0 <= i < 268 -> marking s n p i seen -> fptr s p i <> 0 ->
  (12 <= i -> settled s p) -> fptr s p i ∉ seen -> used_block s (fptr s p i) ->
  marking s n p (i + 1) (seen ++ [fptr s p i]).
Proof.
  intros Hi [Hp Hs Hd Hu Hst] Hb Hset Hn Hub. constructor; try done.
  - rewrite direct_ptrs_snoc by lia. rewrite Hs, <- app_assoc. do 2 f_equal.
    cbn. by rewrite truth_nonzero.
  - by apply NoDup_snoc.
  - apply Forall_app. split; [done|]. by apply Forall_singleton.
  - destruct (Z.le_gt_cases (i + 1) 12); [by left|right; apply Hset; lia].
Qed.

Lemma supported_blocks_spec fuel s n p dir size limit i seen :
  0 <= i <= limit -> limit <= 268 -> limit - i < Z.of_nat fuel ->
  marking s n p i seen -> (dir = true -> limit = 12 /\ forall j, 0 <= j < i -> j < size / 1024 -> fptr s p j <> 0) ->
  wp (supported_blocks fuel p dir size i limit seen) (fun r s' => reads s s' /\
    match r with
    | Some seen' => marking s' n p limit seen' /\
                    (dir = true -> forall j, 0 <= j < limit -> j < size / 1024 -> fptr s' p j <> 0)
    | None => True
    end) s.
Proof.
  revert s i seen. induction fuel as [|fuel IH]; intros s i seen Hi Hlim Hf Hmk Hdir; [lia|]. cbn [supported_blocks].
  pose proof (marking_held _ _ _ _ _ Hmk) as Hp. pose proof (marking_length s n p i seen (proj1 Hi) Hmk) as Hlen.
  destruct (Z.ltb_spec i limit).
  2: { apply wp_ret. split; [apply reads_refl, Hp|]. replace limit with i by lia. split; [done|].
       intros Hd. by apply Hdir. }
  eapply wp_use; [apply (file_block_spec s n); [done|lia]|].
  intros b s1 (R1 & Eb & Hset). pose proof (reads_held s s1 n p R1 Hp) as Hp1.
  pose proof (reads_marking s s1 n p i seen R1 ltac:(lia) Hmk) as Hmk1.
  assert (dir = true -> forall j, 0 <= j < i -> j < size / 1024 -> fptr s1 p j <> 0) as Hdir1.
  { intros Hd j Hj Hjs. destruct (Hdir Hd) as [? Hall]. rewrite (reads_fptr s s1 n); [by apply Hall|done|done|lia|left; lia]. }
  pose proof (fptr_range s1 n p i Hp1) as Hbr. rewrite <- Eb in Hbr.
  unfold truth. destruct (Z.eqb_spec b 0) as [E0|E0]; cbn [negb].
  - apply wp_bind_ret. rewrite andb_true_r. change BLOCK_SIZE with 1024.
    destruct (dir && (i <? size / 1024)) eqn:Ed; [by apply wp_ret|].
    eapply wp_mono; [apply IH; [lia|done|lia|apply (marking_next s1 n p i seen b); [lia|done..]|]|].
    + intros Hd. split; [by apply Hdir|]. intros j Hj Hjs. rewrite Hd in Ed. cbn in Ed.
      destruct (Z.eq_dec j i) as [->|]; [bool_to_prop; lia|]. apply Hdir1; [done|lia|done].
    + intros r s' [R2 Hr]. split; [rtrans|done].
  - eapply wp_use; [apply mark_block_spec; [apply Hp1|unfold is_u32 in Hbr; lia|lia]|].
    intros r s2 [R2 Hr]. destruct r as [seen'|]; [|by apply wp_ret; split; [rtrans|]].
    destruct Hr as (-> & Hnin & Hd2 & Hm2 & _). rewrite andb_false_r.
    assert (fptr s2 p i = b) as Eb2.
    { rewrite (reads_fptr s1 s2 n); [done|done|done|lia|]. destruct (Z.lt_ge_cases i 12); [by left|right; by apply Hset]. }
    eapply wp_mono; [apply IH; [lia|done|lia| |]|].
    + rewrite <- Eb2. apply marking_add; [lia|by apply (reads_marking s1); [|lia|]|by rewrite Eb2| | |].
      * intros H12. by apply (reads_settled s1 s2 n); [| |apply Hset].
      * by rewrite Eb2.
      * by rewrite Eb2.
    + intros Hd. split; [by apply Hdir|]. intros j Hj Hjs. destruct (Z.eq_dec j i) as [->|]; [by rewrite Eb2|].
      rewrite (reads_fptr s1 s2 n); [apply Hdir1; [done|lia|done]|done|done|destruct (Hdir Hd); lia|].
      left. destruct (Hdir Hd); lia.
    + intros r s' [R3 Hr]. split; [rtrans|done].
Qed.

Lemma supported_header_spec s n p type : held s n p ->
  wp (supported_header p type) (fun r s' => s' = s /\
    (r = true -> Z.land (v16 s p) 0xF000 = type /\ (type = FILE_MODE -> v32 s (padd p 4) <= MAX_FILE))) s.
Proof.
  intros Hp. unfold supported_header. apply wp_bind. unfold kind.
  apply wp_get16; [apply Hp|rewrite <- (padd_0 p); apply (held_valid s n); [done|lia..]|].
  apply wp_ret.
  destruct (Z.eqb_spec (Z.land (v16 s p) 61440) type); cbn [negb]; [|by apply wp_ret].
  apply (wp_node s n); [done|lia|]. destruct (truth _); [by apply wp_ret|].
  apply (wp_node s n); [done|lia|]. destruct (truth _); [by apply wp_ret|].
  apply (wp_node s n); [done|lia|].
  assert (forall big : bool, (big = false -> type = FILE_MODE -> v32 s (padd p 4) <= MAX_FILE) ->
    wp (if big then ret false
        else let* d := get32 (padd p 92) in
             if truth d then ret false else let* t := get32 (padd p 96) in ret (negb (truth t)))
       (fun r s' => s' = s /\ (r = true -> Z.land (v16 s p) 61440 = type /\ (type = FILE_MODE -> v32 s (padd p 4) <= MAX_FILE))) s)
    as Hrest.
  { intros [] Hbig; [by apply wp_ret|]. apply (wp_node s n); [done|lia|]. destruct (truth _); [by apply wp_ret|].
    apply (wp_node s n); [done|lia|]. apply wp_ret. split; [done|]. intros _. split; [done|]. by apply Hbig. }
  destruct (Z.eqb_spec type FILE_MODE); cbn [negb]; [|by apply wp_bind_ret, (Hrest false)].
  destruct (Z.ltb_spec MAX_FILE (v32 s (padd p 4))); [by apply wp_bind_ret, (Hrest true)|].
  apply wp_assoc, (wp_node s n); [done|lia|]. by apply wp_bind_ret, (Hrest (truth (v32 s (padd p 108)))).
Qed.

Definition mode_type (type : Z) : Prop := type = FILE_MODE \/ type = DIR_MODE.

(** What [supported] answers for the result of [inode]. *)
Lemma supported_failed s p type : mem_ok s -> valid s p 2 -> p.1 = RFailed -> failed_block s = zero_block ->
  mode_type type -> wp (supported (Some p) type) (fun r s' => s' = s /\ r = false) s.
Proof.
  intros Hm Hv Hp Hz Ht. unfold supported, supported_header, kind. apply wp_bind, wp_bind, wp_get16; [done..|].
  rewrite v16_failed by done. apply wp_ret. replace (Z.land 0 61440 =? type) with false by (destruct Ht as [-> | ->]; done).
  by apply wp_ret.
Qed.

Lemma supported_spec s node n type : laid s -> mode_type type ->
  (forall p, node = Some p -> node_ptr s n p /\ fresh s p) ->
  wp (supported node type) (fun r s' => reads s s' /\
    (r = true -> exists p, node = Some p /\ held s' n p /\ node_ok s' p type)) s.
Proof.
  intros Hl Ht Hnode. destruct node as [p|]; [|by apply wp_ret; split; [apply reads_refl, Hl|]].
  destruct (Hnode p eq_refl) as [Hp Hf].
  assert (Decision (p.1 = RFailed)) as [HF|HF] by (unfold Decision; repeat decide equality).
  { eapply wp_mono; [apply supported_failed; [apply Hl| |done|by apply Hf|done]|].
    - rewrite <- (padd_0 p). by apply (node_valid s n); [..|lia|lia|lia].
    - intros r s' [-> ->]. split; [apply reads_refl, Hl|done]. }
  assert (held s n p) as Hh by done.
  unfold supported. eapply wp_use; [by apply (supported_header_spec s n)|].
  intros ok s0 [-> Hok]. destruct ok; cbn [negb]; [|by apply wp_ret; split; [apply reads_refl, Hl|]].
  destruct (Hok eq_refl) as [Hkind Hsize]. apply (wp_node s n); [done|lia|].
  apply (wp_node s n); [done|lia|]. fold (indirect s p). set (size := v32 s (padd p 4)) in *.
  set (dir := type =? DIR_MODE).
  assert (dir = negb (type =? FILE_MODE)) as Hdir by (unfold dir; destruct Ht as [-> | ->]; done).
  destruct (dir && ((size =? 0) || (12 * BLOCK_SIZE <? size) || negb (size mod BLOCK_SIZE =? 0) || truth (indirect s p)))
    eqn:Hd; [by apply wp_ret; split; [apply reads_refl, Hl|]|].
  assert (is_u32 (indirect s p)) as Hir by apply v32_range, Hl.
  assert (forall s1 seen, reads s s1 -> marking s1 n p 0 seen ->
    wp (let* r := supported_blocks 269 p dir size 0 (if type =? FILE_MODE then 268 else 12) seen in
        match r with
        | Some seen =>
            let* links := get16 (padd p 26) in
            if links =? 0 then ret false else let* count := get32 (padd p 28) in ret (count =? zlen seen * 2)
        | None => ret false
        end)
       (fun r s' => reads s s' /\
          (r = true -> exists q, Some p = Some q /\ held s' n q /\ node_ok s' q type)) s1) as Hrest.
  { intros s1 seen R1 Hmk. change (if type =? FILE_MODE then 268 else 12) with (ptr_limit type).
    assert (12 <= ptr_limit type <= 268) as Hlim by (unfold ptr_limit; destruct (type =? FILE_MODE); lia).
    eapply wp_use; [apply (supported_blocks_spec 269 s1 n); [lia|lia|lia|done|]|].
    { intros Hd'. split; [|lia]. unfold ptr_limit. destruct (type =? FILE_MODE); [|done].
      by rewrite Hd' in Hdir. }
    intros r s2 [R2 Hr]. destruct r as [seen'|]; [|by apply wp_ret; split; [rtrans|]].
    destruct Hr as [Hmk2 Hall]. pose proof (marking_held _ _ _ _ _ Hmk2) as Hp2.
    apply wp_get16; [apply Hp2|apply (held_valid s2 n); [done|lia..]|].
    destruct (Z.eqb_spec (v16 s2 (padd p 26)) 0); [by apply wp_ret; split; [rtrans|]|].
    apply (wp_node s2 n); [done|lia|]. apply wp_ret. split; [rtrans|].
    intros Hcount. bool_to_prop. exists p. split; [done|]. split; [done|].
    assert (reads s s2) as R by rtrans. destruct Hmk2 as [_ Hseen Hnd Hub Hst].
    assert (indirect s2 p = indirect s p) as Ei by (by apply (reads_indirect s s2 n)).
    assert (v32 s2 (padd p 4) = size) as Es by (apply (held_v32 s s2 n); [done|done|lia]).
    change (seen' = pointers s2 p (ptr_limit type)) in Hseen.
    constructor.
    - constructor; [by rewrite <- Hseen|by rewrite <- Hseen|].
      destruct Hst as [Hle|]; [|done]. left. rewrite Ei.
      assert (dir = true) as Hdt by (rewrite Hdir; unfold ptr_limit in Hle; destruct (type =? FILE_MODE); [lia|done]).
      rewrite Hdt in Hd. cbn [andb] in Hd. repeat (apply orb_false_iff in Hd as [Hd ?]).
      bool_to_prop. lia.
    - rewrite <- (padd_0 p). rewrite (reads_v16 s s2); [by rewrite padd_0|done|apply (held_valid s n); [done|lia..]|done].
    - rewrite Es, Ei. destruct (Z.eqb_spec type FILE_MODE); [by apply Hsize|].
      assert (dir = true) as Hdt by (rewrite Hdir; by zfalse (type =? FILE_MODE)).
      rewrite Hdt in Hd. cbn [andb] in Hd. repeat (apply orb_false_iff in Hd as [Hd ?]).
      unfold BLOCK_SIZE in *. bool_to_prop. split; [lia|].
      assert (is_u32 size) as Hsr by apply v32_range, Hl. unfold is_u32 in Hsr.
      exists (size / 1024). split_and!; [dm_lia..|]. intros i Hi.
      apply (Hall Hdt); [|lia]. assert (size / 1024 <= 12) by dm_lia. lia.
    - done.
    - rewrite <- Hseen. lia. }
  unfold truth in *. destruct (Z.eqb_spec (indirect s p) 0) as [E|E]; cbn [negb].
  - apply wp_bind_ret. apply Hrest; [by apply reads_refl, Hl|].
    constructor; [done| |apply NoDup_nil_2|apply Forall_nil_2|left; lia].
    rewrite E. by unfold direct_ptrs.
  - eapply wp_use; [apply mark_block_spec; [done|unfold is_u32 in Hir; lia|unfold zlen; cbn; lia]|].
    intros r s1 [R1 Hr]. destruct r as [seen|]; [|by apply wp_ret; split; [rtrans|]].
    destruct Hr as (-> & _ & Hd1 & Hm1 & _). apply Hrest; [done|].
    assert (indirect s1 p = indirect s p) as Ei by (by apply (reads_indirect s s1 n)).
    constructor; [by apply (reads_held s)| |apply NoDup_singleton|by apply Forall_singleton|left; lia].
    rewrite Ei. unfold direct_ptrs. cbn. by rewrite truth_nonzero.
Qed.

(** [supported(inode(n), type)]. *)
Lemma supported_inode_spec {B} s n type (f : option Ptr -> bool -> M B) Q : laid s -> 0 <= n -> mode_type type ->
  (forall r s', reads s s' -> (live s n -> is_Some r) -> wp (f r false) Q s') ->
  (forall p s', reads s s' -> live s' n -> held s' n p -> node_ok s' p type -> wp (f (Some p) true) Q s') ->
  wp (let* node := inode n in let* ok := supported node type in f node ok) Q s.
Proof.
  intros Hl Hn Ht Hfalse Htrue. eapply wp_use; [by apply inode_spec|]. intros r s1 (R1 & Hlive & Hr).
  pose proof (reads_laid s s1 Hl R1) as L1.
  eapply wp_use; [apply (supported_spec s1 r n); [done|done|]|].
  { intros p ->. tauto. }
  intros ok s2 [R2 Hok]. destruct ok.
  - destruct (Hok eq_refl) as (p & -> & Hh & Hno). apply Htrue; [rtrans| |done|done].
    destruct Hr as (_ & Hlv & _). by apply (reads_live s1).
  - apply Hfalse; [rtrans|done].
Qed.

End Supported.
