(* ===== verification/Ext2Walk.v ===== *)
(** * Ext2 engine: specifications of directory walks and lookups

    A walk over a supported directory terminates within its fuel, shows its
    body valid records only, and reads nothing outside a block. *)
From Stdlib Require Import String.
From S2P Require Import Prelude CString Ext2Core Ext2Dir Ext2Logic Ext2Frame Ext2Blocks.

Section Walk.
Context {D : Type} `{BD : BlockDevice D} {DL : DeviceLaws D}.
#[local] Abbreviation St := (Fs D).
#[local] Abbreviation M := (@M D).
Implicit Types (s : St) (p e : Ptr).

(** ** Records *)
Definition rec_len s e : Z := v16 s (padd e 4).
Definition rec_names s e : Z := v8 s (padd e 6).
(** A record inside a block, as [record] accepts it. *)
Record rec_ok s e : Prop := {
  rec_start : 0 <= e.2 /\ e.2 mod 4 = 0;
  rec_length : 8 <= rec_len s e /\ rec_len s e mod 4 = 0 /\ e.2 + rec_len s e <= 1024;
  rec_name : 0 <= rec_names s e <= rec_len s e - 8;
  rec_inode : 0 <= v32 s e <= inode_count (geo s) }.

Lemma record_spec s b p off : laid s -> in_block s b p -> p.2 = 0 -> 0 <= off <= 1024 -> off mod 4 = 0 ->
  wp (record (padd p off) (BLOCK_SIZE - off)) (fun r s' => s' = s /\
    (r = true -> rec_ok s (padd p off)) /\ (p.1 = RFailed -> failed_block s = zero_block -> r = false)) s.
Proof.
  intros Hl Hb Hz Hoff H4. unfold record. change BLOCK_SIZE with 1024. pose proof (laid_mem s Hl) as Hm.
  destruct (Z.ltb_spec (1024 - off) 8); [by apply wp_ret|].
  assert (forall k n, 0 <= k -> 0 <= n -> k + n <= 8 -> valid s (padd (padd p off) k) n) as Hv.
  { intros k n Hk Hn Hkn. apply (in_block_valid s b); [done|done|..]; cbn; rewrite ?Hz; lia. }
  assert (valid s (padd p off) 4) as Hv0 by (rewrite <- (padd_0 (padd p off)); apply Hv; lia).
  apply wp_get16; [done|apply Hv; lia|]. apply wp_load8; [apply Hv; lia|].
  fold (rec_len s (padd p off)). fold (rec_names s (padd p off)).
  set (len := rec_len s (padd p off)). set (names := rec_names s (padd p off)).
  assert (0 <= names < 256) as Hnr by (pose proof (v8_range s (padd (padd p off) 6) Hm) as H8; exact H8).
  assert (p.1 = RFailed -> failed_block s = zero_block -> len = 0) as Hlen0.
  { intros Hp Hf. by apply v16_failed. }
  destruct (negb _) eqn:Ec; [by apply wp_ret|]. bool_to_prop.
  assert (p.1 = RFailed -> failed_block s = zero_block -> False) as Hnf.
  { intros Hp Hf. specialize (Hlen0 Hp Hf). lia. }
  assert (forall b : bool, wp (if negb b then ret false else let* ino := get32 (padd p off) in ret (ino <=? inode_count (geo s)))
    (fun r s' => s' = s /\ (r = true -> rec_ok s (padd p off)) /\
       (p.1 = RFailed -> failed_block s = zero_block -> r = false)) s) as Hrest.
  { intros []; cbn [negb]; [|by apply wp_ret]. apply wp_get32; [done|done|]. apply wp_ret. split; [done|].
    split; [|intros ? ?; by exfalso; apply Hnf]. intros Hi. bool_to_prop.
    pose proof (v32_range s (padd p off) Hm) as Hr. unfold is_u32 in Hr.
    constructor; cbn [padd fst snd]; fold len names; try lia. rewrite Hz. split; [lia|done]. }
  apply wp_gets. destruct (filetype (geo s)); [apply wp_bind_ret, (Hrest true)|].
  apply wp_assoc, wp_load8; [apply Hv; lia|]. apply wp_bind_ret, Hrest.
Qed.

(** A record that a body sees: cached, in a data block, and valid. *)
Definition shown s b e : Prop := in_block s b e /\ e.1 <> RFailed /\ 0 <= b /\ data s b = true /\ rec_ok s e.
Lemma shown_valid s b e k n : laid s -> shown s b e -> 0 <= k -> 0 <= n -> k + n <= rec_len s e -> valid s (padd e k) n.
Proof.
  intros Hl (Hb & _ & _ & _ & [? ? ? ?]) Hk Hn Hkn. apply (in_block_valid s b); [apply Hl|done|..]; cbn; lia.
Qed.
Lemma shown_head s b e k n : laid s -> shown s b e -> 0 <= k -> 0 <= n -> k + n <= 8 -> valid s (padd e k) n.
Proof. intros Hl Hs ? ? ?. apply (shown_valid s b); try done. destruct Hs as (_ & _ & _ & _ & [? ? ? ?]). lia. Qed.
Lemma reads_v8 s s' p : reads s s' -> valid s p 1 -> p.1 <> RFailed -> v8 s' p = v8 s p.
Proof. intros H Hv Hp. unfold v8. rewrite (reads_bytes s s'); [done..|]. apply (valid_some s p 1); [done|lia]. Qed.
Lemma reads_shown s s' b e : laid s -> reads s s' -> shown s b e -> shown s' b e.
Proof.
  intros Hl H Hs. pose proof (shown_head s b e) as Hv. destruct Hs as (Hb & Hf & Hb0 & Hd & [Ho Hlen Hn Hi]).
  assert (shown s b e) as Hs by done.
  split; [by apply (step_in_block s); [apply H|]|]. split; [done|]. split; [done|].
  split; [by rewrite (reads_data s s')|].
  assert (rec_len s' e = rec_len s e) as El by (apply (reads_v16 s s'); [done|apply Hv; done || lia|done]).
  assert (rec_names s' e = rec_names s e) as En by (apply (reads_v8 s s'); [done|apply Hv; done || lia|done]).
  assert (v32 s' e = v32 s e) as Ei.
  { rewrite <- (padd_0 e). apply (reads_v32 s s'); [done|apply Hv; done || lia|done]. }
  constructor; rewrite ?El, ?En, ?Ei; try done. by rewrite (step_geo _ _ (reads_step _ _ H)).
Qed.

(** ** Walks *)
Section Rule.
Context {A R : Type} (bad : A -> R) (body : A -> Ptr -> M (A + R)).
Context (s0 : St) (Inv : A -> St -> Prop) (Post : R -> St -> Prop).
Hypothesis Inv_reads : forall a s s', reads s0 s -> reads s s' -> Inv a s -> Inv a s'.
Hypothesis Bad : forall a s, reads s0 s -> Inv a s -> Post (bad a) s.
Hypothesis Body : forall a s b e, reads s0 s -> laid s -> Inv a s -> shown s b e ->
  wp (body a e) (fun r s' => match r with inl a' => reads s s' /\ Inv a' s' | inr x => Post x s' end) s.

Definition walked (r : A + R) s : Prop :=
  match r with inl a => reads s0 s /\ Inv a s | inr x => Post x s end.

Lemma walk_block_spec fuel s b p off a :
  reads s0 s -> laid s -> Inv a s -> in_block s b p -> p.2 = 0 -> fresh s p -> 0 <= b -> data s b = true ->
  0 <= off <= 1024 -> off mod 4 = 0 -> 1024 - off < 8 * Z.of_nat fuel ->
  wp (walk_block fuel bad body p off a) walked s.
Proof.
  revert s off a. induction fuel as [|fuel IH]; intros s off a R0 Hl Ha Hb Hz Hf Hb0 Hd Hoff H4 Hfuel; [lia|].
  cbn [walk_block]. change BLOCK_SIZE with 1024.
  destruct (Z.ltb_spec off 1024); [|by apply wp_ret].
  eapply wp_use; [by apply (record_spec s b p off)|]. intros ok s1 (-> & Hok & Hbad).
  destruct ok; cbn [negb]; [|by apply wp_ret, Bad].
  specialize (Hok eq_refl).
  assert (p.1 <> RFailed) as HF.
  { intros HF. specialize (Hbad HF (Hf HF)). done. }
  assert (shown s b (padd p off)) as Hs by done.
  eapply wp_use; [by apply (Body a s b)|]. intros [a'|x] s2 Hr; [|by apply wp_ret].
  destruct Hr as [R1 Ha']. pose proof (reads_shown s s2 b _ Hl R1 Hs) as Hs2.
  pose proof (reads_laid s s2 Hl R1) as L2.
  apply wp_get16; [apply L2|apply (shown_head s2 b); [done..|lia|lia|lia]|].
  fold (rec_len s2 (padd p off)).
  destruct Hs2 as (B2 & F2 & _ & D2 & [O2 Len2 N2 I2]). cbn [padd fst snd] in *. rewrite Hz in *.
  apply IH; [rtrans|done|done| |done| |done|done|lia|dm_lia|lia].
  - by apply (step_in_block s); [apply R1|].
  - intros HF2. done.
Qed.

(** Block [i] of a supported directory. *)
Lemma dir_block s n node c i : held s n node -> node_ok s node DIR_MODE ->
  v32 s (padd node 4) = c * 1024 -> 0 <= i < c ->
  c <= 12 /\ is_u32 (v32 s (padd node (40 + i * 4))) /\ data s (v32 s (padd node (40 + i * 4))) = true.
Proof.
  intros Hh Hn Hc Hi. pose proof (node_size _ _ _ Hn) as Hsz.
  change (DIR_MODE =? FILE_MODE) with false in Hsz. cbv iota in Hsz.
  destruct Hsz as (_ & c' & Ec & Hc' & Hnz). assert (c' = c) as -> by lia. split; [lia|].
  specialize (Hnz i ltac:(lia)). split; [apply v32_range, Hh|].
  assert (fptr s node i = v32 s (padd node (40 + i * 4))) as Ef by (unfold fptr; by ztrue (i <? 12)).
  rewrite <- Ef. pose proof (file_blocks _ _ _ (node_file _ _ _ Hn)) as Hall. rewrite Forall_forall in Hall.
  apply Hall. unfold pointers. apply elem_of_app. right. unfold direct_ptrs, nonzero.
  apply list_elem_of_In, filter_In. split; [|by apply truth_nonzero].
  apply in_map, list_elem_of_In, elem_of_seqZ. change (ptr_limit DIR_MODE) with 12. lia.
Qed.

Context (n : Z) (node : Ptr) (c : Z).
Hypothesis Node : held s0 n node.
Hypothesis Node_ok : node_ok s0 node DIR_MODE.
Hypothesis Count : v32 s0 (padd node 4) = c * 1024.

Lemma walk_from_spec fuel limit s i a :
  reads s0 s -> Inv a s -> (forall s', reads s0 s' -> wp limit (fun v s2 => s2 = s' /\ v = c) s') ->
  0 <= i <= c -> c - i < Z.of_nat fuel ->
  wp (walk_from fuel limit bad body node i a) walked s.
Proof.
  revert s i a. induction fuel as [|fuel IH]; intros s i a R0 Ha Hlim Hi Hfuel; [lia|].
  cbn [walk_from]. eapply wp_use; [by apply Hlim|]. intros v s1 [-> ->].
  destruct (Z.ltb_spec i c); [|by apply wp_ret].
  pose proof (reads_held s0 s n node R0 Node) as Hh.
  destruct (dir_block s0 n node c i) as (Hc12 & Hu & Hd); [done|done|done|lia|].
  apply (wp_node s n); [done|lia|]. rewrite (held_v32 s0 s n) by (done || lia).
  set (b := v32 s0 (padd node (40 + i * 4))) in *. unfold is_u32 in Hu.
  eapply wp_use; [apply block_spec; [apply Hh|apply laid_blocks, Hh|done]|].
  intros base s2 (R2 & B2 & Z2 & F2). assert (reads s0 s2) as R02 by rtrans.
  eapply wp_use; [apply (walk_block_spec RECORDS s2 b base 0 a)|].
  - done.
  - by apply (reads_laid s); [apply Hh|].
  - by apply (Inv_reads a s s2).
  - done.
  - done.
  - done.
  - lia.
  - by rewrite (reads_data s0 s2).
  - lia.
  - done.
  - unfold RECORDS. lia.
  - intros [a'|x] s3 Hr3; [|by apply wp_ret]. destruct Hr3 as [R3 Ha3]. apply IH; [done|done|done|lia|lia].
Qed.

Lemma walk_spec a : Inv a s0 -> wp (walk bad body node a) walked s0.
Proof.
  intros Ha. pose proof (node_size _ _ _ Node_ok) as Hsz.
  change (DIR_MODE =? FILE_MODE) with false in Hsz. cbv iota in Hsz. destruct Hsz as (_ & c' & Ec & Hc' & _).
  apply walk_from_spec; [by apply reads_refl, Node|done| |lia|lia].
  intros s' R1. unfold dir_count. apply (wp_node s' n); [by apply (reads_held s0)|lia|].
  rewrite (held_v32 s0 s' n) by (done || lia). rewrite Count. apply wp_ret. split; [done|].
  change BLOCK_SIZE with 1024. apply Z.div_mul. lia.
Qed.
End Rule.

(** ** Names *)
Lemma name_equal_spec s b e name : laid s -> shown s b e ->
  wp (name_equal e name) (fun r s' => s' = s /\
    r = (rec_names s e =? strlen name) && (strncmp (slice (bytes_of s e.1) (e.2 + 8) (rec_names s e)) name
                                             (Z.to_nat (rec_names s e)) =? 0)) s.
Proof.
  intros Hl Hs. unfold name_equal. apply wp_load8; [apply (shown_head s b); [done..|lia|lia|lia]|].
  fold (rec_names s e). destruct (Z.eqb_spec (rec_names s e) (strlen name)) as [E|E]; cbn [negb andb]; [|by apply wp_ret].
  assert (0 <= rec_names s e <= rec_len s e - 8) as Hn by apply Hs.
  destruct (Z.eq_dec (rec_names s e) 0) as [E0|E0].
  - rewrite E0. apply wp_bind. unfold wp, load.
    assert (valid s (padd e 8) 0) as Hv by (apply (shown_valid s b); [done..|lia|lia|lia]).
    assert (region s (padd e 8).1 = Some (bytes_of s e.1)) as ->.
    { apply (valid_region s e 4); [|lia]. rewrite <- (padd_0 e). apply (shown_head s b); [done..|lia|lia|lia]. }
    unfold valid in Hv. change (padd e 8).1 with e.1 in Hv.
    ztrue (0 <=? (padd e 8).2). ztrue (0 <=? 0). ztrue ((padd e 8).2 + 0 <=? zlen (bytes_of s e.1)). done.
  - apply wp_load; [apply (shown_valid s b); [done..|lia|lia|lia]|lia|]. by apply wp_ret.
Qed.

(** The bytes of a record's name, and whether they are those of [name]. *)
Definition rec_text s e : list Z := slice (bytes_of s e.1) (e.2 + 8) (rec_names s e).
Definition names_equal s e (name : list Z) : bool :=
  (rec_names s e =? strlen name) && (strncmp (rec_text s e) name (Z.to_nat (rec_names s e)) =? 0).

(** ** Lookup *)
(** A used record of that name, found in a supported directory. *)
Definition found s name (ino : Z) e : Prop :=
  1 <= ino <= inode_count (geo s) /\ exists b, shown s b e /\ v32 s e = ino /\ names_equal s e name = true.

Lemma lookup_spec s dir name : laid s -> 0 <= dir ->
  wp (lookup dir name) (fun r s' => reads s s' /\ (r.1 <> -2 -> live s' dir) /\
    ((r = (-2, None)) \/ (r = (-1, None)) \/ exists ino e, r = (ino, Some e) /\ found s' name ino e)) s.
Proof.
  intros Hl Hd. unfold lookup. apply supported_inode_spec; [done|done|by right|..].
  { intros r s1 R1 _. apply wp_ret. split; [done|]. split; [done|by left]. }
  intros p s1 R1 Hlive Hh Hn. pose proof (node_size _ _ _ Hn) as Hsz.
  change (DIR_MODE =? FILE_MODE) with false in Hsz. cbv iota in Hsz. destruct Hsz as (_ & c & Ec & Hc & _).
  set (Post := fun (r : Z * option Ptr) s' => reads s1 s' /\
                 (r = (-2, None) \/ exists ino e, r = (ino, Some e) /\ found s' name ino e)).
  eapply wp_use; [apply (walk_spec (fun _ => (-2, None)) (lookup_body name) s1 (fun _ _ => True) Post) with (n := dir) (c := c)|].
  all: try done.
  - intros s' R. split; [done|by left].
  - intros a s' b e R L _ Hs. unfold lookup_body.
    assert (valid s' e 4) as Hv by (rewrite <- (padd_0 e); apply (shown_head s' b); [done..|lia|lia|lia]).
    apply wp_get32; [apply L|done|]. pose proof (rec_inode _ _ (proj2 (proj2 (proj2 (proj2 Hs))))) as Hi.
    destruct (Z.eqb_spec (v32 s' e) 0); [by apply wp_ret; split; [apply reads_refl, L|]|].
    eapply wp_use; [by apply (name_equal_spec s' b)|]. intros eq s2 [-> Heq]. fold (rec_text s' e) in Heq.
    fold (names_equal s' e name) in Heq.
    destruct eq; [|by apply wp_ret; split; [apply reads_refl, L|]].
    apply wp_get32; [apply L|done|]. apply wp_ret. split; [done|]. right. exists (v32 s' e), e.
    split; [done|]. split; [lia|]. exists b. split; [done|]. split; [done|]. by symmetry.
  - intros [[]|x] s2 Hr; apply wp_ret.
    + destruct Hr as [R2 _]. split; [rtrans|]. split; [intros _; by apply (reads_live s1)|]. right. by left.
    + destruct Hr as [R2 Hr]. split; [rtrans|]. split; [intros _; by apply (reads_live s1)|].
      destruct Hr as [->|Hr]; [by left|right; by right].
Qed.

(** ** Paths *)
Lemma take_part_app (p : list Z) n part rest : take_part p n = Some (part, rest) -> p = part ++ rest.
Proof.
  revert n part rest. induction p as [|c p IH]; intros n part rest; cbn; [by intros [= <- <-]|].
  destruct (c =? SLASH); [by intros [= <- <-]|]. destruct (n =? MAX_NAME); [done|].
  destruct (take_part p (n + 1)) as [[part' rest']|] eqn:E; [|done]. intros [= <- <-].
  cbn. f_equal. by eapply IH.
Qed.
Lemma take_part_head c (p : list Z) n part rest : c <> SLASH -> take_part (c :: p) n = Some (part, rest) -> part <> [].
Proof.
  intros Hc. cbn. zfalse (c =? SLASH). destruct (n =? MAX_NAME); [done|].
  destruct (take_part p (n + 1)) as [[part' rest']|]; [|done]. by intros [= <- <-].
Qed.
Lemma skip_slashes_length (p : list Z) : (length (skip_slashes p) <= length p)%nat.
Proof. induction p as [|c p IH]; cbn; [lia|]. destruct (c =? SLASH); cbn; lia. Qed.
Lemma skip_slashes_head (p : list Z) c (p' : list Z) : skip_slashes p = c :: p' -> c <> SLASH.
Proof. induction p as [|d p IH]; cbn; [done|]. destruct (Z.eqb_spec d SLASH); [done|]. by intros [= <- _]. Qed.

Lemma path_loop_spec fuel s dir (p : list Z) : laid s -> is_u32 dir -> (length p < fuel)%nat ->
  (forall c (p' : list Z), p = c :: p' -> c <> SLASH) ->
  wp (path_loop fuel dir p) (fun r s' => reads s s' /\ (r = -1 \/ is_u32 r)) s.
Proof.
  revert s dir p. induction fuel as [|fuel IH]; intros s dir p Hl Hd Hf Hp; [lia|]. cbn [path_loop].
  destruct p as [|c p]; [apply wp_ret; split; [apply reads_refl, Hl|by right]|].
  destruct (take_part (c :: p) 0) as [[part rest]|] eqn:E; [|apply wp_ret; split; [apply reads_refl, Hl|by left]].
  assert (forall child s1, reads s s1 -> (child <= 0 \/ is_u32 child) ->
    wp (if child <=? 0 then ret (-1) else path_loop fuel child (skip_slashes rest))
       (fun r s' => reads s s' /\ (r = -1 \/ is_u32 r)) s1) as Hrest.
  { intros child s1 R1 Hc. destruct (Z.leb_spec child 0); [by apply wp_ret; split; [|left]|].
    eapply wp_mono; [apply IH|].
    - by apply (reads_laid s).
    - destruct Hc; [lia|done].
    - pose proof (skip_slashes_length rest). pose proof (take_part_app _ _ _ _ E) as Ep.
      apply (f_equal length) in Ep. rewrite length_app in Ep.
      pose proof (take_part_head _ _ _ _ _ (Hp c p eq_refl) E). destruct part; [done|]. cbn in *. lia.
    - apply skip_slashes_head.
    - intros r s' [R2 Hr]. split; [rtrans|done]. }
  destruct (strcmp part dot =? 0).
  - apply wp_bind_ret, Hrest; [apply reads_refl, Hl|by right].
  - apply wp_assoc. eapply wp_use; [apply lookup_spec; [done|unfold is_u32 in Hd; lia]|].
    intros r s1 (R1 & _ & Hr). apply wp_bind_ret, Hrest; [done|].
    destruct Hr as [->|[->|(ino & e & -> & (Hi & _))]]; cbn; [left; lia|left; lia|right].
    pose proof (inode_count_range _ (laid_geometry s1 (reads_laid s s1 Hl R1))). unfold is_u32. lia.
Qed.

Lemma lookup_path_spec s path : laid s ->
  wp (lookup_path path) (fun r s' => reads s s' /\ (r = -1 \/ is_u32 r)) s.
Proof.
  intros Hl. unfold lookup_path. destruct path as [|c path]; [apply wp_ret; split; [apply reads_refl, Hl|by left]|].
  apply wp_gets. assert (is_u32 (if c =? SLASH then ROOT_INO else cwd s)) as Hd
    by (destruct (c =? SLASH); [unfold is_u32, ROOT_INO; lia|apply Hl]).
  destruct (skip_slashes (c :: path)) as [|c' p'] eqn:E.
  { apply wp_ret. split; [apply reads_refl, Hl|by right]. }
  apply path_loop_spec; [done|done|lia|]. intros c1 p1 [= <- <-]. by apply (skip_slashes_head _ _ _ E).
Qed.

End Walk.
