(* ===== verification/Ext2Alloc.v ===== *)
(** * Ext2 engine: allocation and release

    Which blocks a step changes, and what [allocate] and [release] do to the
    bitmaps: a new block or inode was free and is marked, and nothing else
    changes but counters and the zeroed block. *)
From Stdlib Require Import String.
From S2P Require Import Prelude CString Ext2Core Ext2Dir Ext2Logic Ext2Frame Ext2Blocks Ext2Walk.

Section Alloc.
Context {D : Type} `{BD : BlockDevice D} {DL : DeviceLaws D}.
#[local] Abbreviation St := (Fs D).
#[local] Abbreviation M := (@M D).
Implicit Types (s : St) (p e : Ptr).

(** ** Frames: only blocks of [P] change *)
Definition frame (P : Z -> Prop) s s' : Prop :=
  step s s' /\
  (forall b j, find_slot (cache s) b = Some j -> ~ P b -> bytes_of s' (RCache j) = bytes_of s (RCache j)) /\
  (coherent s -> forall b, ~ P b -> view s' b = view s b).

Lemma frame_refl P s : mem_ok s -> frame P s s.
Proof. intros Hm. split; [by apply step_refl|done]. Qed.
Lemma frame_step P s s' : frame P s s' -> step s s'.
Proof. by intros [H _]. Qed.
Lemma step_find s s' b j : step s s' -> find_slot (cache s) b = Some j -> find_slot (cache s') b = Some j.
Proof. intros H. apply find_slot_prefix, H. Qed.
Lemma frame_trans P s1 s2 s3 : frame P s1 s2 -> frame P s2 s3 -> frame P s1 s3.
Proof.
  intros (T1 & F1 & V1) (T2 & F2 & V2). split; [by eapply step_trans|]. split.
  - intros b j Hf Hb. rewrite (F2 b j), (F1 b j); [done..|by apply (step_find s1)|done].
  - intros Hc b Hb. rewrite V2, V1; [done..|by apply (step_coherent _ _ T1)|done].
Qed.
Lemma frame_weaken (P Q : Z -> Prop) s s' : (forall b, P b -> Q b) -> frame P s s' -> frame Q s s'.
Proof.
  intros HPQ (T & F & V). split; [done|]. split.
  - intros b j Hf Hb. apply (F b j); [done|]. intros HP. by apply Hb, HPQ.
  - intros Hc b Hb. apply (V Hc). intros HP. by apply Hb, HPQ.
Qed.
Lemma reads_frame P s s' : reads s s' -> frame P s s'.
Proof.
  intros H. split; [apply H|]. split; [|intros Hc b _; by apply (reads_view _ _ H)].
  intros b j Hf _. apply reads_bytes; [done|done|].
  destruct (find_slot_lookup _ _ _ Hf) as (c & Hc & _). cbn. rewrite Hc. by eexists.
Qed.
(** A write shows only in the block it goes to. *)
Lemma write_view s p bs b : (forall j, find_slot (cache s) b = Some j -> bytes_of (write s p bs) (RCache j) = bytes_of s (RCache j)) ->
  view (write s p bs) b = view s b.
Proof.
  intros H. unfold view.
  assert (map names (cache (write s p bs)) = map names (cache s)) as En
    by (unfold write; destruct p.1; cbn; try done; apply map_names_alter).
  rewrite (find_slot_names _ _ b En). destruct (find_slot (cache s) b) as [j|]; [by apply H|].
  unfold write. by destruct p.1.
Qed.
Lemma frame_write (P : Z -> Prop) s p bs : step s (write s p bs) ->
  (forall b j, find_slot (cache s) b = Some j -> ~ P b -> bytes_of (write s p bs) (RCache j) = bytes_of s (RCache j)) ->
  frame P s (write s p bs).
Proof. intros T H. split; [done|]. split; [done|]. intros _ b Hb. apply write_view. intros j Hj. by apply (H b). Qed.
Lemma frame_write_block (P : Z -> Prop) s b p bs :
  mem_ok s -> in_block s b p -> valid s p (zlen bs) -> bytes_ok bs -> P b -> frame P s (write s p bs).
Proof.
  intros Hm Hb Hv Hbs HP. apply frame_write; [apply step_write_cache; [done..|by eapply in_block_cache]|].
  intros b' j Hf Hn. apply bytes_of_write_ne. intros He.
  destruct (Z.eq_dec b b') as [->|Hne]; [done|].
  assert (in_block s b' (RCache j, 0)) as Hb' by (left; eauto).
  pose proof (in_block_apart s b b' p (RCache j, 0) Hb Hb' Hne (eq_sym He)) as HF. congruence.
Qed.
Lemma frame_write_region P s p bs : step s (write s p bs) -> p.1 = RSuper \/ p.1 = RDesc -> frame P s (write s p bs).
Proof.
  intros H Hp. apply frame_write; [done|]. intros b j _ _. apply bytes_of_write_ne. destruct Hp; congruence.
Qed.

Lemma hints_frame P s a b : mem_ok s -> is_u32 a -> is_u32 b -> frame P s (set_hints a b s).
Proof. intros Hm Ha Hb. split; [|done]. constructor; try done. destruct Hm; by constructor. Qed.

(** ** Maps *)
Definition is_map s b : Prop := exists g, 0 <= g < groups (geo s) /\ (b = imap s g \/ b = bitmap s g).
Lemma step_is_map s s' b : step s s' -> is_map s' b <-> is_map s b.
Proof.
  intros H. unfold is_map. rewrite (step_geo _ _ H). split; intros (g & Hg & He); exists g; (split; [done|]).
  - by rewrite <- (step_imap _ _ _ H Hg), <- (step_bitmap _ _ _ H Hg).
  - by rewrite (step_imap _ _ _ H Hg), (step_bitmap _ _ _ H Hg).
Qed.
Lemma data_not_map s b : laid s -> 0 <= b -> data s b = true -> ~ is_map s b.
Proof.
  intros Hl Hb Hd (g & Hg & [He|He]).
  - by apply (data_not_imap _ _ _ (proj2 Hl) b g).
  - by apply (data_not_bitmap _ _ _ (proj2 Hl) b g).
Qed.
Lemma inode_block_not_map s n : laid s -> 1 <= n <= inode_count (geo s) -> ~ is_map s (inode_block s n).
Proof.
  intros Hl Hn (g' & Hg' & He). destruct (inode_block_table s n Hl Hn) as (g & k & Hg & Hk & E). rewrite E in He.
  destruct He as [He|He]; [by apply (table_not_imap _ _ _ (proj2 Hl) g k g')|by apply (table_not_bitmap _ _ _ (proj2 Hl) g k g')].
Qed.
Lemma inode_block_not_data s n b : laid s -> 1 <= n <= inode_count (geo s) -> 0 <= b -> data s b = true -> inode_block s n <> b.
Proof.
  intros Hl Hn Hb Hd He. destruct (inode_block_table s n Hl Hn) as (g & k & Hg & Hk & E).
  apply (data_not_table _ _ _ (proj2 Hl) b g k); [done..|]. unfold itable in E. congruence.
Qed.

(** Bit [i] of the block [b], as the engine sees it: in the cache or on the disk. *)
Definition seen_bit s b i : bool := Z.testbit (byte_at (view s b) (i / 8)) (i mod 8).
(** Bits of the maps only turn on: those of the maps in the cache, and those
    of any map as the engine sees it. *)
Definition sees s s' : Prop :=
  forall b i, is_map s b -> 0 <= i < 8192 -> seen_bit s b i = true -> seen_bit s' b i = true.
Definition grows s s' : Prop :=
  step s s' /\ (forall b i, is_map s b -> 0 <= i < 8192 -> map_bit s b i = true -> map_bit s' b i = true) /\
  (coherent s -> sees s s').
Lemma frame_map_bit P s s' b i : frame P s s' -> ~ P b -> map_bit s b i = true -> map_bit s' b i = true.
Proof.
  intros (T & F & _) Hb. unfold map_bit. destruct (find_slot (cache s) b) as [j|] eqn:E; [|done].
  rewrite (step_find s s' b j T E). unfold vbit, v8. cbn [padd fst snd]. by rewrite (F b j E Hb).
Qed.
Lemma frame_grows (P : Z -> Prop) s s' : frame P s s' -> (forall b, P b -> ~ is_map s b) -> grows s s'.
Proof.
  intros H HP. split; [apply H|]. split.
  - intros b i Hm _. apply (frame_map_bit P s s'); [done|]. intros Hb. by apply (HP b).
  - intros Hc b i Hm _. unfold seen_bit. destruct H as (_ & _ & ->); [done|done|]. intros Hb. by apply (HP b).
Qed.
Lemma reads_grows s s' : reads s s' -> grows s s'.
Proof. intros H. apply (frame_grows (fun _ => False)); [by apply reads_frame|done]. Qed.
Lemma grows_refl s : mem_ok s -> grows s s.
Proof. intros. by apply reads_grows, reads_refl. Qed.
Lemma grows_trans s1 s2 s3 : grows s1 s2 -> grows s2 s3 -> grows s1 s3.
Proof.
  intros (T1 & G1 & S1) (T2 & G2 & S2). split; [by eapply step_trans|]. split.
  - intros b i Hm Hi Hb. apply G2; [by apply (step_is_map s1)|done|]. by apply G1.
  - intros Hc b i Hm Hi Hb. apply S2; [by apply (step_coherent _ _ T1)|by apply (step_is_map s1)|done|]. by apply S1.
Qed.
Lemma grows_live s s' n : laid s -> grows s s' -> live s n -> live s' n.
Proof.
  intros Hl [T G] [Hn Hb]. destruct (inode_group _ (laid_geometry s Hl) n Hn) as [Hg Hi].
  unfold live. rewrite (step_geo _ _ T), (step_imap _ _ _ T) by done. split; [done|].
  pose proof (ok_ipg _ (laid_geometry s Hl)). apply G; [|lia|done]. eexists. split; [exact Hg|by left].
Qed.
Lemma grows_marked s s' b : laid s -> 1 <= b < blocks (geo s) -> grows s s' -> marked s b -> marked s' b.
Proof.
  intros Hl Hb [T G] Hm. destruct (block_group _ (laid_geometry s Hl) b Hb) as [Hg Hi].
  pose proof (gsize_range _ (laid_geometry s Hl) _ Hg).
  unfold marked. rewrite (step_geo _ _ T), (step_bitmap _ _ _ T) by done. apply G; [|lia|done].
  eexists. split; [exact Hg|by right].
Qed.

(** ** One bit *)
Lemma testbit_set b i j : 0 <= i -> 0 <= j -> Z.testbit (Z.lor b (Z.shiftl 1 i)) j = (j =? i) || Z.testbit b j.
Proof.
  intros Hi Hj. rewrite Z.lor_spec, Z.shiftl_1_l, Z.pow2_bits_eqb by lia.
  rewrite orb_comm. f_equal. destruct (Z.eqb_spec i j), (Z.eqb_spec j i); congruence.
Qed.
Lemma testbit_clear b i j : 0 <= i -> 0 <= j ->
  Z.testbit (Z.land b (Z.lnot (Z.shiftl 1 i))) j = negb (j =? i) && Z.testbit b j.
Proof.
  intros Hi Hj. rewrite Z.land_spec, Z.lnot_spec, Z.shiftl_1_l, Z.pow2_bits_eqb by lia.
  rewrite andb_comm. do 2 f_equal. destruct (Z.eqb_spec i j), (Z.eqb_spec j i); congruence.
Qed.
Lemma zlen_single (x : Z) : zlen [x] = 1.
Proof. done. Qed.
Definition set_value (b i : Z) (used : bool) : Z :=
  if used then Z.lor b (Z.shiftl 1 i) else Z.land b (Z.lnot (Z.shiftl 1 i)).
Definition after_setbit s p i used : St :=
  write s (padd p (i / 8)) [u8 (set_value (v8 s (padd p (i / 8))) (i mod 8) used)].

Lemma wp_setbit {B} s b p i used (f : unit -> M B) Q :
  mem_ok s -> in_block s b p -> p.2 = 0 -> 0 <= i < 8192 ->
  wp (f tt) Q (after_setbit s p i used) -> wp (bind (setbit p i used) f) Q s.
Proof.
  intros Hm Hb Hz Hi H.
  assert (valid s (padd p (i / 8)) 1) as Hv.
  { apply (in_block_valid s b); [done|done|..]; cbn; rewrite ?Hz; dm_lia. }
  unfold setbit. apply wp_assoc, wp_load8; [done|]. by destruct used; apply wp_store8.
Qed.
Lemma setbit_vbit s b p i used j : mem_ok s -> in_block s b p -> p.2 = 0 -> 0 <= i < 8192 -> 0 <= j < 8192 ->
  vbit (after_setbit s p i used) p j = if j =? i then used else vbit s p j.
Proof.
  intros Hm Hb Hz Hi Hj.
  assert (valid s (padd p (i / 8)) 1) as Hv.
  { apply (in_block_valid s b); [done|done|..]; cbn; rewrite ?Hz; dm_lia. }
  unfold vbit, v8 at 1, after_setbit. change (padd p (j / 8)).1 with (padd p (i / 8)).1.
  rewrite bytes_of_write by done. unfold valid in Hv. cbn [padd fst snd] in *. rewrite Hz in *.
  assert (zlen (bytes_of s p.1) = 1024) as Hlen by (by apply (in_block_size s b)).
  destruct (Z.eq_dec (j / 8) (i / 8)) as [E|E].
  - rewrite byte_splice_in by (rewrite ?zlen_single; lia). rewrite E, Z.sub_diag.
    change (byte_at [?x] 0) with x. unfold u8. rewrite Z.mod_pow2_bits_low by dm_lia.
    assert ((j mod 8 =? i mod 8) = (j =? i)) as Eji.
    { destruct (Z.eqb_spec (j mod 8) (i mod 8)), (Z.eqb_spec j i); try done; dm_lia. }
    unfold set_value. destruct used; [rewrite testbit_set by dm_lia|rewrite testbit_clear by dm_lia]; rewrite Eji.
    + destruct (j =? i); [done|]. cbn [orb]. unfold v8. cbn [padd fst snd]. by rewrite ?Hz, ?E.
    + destruct (j =? i); [done|]. cbn [negb andb]. unfold v8. cbn [padd fst snd]. by rewrite ?Hz, ?E.
  - rewrite byte_splice_out by (rewrite ?zlen_single; dm_lia). zfalse (j =? i). unfold v8. cbn [padd fst snd]. by rewrite Hz.
Qed.
Lemma setbit_frame (P : Z -> Prop) s b p i used : mem_ok s -> in_block s b p -> p.2 = 0 -> 0 <= i < 8192 -> P b ->
  frame P s (after_setbit s p i used).
Proof.
  intros Hm Hb Hz Hi HP. apply (frame_write_block P s b); [done|done| | |done].
  - apply (in_block_valid s b); [done|done|..]; cbn [padd fst snd]; rewrite ?zlen_single, ?Hz; dm_lia.
  - apply Forall_singleton, u8_range.
Qed.
(** In the block of a cached map. *)
Lemma setbit_map_bit s b p i used b' j : mem_ok s -> in_block s b p -> p.1 <> RFailed -> p.2 = 0 ->
  0 <= i < 8192 -> 0 <= j < 8192 ->
  map_bit (after_setbit s p i used) b' j = if (b' =? b) && (j =? i) then used else map_bit s b' j.
Proof.
  intros Hm Hb Hf Hz Hi Hj.
  assert (map names (cache (after_setbit s p i used)) = map names (cache s)) as Hn.
  { unfold after_setbit, write. destruct (padd p (i / 8)).1; cbn; try done. apply map_names_alter. }
  unfold map_bit. rewrite (find_slot_names _ _ b' Hn).
  destruct Hb as [(k & Hp & Hk)|[? _]]; [|done].
  assert (p = (RCache k, 0)) as Ep by (destruct p; cbn in *; congruence).
  assert (in_block s b p) as Hb by (left; eauto).
  destruct (Z.eqb_spec b' b) as [->|Hne]; cbn [andb].
  - rewrite Hk, <- Ep. by rewrite (setbit_vbit s b).
  - destruct (find_slot (cache s) b') as [k'|] eqn:Hk'; [|done].
    unfold vbit. unfold after_setbit. rewrite v8_write_ne; [done|]. cbn [padd fst]. rewrite Hp. intros [= ->].
    destruct (find_slot_lookup _ _ _ Hk) as (c & Hc & <-). destruct (find_slot_lookup _ _ _ Hk') as (c' & Hc' & <-).
    congruence.
Qed.
(** The same of a block as the engine sees it. *)
Lemma vbit_seen s b p i : in_block s b p -> p.1 <> RFailed -> p.2 = 0 -> vbit s p i = seen_bit s b i.
Proof.
  intros [(j & Hp & Hf)|(Hp & _)] Hne Hz; [|done]. unfold vbit, v8, seen_bit, view. rewrite Hf. cbn [padd fst snd]. by rewrite Hp, Hz.
Qed.
Lemma setbit_seen s b p i used b' j : mem_ok s -> in_block s b p -> p.1 <> RFailed -> p.2 = 0 ->
  0 <= i < 8192 -> 0 <= j < 8192 ->
  seen_bit (after_setbit s p i used) b' j = if (b' =? b) && (j =? i) then used else seen_bit s b' j.
Proof.
  intros Hm Hb Hf Hz Hi Hj. destruct (setbit_frame (fun x => x = b) s b p i used Hm Hb Hz Hi eq_refl) as (T & F & _).
  destruct (Z.eqb_spec b' b) as [->|Hne]; cbn [andb].
  - rewrite <- (vbit_seen s b p j), <- (setbit_vbit s b) by done. symmetry. apply vbit_seen; [|done|done].
    destruct Hb as [(k & Hp & Hk)|[? _]]; [|done]. left. exists k. split; [done|]. by apply (step_find s).
  - unfold seen_bit, after_setbit in *. rewrite write_view; [done|]. intros k Hk. by apply (F b').
Qed.

(** ** [find_clear] *)
Lemma find_clear_spec n s b p i : mem_ok s -> in_block s b p -> p.2 = 0 -> 0 <= i -> i + Z.of_nat n <= 8192 ->
  wp (find_clear n p i) (fun r s' => s' = s /\
    match r with
    | Some j => i <= j < i + Z.of_nat n /\ vbit s p j = false
    | None => forall k, i <= k < i + Z.of_nat n -> vbit s p k = true
    end) s.
Proof.
  revert i. induction n as [|n IH]; intros i Hm Hb Hz Hi Hn; cbn [find_clear].
  { apply wp_ret. split; [done|]. lia. }
  apply (wp_bit_in s b); [done|done|done|lia|]. destruct (vbit s p i) eqn:E.
  - eapply wp_mono; [apply IH; [done|done|done|lia|lia]|]. intros r s' [-> Hr]. split; [done|].
    destruct r as [j|]; [destruct Hr; split; [lia|done]|]. intros k Hk.
    destruct (Z.eq_dec k i) as [->|]; [done|]. apply Hr. lia.
  - apply wp_ret. split; [done|]. split; [lia|done].
Qed.

(** ** Counters *)
Lemma wp_counters {B} P s is_inode g dt dg (k : M B) Q :
  laid s -> 0 <= g < groups (geo s) ->
  (forall s', frame P s s' -> cache s' = cache s -> cache_error s' = cache_error s -> wp k Q s') ->
  wp (put32 (counters is_inode g).1 dt;; (let* c := get16 (counters is_inode g).2 in put16 (counters is_inode g).2 (dg c));;
      k) Q s.
Proof.
  intros Hl Hg H. pose proof (laid_groups s Hl).
  assert (forall s', mem_ok s' -> valid s' (counters is_inode g).1 4) as V1.
  { intros s' Hm. destruct is_inode; apply valid_super; done || lia. }
  assert (forall s', mem_ok s' -> valid s' (counters is_inode g).2 2) as V2.
  { intros s' Hm. destruct is_inode; apply valid_desc; done || lia. }
  apply wp_put32; [apply V1, Hl|]. set (s1 := write s _ _).
  assert (step s s1) as T1.
  { destruct is_inode; apply step_write_super; try apply Hl; try done; try apply le32_bytes_ok; cbn; lia. }
  apply wp_assoc, wp_get16; [apply T1|apply V2, T1|]. apply wp_put16; [apply V2, T1|]. set (s2 := write s1 _ _).
  assert (step s1 s2) as T2.
  { destruct is_inode; apply step_write_desc; try apply T1; try done; try apply le16_bytes_ok; cbn; lia. }
  apply H; [|by destruct is_inode|by destruct is_inode].
  eapply frame_trans; (apply frame_write_region; [done|]); destruct is_inode; auto.
Qed.

Definition map_block s is_inode g : Z := if is_inode : bool then imap s g else bitmap s g.
Definition map_limit (G : Geometry) is_inode g : Z := if is_inode : bool then inodes_per_group G else gsize G g.
Lemma map_limit_range s is_inode g : laid s -> 0 <= g < groups (geo s) -> 1 <= map_limit (geo s) is_inode g <= 8192.
Proof.
  intros Hl Hg. destruct is_inode; cbn.
  - apply (ok_ipg _ (laid_geometry s Hl)).
  - apply (gsize_range _ (laid_geometry s Hl) g Hg).
Qed.
Lemma map_block_u32 s is_inode g : laid s -> 0 <= g < groups (geo s) -> is_u32 (map_block s is_inode g).
Proof.
  intros Hl Hg. apply (small_u32 s); [done|]. destruct is_inode; cbn.
  - pose proof (imap_range _ _ _ (proj2 Hl) g Hg). unfold imap. lia.
  - pose proof (bitmap_range _ _ _ (proj2 Hl) g Hg). unfold bitmap. lia.
Qed.
Lemma map_block_is_map s is_inode g : 0 <= g < groups (geo s) -> is_map s (map_block s is_inode g).
Proof. intros Hg. exists g. split; [done|]. destruct is_inode; auto. Qed.
(** The number of the bit [i] of group [g]: a block, or an inode from 1. *)
Definition number (G : Geometry) (is_inode : bool) g i : Z :=
  if is_inode then g * inodes_per_group G + i + 1 else gstart G g + i.
Definition taken s (is_inode : bool) n : Prop := if is_inode then live s n else marked s n.

Lemma number_inode G g i : geometry_ok G -> 0 <= g < groups G -> 0 <= i < inodes_per_group G ->
  let n := number G true g i in
  1 <= n <= inode_count G /\ (n - 1) / inodes_per_group G = g /\ (n - 1) mod inodes_per_group G = i.
Proof.
  intros HG Hg Hi. unfold number. cbv zeta. pose proof (ok_ipg G HG). rewrite (ok_inode_count G HG).
  replace (g * inodes_per_group G + i + 1 - 1) with (i + g * inodes_per_group G) by lia.
  rewrite Z.div_add, Z.mod_add, Z.div_small, Z.mod_small by lia. nia.
Qed.
Lemma number_block G g i : geometry_ok G -> 0 <= g < groups G -> 0 <= i < gsize G g ->
  let n := number G false g i in
  1 <= n < blocks G /\ (n - 1) / blocks_per_group G = g /\ n - gstart G g = i.
Proof.
  intros HG Hg Hi. unfold number. cbv zeta. pose proof (gstart_inside G HG g Hg). pose proof (gend_inside G HG g Hg).
  split; [lia|]. split; [|lia]. apply (group_of_block G HG); [done|lia].
Qed.
Lemma taken_bit s is_inode g i : laid s -> 0 <= g < groups (geo s) -> 0 <= i < map_limit (geo s) is_inode g ->
  taken s is_inode (number (geo s) is_inode g i) <-> map_bit s (map_block s is_inode g) i = true.
Proof.
  intros Hl Hg Hi. pose proof (laid_geometry s Hl) as HG. destruct is_inode; cbn in *.
  - destruct (number_inode _ g i HG Hg Hi) as (Hn & E1 & E2). cbn in Hn, E1, E2. unfold live. rewrite E1, E2. tauto.
  - destruct (number_block _ g i HG Hg Hi) as (Hn & E1 & E2). cbn in Hn, E1, E2. unfold marked. by rewrite E1, E2.
Qed.
Lemma number_u32 s is_inode g i : laid s -> 0 <= g < groups (geo s) -> 0 <= i < map_limit (geo s) is_inode g ->
  is_u32 (number (geo s) is_inode g i).
Proof.
  intros Hl Hg Hi. pose proof (laid_geometry s Hl) as HG. destruct is_inode.
  - destruct (number_inode _ g i HG Hg Hi) as (Hn & _). pose proof (inode_count_range _ HG). unfold is_u32. lia.
  - destruct (number_block _ g i HG Hg Hi) as (Hn & _). apply (small_u32 s); [done|lia].
Qed.

(** ** [claim] and [allocate] *)
Definition zeroed s b : Prop := exists j, find_slot (cache s) b = Some j /\ bytes_of s (RCache j) = zero_block.
Lemma map_bit_seen s b i : map_bit s b i = true -> seen_bit s b i = true.
Proof. unfold map_bit, seen_bit, view. by destruct (find_slot (cache s) b). Qed.
(** The number [n] is free, in the map of its group. *)
Definition unused s (is_inode : bool) n : Prop :=
  exists g i, 0 <= g < groups (geo s) /\ 0 <= i < map_limit (geo s) is_inode g /\ n = number (geo s) is_inode g i /\
    seen_bit s (map_block s is_inode g) i = false.
(** What a successful allocation of [n] leaves. *)
Record claimed s s' (is_inode : bool) n : Prop := {
  claimed_grows : grows s s';
  claimed_free : ~ taken s is_inode n;
  claimed_unused : coherent s -> unused s is_inode n;
  claimed_taken : taken s' is_inode n;
  claimed_error : cache_error s' = false;
  claimed_range : is_u32 n /\ n <> 0;
  claimed_block : is_inode = false -> data s' n = true /\ zeroed s' n;
  claimed_frame : frame (fun b => is_map s b \/ b = if is_inode then inode_block s n else n) s s' }.

Lemma zero_bytes_ok n : bytes_ok (replicate n (u8 0)).
Proof. apply Forall_forall. intros x Hx%elem_of_replicate. destruct Hx as [-> _]. apply u8_range. Qed.
Lemma splice_full l bs : zlen bs = zlen l -> splice l 0 bs = bs.
Proof.
  unfold splice, zlen. intros H. rewrite drop_ge by lia. cbn. by rewrite app_nil_r.
Qed.

(** The zeroing of the claimed block or inode. *)
Definition zero_claimed (G : Geometry) (is_inode : bool) (n : Z) : M unit :=
  if is_inode then
    let* p := inode n in
    match p with Some p => memset_at p 0 (inode_size G) | None => undefined end
  else let* p := block n in memset_at p 0 BLOCK_SIZE.

Lemma wp_tail {A} (m : M A) Q s : wp (bind m (fun a => ret a)) Q s -> wp m Q s.
Proof. unfold wp, bind, ret. by destruct (m s) as [[a s']|]. Qed.

Lemma wp_tail_unit (m : M unit) Q s : wp (m;; ret tt) Q s -> wp m Q s.
Proof. unfold wp, bind, ret. by destruct (m s) as [[[] s']|]. Qed.
Lemma wp_tail_bind {A} (m : M A) (k : M unit) Q s : wp (m;; k;; ret tt) Q s -> wp (m;; k) Q s.
Proof. unfold wp, bind, ret. destruct (m s) as [[a s']|]; [|done]. by destruct (k s') as [[[] s'']|]. Qed.

Lemma zero_claimed_spec s is_inode n : laid s -> taken s is_inode n -> is_u32 n ->
  (is_inode = false -> data s n = true) ->
  wp (zero_claimed (geo s) is_inode n) (fun _ s' =>
    frame (fun b => b = if is_inode then inode_block s n else n) s s' /\
    (is_inode = false -> cache_error s' = false -> zeroed s' n)) s.
Proof.
  intros Hl Ht Hn Hd. unfold is_u32 in Hn. unfold zero_claimed. destruct is_inode.
  - eapply wp_use; [apply inode_spec; [done|lia]|]. intros r s1 (R1 & Hsome & Hr).
    destruct (Hsome Ht) as [p ->]. destruct Hr as (Hp & _ & _). pose proof (reads_laid s s1 Hl R1) as L1.
    destruct (node_ptr_room s1 n p L1 Hp) as (? & ? & _). destruct Hp as (_ & Hb & _).
    rewrite (step_geo _ _ (reads_step _ _ R1)) in *.
    assert (128 <= inode_size (geo s) <= 256) by (destruct (ok_inode_size _ (laid_geometry s Hl)); lia).
    assert (valid s1 p (inode_size (geo s))) as Hv
      by (apply (in_block_valid s1 (inode_block s1 n)); [apply L1|done|lia..]).
    apply wp_tail, wp_memset; [done|lia|]. apply wp_ret. split; [|done].
    eapply frame_trans; [by apply reads_frame|].
    apply (frame_write_block _ s1 (inode_block s1 n)); [apply L1|done|by rewrite zlen_replicate by lia|apply zero_bytes_ok|].
    unfold inode_block, itable. by rewrite (reads_desc _ _ R1), (step_geo _ _ (reads_step _ _ R1)).
  - specialize (Hd eq_refl).
    eapply wp_use; [apply block_spec; [apply Hl|by apply laid_blocks|done]|].
    intros p s1 (R1 & B1 & Z1 & F1). pose proof (reads_laid s s1 Hl R1) as L1.
    assert (valid s1 p 1024) as Hv by (apply (in_block_valid s1 n); [apply L1|done|lia..]).
    apply wp_tail, wp_memset; [done|unfold BLOCK_SIZE; lia|]. change BLOCK_SIZE with 1024. apply wp_ret. split.
    + eapply frame_trans; [by apply reads_frame|].
      by apply (frame_write_block _ s1 n); [apply L1| | |apply zero_bytes_ok|].
    + intros _ He. destruct B1 as [(j & Hp & Hj)|(Hp & He1 & _)].
      2: { assert (cache_error (write s1 p (replicate (Z.to_nat 1024) (u8 0))) = cache_error s1) as E
             by (unfold write; by destruct p.1). congruence. }
      exists j. split.
      * assert (map names (cache (write s1 p (replicate (Z.to_nat 1024) (u8 0)))) = map names (cache s1)) as En
          by (unfold write; rewrite Hp; cbn; apply map_names_alter).
        by rewrite (find_slot_names _ _ n En).
      * rewrite <- Hp. rewrite bytes_of_write by done. rewrite Z1. apply splice_full.
        unfold valid in Hv. assert (zlen (bytes_of s1 p.1) = 1024) as ->; [|done].
        apply (in_block_size s1 n); [apply L1|]. left; eauto.
Qed.

Lemma claim_spec s is_inode g p i : laid s -> 0 <= g < groups (geo s) ->
  in_block s (map_block s is_inode g) p -> p.2 = 0 -> fresh s p -> 0 <= i < map_limit (geo s) is_inode g ->
  vbit s p i = false ->
  wp (claim is_inode g p i) (fun n s' => grows s s' /\ (n <> 0 -> claimed s s' is_inode n)) s.
Proof.
  intros Hl Hg Hb Hz Hf Hi Hbit. pose proof (map_limit_range s is_inode g Hl Hg) as Hlim.
  unfold claim. apply wp_gets. destruct (counters is_inode g) as [sc gc] eqn:Ec.
  assert (sc = (counters is_inode g).1) as Esc by (by rewrite Ec).
  assert (gc = (counters is_inode g).2) as Egc by (by rewrite Ec).
  assert (u32 (if is_inode then g * inodes_per_group (geo s) + i + 1 else group_start (geo s) g + i) = number (geo s) is_inode g i) as En.
  { rewrite <- (u32_small _ (number_u32 s is_inode g i Hl Hg Hi)). unfold number. destruct is_inode; [done|].
    by rewrite group_start_eq by (done || apply laid_geometry, Hl). }
  rewrite En. pose proof (number_u32 s is_inode g i Hl Hg Hi) as Hnu.
  pose proof (taken_bit s is_inode g i Hl Hg Hi) as Htk.
  assert (number (geo s) is_inode g i <> 0) as Hn0.
  { destruct is_inode; [destruct (number_inode _ g i (laid_geometry s Hl) Hg Hi)
      |destruct (number_block _ g i (laid_geometry s Hl) Hg Hi)]; lia. }
  set (n := number (geo s) is_inode g i) in *.
  assert (forall bad : bool, (is_inode = false -> bad = negb (data s n)) ->
    wp (if bad then ret 0 else
        let* total := get32 sc in let* e := gets cache_error in
        if (total =? 0) || e then ret 0
        else setbit p i true;; put32 sc (u32 (total - 1));;
             (let* c := get16 gc in put16 gc (u32 (c - 1)));;
             zero_claimed (geo s) is_inode n;;
             modify (fun s => if is_inode then set_hints (hint_block s) g s else set_hints g (hint_inode s) s);;
             let* e := gets cache_error in ret (if e then 0 else n))
       (fun n s' => grows s s' /\ (n <> 0 -> claimed s s' is_inode n)) s) as Hrest.
  2: { destruct is_inode; [by apply wp_bind_ret, (Hrest false)|].
       apply wp_assoc, data_block_spec; [done|unfold is_u32 in Hnu; lia|]. by apply wp_bind_ret, (Hrest (negb (data s n))). }
  intros bad Hbad. destruct bad; [apply wp_ret; split; [apply grows_refl, Hl|done]|].
  assert (valid s sc 4) as Hsc by (rewrite Esc; destruct is_inode; apply valid_super; apply Hl || cbn; lia).
  apply wp_get32; [apply Hl|done|]. apply wp_gets.
  destruct ((v32 s sc =? 0) || cache_error s) eqn:He; [apply wp_ret; split; [apply grows_refl, Hl|done]|].
  apply orb_false_iff in He as [_ He].
  assert (p.1 <> RFailed) as HF by (destruct Hb as [(j & -> & _)|(_ & ? & _)]; congruence).
  apply (wp_setbit s (map_block s is_inode g)); [apply Hl|done|done|lia|].
  set (s1 := after_setbit s p i true).
  assert (frame (fun b => b = map_block s is_inode g) s s1) as F1 by (by apply (setbit_frame _ s (map_block s is_inode g)); [apply Hl| | |lia|]).
  assert (forall b j, is_map s b -> 0 <= j < 8192 -> map_bit s b j = true -> map_bit s1 b j = true) as Hgrow1.
  { intros b j _ Hj Hbj. unfold s1. rewrite (setbit_map_bit s (map_block s is_inode g)); [|apply Hl|done..|lia|done].
    by destruct ((b =? map_block s is_inode g) && (j =? i)). }
  rewrite Esc, Egc. assert (laid s1) as L1 by (by apply (step_laid s); [|apply F1]).
  assert (geo s1 = geo s) as G1 by apply (step_geo _ _ (frame_step _ _ _ F1)).
  apply (wp_counters (fun _ => False) s1 is_inode g (u32 (v32 s (counters is_inode g).1 - 1)) (fun c => u32 (c - 1)));
    [done|by rewrite G1|]. intros s2 F2 C2 E2.
  assert (step s s2) as T2 by (eapply step_trans; [apply F1|apply F2]).
  assert (laid s2) as L2 by (by apply (step_laid s)).
  assert (geo s2 = geo s) as G2 by apply (step_geo _ _ T2).
  assert (map_block s2 is_inode g = map_block s is_inode g) as M2.
  { destruct is_inode; cbn; [by apply step_imap|by apply step_bitmap]. }
  assert (taken s2 is_inode n) as T2n.
  { subst n. rewrite <- G2. apply taken_bit; [done|by rewrite G2|by rewrite G2|].
    rewrite M2. assert (map_bit s2 (map_block s is_inode g) i = map_bit s1 (map_block s is_inode g) i) as ->.
    { unfold map_bit, vbit, v8, bytes_of. cbn. by rewrite C2. }
    unfold s1. rewrite (setbit_map_bit s (map_block s is_inode g)); [|apply Hl|done..|lia|lia].
    rewrite !Z.eqb_refl. done. }
  assert (is_inode = false -> data s2 n = true) as D2.
  { intros Hd. rewrite (step_data s s2) by (done || (unfold is_u32 in Hnu; lia)).
    specialize (Hbad Hd). destruct (data s n); done. }
  assert (1 <= n <= inode_count (geo s) \/ is_inode = false) as Hnr.
  { destruct is_inode; [|by right]. left. destruct T2n as [Hr _]. by rewrite <- G2. }
  assert (inode_block s2 n = inode_block s n \/ is_inode = false) as Hib.
  { destruct Hnr as [Hr|]; [|by right]. left. unfold inode_block. rewrite G2, (step_itable s s2); [done|done|].
    by apply inode_group; [apply laid_geometry, Hl|]. }
  rewrite <- G2. eapply wp_use; [by apply zero_claimed_spec|].
  intros [] s3 (F3 & Z3). apply wp_modify, wp_gets. set (s4 := if is_inode then _ else _).
  assert (step s2 s3) as T3 by apply F3. assert (mem_ok s3) as M3 by apply T3.
  assert (frame (fun _ => False) s3 s4) as F4.
  { assert (is_u32 g) by (pose proof (laid_groups s Hl); unfold is_u32; lia).
    destruct (mem_hints s3 M3). unfold s4. destruct is_inode; by apply hints_frame. }
  assert (~ is_map s2 (if is_inode then inode_block s2 n else n)) as NM.
  { destruct is_inode; [apply inode_block_not_map; [done|apply T2n]|].
    apply data_not_map; [done|unfold is_u32 in Hnu; lia|by apply D2]. }
  assert (grows s s2) as GR2.
  { apply (grows_trans s s1); [split; [apply F1|split; [done|]]|].
    { intros _ b j _ Hj Hbj. unfold s1. rewrite (setbit_seen s (map_block s is_inode g)); [|apply Hl|done..|lia|done].
      by destruct ((b =? map_block s is_inode g) && (j =? i)). }
    by apply (frame_grows (fun _ => False)). }
  assert (grows s2 s4) as GR4.
  { apply (grows_trans s2 s3); [|by apply (frame_grows (fun _ => False))].
    eapply frame_grows; [exact F3|]. intros b ->. done. }
  assert (cache_error s4 = cache_error s3) as E4 by (by destruct is_inode).
  apply wp_ret. rewrite E4. split; [by apply (grows_trans s s2)|]. intros Hne.
  destruct (cache_error s3) eqn:E3; [done|].
  rewrite (vbit_map_bit s (map_block s is_inode g)) in Hbit by done.
  constructor.
  - by apply (grows_trans s s2).
  - intros Ht%Htk. congruence.
  - intros _. exists g, i. split; [done|]. split; [done|]. split; [done|].
    rewrite <- (vbit_seen s (map_block s is_inode g) p i) by done. by rewrite (vbit_map_bit s (map_block s is_inode g)).
  - destruct is_inode; [by apply (grows_live s2)|]. apply (grows_marked s2); [done| |done|done].
    apply (is_data_range (geo s2) (superblock s2) (descriptors s2)); [unfold is_u32 in Hnu; lia|by apply D2].
  - by rewrite E4.
  - done.
  - intros Hd. split; [|subst is_inode; by apply Z3].
    rewrite (step_data s2 s4); [by apply D2|done|unfold is_u32 in Hnu; lia|apply GR4].
  - apply (frame_trans _ s s1); [eapply frame_weaken; [|exact F1]; intros b ->; left; by apply map_block_is_map|].
    apply (frame_trans _ s1 s2); [eapply frame_weaken; [|exact F2]; done|].
    apply (frame_trans _ s2 s3); [eapply frame_weaken; [|exact F3]|eapply frame_weaken; [|exact F4]; done].
    intros b ->. right. destruct is_inode; [|done]. by destruct Hib.
Qed.

Lemma map_field_eq is_inode g : map_field is_inode g = padd (group_desc g) (if is_inode : bool then 4 else 0).
Proof. done. Qed.
Lemma map_field_value s is_inode g : field (descriptors s) g (if is_inode : bool then 4 else 0) = map_block s is_inode g.
Proof. by destruct is_inode. Qed.

(** [allocate]: nothing, or a number that was free. *)
Lemma allocate_from_spec n s is_inode k : laid s ->
  wp (allocate_from n is_inode k) (fun r s' => grows s s' /\ (r <> 0 -> claimed s s' is_inode r)) s.
Proof.
  intros Hl. revert k. induction n as [|n IH]; intros k; cbn [allocate_from].
  { apply wp_ret. split; [apply grows_refl, Hl|done]. }
  apply wp_gets, wp_gets. pose proof (laid_groups s Hl) as HGr.
  set (g := u32 _ mod groups (geo s)).
  assert (0 <= g < groups (geo s)) as Hg by (apply Z.mod_pos_bound; lia).
  apply wp_get16; [apply Hl|destruct is_inode; apply valid_desc; apply Hl || lia|].
  destruct (v16 s (counters is_inode g).2 =? 0); [apply IH|].
  rewrite map_field_eq. apply wp_desc; [done|done|destruct is_inode; lia|]. rewrite map_field_value.
  eapply wp_use; [apply block_spec; [apply Hl|by apply laid_blocks|by apply map_block_u32]|].
  intros p s1 (R1 & B1 & Z1 & F1). pose proof (reads_laid s s1 Hl R1) as L1.
  assert (geo s1 = geo s) as G1 by apply (step_geo _ _ (reads_step _ _ R1)).
  assert (map_block s1 is_inode g = map_block s is_inode g) as M1
    by (unfold map_block, imap, bitmap; by rewrite (reads_desc _ _ R1)).
  assert ((if is_inode then inodes_per_group (geo s) else group_size (geo s) g) = map_limit (geo s) is_inode g) as ->.
  { destruct is_inode; [done|]. apply group_size_eq; [apply laid_geometry, Hl|done]. }
  pose proof (map_limit_range s is_inode g Hl Hg) as Hlim. pose proof (ok_first_inode _ (laid_geometry s Hl)).
  set (start := if is_inode && (g =? 0) then first_inode (geo s) - 1 else 0).
  assert (0 <= start) as Hs0 by (unfold start; destruct (is_inode && (g =? 0)); lia).
  destruct (Z.le_gt_cases start (map_limit (geo s) is_inode g)) as [Hle|Hgt].
  2: { replace (Z.to_nat (map_limit (geo s) is_inode g - start)) with 0%nat by lia.
       apply wp_bind_ret, wp_ret. split; [by apply reads_grows|done]. }
  eapply wp_use; [apply (find_clear_spec _ s1 (map_block s is_inode g)); [apply L1|done|done|done|lia]|].
  intros r s' [-> Hr]. destruct r as [i|]; [|apply wp_ret; split; [by apply reads_grows|done]].
  destruct Hr as [Hi Hbit].
  eapply wp_mono; [apply (claim_spec s1 is_inode g p i); [done|by rewrite G1|by rewrite M1|done|done|rewrite G1; lia|done]|].
  intros m s2 [Hgr Hcl]. split; [eapply grows_trans; [by apply reads_grows|done]|]. intros Hm.
  destruct (Hcl Hm) as [C1 C2 C0 C3 C4 C5 C6 C7]. constructor; try done.
  - eapply grows_trans; [by apply reads_grows|done].
  - intros Ht. apply C2. destruct is_inode; [by apply (reads_live s)|by apply (reads_marked s)].
  - intros Hc. destruct (C0 (step_coherent _ _ (reads_step _ _ R1) Hc)) as (h & j & Hh & Hj & En & Eb).
    rewrite G1 in Hh, Hj, En. exists h, j. split; [done|]. split; [done|]. split; [done|].
    assert (map_block s1 is_inode h = map_block s is_inode h) as E1
      by (unfold map_block, imap, bitmap; by rewrite (reads_desc _ _ R1)).
    unfold seen_bit in *. by rewrite <- E1, <- (reads_view _ _ R1 Hc).
  - apply (frame_trans _ s s1); [by apply reads_frame|]. eapply frame_weaken; [|exact C7].
    intros b [Hb|Hb]; [left; by apply (step_is_map s s1 b (reads_step _ _ R1))|right]. destruct is_inode; [|done].
    rewrite Hb. unfold inode_block, itable. by rewrite (reads_desc _ _ R1), G1.
Qed.
Lemma allocate_spec s is_inode : laid s ->
  wp (allocate is_inode) (fun r s' => grows s s' /\ (r <> 0 -> claimed s s' is_inode r)) s.
Proof. intros Hl. unfold allocate. apply wp_gets. by apply allocate_from_spec. Qed.

(** [release]: only the maps and the counters change. *)
Lemma release_gen s is_inode g i n : laid s -> 0 <= g < groups (geo s) -> 0 <= i < map_limit (geo s) is_inode g ->
  n = number (geo s) is_inode g i ->
  wp (release n is_inode) (fun _ s' => frame (fun b => b = map_block s is_inode g) s s') s.
Proof.
  intros Hl Hg Hi ->. pose proof (laid_geometry s Hl) as HG. unfold release. apply wp_gets.
  pose proof (number_u32 s is_inode g i Hl Hg Hi) as Hnu. unfold is_u32 in Hnu.
  assert (exists n, number (geo s) is_inode g i = n /\ 1 <= n < 2 ^ 32 /\
    (n - 1) / (if is_inode then inodes_per_group (geo s) else blocks_per_group (geo s)) = g /\
    (if is_inode then (n - 1) mod inodes_per_group (geo s) else n - gstart (geo s) g) = i) as (n & -> & Hn & Eg & Ei).
  { destruct is_inode.
    - destruct (number_inode _ g i HG Hg Hi) as ([? ?] & E1 & E2). eexists. split; [done|]. split; [lia|done].
    - destruct (number_block _ g i HG Hg Hi) as ([? ?] & E1 & E2). eexists. split; [done|]. split; [lia|done]. }
  rewrite (u32_small (n - 1)) by (unfold is_u32; lia). rewrite Eg.
  pose proof (map_limit_range s is_inode g Hl Hg) as Hlim.
  assert ((if is_inode then (n - 1) mod (if is_inode then inodes_per_group (geo s) else blocks_per_group (geo s))
           else u32 (n - group_start (geo s) g)) = i) as ->.
  { destruct is_inode; [done|]. rewrite group_start_eq, Ei by done. apply u32_small. unfold is_u32. lia. }
  rewrite map_field_eq. apply wp_desc; [done|done|destruct is_inode; lia|]. rewrite map_field_value.
  eapply wp_use; [apply block_spec; [apply Hl|by apply laid_blocks|by apply map_block_u32]|].
  intros p s1 (R1 & B1 & Z1 & _). pose proof (reads_laid s s1 Hl R1) as L1.
  destruct (counters is_inode g) as [sc gc] eqn:Ec.
  assert (sc = (counters is_inode g).1) as -> by (by rewrite Ec).
  assert (gc = (counters is_inode g).2) as -> by (by rewrite Ec). clear Ec.
  apply (wp_setbit s1 (map_block s is_inode g)); [apply L1|done|done|lia|]. set (s2 := after_setbit s1 p i false).
  assert (frame (fun b => b = map_block s is_inode g) s1 s2) as F2
    by (apply (setbit_frame _ s1 (map_block s is_inode g)); [apply L1|done|done|lia|done]).
  assert (laid s2) as L2 by (by apply (step_laid s1); [|apply F2]).
  assert (groups (geo s2) = groups (geo s)) as G2
    by (rewrite (step_geo _ _ (frame_step _ _ _ F2)), (step_geo _ _ (reads_step _ _ R1)); done).
  apply wp_assoc, wp_get32; [apply L2|destruct is_inode; apply valid_super; apply L2 || cbn; lia|].
  apply wp_tail_bind.
  apply (wp_counters (fun b => b = map_block s is_inode g) s2 is_inode g _ (fun c => u32 (c + 1)));
    [done|by rewrite G2|]. intros s3 F3 _ _. apply wp_ret.
  apply (frame_trans _ s s1); [by apply reads_frame|]. by apply (frame_trans _ s1 s2).
Qed.

End Alloc.
#[export] Hint Resolve frame_refl : barnix.

Ltac ftrans :=
  match goal with
  | |- frame ?P ?a ?b => assumption
  | H : reads ?a ?b |- frame ?P ?a ?b => exact (reads_frame P a b H)
  | H : frame ?P ?a ?c |- frame ?P ?a ?b => apply (frame_trans P a c b); [exact H|ftrans]
  | H : reads ?a ?c |- frame ?P ?a ?b => apply (frame_trans P a c b); [exact (reads_frame P a c H)|ftrans]
  end.
