(* ===== verification/Ext2Create.v ===== *)
(** * Ext2 engine: specifications of insertion, creation and truncation *)
From Stdlib Require Import String.
From S2P Require Import Prelude CString Ext2Core Ext2Dir Ext2Ops Ext2Logic Ext2Frame Ext2Blocks.
From S2P Require Import Ext2Walk Ext2Alloc.

Section Create.
Context {D : Type} `{BD : BlockDevice D} {DL : DeviceLaws D}.
#[local] Abbreviation St := (Fs D).
#[local] Abbreviation M := (@M D).
Implicit Types (s : St) (p e : Ptr).

(** ** Writes through pointers into inodes, blocks and descriptors *)
Lemma node_frame (P : Z -> Prop) s n p k bs : laid s -> node_ptr s n p -> bytes_ok bs -> 0 <= k ->
  k + zlen bs <= 128 -> P (inode_block s n) -> frame P s (write s (padd p k) bs).
Proof.
  intros Hl Hp Hb Hk Hz HP. apply (frame_write_block P s (inode_block s n)); [apply Hl|apply Hp| |done|done].
  apply (node_valid s n); [done|done|lia|apply zlen_nonneg|done].
Qed.
Lemma wp_node_put32 {B} (P : Z -> Prop) s n p k v (f : unit -> M B) Q :
  laid s -> node_ptr s n p -> 0 <= k <= 124 -> P (inode_block s n) ->
  (forall s', s' = write s (padd p k) (le32_bytes v) -> frame P s s' -> wp (f tt) Q s') ->
  wp (bind (put32 (padd p k) v) f) Q s.
Proof.
  intros Hl Hp Hk HP H. apply wp_put32; [apply (node_valid s n); done || lia|]. apply H; [done|].
  apply (node_frame P s n); try done; [apply le32_bytes_ok|lia|change (zlen (le32_bytes v)) with 4; lia].
Qed.
Lemma wp_node_put16 {B} (P : Z -> Prop) s n p k v (f : unit -> M B) Q :
  laid s -> node_ptr s n p -> 0 <= k <= 126 -> P (inode_block s n) ->
  (forall s', s' = write s (padd p k) (le16_bytes v) -> frame P s s' -> wp (f tt) Q s') ->
  wp (bind (put16 (padd p k) v) f) Q s.
Proof.
  intros Hl Hp Hk HP H. apply wp_put16; [apply (node_valid s n); done || lia|]. apply H; [done|].
  apply (node_frame P s n); try done; [apply le16_bytes_ok|lia|change (zlen (le16_bytes v)) with 2; lia].
Qed.
Lemma wp_node_get32 {B} s n p k (f : Z -> M B) Q : laid s -> node_ptr s n p -> 0 <= k <= 124 ->
  wp (f (v32 s (padd p k))) Q s -> wp (bind (get32 (padd p k)) f) Q s.
Proof. intros Hl Hp Hk. apply wp_get32; [apply Hl|apply (node_valid s n); done || lia]. Qed.
Lemma wp_node_get16 {B} s n p k (f : Z -> M B) Q : laid s -> node_ptr s n p -> 0 <= k <= 126 ->
  wp (f (v16 s (padd p k))) Q s -> wp (bind (get16 (padd p k)) f) Q s.
Proof. intros Hl Hp Hk. apply wp_get16; [apply Hl|apply (node_valid s n); done || lia]. Qed.
Lemma frame_laid P s s' : laid s -> frame P s s' -> laid s'.
Proof. intros Hl [T _]. by apply (step_laid s). Qed.
Lemma frame_node_ptr P s s' n p : laid s -> frame P s s' -> node_ptr s n p -> node_ptr s' n p.
Proof. intros Hl [T _]. by apply step_node_ptr. Qed.
Lemma step_inode_block s s' n : laid s -> step s s' -> 1 <= n <= inode_count (geo s) -> inode_block s' n = inode_block s n.
Proof.
  intros Hl T Hn. destruct (inode_group _ (laid_geometry s Hl) n Hn) as [Hg _].
  unfold inode_block. by rewrite (step_geo _ _ T), (step_itable _ _ _ T).
Qed.

(** ** [entry_set] *)
(** A name an entry can hold. *)
Definition good_name (name : list Z) : Prop := bytes_ok name /\ 0 < strlen name < 256.
Lemma strlen_length name : strlen name <= zlen name.
Proof.
  induction name as [|c name IH]; cbn [strlen]; [done|]. rewrite zlen_cons. destruct (truth c); [lia|].
  pose proof (zlen_nonneg name). lia.
Qed.
Lemma valid_name_good name : bytes_ok name -> valid_name name = true -> good_name name /\ strlen name <= MAX_NAME.
Proof.
  unfold valid_name. intros Hb H. repeat (apply andb_true_iff in H as [H ?]). bool_to_prop. unfold MAX_NAME in *.
  split; [split; [done|lia]|lia].
Qed.

Lemma block_write (P : Z -> Prop) s b e k bs : laid s -> in_block s b e -> bytes_ok bs -> bs <> [] ->
  0 <= e.2 + k -> e.2 + k + zlen bs <= 1024 -> P b ->
  frame P s (write s (padd e k) bs) /\ in_block (write s (padd e k) bs) b e.
Proof.
  intros Hl Hb Hbs Hn Hk Hz HP. assert (frame P s (write s (padd e k) bs)) as F.
  { apply (frame_write_block P s b); [apply Hl|done| |done|done].
    apply (in_block_valid s b); [apply Hl|done|done|apply zlen_nonneg|done]. }
  split; [done|]. by apply (step_in_block s); [apply F|].
Qed.
Lemma block_valid s b e k n : laid s -> in_block s b e -> 0 <= e.2 + k -> 0 <= n -> e.2 + k + n <= 1024 -> valid s (padd e k) n.
Proof. intros Hl Hb ? ? ?. apply (in_block_valid s b); [apply Hl|done|done|done|done]. Qed.

Lemma v8_write_same s p v : valid s p 1 -> v8 (write s p [u8 v]) p = u8 v.
Proof.
  intros Hv. unfold v8. rewrite bytes_of_write by done. unfold valid in Hv.
  rewrite byte_splice_in by (rewrite ?zlen_single; lia). by rewrite Z.sub_diag.
Qed.
Lemma v8_write_out s p bs q : valid s p (zlen bs) -> bs <> [] -> 0 <= q.2 -> q.2 + 1 <= p.2 \/ p.2 + zlen bs <= q.2 ->
  v8 (write s p bs) q = v8 s q.
Proof.
  intros Hv Hb Hq Ho. assert (Decision (q.1 = p.1)) as [E|Hne] by (unfold Decision; repeat decide equality).
  - unfold v8. rewrite E, bytes_of_write by done. apply byte_splice_out; unfold valid in Hv; lia.
  - by apply v8_write_ne.
Qed.

Lemma entry_set_spec (P : Z -> Prop) s b e ino len name type : laid s -> in_block s b e -> good_name name -> P b ->
  0 <= e.2 -> 8 + strlen name <= len -> e.2 + len <= 1024 ->
  wp (entry_set e ino len name type) (fun _ s' => frame P s s') s.
Proof.
  intros Hl Hb [Hnb Hn] HP He Hlen Hend. unfold entry_set.
  assert (forall s', laid s' -> in_block s' b e -> forall k n, 0 <= k -> 0 <= n -> k + n <= len -> valid s' (padd e k) n) as V.
  { intros s' L' B' k n ? ? ?. apply (block_valid s' b); [done|done|lia..]. }
  rewrite <- (padd_0 e) at 1. apply wp_memset; [apply V; done || lia|lia|].
  destruct (block_write P s b e 0 (replicate (Z.to_nat len) (u8 0))) as [F1 B1]; try done.
  { apply zero_bytes_ok. } { destruct (Z.to_nat len) eqn:E; [lia|done]. } { lia. } { rewrite zlen_replicate; lia. }
  set (s1 := write _ _ _) in *. assert (laid s1) as L1 by (by apply (frame_laid P s)).
  rewrite <- (padd_0 e) at 1. apply wp_put32; [apply V; done || lia|].
  destruct (block_write P s1 b e 0 (le32_bytes ino)) as [F2 B2]; try done.
  { apply le32_bytes_ok. } { lia. } { change (zlen (le32_bytes ino)) with 4. lia. }
  set (s2 := write s1 _ _) in *. assert (laid s2) as L2 by (by apply (frame_laid P s1)).
  apply wp_put16; [apply V; done || lia|].
  destruct (block_write P s2 b e 4 (le16_bytes len)) as [F3 B3]; try done.
  { apply le16_bytes_ok. } { lia. } { change (zlen (le16_bytes len)) with 2. lia. }
  set (s3 := write s2 _ _) in *. assert (laid s3) as L3 by (by apply (frame_laid P s2)).
  apply wp_store8; [apply V; done || lia|].
  destruct (block_write P s3 b e 6 [u8 (strlen name)]) as [F4 B4]; try done.
  { apply Forall_singleton, u8_range. } { lia. } { change (zlen [_]) with 1. lia. }
  set (s4 := write s3 _ _) in *. assert (laid s4) as L4 by (by apply (frame_laid P s3)).
  apply wp_assoc, wp_gets. set (t := if filetype (geo s4) then _ else _).
  apply wp_store8; [apply V; done || lia|].
  destruct (block_write P s4 b e 7 [u8 t]) as [F5 B5]; try done.
  { apply Forall_singleton, u8_range. } { lia. } { change (zlen [_]) with 1. lia. }
  set (s5 := write s4 _ _) in *. assert (laid s5) as L5 by (by apply (frame_laid P s4)).
  apply wp_load8; [apply V; done || lia|].
  assert (v8 s5 (padd e 6) = strlen name) as ->.
  { unfold s5. rewrite v8_write_out; [|apply (V s4 L4 B4 7 1); lia|done|cbn [padd fst snd]; lia|left; cbn [padd fst snd]; lia].
    unfold s4. rewrite v8_write_same by (apply V; done || lia). apply u8_small. unfold is_byte. lia. }
  pose proof (strlen_length name) as Hsl.
  assert (zlen (take (Z.to_nat (strlen name)) name) = strlen name) as Hz.
  { unfold zlen in *. rewrite length_take. lia. }
  assert (take (Z.to_nat (strlen name)) name <> []) as Hne by (intros E; rewrite E in Hz; unfold zlen in Hz; cbn in Hz; lia).
  apply wp_tail, wp_store; [rewrite Hz; apply V; done || lia|done|]. apply wp_ret.
  destruct (block_write P s5 b e 8 (take (Z.to_nat (strlen name)) name)) as [F6 _]; try done.
  { by apply Forall_take. } { lia. } { rewrite Hz. lia. }
  ftrans.
Qed.

(** ** [insert] *)
Lemma record_size_range n : 0 <= n -> 8 + n <= record_size n <= 8 + n + 3 /\ record_size n mod 4 = 0.
Proof.
  intros Hn. unfold record_size. change (Z.lnot 3) with (Z.lnot (Z.ones 2)). rewrite <- Z.ldiff_land, Z.ldiff_ones_r by lia.
  rewrite shr, shl by lia. change (2 ^ 2) with 4. dm_lia.
Qed.

Lemma insert_grow_spec s n node count name ino type : held s n node -> 0 <= count <= 12 -> good_name name ->
  8 + strlen name <= 1024 ->
  wp (insert_grow node count name ino type) (fun _ s' => grows s s') s.
Proof.
  intros (Hl & Hp & _) Hc Hname Hlen. unfold insert_grow. destruct (Z.eqb_spec count 12); [apply wp_ret, grows_refl, Hl|].
  eapply wp_use; [by apply allocate_spec|]. intros b s1 [G1 C1].
  destruct (Z.eqb_spec b 0); [by apply wp_ret|]. destruct (C1 ltac:(done)) as [_ _ _ _ _ [Hb _] Hblk _].
  destruct (Hblk eq_refl) as [Hd _]. unfold is_u32 in Hb.
  assert (laid s1) as L1 by (by apply (step_laid s); [|apply G1]).
  assert (node_ptr s1 n node) as P1 by (apply (step_node_ptr s); [done|apply G1|done]).
  set (P := fun c => c = inode_block s1 n \/ c = b).
  assert (forall c, P c -> ~ is_map s1 c) as HP.
  { intros c [->| ->]; [apply inode_block_not_map; [done|apply P1]|apply data_not_map; [done|lia|done]]. }
  assert (forall s', frame P s1 s' -> laid s' /\ node_ptr s' n node /\ P (inode_block s' n)) as Hkeep.
  { intros s' F. split; [by apply (frame_laid P s1)|]. split; [by apply (frame_node_ptr P s1)|].
    left. apply step_inode_block; [done|apply F|apply P1]. }
  apply (wp_node_put32 P s1 n); [done|done|lia|by left|]. intros s2 _ F2.
  destruct (Hkeep s2 F2) as (L2 & P2 & PP2).
  apply (wp_node_put32 P s2 n); [done|done|lia|done|]. intros s3 _ F3'.
  assert (frame P s1 s3) as F3 by (by eapply frame_trans). destruct (Hkeep s3 F3) as (L3 & P3 & PP3).
  apply wp_assoc, (wp_node_get32 s3 n); [done|done|lia|].
  apply (wp_node_put32 P s3 n); [done|done|lia|done|]. intros s4 _ F4'.
  assert (frame P s1 s4) as F4 by (by eapply frame_trans). destruct (Hkeep s4 F4) as (L4 & _ & _).
  apply wp_assoc. eapply wp_use; [apply block_spec; [apply L4|by apply laid_blocks|done]|].
  intros p s5 (R5 & B5 & Z5 & _). pose proof (reads_laid s4 s5 L4 R5) as L5.
  eapply wp_use; [apply (entry_set_spec P s5 b); [done|done|done|by right|lia|unfold BLOCK_SIZE; lia|unfold BLOCK_SIZE; lia]|].
  intros u s6 F6. cbv beta in F6. apply wp_ret. apply (grows_trans s s1); [done|]. apply (frame_grows P); [|done].
  apply (frame_trans P s1 s4); [done|]. apply (frame_trans P s4 s5); [by apply reads_frame|done].
Qed.

Lemma insert_body_spec s b e name ino type a : laid s -> shown s b e -> good_name name -> strlen name <= MAX_NAME ->
  wp (insert_body name ino type (record_size (strlen name)) a e) (fun r s' =>
    match r with inl _ => s' = s | inr _ => grows s s' end) s.
Proof.
  intros Hl Hs Hname Hmax. unfold insert_body. pose proof Hs as (Hb & Hf & Hb0 & Hd & [He [Hlen Hl4] Hn Hi]).
  apply wp_get16; [apply Hl|apply (shown_head s b); done || lia|]. fold (rec_len s e).
  assert (valid s e 4) as Hv by (rewrite <- (padd_0 e); apply (shown_head s b); done || lia).
  apply wp_get32; [apply Hl|done|].
  assert (forall used, used = 0 \/ used = record_size (rec_names s e) ->
    wp (if record_size (strlen name) <=? u32 (rec_len s e - used) then
          (if used =? 0 then ret tt else put16 (padd e 4) used);;
          entry_set (padd e used) ino (rec_len s e - used) name type;; ret (inr 0)
        else ret (inl tt))
      (fun (r : unit + Z) s' => match r with inl _ => s' = s | inr _ => grows s s' end) s) as Hrest.
  2: { destruct (v32 s e =? 0); [apply wp_bind_ret, Hrest; by left|].
       apply wp_assoc, wp_load8; [apply (shown_head s b); done || lia|]. fold (rec_names s e).
       apply wp_bind_ret, Hrest. by right. }
  intros used Hused.
  assert (0 <= used <= rec_len s e /\ used mod 4 = 0) as [Hu Hu4].
  { destruct Hused as [->| ->]; [split; [lia|done]|]. destruct (record_size_range (rec_names s e)); [lia|].
    split; [dm_lia|done]. }
  rewrite u32_small by (unfold is_u32; lia).
  destruct (Z.leb_spec (record_size (strlen name)) (rec_len s e - used)); [|by apply wp_ret].
  assert (~ is_map s b) as Hnm by (by apply data_not_map).
  destruct (record_size_range (strlen name)) as [Hr _]; [destruct Hname; lia|].
  assert (forall s', frame (fun c => c = b) s s' -> in_block s' b e ->
    wp (entry_set (padd e used) ino (rec_len s e - used) name type;; ret (inr 0))
       (fun (r : unit + Z) s' => match r with inl _ => s' = s | inr _ => grows s s' end) s') as Hset.
  { intros s' F B. eapply wp_use; [apply (entry_set_spec (fun c => c = b) s' b); try done; cbn [padd fst snd]; try lia|].
    - by apply (frame_laid (fun c => c = b) s).
    - intros u s2 F2. cbv beta in F2. apply wp_ret. apply (frame_grows (fun c => c = b)); [by eapply frame_trans|]. by intros c ->. }
  destruct (Z.eqb_spec used 0); [apply wp_bind_ret, Hset; [apply frame_refl, Hl|done]|].
  apply wp_put16; [apply (shown_head s b); done || lia|].
  destruct (block_write (fun c => c = b) s b e 4 (le16_bytes used)) as [F B]; try done.
  - apply le16_bytes_ok.
  - lia.
  - change (zlen (le16_bytes used)) with 2. lia.
  - by apply Hset.
Qed.

Lemma insert_spec s dir name ino type : laid s -> 0 <= dir -> good_name name -> strlen name <= MAX_NAME ->
  wp (insert dir name ino type) (fun _ s' => grows s s') s.
Proof.
  intros Hl Hd Hname Hmax. unfold insert. apply supported_inode_spec; [done|done|by right|..].
  { intros r s1 R1 _. by apply wp_ret, reads_grows. }
  intros p s1 R1 _ Hh Hn. pose proof (reads_laid s s1 Hl R1) as L1.
  eapply wp_use; [by apply lookup_spec|]. intros r s2 (R2 & _ & _).
  destruct (negb (r.1 =? -1)); [apply wp_ret, reads_grows; rtrans|].
  pose proof (reads_held s1 s2 dir p R2 Hh) as H2. pose proof (reads_node_ok s1 s2 dir p DIR_MODE R2 Hh Hn) as N2.
  pose proof (node_size _ _ _ N2) as Hsz.
  change (DIR_MODE =? FILE_MODE) with false in Hsz. cbv iota in Hsz. destruct Hsz as (_ & c & Ec & Hc & _).
  unfold dir_count. apply wp_assoc, (wp_node s2 dir); [done|lia|]. apply wp_bind_ret. rewrite Ec.
  change BLOCK_SIZE with 1024. rewrite Z.div_mul by lia.
  eapply wp_use; [apply (walk_from_spec (fun _ => -1) _ s2 (fun _ _ => True) (fun _ s' => grows s s')) with (n := dir) (c := c)|].
  - done.
  - intros _ s' R _. apply reads_grows. rtrans.
  - intros a s' b e R L _ Hs. eapply wp_mono; [by apply (insert_body_spec s' b)|].
    intros [x|x] s3 H3; [subst s3; split; [by apply reads_refl, L|done]|].
    apply (grows_trans s s'); [apply reads_grows; rtrans|done].
  - done.
  - done.
  - done.
  - by apply reads_refl, H2.
  - done.
  - intros s' R. by apply wp_ret.
  - lia.
  - lia.
  - intros [x|x] s3 H3; [|by apply wp_ret]. destruct H3 as [R3 _].
    eapply wp_mono; [apply (insert_grow_spec s3 dir); [by apply (reads_held s2)|lia|done|unfold MAX_NAME in *; lia]|].
    intros r' s4 G4. apply (grows_trans s s3); [apply reads_grows; rtrans|done].
Qed.

(** ** [create] *)
Lemma live_range s n : live s n -> 1 <= n <= inode_count (geo s).
Proof. by intros [H _]. Qed.
Lemma inode_number s n : laid s -> 1 <= n <= inode_count (geo s) -> is_u32 n.
Proof. intros Hl Hn. pose proof (inode_count_range _ (laid_geometry s Hl)). unfold is_u32. lia. Qed.
Lemma grows_node_ptr s s' n p : laid s -> grows s s' -> node_ptr s n p -> node_ptr s' n p.
Proof. intros Hl [T _]. by apply step_node_ptr. Qed.
Lemma grows_laid s s' : laid s -> grows s s' -> laid s'.
Proof. intros Hl [T _]. by apply (step_laid s). Qed.

(** [inode] of a live inode. *)
Lemma wp_live_inode {B} s n (f : option Ptr -> M B) Q : laid s -> live s n ->
  (forall p s', reads s s' -> node_ptr s' n p -> fresh s' p -> wp (f (Some p)) Q s') -> wp (bind (inode n) f) Q s.
Proof.
  intros Hl Hn H. pose proof (live_range s n Hn). eapply wp_use; [apply inode_spec; [done|lia]|].
  intros r s1 (R1 & Hsome & Hr). destruct (Hsome Hn) as [p ->]. destruct Hr as (Hp & _ & Hf). by apply H.
Qed.

(** The directory count of the group of an inode. *)
Lemma wp_dirs {B} s n (f : Z -> Z) (k : M B) Q : laid s -> 1 <= n <= inode_count (geo s) ->
  (forall s', frame (fun _ => False) s s' -> wp k Q s') ->
  wp ((let* G := gets geo in
       let d := group_desc (u32 (n - 1) / inodes_per_group G) in
       let* dirs := get16 (padd d 16) in put16 (padd d 16) (f dirs));; k) Q s.
Proof.
  intros Hl Hn H. destruct (inode_group _ (laid_geometry s Hl) n Hn) as [Hg _]. pose proof (laid_groups s Hl).
  apply wp_assoc, wp_gets. rewrite u32_small by (pose proof (inode_number s n Hl Hn); unfold is_u32 in *; lia).
  assert (valid s (padd (group_desc ((n - 1) / inodes_per_group (geo s))) 16) 2) as Hv by (apply valid_desc; apply Hl || lia).
  apply wp_assoc, wp_get16; [apply Hl|done|]. apply wp_put16; [done|]. apply H. apply frame_write_region; [|by right].
  apply step_write_desc; [apply Hl|apply le16_bytes_ok|done|lia|lia|change (zlen (le16_bytes _)) with 2; lia].
Qed.

Lemma create_directory_spec s n node : laid s -> node_ptr s n node -> live s (cwd s) ->
  wp (create_directory node n) (fun _ s' => grows s s') s.
Proof.
  intros Hl Hp Hcwd. unfold create_directory. eapply wp_use; [by apply allocate_spec|]. intros b s1 [G1 C1].
  destruct (Z.eqb_spec b 0); [by apply wp_ret|]. destruct (C1 ltac:(done)) as [_ _ _ _ _ [Hb _] Hblk _].
  destruct (Hblk eq_refl) as [Hd _]. unfold is_u32 in Hb.
  pose proof (grows_laid s s1 Hl G1) as L1. pose proof (grows_node_ptr s s1 n node Hl G1 Hp) as P1.
  assert (live s1 (cwd s1)) as Lv1 by (rewrite (step_cwd _ _ (proj1 G1)); by apply (grows_live s)).
  set (P := fun c => c = inode_block s1 n \/ c = b).
  assert (forall c, P c -> ~ is_map s1 c) as HP.
  { intros c [->| ->]; [apply inode_block_not_map; [done|apply P1]|apply data_not_map; [done|lia|done]]. }
  assert (forall s', frame P s1 s' -> laid s' /\ node_ptr s' n node /\ P (inode_block s' n)) as Hkeep.
  { intros s' F. split; [by apply (frame_laid P s1)|]. split; [by apply (frame_node_ptr P s1)|].
    left. apply step_inode_block; [done|apply F|apply P1]. }
  apply (wp_node_put32 P s1 n); [done|done|lia|by left|]. intros s2 _ F2. destruct (Hkeep s2 F2) as (L2 & P2 & PP2).
  apply (wp_node_put32 P s2 n); [done|done|lia|done|]. intros s3 _ F3'.
  assert (frame P s1 s3) as F3 by ftrans. destruct (Hkeep s3 F3) as (L3 & P3 & PP3).
  apply (wp_node_put32 P s3 n); [done|done|lia|done|]. intros s4 _ F4'.
  assert (frame P s1 s4) as F4 by ftrans. destruct (Hkeep s4 F4) as (L4 & P4 & _).
  apply wp_assoc. eapply wp_use; [apply block_spec; [apply L4|by apply laid_blocks|done]|].
  intros p s5 (R5 & B5 & Z5 & _). pose proof (reads_laid s4 s5 L4 R5) as L5.
  assert (good_name dot) as Hdot by (split; [apply Forall_singleton; unfold is_byte; lia|cbn; lia]).
  assert (good_name dotdot) as Hdd by (split; [repeat constructor; unfold is_byte; lia|cbn; lia]).
  eapply wp_use; [apply (entry_set_spec P s5 b); [done|done|done|by right|lia|cbn; lia|lia]|].
  intros u s6 F6. cbv beta in F6. pose proof (frame_laid P s5 s6 L5 F6) as L6.
  apply wp_assoc. eapply wp_use; [apply block_spec; [apply L6|by apply laid_blocks|done]|].
  intros q s7 (R7 & B7 & Z7 & _). pose proof (reads_laid s6 s7 L6 R7) as L7. apply wp_assoc, wp_gets.
  eapply wp_use; [apply (entry_set_spec P s7 b (padd q 12)); [done|done|done|by right|..]|].
  { cbn [padd fst snd]. lia. } { change (strlen dotdot) with 2. unfold BLOCK_SIZE. lia. } { cbn [padd fst snd]. unfold BLOCK_SIZE. lia. }
  intros u' s8 F8'. cbv beta in F8'. assert (frame P s1 s8) as F8 by ftrans.
  assert (grows s s8) as G8 by (apply (grows_trans s s1); [done|by apply (frame_grows P)]).
  destruct (Hkeep s8 F8) as (L8 & P8 & _). apply wp_gets.
  assert (live s8 (cwd s8)) as Lv8 by (rewrite (step_cwd _ _ (proj1 G8)); by apply (grows_live s)).
  apply wp_live_inode; [done|done|]. intros parent s9 R9 P9 _. pose proof (reads_laid s8 s9 L8 R9) as L9.
  assert (grows s s9) as G9 by (apply (grows_trans s s8); [done|by apply reads_grows]).
  apply (wp_node_get16 s9 (cwd s8)); [done|done|lia|].
  destruct (v16 s9 (padd parent 26) =? 65535); [by apply wp_ret|].
  apply (wp_node_put16 (fun c => c = inode_block s9 (cwd s8)) s9 (cwd s8)); [done|done|lia|done|].
  intros s10 _ F10. pose proof (frame_laid _ s9 s10 L9 F10) as L10.
  apply wp_dirs; [done| |].
  { rewrite (step_geo _ _ (frame_step _ _ _ F10)), (step_geo _ _ (proj1 G9)). apply Hp. }
  intros s11 F11. apply wp_ret. apply (grows_trans s s9); [done|]. apply (grows_trans s9 s10).
  - apply (frame_grows _ s9 s10 F10). intros c ->. apply inode_block_not_map; [done|apply P9].
  - by apply (frame_grows (fun _ => False)).
Qed.

Lemma wp_time {B} s (f : Z -> M B) Q : laid s -> (forall v, wp (f v) Q s) -> wp (bind (get32 (padd SB 48)) f) Q s.
Proof. intros Hl H. apply wp_get32; [apply Hl|apply valid_super; apply Hl || lia|]. apply H. Qed.

Lemma create_spec s name type : laid s -> bytes_ok name -> wp (create name type) (fun _ s' => grows s s') s.
Proof.
  intros Hl Hb. unfold create. destruct (valid_name name) eqn:Hv; cbn [negb]; [|by apply wp_ret, grows_refl, Hl].
  destruct (valid_name_good name Hb Hv) as [Hname Hmax]. apply wp_gets.
  assert (is_u32 (cwd s)) as Hc by apply Hl. unfold is_u32 in Hc.
  eapply wp_use; [apply lookup_spec; [done|lia]|]. intros r s1 (R1 & Hlive & _).
  destruct (Z.eqb_spec r.1 (-1)) as [Er|]; cbn [negb]; [|by apply wp_ret, reads_grows].
  specialize (Hlive ltac:(lia)). pose proof (reads_laid s s1 Hl R1) as L1.
  eapply wp_use; [by apply allocate_spec|]. intros n s2 [G2 C2].
  assert (grows s s2) as GS2 by (apply (grows_trans s s1); [by apply reads_grows|done]).
  destruct (Z.eqb_spec n 0); [by apply wp_ret|]. destruct (C2 ltac:(done)) as [_ _ _ Htaken _ _ _ _]. cbn in Htaken.
  pose proof (grows_laid s1 s2 L1 G2) as L2. pose proof (grows_live s1 s2 (cwd s) L1 G2 Hlive) as Lv2.
  apply wp_live_inode; [done|done|]. intros node s3 R3 P3 _. pose proof (reads_laid s2 s3 L2 R3) as L3.
  set (P := fun c => c = inode_block s3 n).
  assert (forall s', frame P s3 s' -> laid s' /\ node_ptr s' n node /\ P (inode_block s' n)) as Hkeep.
  { intros s' F. split; [by apply (frame_laid P s3)|]. split; [by apply (frame_node_ptr P s3)|].
    apply step_inode_block; [done|apply F|apply P3]. }
  rewrite <- (padd_0 node) at 1. apply (wp_node_put16 P s3 n); [done|done|lia|done|]. intros s4 _ F4.
  destruct (Hkeep s4 F4) as (L4 & P4 & PP4). apply (wp_node_put16 P s4 n); [done|done|lia|done|]. intros s5 _ F5'.
  assert (frame P s3 s5) as F5 by ftrans. destruct (Hkeep s5 F5) as (L5 & P5 & PP5).
  apply wp_assoc, wp_time; [done|]. intros v1. apply (wp_node_put32 P s5 n); [done|done|lia|done|]. intros s6 _ F6'.
  assert (frame P s3 s6) as F6 by ftrans. destruct (Hkeep s6 F6) as (L6 & P6 & PP6).
  apply wp_assoc, wp_time; [done|]. intros v2. apply (wp_node_put32 P s6 n); [done|done|lia|done|]. intros s7 _ F7'.
  assert (frame P s3 s7) as F7 by ftrans. destruct (Hkeep s7 F7) as (L7 & P7 & PP7).
  apply wp_assoc, wp_time; [done|]. intros v3. apply (wp_node_put32 P s7 n); [done|done|lia|done|]. intros s8 _ F8'.
  assert (frame P s3 s8) as F8 by ftrans. destruct (Hkeep s8 F8) as (L8 & P8 & _).
  assert (grows s s8) as G8.
  { apply (grows_trans s s2); [done|]. apply (grows_trans s2 s3); [by apply reads_grows|].
    apply (frame_grows P); [done|]. intros c ->. apply inode_block_not_map; [done|apply P3]. }
  assert (forall s', grows s s' -> wp (let* dir := gets cwd in insert dir name n type) (fun _ s2 => grows s s2) s') as Hins.
  { intros s' G'. apply wp_gets. pose proof (grows_laid s s' Hl G') as L'. rewrite (step_cwd _ _ (proj1 G')).
    eapply wp_mono; [apply insert_spec; [done|lia|done|done]|]. intros ? s'' H. by apply (grows_trans s s'). }
  destruct (type =? DIR_MODE); [|by apply wp_bind_ret, Hins].
  assert (live s8 (cwd s8)) as Lv8.
  { rewrite (step_cwd _ _ (proj1 G8)). apply (grows_live s1); [done| |done].
    apply (grows_trans s1 s2); [done|]. apply (grows_trans s2 s3); [by apply reads_grows|].
    apply (frame_grows P); [done|]. intros c ->. apply inode_block_not_map; [done|apply P3]. }
  eapply wp_use; [by apply create_directory_spec|]. intros ok s9 G9. cbv beta in G9.
  assert (grows s s9) as GS9 by (by apply (grows_trans s s8)).
  destruct ok; cbn [negb]; [by apply Hins|by apply wp_ret].
Qed.

End Create.
