(* ===== verification/Ext2Files.v ===== *)
(** * Ext2 engine: specifications of truncation, writing and removal

    The pointers of a supported file stay data blocks while it is truncated,
    so only data blocks are released; the writes of a file never leave its
    blocks. *)
From Stdlib Require Import String.
From S2P Require Import Prelude CString Ext2Core Ext2Dir Ext2Ops Ext2Logic Ext2Frame Ext2Blocks.
From S2P Require Import Ext2Walk Ext2Alloc Ext2Create.

Section Files.
Context {D : Type} `{BD : BlockDevice D} {DL : DeviceLaws D}.
#[local] Abbreviation St := (Fs D).
#[local] Abbreviation M := (@M D).
Implicit Types (s : St) (p q e : Ptr).

(** ** Pointers that are zero or data blocks *)
Definition null_or_data s b : Prop := b = 0 \/ data s b = true.
Record ptrs_ok s p : Prop := {
  ptrs_settled : settled s p;
  ptrs_indirect : null_or_data s (indirect s p);
  ptrs_all : forall i, 0 <= i < 268 -> null_or_data s (fptr s p i) }.

Lemma node_ok_ptrs s n p type : held s n p -> mode_type type -> node_ok s p type -> ptrs_ok s p.
Proof.
  intros Hh Ht Hn. pose proof (node_file _ _ _ Hn) as Hf.
  pose proof (file_blocks _ _ _ Hf) as Hall. rewrite Forall_forall in Hall.
  assert (forall b, b ∈ pointers s p (ptr_limit type) -> data s b = true) as Hd by (intros b Hb; apply Hall, Hb).
  constructor; [apply Hf| |].
  - destruct (Z.eq_dec (indirect s p) 0) as [|E]; [by left|right]. apply Hd. unfold pointers. apply elem_of_app. left.
    unfold nonzero. cbn. rewrite truth_nonzero by done. by apply list_elem_of_singleton.
  - intros i Hi. destruct (Z.eq_dec (fptr s p i) 0) as [|E]; [by left|right].
    assert (0 <= i < ptr_limit type) as Hil.
    { split; [lia|]. unfold ptr_limit. pose proof (node_size _ _ _ Hn) as Hs. destruct (type =? FILE_MODE); [lia|].
      destruct Hs as (Hind & _). destruct (Z.ltb_spec i 12); [done|]. exfalso. apply E. unfold fptr.
      zfalse (i <? 12). by rewrite Hind. }
    apply Hd. unfold pointers. apply elem_of_app. right. unfold direct_ptrs, nonzero.
    apply list_elem_of_In, filter_In. split; [|by apply truth_nonzero]. apply in_map, list_elem_of_In, elem_of_seqZ. lia.
Qed.

(** The pointers after a step: unchanged or cleared. *)
Record shrinks s s' p : Prop := {
  shrinks_settled : settled s' p;
  shrinks_indirect : indirect s' p = indirect s p \/ indirect s' p = 0;
  shrinks_ptr : forall i, 0 <= i < 268 -> fptr s' p i = fptr s p i \/ fptr s' p i = 0 }.

Lemma indirect_range s n p : held s n p -> is_u32 (indirect s p).
Proof. intros H. apply v32_range, H. Qed.
Lemma shrinks_ok s s' n p : held s n p -> step s s' -> shrinks s s' p -> ptrs_ok s p -> ptrs_ok s' p.
Proof.
  intros Hh T [Hs Hi Hp] [_ Pi Pp].
  assert (forall b, is_u32 b -> null_or_data s b -> null_or_data s' b) as Hnd.
  { intros b Hb [->|Hd]; [by left|right]. rewrite (step_data s s'); [done|apply Hh|unfold is_u32 in Hb; lia|done]. }
  constructor; [done| |].
  - destruct Hi as [->|]; [|by left]. apply Hnd; [by apply (indirect_range s n)|done].
  - intros i Hil. destruct (Hp i Hil) as [->|]; [|by left]. apply Hnd; [by apply (fptr_range s n)|by apply Pp].
Qed.

(** The region of a held node, and that of its indirect block. *)
Lemma held_region s n p : held s n p -> exists j, p.1 = RCache j /\ find_slot (cache s) (inode_block s n) = Some j.
Proof. intros (_ & (_ & [(j & Hp & Hj)|(Hp & _)] & _) & HF); [eauto|done]. Qed.
Lemma slot_inj s b b' j : find_slot (cache s) b = Some j -> find_slot (cache s) b' = Some j -> b = b'.
Proof.
  intros H1 H2. destruct (find_slot_lookup _ _ _ H1) as (c & Hc & <-). destruct (find_slot_lookup _ _ _ H2) as (c' & Hc' & <-).
  congruence.
Qed.
Lemma indirect_apart s n p j : held s n p -> ptrs_ok s p -> indirect s p <> 0 ->
  find_slot (cache s) (indirect s p) = Some j -> p.1 <> RCache j.
Proof.
  intros Hh [_ [?|Hd] _] Hi Hj Hp; [done|]. destruct (held_region s n p Hh) as (j0 & Hp0 & Hj0).
  rewrite Hp0 in Hp. injection Hp as ->. pose proof (slot_inj s _ _ j Hj0 Hj) as E.
  pose proof (indirect_range s n p Hh) as Hr. unfold is_u32 in Hr.
  apply (inode_block_not_data s n (indirect s p)); [apply Hh|apply Hh|lia|done|done].
Qed.

(** How the pointers of a node change when some cached bytes change. *)
Lemma shrinks_gen s s' n p :
  held s n p -> ptrs_ok s p -> step s s' ->
  (indirect s' p = indirect s p \/ indirect s' p = 0) ->
  (forall i, 0 <= i < 12 -> v32 s' (padd p (40 + i * 4)) = v32 s (padd p (40 + i * 4)) \/ v32 s' (padd p (40 + i * 4)) = 0) ->
  (forall i j, 12 <= i < 268 -> indirect s p <> 0 -> find_slot (cache s) (indirect s p) = Some j ->
     v32 s' (RCache j, (i - 12) * 4) = v32 s (RCache j, (i - 12) * 4) \/ v32 s' (RCache j, (i - 12) * 4) = 0) ->
  shrinks s s' p.
Proof.
  intros Hh Hok T Hi Hd Hind. pose proof (ptrs_settled _ _ Hok) as Hs. constructor; [|done|].
  - destruct Hi as [E|E]; [|by left]. destruct Hs as [H0|Hr]; [left; congruence|right]. rewrite E.
    by apply (step_resolved s).
  - intros i Hil. unfold fptr. destruct (Z.ltb_spec i 12); [apply Hd; lia|].
    destruct Hi as [E|E]; rewrite E; [|by right].
    destruct (Z.eqb_spec (indirect s p) 0) as [|E0]; [by left|].
    destruct Hs as [?|[[j Hj]|Hu]]; [done| |].
    + rewrite Hj, (step_find s s' _ j T Hj). by apply Hind; [lia| |].
    + rewrite (proj1 Hu). rewrite (proj1 (step_unavailable _ _ T _ Hu)). by left.
Qed.

(** A frame of the maps leaves the pointers alone. *)
Lemma frame_same (P : Z -> Prop) s s' n p : held s n p -> ptrs_ok s p -> frame P s s' ->
  (forall b, P b -> is_map s b) -> indirect s' p = indirect s p /\ forall i, fptr s' p i = fptr s p i.
Proof.
  intros Hh Hok (T & F & _) HP. destruct (held_region s n p Hh) as (j0 & Hp0 & Hj0).
  assert (bytes_of s' p.1 = bytes_of s p.1) as Eb.
  { rewrite Hp0. apply (F (inode_block s n)); [done|]. intros HPb.
    by apply (inode_block_not_map s n (proj1 Hh) (proj1 (proj1 (proj2 Hh)))), HP. }
  assert (forall o, v32 s' (padd p o) = v32 s (padd p o)) as Ev by (intros o; unfold v32; cbn [padd fst snd]; by rewrite Eb).
  assert (indirect s' p = indirect s p) as Ei by apply Ev. split; [done|]. intros i. unfold fptr. rewrite Ei, Ev.
  destruct (i <? 12); [done|]. destruct (Z.eqb_spec (indirect s p) 0) as [|E0]; [done|].
  destruct (ptrs_settled _ _ Hok) as [?|[[j Hj]|Hu]]; [done| |].
  - rewrite Hj, (step_find s s' _ j T Hj). unfold v32. cbn [fst snd]. rewrite (F (indirect s p) j); [done|done|].
    intros HPb%HP. destruct (ptrs_indirect _ _ Hok) as [?|Hd]; [done|].
    pose proof (indirect_range s n p Hh) as Hr. unfold is_u32 in Hr.
    apply (data_not_map s (indirect s p)); [apply Hh|lia|done|done].
  - rewrite (proj1 Hu). by rewrite (proj1 (step_unavailable _ _ T _ Hu)).
Qed.
Lemma frame_shrinks (P : Z -> Prop) s s' n p : held s n p -> ptrs_ok s p -> frame P s s' ->
  (forall b, P b -> is_map s b) -> shrinks s s' p.
Proof.
  intros Hh Hok F HP. destruct (frame_same P s s' n p Hh Hok F HP) as [Ei Ef]. constructor; [|by left|by left].
  unfold settled. rewrite Ei. destruct (ptrs_settled _ _ Hok); [by left|right]. by apply (step_resolved s); [apply F|].
Qed.

Lemma v32_zero_write s q r : valid s q 4 -> r.1 = q.1 -> 0 <= r.2 -> r.2 mod 4 = 0 -> q.2 mod 4 = 0 ->
  v32 (write s q (le32_bytes 0)) r = v32 s r \/ v32 (write s q (le32_bytes 0)) r = 0.
Proof.
  intros Hv Er Hr Hr4 Hq4. destruct (Z.eq_dec r.2 q.2) as [E|E].
  - right. assert (r = q) as -> by (destruct r, q; cbn in *; congruence). by apply v32_write_same.
  - left. apply v32_write_out; [done|done|done|]. change (zlen (le32_bytes 0)) with 4. dm_lia.
Qed.

(** Clearing an aligned word of a data block. *)
Lemma zero_data_shrinks s n p b q : held s n p -> ptrs_ok s p -> in_block s b q -> q.1 <> RFailed -> 0 <= b ->
  data s b = true -> 0 <= q.2 -> q.2 + 4 <= 1024 -> q.2 mod 4 = 0 ->
  step s (write s q (le32_bytes 0)) /\ shrinks s (write s q (le32_bytes 0)) p.
Proof.
  intros Hh Hok Hb HF Hb0 Hd Hq Hq2 H4. pose proof (laid_mem s (proj1 Hh)) as Hm.
  assert (valid s q 4) as Hv by (apply (in_block_valid s b); done || lia).
  assert (step s (write s q (le32_bytes 0))) as T.
  { apply step_write_cache; [done|done|apply le32_bytes_ok|by eapply in_block_cache]. }
  split; [done|]. destruct (held_region s n p Hh) as (j0 & Hp0 & Hj0).
  assert (p.1 <> q.1) as Hne.
  { intros E. assert (inode_block s n <> b) as Hnb.
    { apply inode_block_not_data; [apply Hh|apply Hh|done|done]. }
    pose proof (in_block_apart s (inode_block s n) b p q (proj1 (proj2 (proj1 (proj2 Hh)))) Hb Hnb E). congruence. }
  apply (shrinks_gen s _ n); [done|done|done| | |].
  - left. by apply v32_write_ne.
  - intros i _. left. by apply v32_write_ne.
  - intros i j Hi Hi0 Hj. assert (Decision (RCache j = q.1)) as [E|E] by (unfold Decision; repeat decide equality).
    + apply v32_zero_write; [done|done|cbn [snd]; lia|cbn [snd]; dm_lia|done].
    + left. apply v32_write_ne. done.
Qed.
(** Writing a word of the node: a direct pointer or the indirect one is
    cleared, or the word is no pointer. *)
Lemma node_write_shrinks s n p k bs : held s n p -> ptrs_ok s p -> bytes_ok bs -> bs <> [] ->
  0 <= k -> k + zlen bs <= 128 ->
  k + zlen bs <= 40 \/ 92 <= k \/ (bs = le32_bytes 0 /\ k mod 4 = 0) ->
  step s (write s (padd p k) bs) /\ shrinks s (write s (padd p k) bs) p.
Proof.
  intros Hh Hok Hb Hne Hk Hz Hcase. pose proof (laid_mem s (proj1 Hh)) as Hm.
  assert (valid s (padd p k) (zlen bs)) as Hv by (apply (held_valid s n); [done|lia|apply zlen_nonneg|done]).
  assert (step s (write s (padd p k) bs)) as T.
  { apply step_write_cache; [done|done|done|]. eapply (in_block_cache s), Hh. }
  split; [done|].
  assert (0 <= p.2 /\ p.2 mod 4 = 0) as [Hp0 Hp4].
  { destruct (node_ptr_room s n p (proj1 Hh) (proj1 (proj2 Hh))) as (? & _ & ?). split; [done|dm_lia]. }
  assert (forall o, 40 <= o <= 88 -> o mod 4 = 0 ->
    v32 (write s (padd p k) bs) (padd p o) = v32 s (padd p o) \/ v32 (write s (padd p k) bs) (padd p o) = 0) as Hword.
  { intros o Ho Ho4. destruct Hcase as [?|[?|[-> ?]]].
    - left. apply v32_write_out; [done|done|cbn [padd snd]; lia|cbn [padd snd]; lia].
    - left. apply v32_write_out; [done|done|cbn [padd snd]; lia|cbn [padd snd]; lia].
    - apply v32_zero_write; [done|done|cbn [padd snd]; lia|cbn [padd snd]; dm_lia|cbn [padd snd]; dm_lia]. }
  apply (shrinks_gen s _ n); [done|done|done| | |].
  - apply Hword; [lia|done].
  - intros i Hi. apply Hword; [lia|dm_lia].
  - intros i j Hi Hi0 Hj. left. apply v32_write_ne. cbn [padd fst].
    intros E. by apply (indirect_apart s n p j Hh Hok Hi0 Hj).
Qed.
(** ** Truncation *)
Lemma release_data s b : laid s -> 0 <= b -> data s b = true ->
  wp (release b false) (fun _ s' => frame (is_map s) s s') s.
Proof.
  intros Hl Hb Hd. pose proof (is_data_range _ _ _ b Hb Hd) as Hr.
  destruct (block_group _ (laid_geometry s Hl) b Hr) as [Hg Hi].
  eapply wp_mono; [apply (release_gen s false ((b - 1) / blocks_per_group (geo s))
    (b - gstart (geo s) ((b - 1) / blocks_per_group (geo s))) b); [done|done|done|unfold number; lia]|].
  intros u s' F. cbv beta in F. eapply frame_weaken; [|exact F]. intros c ->. by apply map_block_is_map.
Qed.
Lemma release_inode s n : laid s -> 1 <= n <= inode_count (geo s) -> wp (release n true) (fun _ s' => step s s') s.
Proof.
  intros Hl Hn. destruct (inode_group _ (laid_geometry s Hl) n Hn) as [Hg Hi].
  pose proof (ok_ipg _ (laid_geometry s Hl)).
  eapply wp_mono; [apply (release_gen s true ((n - 1) / inodes_per_group (geo s))
    ((n - 1) mod inodes_per_group (geo s)) n); [done|done|done|]|].
  - unfold number. pose proof (Z.div_mod (n - 1) (inodes_per_group (geo s))). lia.
  - intros u s' F. apply F.
Qed.

(** The pointer word [i] of a node, in the node or in its indirect block. *)
Definition slot_at s p (i : Z) q : Prop :=
  (i < 12 /\ q = padd p (40 + i * 4)) \/
  (12 <= i /\ indirect s p <> 0 /\ in_block s (indirect s p) q /\ q.2 = (i - 12) * 4).
Lemma file_slot_spec s n p i : held s n p -> ptrs_ok s p -> 0 <= i < 268 ->
  wp (file_slot p i false) (fun r s' => reads s s' /\
    match r with
    | Some q => slot_at s' p i q /\ valid s' q 4 /\ v32 s' q = fptr s' p i
    | None => True
    end) s.
Proof.
  intros Hh Hok Hi. unfold file_slot. destruct (Z.ltb_spec i 12).
  { apply wp_ret. split; [apply reads_refl, Hh|]. split; [by left|]. split; [apply (held_valid s n); done || lia|].
    unfold fptr. by ztrue (i <? 12). }
  apply (wp_node s n); [done|lia|]. fold (indirect s p). rewrite andb_false_r. unfold truth.
  destruct (Z.eqb_spec (indirect s p) 0) as [E|E]; cbn [negb]; [apply wp_ret; split; [apply reads_refl, Hh|done]|].
  eapply wp_use; [apply block_spec; [apply Hh|apply laid_blocks, Hh|by apply (indirect_range s n)]|].
  intros base s1 (R1 & B1 & Z1 & F1). apply wp_ret. split; [done|].
  pose proof (reads_indirect s s1 n p R1 Hh) as E1. pose proof (reads_laid s s1 (proj1 Hh) R1) as L1.
  split; [|split].
  - right. rewrite E1. split; [done|]. split; [done|]. split; [done|]. cbn [padd snd]. lia.
  - apply (in_block_valid s1 (indirect s p)); [apply L1|done|cbn [padd snd]; lia|lia|cbn [padd snd]; lia].
  - destruct base as [r o]. cbn in Z1. subst o. unfold fptr. rewrite E1. zfalse (i <? 12). zfalse (indirect s p =? 0).
    destruct B1 as [(j & Hr & Hj)|(Hr & _ & Hu)]; cbn in Hr; subst r; [by rewrite Hj|].
    rewrite (proj1 Hu). apply v32_failed; [done|by apply F1].
Qed.

Lemma slot_value s n p i q : held s n p -> 0 <= i < 268 -> slot_at s p i q -> fptr s p i <> 0 ->
  v32 s q = fptr s p i /\ valid s q 4 /\ q.1 <> RFailed.
Proof.
  intros Hh Hi [[Hlt ->]|(Hge & Hi0 & Hb & Ho)] Hne.
  - split; [unfold fptr; by ztrue (i <? 12)|]. split; [apply (held_valid s n); done || lia|apply Hh].
  - unfold fptr in *. revert Hne. zfalse (i <? 12). zfalse (indirect s p =? 0). destruct q as [r o]. cbn in Ho. subst o.
    destruct Hb as [(j & Hr & Hj)|(Hr & _ & Hu)]; cbn in Hr; subst r; [|by rewrite (proj1 Hu)].
    rewrite Hj. intros _. split; [done|]. split; [|done]. apply (slot_valid s j (indirect s p)); [apply Hh|done|lia..].
Qed.

(** The state of a truncation. *)
Definition trimming n p s : Prop := held s n p /\ ptrs_ok s p.
Lemma trimming_shrinks n p s s' : trimming n p s -> step s s' -> shrinks s s' p -> trimming n p s'.
Proof. intros [Hh Hok] T S. split; [by apply (step_held s)|by apply (shrinks_ok s s' n)]. Qed.
Lemma trimming_reads n p s s' : trimming n p s -> reads s s' -> trimming n p s'.
Proof.
  intros [Hh Hok] R. apply (trimming_shrinks n p s); [done|apply R|].
  apply (frame_shrinks (fun _ => False) s s' n); [done|done|by apply reads_frame|done].
Qed.
Lemma wp_trim_count {B} n p s (f : Z -> Z) (k : M B) Q : trimming n p s ->
  (forall s', step s s' -> trimming n p s' -> wp k Q s') ->
  wp ((let* c := get32 (padd p 28) in put32 (padd p 28) (f c));; k) Q s.
Proof.
  intros [Hh Hok] H. apply wp_assoc, (wp_node s n); [done|lia|].
  apply wp_put32; [apply (held_valid s n); done || lia|].
  destruct (node_write_shrinks s n p 28 (le32_bytes (f (v32 s (padd p 28))))) as [T S]; try done.
  { apply le32_bytes_ok. } { left. change (zlen (le32_bytes _)) with 4. lia. }
  apply H; [done|]. by apply (trimming_shrinks n p s).
Qed.

Lemma clear_slot n p s i q : trimming n p s -> 0 <= i < 268 -> slot_at s p i q -> fptr s p i <> 0 ->
  step s (write s q (le32_bytes 0)) /\ trimming n p (write s q (le32_bytes 0)).
Proof.
  intros [Hh Hok] Hi Hs Hne. destruct (slot_value s n p i q Hh Hi Hs Hne) as (_ & _ & HF).
  assert (step s (write s q (le32_bytes 0)) /\ shrinks s (write s q (le32_bytes 0)) p) as [T S].
  { destruct Hs as [[Hlt ->]|(Hge & Hi0 & Hb & Ho)].
    - apply (node_write_shrinks s n); [done|done|apply le32_bytes_ok|done|lia|change (zlen (le32_bytes 0)) with 4; lia|].
      right. right. split; [done|dm_lia].
    - pose proof (indirect_range s n p Hh) as Hr. unfold is_u32 in Hr.
      destruct (ptrs_indirect _ _ Hok) as [?|Hd]; [done|].
      apply (zero_data_shrinks s n p (indirect s p)); try done; try lia. rewrite Ho. dm_lia. }
  split; [done|]. by apply (trimming_shrinks n p s).
Qed.

Lemma truncate_loop_spec k n p s i : trimming n p s -> 0 <= i -> i + Z.of_nat k <= 268 ->
  wp (truncate_loop k p i) (fun _ s' => step s s' /\ trimming n p s') s.
Proof.
  revert s i. induction k as [|k IH]; intros s i Ht Hi Hk; cbn [truncate_loop].
  { apply wp_ret. split; [apply step_refl, Ht|done]. }
  assert (forall s', step s s' -> trimming n p s' ->
    wp (truncate_loop k p (i + 1)) (fun _ s2 => step s s2 /\ trimming n p s2) s') as Hnext.
  { intros s' T Ht'. eapply wp_mono; [apply IH; [done|lia|lia]|]. intros u s2 [T2 ?]. split; [strans|done]. }
  destruct Ht as [Hh Hok]. eapply wp_use; [apply (file_slot_spec s n); [done|done|lia]|].
  intros r s1 [R1 Hr]. pose proof (trimming_reads n p s s1 ltac:(done) R1) as Ht1.
  destruct r as [q|]; [|apply wp_bind_ret, Hnext; [apply R1|done]]. destruct Hr as (Hslot & Hv & Hval).
  apply wp_assoc, wp_get32; [apply Ht1|done|].
  destruct (Z.eqb_spec (v32 s1 q) 0) as [E|E]; [apply wp_bind_ret, Hnext; [apply R1|done]|].
  destruct Ht1 as [Hh1 Hok1].
  assert (data s1 (v32 s1 q) = true) as Hd.
  { rewrite Hval in E |- *. by destruct (ptrs_all _ _ Hok1 i); [lia| |]. }
  pose proof (fptr_range s1 n p i Hh1) as Hr. rewrite <- Hval in Hr. unfold is_u32 in Hr.
  apply wp_assoc. eapply wp_use; [apply release_data; [apply Hh1|lia|done]|].
  intros u s2 F2. cbv beta in F2.
  assert (shrinks s1 s2 p) as S2 by (by apply (frame_shrinks (is_map s1) s1 s2 n)).
  pose proof (trimming_shrinks n p s1 s2 ltac:(done) (frame_step _ _ _ F2) S2) as Ht2.
  destruct (frame_same (is_map s1) s1 s2 n p Hh1 Hok1 F2) as [Ei Ef]; [done|]. specialize (Ef i).
  assert (slot_at s2 p i q) as Hslot2.
  { destruct Hslot as [?|(? & ? & ? & ?)]; [by left|right]. rewrite Ei. split; [done|]. split; [done|]. split; [|done].
    by apply (step_in_block s1); [apply F2|]. }
  destruct (slot_value s2 n p i q) as (_ & Hv2 & _); [apply Ht2|lia|done|congruence|].
  apply wp_assoc, wp_put32; [done|].
  destruct (clear_slot n p s2 i q) as [T3 Ht3]; [done|lia|done|congruence|].
  apply (wp_trim_count n p _ (fun c => u32 (c - 2))); [done|]. intros s4 T4 Ht4.
  apply Hnext; [|done]. pose proof (frame_step _ _ _ F2). strans.
Qed.

Lemma truncate_blocks_spec n p s keep : trimming n p s -> 0 <= keep <= 268 ->
  wp (truncate_blocks p keep) (fun _ s' => step s s' /\ trimming n p s') s.
Proof.
  intros Ht Hk. unfold truncate_blocks. eapply wp_use; [apply truncate_loop_spec; [done|lia|lia]|].
  intros u s1 [T1 Ht1]. destruct (keep <=? 12); [|by apply wp_ret].
  apply (wp_node s1 n); [apply Ht1|lia|]. fold (indirect s1 p).
  destruct (Z.eqb_spec (indirect s1 p) 0) as [|E]; [by apply wp_ret|]. destruct Ht1 as [Hh1 Hok1].
  pose proof (indirect_range s1 n p Hh1) as Hr. unfold is_u32 in Hr.
  destruct (ptrs_indirect _ _ Hok1) as [?|Hd]; [done|].
  eapply wp_use; [apply release_data; [apply Hh1|lia|done]|]. intros v s2 F2. cbv beta in F2.
  assert (trimming n p s2) as Ht2.
  { apply (trimming_shrinks n p s1); [done|apply F2|]. by apply (frame_shrinks (is_map s1) s1 s2 n). }
  destruct Ht2 as [Hh2 Hok2]. apply wp_put32; [apply (held_valid s2 n); done || lia|].
  destruct (node_write_shrinks s2 n p 88 (le32_bytes 0)) as [T3 S3]; try done.
  { apply le32_bytes_ok. } { by right; right. }
  apply wp_tail_unit, (wp_trim_count n p _ (fun c => u32 (c - 2))); [by apply (trimming_shrinks n p s2)|].
  intros s4 T4 Ht4. apply wp_ret. pose proof (frame_step _ _ _ F2). split; [strans|done].
Qed.

(** ** Writing *)
Lemma put_word s n p k v : laid s -> node_ptr s n p -> 0 <= k <= 124 ->
  step s (write s (padd p k) (le32_bytes v)).
Proof.
  intros Hl Hp Hk. apply step_write_cache; [apply Hl|apply (node_valid s n); done || (change (zlen (le32_bytes v)) with 4; lia)
    |apply le32_bytes_ok|]. eapply (in_block_cache s), Hp.
Qed.
Lemma wp_count {B} s n p (f : Z -> Z) (k : M B) Q : laid s -> node_ptr s n p ->
  (forall s', step s s' -> wp k Q s') ->
  wp ((let* c := get32 (padd p 28) in put32 (padd p 28) (f c));; k) Q s.
Proof.
  intros Hl Hp H. apply wp_assoc, (wp_node_get32 s n); [done|done|lia|].
  apply wp_put32; [apply (node_valid s n); done || lia|]. apply H. by apply (put_word s n).
Qed.
Lemma file_slot_new s n p i : laid s -> node_ptr s n p -> 0 <= i < 268 ->
  wp (file_slot p i true) (fun r s' => step s s' /\
    match r with Some q => valid s' q 4 /\ in_cache q | None => True end) s.
Proof.
  intros Hl Hp Hi. unfold file_slot. destruct (Z.ltb_spec i 12).
  { apply wp_ret. split; [apply step_refl, Hl|]. split; [apply (node_valid s n); done || lia|eapply (in_block_cache s), Hp]. }
  assert (forall ind s', step s s' -> is_u32 ind ->
    wp (let* base := block ind in ret (Some (padd base ((i - 12) * 4))))
       (fun r s' => step s s' /\ match r with Some q => valid s' q 4 /\ in_cache q | None => True end) s') as Hblk.
  { intros ind s' T Hu. pose proof (step_laid s s' Hl T) as L'.
    eapply wp_use; [apply block_spec; [apply L'|by apply laid_blocks|done]|].
    intros base s2 (R2 & B2 & Z2 & _). apply wp_ret. split; [strans|].
    split; [apply (in_block_valid s2 ind); [apply R2|done|cbn [padd snd]; lia|lia|cbn [padd snd]; lia]|by eapply in_block_cache]. }
  apply (wp_node_get32 s n); [done|done|lia|]. unfold truth.
  destruct (Z.eqb_spec (v32 s (padd p 88)) 0); cbn [andb negb].
  2: { apply Hblk; [apply step_refl, Hl|apply v32_range, Hl]. }
  eapply wp_use; [by apply allocate_spec|]. intros b s1 [G1 C1].
  destruct (Z.eqb_spec b 0); [by apply wp_ret; split; [apply G1|]|]. destruct (C1 ltac:(done)) as [_ _ _ _ _ [Hb _] _ _].
  pose proof (grows_laid s s1 Hl G1) as L1. pose proof (grows_node_ptr s s1 n p Hl G1 Hp) as P1.
  apply wp_put32; [apply (node_valid s1 n); done || lia|].
  pose proof (put_word s1 n p 88 b L1 P1 ltac:(lia)) as T2. set (s2 := write s1 _ _) in *.
  apply (wp_count s2 n p (fun c => u32 (c + 2))); [by apply (step_laid s1)|by apply (step_node_ptr s1)|].
  intros s3 T3. apply Hblk; [|done]. destruct G1 as [T1 _]. strans.
Qed.

(** The blocks touched by [size] bytes from [offset]: the rounds of the
    reading and writing loops. *)
Definition rounds (offset size : Z) : Z :=
  if size =? 0 then 0 else (offset + size - 1) / 1024 - offset / 1024 + 1.
Lemma rounds_next offset size : 0 <= offset -> 0 < size ->
  let chunk := Z.min (1024 - offset mod 1024) size in
  0 < chunk <= size /\ offset mod 1024 + chunk <= 1024 /\ rounds (offset + chunk) (size - chunk) < rounds offset size.
Proof.
  intros Ho Hs. cbv zeta. set (chunk := Z.min _ size).
  assert (0 < chunk <= size /\ offset mod 1024 + chunk <= 1024) as [Hc Hr] by (unfold chunk; dm_lia).
  split; [done|]. split; [done|]. unfold rounds. zfalse (size =? 0).
  destruct (Z.eqb_spec (size - chunk) 0); [dm_lia|].
  assert (chunk = 1024 - offset mod 1024) as -> by lia.
  replace (offset + (1024 - offset mod 1024)) with ((offset / 1024 + 1) * 1024) by dm_lia.
  rewrite Z.div_mul by lia. replace ((offset / 1024 + 1) * 1024 + (size - (1024 - offset mod 1024)) - 1)
    with (offset + size - 1) by dm_lia. lia.
Qed.
Lemma rounds_bound offset size : 0 <= offset -> 0 <= size -> offset + size <= MAX_FILE -> rounds offset size < 270.
Proof.
  unfold MAX_FILE, rounds. intros. destruct (size =? 0); [lia|].
  assert ((offset + size - 1) / 1024 <= 268) by dm_lia. assert (0 <= offset / 1024) by (apply Z.div_pos; lia). lia.
Qed.

Lemma map_lookup {A B} (f : A -> B) (l : list A) (i : nat) : map f l !! i = f <$> (l !! i).
Proof. revert i. induction l as [|x l IH]; intros [|i]; cbn; [done..|apply IH]. Qed.
Lemma step_valid s s' q m : mem_ok s -> step s s' -> 0 < m -> valid s q m -> valid s' q m.
Proof.
  intros Hm T Hpos Hv. unfold valid in *. assert (zlen (bytes_of s' q.1) = zlen (bytes_of s q.1)) as ->; [|done].
  pose proof (valid_some s q m Hv Hpos) as [l Hl]. pose proof (step_mem _ _ T) as Hm'.
  destruct q.1 as [| |i|] eqn:E; cbn in Hl.
  - transitivity 1024; [apply Hm'|symmetry; apply Hm].
  - transitivity 20480; [apply Hm'|symmetry; apply Hm].
  - destruct (cache s !! i) as [c|] eqn:Ec; [|done].
    assert (exists c', cache s' !! i = Some c') as [c' Ec'].
    { assert (map names (cache s) !! i = Some (names c)) as H0 by (by rewrite map_lookup, Ec).
      pose proof (prefix_lookup_Some _ _ _ _ H0 (step_names _ _ T)) as H.
      rewrite map_lookup in H. destruct (cache s' !! i); [eauto|done]. }
    unfold bytes_of. cbn. rewrite Ec, Ec'. cbn.
    pose proof (mem_cache s Hm) as Hc. pose proof (mem_cache s' Hm') as Hc'. rewrite Forall_lookup in Hc, Hc'.
    transitivity 1024; [apply (Hc' i c' Ec')|symmetry; apply (Hc i c Ec)].
  - transitivity 1024; [apply Hm'|symmetry; apply Hm].
Qed.

Lemma write_loop_spec fuel s n p offset bs : laid s -> node_ptr s n p -> bytes_ok bs -> 0 <= offset ->
  offset + zlen bs <= MAX_FILE -> rounds offset (zlen bs) < Z.of_nat fuel ->
  wp (write_loop fuel p offset bs) (fun _ s' => step s s') s.
Proof.
  revert s offset bs. induction fuel as [|fuel IH]; intros s offset bs Hl Hp Hbs Ho Hend Hf; cbn [write_loop].
  { exfalso. unfold rounds in Hf. pose proof (zlen_nonneg bs). destruct (Z.eqb_spec (zlen bs) 0); [lia|].
    assert (offset / 1024 <= (offset + zlen bs - 1) / 1024) by (apply Z.div_le_mono; lia). lia. }
  destruct bs as [|c bs]; [by apply wp_ret, step_refl, Hl|]. set (l := c :: bs) in *.
  assert (0 < zlen l) as Hpos by (unfold l; rewrite zlen_cons; pose proof (zlen_nonneg bs); lia).
  change BLOCK_SIZE with 1024. unfold MAX_FILE in Hend.
  assert (0 <= offset / 1024 < 268) as Hidx by dm_lia.
  eapply wp_use; [by apply (file_slot_new s n)|]. intros r s1 [T1 Hr]. destruct r as [q|]; [|by apply wp_ret].
  destruct Hr as [Hv Hc]. pose proof (step_laid s s1 Hl T1) as L1. pose proof (step_node_ptr s s1 n p Hl T1 Hp) as P1.
  apply wp_get32; [apply L1|done|].
  set (chunk := Z.min (1024 - offset mod 1024) (zlen l)).
  destruct (rounds_next offset (zlen l) Ho Hpos) as (Hch & Hroom & Hrounds). fold chunk in Hch, Hroom, Hrounds.
  assert (forall b s2, step s s2 -> is_u32 b ->
    wp (if b =? 0 then ret None
        else (let* p := block b in store (padd p (offset mod 1024)) (take (Z.to_nat chunk) l));;
             write_loop fuel p (offset + chunk) (drop (Z.to_nat chunk) l))
       (fun _ s' => step s s') s2) as Hrest.
  { intros b s2 T2 Hb. destruct (b =? 0); [by apply wp_ret|]. pose proof (step_laid s s2 Hl T2) as L2.
    apply wp_assoc. eapply wp_use; [apply block_spec; [apply L2|by apply laid_blocks|done]|].
    intros base s3 (R3 & B3 & Z3 & _). pose proof (reads_laid s2 s3 L2 R3) as L3.
    assert (zlen (take (Z.to_nat chunk) l) = chunk) as Hz by (unfold zlen in *; rewrite length_take; lia).
    assert (valid s3 (padd base (offset mod 1024)) (zlen (take (Z.to_nat chunk) l))) as Hv3.
    { rewrite Hz. apply (in_block_valid s3 b); [apply L3|done|cbn [padd snd]; dm_lia|lia|cbn [padd snd]; lia]. }
    apply wp_store; [done| |].
    { intros E. rewrite E in Hz. change (zlen []) with 0 in Hz. lia. }
    assert (step s3 (write s3 (padd base (offset mod 1024)) (take (Z.to_nat chunk) l))) as T4.
    { apply step_write_cache; [apply L3|done|by apply Forall_take|by eapply in_block_cache]. }
    assert (step s2 s3) as T23 by apply R3.
    eapply wp_mono; [apply IH|].
    - by apply (step_laid s3).
    - apply (step_node_ptr s3); [done|done|]. apply (step_node_ptr s); [done|strans|done].
    - by apply Forall_drop.
    - lia.
    - unfold MAX_FILE, zlen in *. rewrite length_drop. lia.
    - assert (zlen (drop (Z.to_nat chunk) l) = zlen l - chunk) as -> by (unfold zlen in *; rewrite length_drop; lia). lia.
    - intros u s5 T5. cbv beta in T5. strans. }
  unfold truth. destruct (Z.eqb_spec (v32 s1 q) 0); cbn [negb].
  2: { apply wp_bind_ret, Hrest; [done|apply v32_range, L1]. }
  apply wp_assoc. eapply wp_use; [by apply allocate_spec|]. intros b s2 [G2 C2].
  destruct (Z.eqb_spec b 0) as [->|Hb0]; [apply wp_bind_ret, Hrest; [destruct G2; strans|done]|].
  destruct (C2 ltac:(done)) as [_ _ _ _ _ [Hb _] _ _]. destruct G2 as [T2 _].
  pose proof (step_laid s1 s2 L1 T2) as L2. pose proof (step_node_ptr s1 s2 n p L1 T2 P1) as P2.
  assert (valid s2 q 4) as Hv2 by (apply (step_valid s1); [apply L1|done|lia|done]).
  apply wp_assoc, wp_put32; [done|].
  assert (step s2 (write s2 q (le32_bytes b))) as T3 by (apply step_write_cache; [apply L2|done|apply le32_bytes_ok|done]).
  apply wp_assoc. set (s3 := write s2 q _) in *.
  apply (wp_count s3 n p (fun c => u32 (c + 2))); [by apply (step_laid s2)|by apply (step_node_ptr s2)|].
  intros s4 T4. apply wp_bind_ret, Hrest; [strans|done].
Qed.

End Files.
