(* ===== verification/Ext2Bodies.v ===== *)
(** * Ext2 engine: specifications of the transaction bodies

    Writing, moving and removing a file, between [begin] and [finish]: always
    defined, and never touching the disk. *)
From Stdlib Require Import String.
From S2P Require Import Prelude CString Ext2Core Ext2Dir Ext2Ops Ext2Logic Ext2Frame Ext2Blocks.
From S2P Require Import Ext2Walk Ext2Alloc Ext2Create Ext2Files.

Section Bodies.
Context {D : Type} `{BD : BlockDevice D} {DL : DeviceLaws D}.
#[local] Abbreviation St := (Fs D).
#[local] Abbreviation M := (@M D).
Implicit Types (s : St) (p q e : Ptr).

Lemma write_range_spec s n p offset bs : laid s -> node_ptr s n p -> bytes_ok bs -> 0 <= offset ->
  offset + zlen bs <= MAX_FILE -> wp (write_range p offset bs) (fun _ s' => step s s') s.
Proof.
  intros Hl Hp Hb Ho Hend. unfold write_range. pose proof (zlen_nonneg bs).
  eapply wp_use; [apply (write_loop_spec 270 s n); [done|done|done|done|done|]|].
  { pose proof (rounds_bound offset (zlen bs)). lia. }
  intros r s1 T1. cbv beta in T1. destruct r as [o|]; [|by apply wp_ret].
  pose proof (step_laid s s1 Hl T1) as L1. pose proof (step_node_ptr s s1 n p Hl T1 Hp) as P1.
  apply (wp_node_get32 s1 n); [done|done|lia|]. destruct (v32 s1 (padd p 4) <? o); [|by apply wp_bind_ret, wp_ret].
  apply wp_put32; [apply (node_valid s1 n); done || lia|]. apply wp_ret.
  pose proof (put_word s1 n p 4 o L1 P1 ltac:(lia)). strans.
Qed.

Lemma write_contents_spec n p s bs size : trimming n p s -> bytes_ok bs -> 0 <= size <= MAX_FILE -> size <= zlen bs ->
  wp (write_contents p bs size) (fun _ s' => step s s') s.
Proof.
  intros Ht Hb Hs Hsz. unfold write_contents. unfold MAX_FILE in *.
  rewrite u32_small by (unfold is_u32, BLOCK_SIZE; lia).
  eapply wp_use; [apply truncate_blocks_spec; [done|unfold BLOCK_SIZE; dm_lia]|]. intros u s1 [T1 Ht1].
  assert (zlen (take (Z.to_nat size) bs) = size) as Hz by (unfold zlen in *; rewrite length_take; lia).
  eapply wp_use; [apply (write_range_spec s1 n); [apply Ht1|apply Ht1|by apply Forall_take|lia|unfold MAX_FILE; lia]|].
  intros r s2 T2. cbv beta in T2. destruct (truth r); [apply wp_ret; strans|].
  pose proof (step_held s1 s2 n p T2 (proj1 Ht1)) as H2.
  assert (forall s3, step s2 s3 -> wp (put32 (padd p 4) size;; ret 0) (fun _ s' => step s s') s3) as Hend.
  { intros s3 T3. pose proof (step_held s2 s3 n p T3 H2) as H3. apply wp_put32; [apply (held_valid s3 n); done || lia|].
    apply wp_ret. pose proof (put_word s3 n p 4 size (proj1 H3) (proj1 (proj2 H3)) ltac:(lia)). strans. }
  change BLOCK_SIZE with 1024. unfold truth. destruct (Z.eqb_spec (size mod 1024) 0) as [E|E]; cbn [negb].
  { apply wp_bind_ret, Hend, step_refl, H2. }
  apply wp_assoc. eapply wp_use; [apply (file_block_spec s2 n); [done|dm_lia]|]. intros b s3 (R3 & -> & _).
  pose proof (reads_held s2 s3 n p R3 H2) as H3. pose proof (fptr_range s3 n p (size / 1024) H3) as Hr.
  apply wp_assoc. eapply wp_use; [apply block_spec; [apply H3|apply laid_blocks, H3|done]|].
  intros base s4 (R4 & B4 & Z4 & _). pose proof (reads_laid s3 s4 (proj1 H3) R4) as L4.
  assert (0 < size mod 1024 < 1024) as Hm by dm_lia.
  assert (valid s4 (padd base (size mod 1024)) (1024 - size mod 1024)) as Hv.
  { eapply in_block_valid; [apply L4|exact B4|cbn [padd snd]; lia|lia|cbn [padd snd]; lia]. }
  apply wp_memset; [done|lia|]. apply Hend.
  assert (step s4 (write s4 (padd base (size mod 1024)) (replicate (Z.to_nat (1024 - size mod 1024)) (u8 0)))) as T5.
  { apply step_write_cache; [apply L4|by rewrite zlen_replicate by lia|apply zero_bytes_ok|eapply (in_block_cache s4), B4]. }
  strans.
Qed.

(** [supported(n > 0 ? inode(n) : NULL, type)]. *)
Lemma supported_node_spec {B} s n type (f : option Ptr -> bool -> M B) Q : laid s -> mode_type type ->
  (forall r s', reads s s' -> (r = None \/ 0 < n) -> wp (f r false) Q s') ->
  (forall p s', reads s s' -> 0 < n -> live s' n -> held s' n p -> node_ok s' p type -> wp (f (Some p) true) Q s') ->
  wp (let* node := node_of n in let* ok := supported node type in f node ok) Q s.
Proof.
  intros Hl Ht Hfalse Htrue. unfold node_of. destruct (Z.ltb_spec 0 n).
  - apply supported_inode_spec; [done|lia|done|..].
    + intros r s' R _. apply Hfalse; [done|by right].
    + intros p s' R Hlv Hh Hn. by apply Htrue.
  - apply wp_bind_ret. apply wp_bind_ret. apply Hfalse; [apply reads_refl, Hl|by left].
Qed.

Lemma write_file_spec s name bs size : laid s -> bytes_ok name -> bytes_ok bs -> size <= zlen bs ->
  wp (write_file name bs size) (fun _ s' => step s s') s.
Proof.
  intros Hl Hn Hb Hsz. unfold write_file.
  destruct ((size <? 0) || (MAX_FILE <? size) || negb (valid_name name)) eqn:Hg; [by apply wp_ret, step_refl, Hl|].
  bool_to_prop. apply wp_gets. assert (is_u32 (cwd s)) as Hc by apply Hl. unfold is_u32 in Hc.
  eapply wp_use; [apply lookup_spec; [done|lia]|]. intros r s1 (R1 & _ & _). pose proof (reads_laid s s1 Hl R1) as L1.
  assert (forall n s', step s s' ->
    wp (match n with
        | Some n => let* node := node_of n in let* ok := supported node FILE_MODE in
                    match ok, node with true, Some node => write_contents node bs size | _, _ => ret (-1) end
        | None => ret (-1)
        end) (fun _ s2 => step s s2) s') as Hrest.
  { intros [n|] s' T; [|by apply wp_ret]. apply supported_node_spec; [by apply (step_laid s)|by left|..].
    - intros r' s2 R2 _. apply wp_ret. strans.
    - intros p s2 R2 _ _ Hh Hno.
      eapply wp_mono; [apply (write_contents_spec n); [|done|lia|done]|].
      + split; [done|]. apply (node_ok_ptrs s2 n p FILE_MODE); [done|by left|done].
      + intros u s3 T3. cbv beta in T3. strans. }
  destruct (r.1 =? -1); [|apply wp_bind_ret, (Hrest (Some r.1)); strans].
  apply wp_assoc. eapply wp_use; [by apply create_spec|]. intros c s2 G2. cbv beta in G2.
  assert (step s s2) as T2 by (pose proof (proj1 G2); strans).
  destruct (truth c); [by apply wp_bind_ret, (Hrest None)|].
  apply wp_assoc. eapply wp_use; [apply lookup_spec; [by apply (step_laid s)|lia]|]. intros r' s3 (R3 & _ & _).
  apply wp_bind_ret, (Hrest (Some r'.1)). strans.
Qed.

(** ** Removal *)
Lemma clear_record_valid s ino e name : laid s -> found s name ino e ->
  exists b, in_block s b e /\ e.1 <> RFailed /\ 0 <= b /\ data s b = true /\ 0 <= e.2 /\ e.2 + 4 <= 1024 /\ e.2 mod 4 = 0.
Proof.
  intros Hl (_ & b & (Hb & Hf & Hb0 & Hd & [[? ?] [? [? ?]] ? ?]) & _). exists b. split_and!; done || lia.
Qed.
Lemma reads_found s s' name ino e : laid s -> reads s s' -> found s name ino e -> found s' name ino e.
Proof.
  intros Hl R (Hi & b & Hs & Hv & Hn). pose proof (reads_shown s s' b e Hl R Hs) as Hs'.
  split; [by rewrite (step_geo _ _ (reads_step _ _ R))|]. exists b. split; [done|].
  assert (bytes_of s' e.1 = bytes_of s e.1) as Eb.
  { pose proof (proj1 (proj2 Hs)) as Hf. apply reads_bytes; [done|done|]. apply (valid_some s e 4); [|lia].
    rewrite <- (padd_0 e). apply (shown_head s b); done || lia. }
  unfold names_equal, rec_text, rec_names, v8, v32 in *. cbn [padd fst snd] in *. by rewrite Eb.
Qed.

Lemma delete_inode_spec n p s : trimming n p s -> wp (delete_inode p n) (fun _ s' => step s s') s.
Proof.
  intros Ht. unfold delete_inode. eapply wp_use; [apply truncate_blocks_spec; [done|lia]|]. intros u s1 [T1 [Hh1 _]].
  apply wp_gets. apply wp_time; [apply Hh1|]. intros t. set (at_time := if t <=? _ then _ else _).
  pose proof (proj1 Hh1) as L1. pose proof (proj1 (proj2 Hh1)) as P1.
  destruct (node_ptr_room s1 n p L1 P1) as (? & ? & _).
  assert (128 <= inode_size (geo s1) <= 256) by (destruct (ok_inode_size _ (laid_geometry s1 L1)); lia).
  assert (valid s1 p (inode_size (geo s1))) as Hv
    by (apply (in_block_valid s1 (inode_block s1 n)); [apply L1|apply P1|lia..]).
  apply wp_memset; [done|lia|].
  assert (step s1 (write s1 p (replicate (Z.to_nat (inode_size (geo s1))) (u8 0)))) as T2.
  { apply step_write_cache; [apply L1|by rewrite zlen_replicate by lia|apply zero_bytes_ok|eapply (in_block_cache s1), P1]. }
  set (s2 := write s1 p _) in *. pose proof (step_held s1 s2 n p T2 Hh1) as H2.
  apply wp_put32; [apply (held_valid s2 n); done || lia|].
  pose proof (put_word s2 n p 20 at_time (proj1 H2) (proj1 (proj2 H2)) ltac:(lia)) as T3. set (s3 := write s2 _ _) in *.
  pose proof (step_held s2 s3 n p T3 H2) as H3.
  eapply wp_mono; [apply release_inode; [apply H3|apply H3]|]. intros v s4 T4. cbv beta in T4. strans.
Qed.

(** Only the two standard entries: the walk reads. *)
Lemma wp_empty_dir {B} s n p (k : unit + Z -> M B) Q : held s n p -> node_ok s p DIR_MODE ->
  (forall r s', reads s s' -> wp (k r) Q s') -> wp (bind (walk (fun _ => -1) empty_body p tt) k) Q s.
Proof.
  intros Hh Hn H. pose proof (node_size _ _ _ Hn) as Hsz.
  change (DIR_MODE =? FILE_MODE) with false in Hsz. cbv iota in Hsz. destruct Hsz as (_ & c & Ec & Hc & _).
  eapply wp_use; [apply (walk_spec (fun _ => -1) empty_body s (fun _ _ => True) (fun _ s' => reads s s')) with (n := n) (c := c)|].
  all: try done.
  - intros a s' b e R L _ Hs. unfold empty_body.
    apply wp_get32; [apply L|rewrite <- (padd_0 e); apply (shown_head s' b); done || lia|].
    destruct (v32 s' e =? 0); [apply wp_ret; split; [apply reads_refl, L|done]|].
    eapply wp_use; [by apply (name_equal_spec s' b)|]. intros d s2 [-> _].
    destruct d; [apply wp_ret; split; [apply reads_refl, L|done]|].
    eapply wp_use; [by apply (name_equal_spec s' b)|]. intros dd s2 [-> _]. apply wp_ret.
    destruct dd; [split; [apply reads_refl, L|done]|done].
  - intros [x|x] s2 Hr; apply H; [apply Hr|done].
Qed.

(** Writing the links of an inode leaves the pointers of every inode alone. *)
Lemma links_shrinks s n p m q v : held s n p -> ptrs_ok s p -> node_ptr s m q ->
  step s (write s (padd q 26) (le16_bytes v)) -> shrinks s (write s (padd q 26) (le16_bytes v)) p.
Proof.
  intros Hh Hok Hq T. assert (valid s (padd q 26) 2) as Hv by (apply (node_valid s m); apply Hh || done || lia).
  destruct (node_ptr_room s n p (proj1 Hh) (proj1 (proj2 Hh))) as (Hp0 & _ & Hp128).
  destruct (node_ptr_room s m q (proj1 Hh) Hq) as (Hq0 & _ & Hq128).
  assert (forall o, 40 <= o <= 88 -> v32 (write s (padd q 26) (le16_bytes v)) (padd p o) = v32 s (padd p o)) as Hw.
  { intros o Ho. apply v32_write_out; [done|done|cbn [padd snd]; lia|].
    change (zlen (le16_bytes v)) with 2. cbn [padd snd]. dm_lia. }
  apply (shrinks_gen s _ n); [done|done|done| | |].
  - left. apply Hw. lia.
  - intros i Hi. left. apply Hw. lia.
  - intros i j Hi Hi0 Hj. left. apply v32_write_ne. cbn [padd fst]. intros E.
    destruct Hq as (Hmr & [(j' & Hq1 & Hj')|(Hq1 & _)] & _); [|congruence].
    rewrite Hq1 in E. injection E as ->. pose proof (slot_inj s _ _ j' Hj Hj') as Eb.
    destruct (ptrs_indirect _ _ Hok) as [?|Hd]; [done|].
    pose proof (indirect_range s n p Hh) as Hr. unfold is_u32 in Hr.
    by apply (inode_block_not_data s m (indirect s p)); [apply Hh| |lia| |].
Qed.

Lemma leave_directory_spec n p s : trimming n p s -> node_ok s p DIR_MODE -> live s (cwd s) -> 1 <= n <= inode_count (geo s) ->
  wp (leave_directory p n) (fun _ s' => step s s' /\ trimming n p s') s.
Proof.
  intros Ht Hno Hcwd Hr. unfold leave_directory. apply (wp_empty_dir s n); [apply Ht|done|].
  intros r s1 R1. pose proof (trimming_reads n p s s1 Ht R1) as Ht1.
  destruct r as [[]|x]; [|apply wp_ret; split; [apply R1|done]].
  pose proof (proj1 (proj1 Ht1)) as L1. pose proof (proj1 (proj2 (proj1 Ht1))) as P1.
  apply (wp_node_get16 s1 n); [done|done|lia|].
  destruct (negb (v16 s1 (padd p 26) =? 2)); [apply wp_ret; split; [apply R1|done]|].
  apply wp_gets. rewrite (step_cwd _ _ (reads_step _ _ R1)).
  apply wp_live_inode; [done|by apply (reads_live s)|]. intros parent s2 R2 P2 _.
  pose proof (reads_laid s1 s2 L1 R2) as L2. pose proof (trimming_reads n p s1 s2 Ht1 R2) as Ht2.
  apply wp_assoc, (wp_node_get16 s2 (cwd s)); [done|done|lia|].
  apply (wp_node_put16 (fun c => c = inode_block s2 (cwd s)) s2 (cwd s)); [done|done|lia|done|].
  intros s3 Es3 F3. pose proof (frame_laid _ s2 s3 L2 F3) as L3.
  assert (trimming n p s3) as Ht3.
  { subst s3. apply (trimming_shrinks n p s2); [done|apply F3|].
    apply (links_shrinks s2 n p (cwd s)); [apply Ht2|apply Ht2|done|apply F3]. }
  apply wp_dirs; [done| |].
  { rewrite (step_geo _ _ (frame_step _ _ _ F3)), (step_geo _ _ (reads_step _ _ R2)), (step_geo _ _ (reads_step _ _ R1)). done. }
  intros s4 F4. apply wp_ret. pose proof (frame_step _ _ _ F3). pose proof (frame_step _ _ _ F4). split; [strans|].
  destruct Ht3 as [Hh3 Hok3]. apply (trimming_shrinks n p s3); [done|done|].
  by apply (frame_shrinks (fun _ => False) s3 s4 n).
Qed.

(** The node of a lookup's result. *)
Lemma node_of_spec s n : laid s ->
  wp (node_of n) (fun r s' => reads s s' /\
    (r = None \/ exists p, r = Some p /\ 0 < n /\ node_ptr s' n p /\ live s' n /\ fresh s' p)) s.
Proof.
  intros Hl. unfold node_of. destruct (Z.ltb_spec 0 n); [|by apply wp_ret; split; [apply reads_refl, Hl|left]].
  eapply wp_mono; [apply inode_spec; [done|lia]|]. intros r s' (R & _ & Hr). split; [done|].
  destruct r as [p|]; [right|by left]. exists p. tauto.
Qed.

(** [supported] of a pointer; a failed one stays zeroed. *)
Lemma supported_fresh s p n type : laid s -> mode_type type -> node_ptr s n p -> fresh s p ->
  wp (supported (Some p) type) (fun r s' => reads s s' /\ fresh s' p /\ (r = true -> held s' n p /\ node_ok s' p type)) s.
Proof.
  intros Hl Ht Hp Hf. assert (Decision (p.1 = RFailed)) as [HF|HF] by (unfold Decision; repeat decide equality).
  - eapply wp_mono; [apply supported_failed; [apply Hl| |done|by apply Hf|done]|].
    + rewrite <- (padd_0 p). apply (node_valid s n); done || lia.
    + intros r s' [-> ->]. split; [apply reads_refl, Hl|done].
  - eapply wp_mono; [apply (supported_spec s (Some p) n type); [done|done|by intros q [= <-]]|].
    intros r s' [R Hr]. split; [done|]. split; [by intros ?|]. intros E. by destruct (Hr E) as (q & [= <-] & H).
Qed.

(** A pointer to a record that a step has not moved. *)
Definition record_ptr s e : Prop :=
  exists b, in_block s b e /\ e.1 <> RFailed /\ 0 <= b /\ data s b = true /\ 0 <= e.2 /\ e.2 + 4 <= 1024 /\ e.2 mod 4 = 0.
Lemma step_record_ptr s s' e : laid s -> step s s' -> record_ptr s e -> record_ptr s' e.
Proof.
  intros Hl T (b & Hb & Hf & Hb0 & Hd & H). exists b. split; [by apply (step_in_block s)|]. split; [done|]. split; [done|].
  split; [by rewrite (step_data s s')|done].
Qed.
Lemma record_ptr_valid s e : laid s -> record_ptr s e -> valid s e 4.
Proof. intros Hl (b & Hb & _ & _ & _ & ? & ? & _). apply (in_block_valid s b); [apply Hl|done|lia..]. Qed.
Lemma record_ptr_clear s e : laid s -> record_ptr s e -> step s (write s e (le32_bytes 0)).
Proof.
  intros Hl He. apply step_write_cache; [apply Hl|by apply record_ptr_valid|apply le32_bytes_ok|].
  destruct He as (b & Hb & _). by eapply in_block_cache.
Qed.
Lemma clear_trimming n p s e : trimming n p s -> record_ptr s e -> trimming n p (write s e (le32_bytes 0)).
Proof.
  intros [Hh Hok] (b & Hb & Hf & Hb0 & Hd & Ho & Hend & H4).
  destruct (zero_data_shrinks s n p b e) as [T S]; try done. by apply (trimming_shrinks n p s).
Qed.

(** A lookup with a positive answer has found a record. *)
Lemma lookup_node_spec {B} s dir name (f : Z * option Ptr -> option Ptr -> M B) Q : laid s -> 0 <= dir ->
  (forall r s', reads s s' -> wp (f r None) Q s') ->
  (forall n e p s', reads s s' -> live s' dir -> 1 <= n <= inode_count (geo s) -> record_ptr s' e ->
     node_ptr s' n p -> live s' n -> fresh s' p -> wp (f (n, Some e) (Some p)) Q s') ->
  wp (let* r := lookup dir name in let* node := node_of r.1 in f r node) Q s.
Proof.
  intros Hl Hd Hnone Hsome. eapply wp_use; [by apply lookup_spec|]. intros r s1 (R1 & Hlive & Hr).
  pose proof (reads_laid s s1 Hl R1) as L1. eapply wp_use; [by apply node_of_spec|]. intros node s2 [R2 Hnode].
  destruct Hnode as [->|(p & -> & Hn & Hp & Hlv & Hf)]; [apply Hnone; rtrans|].
  destruct Hr as [->|[->|(n & e & -> & Hfound)]]; [cbn in Hn; lia..|]. cbn [fst] in *.
  apply Hsome; [rtrans|apply (reads_live s1); [done|apply Hlive; lia]| | |done|done|done].
  - rewrite <- (step_geo _ _ (reads_step _ _ R1)). apply Hfound.
  - apply (clear_record_valid s2 n e name); [by apply (reads_laid s1)|]. by apply (reads_found s1).
Qed.

Lemma remove_node_spec s name type : laid s -> mode_type type -> wp (remove_node name type) (fun _ s' => step s s') s.
Proof.
  intros Hl Ht. unfold remove_node. apply wp_gets. assert (is_u32 (cwd s)) as Hc by apply Hl. unfold is_u32 in Hc.
  apply lookup_node_spec; [done|lia|..].
  { intros r s1 R1. apply wp_gets. destruct (negb _ || _); [apply wp_ret; strans|].
    apply wp_bind_ret, wp_ret. strans. }
  intros n e p s1 R1 Hcwd Hn He Hp Hlv Hf. cbn [fst snd]. pose proof (reads_laid s s1 Hl R1) as L1. apply wp_gets.
  destruct (negb (valid_name name) || (n <? s32 (first_inode (geo s1)))); [apply wp_ret; strans|].
  eapply wp_use; [apply (supported_spec s1 (Some p) n type); [done|done|by intros q [= <-]]|].
  intros ok s2 [R2 Hok]. destruct ok; [|apply wp_ret; strans].
  destruct (Hok eq_refl) as (q & [= <-] & Hh & Hno). assert (step s s2) as T2 by strans.
  assert (trimming n p s2) as Ht2 by (split; [done|by apply (node_ok_ptrs s2 n p type)]).
  assert (record_ptr s2 e) as He2 by (apply (step_record_ptr s1); [done|apply R2|done]).
  assert (forall (go : bool) s3, step s2 s3 -> trimming n p s3 ->
    wp (if negb go then ret (-1)
        else
          clear_record (Some e);;
          let* links := if type =? DIR_MODE then ret 0 else let* l := get16 (padd p 26) in ret (l - 1) in
          put16 (padd p 26) links;;
          (if links =? 0 then delete_inode p n else ret tt);; ret 0)
       (fun _ s' => step s s') s3) as Hrest.
  { intros go s3 T3 Ht3. destruct go; cbn [negb]; [|apply wp_ret; strans].
    pose proof (proj1 (proj1 Ht3)) as L3.
    pose proof (step_record_ptr s2 s3 e (proj1 Hh) T3 He2) as He3. unfold clear_record.
    apply wp_put32; [by apply record_ptr_valid|]. pose proof (record_ptr_clear s3 e L3 He3) as T4.
    pose proof (clear_trimming n p s3 e Ht3 He3) as Ht4. set (s4 := write s3 e _) in *.
    assert (forall links, wp (put16 (padd p 26) links;; (if links =? 0 then delete_inode p n else ret tt);; ret 0)
      (fun _ s' => step s s') s4) as Hlinks.
    { intros links. pose proof (proj1 (proj1 Ht4)) as L4. pose proof (proj1 (proj2 (proj1 Ht4))) as P4.
      apply (wp_node_put16 (fun c => c = inode_block s4 n) s4 n); [done|done|lia|done|]. intros s5 Es5 F5.
      assert (trimming n p s5) as Ht5.
      { subst s5. apply (trimming_shrinks n p s4); [done|apply F5|].
        apply (links_shrinks s4 n p n); [apply Ht4|apply Ht4|done|apply F5]. }
      pose proof (frame_step _ _ _ F5) as T5.
      destruct (links =? 0); [|apply wp_bind_ret, wp_ret; strans].
      eapply wp_use; [by apply delete_inode_spec|]. intros u s6 T6. cbv beta in T6. apply wp_ret. strans. }
    destruct (type =? DIR_MODE); [by apply wp_bind_ret, (Hlinks 0)|].
    apply wp_assoc, (wp_node_get16 s4 n); [apply Ht4|apply Ht4|lia|]. apply wp_bind_ret, Hlinks. }
  destruct (Z.eqb_spec type DIR_MODE) as [->|]; [|apply wp_bind_ret, (Hrest true); [apply step_refl, Hh|done]].
  eapply wp_use; [apply leave_directory_spec; [done|done| |]|].
  - rewrite (step_cwd _ _ T2). by apply (reads_live s1).
  - by rewrite (step_geo _ _ T2).
  - intros go s3 [T3 Ht3]. by apply (Hrest go).
Qed.

Lemma move_node_spec s source dest : laid s -> bytes_ok dest -> wp (move_node source dest) (fun _ s' => step s s') s.
Proof.
  intros Hl Hb. unfold move_node. apply wp_gets. assert (is_u32 (cwd s)) as Hc by apply Hl. unfold is_u32 in Hc.
  apply lookup_node_spec; [done|lia|..].
  { intros r s1 R1. destruct (negb _ || _); apply wp_ret; strans. }
  intros n e p s1 R1 Hcwd Hn He Hp Hlv Hf. cbn [fst snd]. pose proof (reads_laid s s1 Hl R1) as L1.
  destruct (negb (valid_name source) || negb (valid_name dest)) eqn:Hv; [apply wp_ret; strans|]. bool_to_prop.
  destruct (valid_name_good dest Hb) as [Hg Hmax]; [done|].
  eapply wp_use; [apply (supported_fresh s1 p n FILE_MODE); [done|by left|done|done]|].
  intros file s2 (R2 & Hf2 & Hfile). pose proof (reads_laid s1 s2 L1 R2) as L2.
  assert (forall (ok : bool) s3, reads s2 s3 -> (ok = true -> held s3 n p) ->
    wp (if negb ok then ret (-1)
        else
          let* d := lookup (cwd s) dest in
          if negb (d.1 =? -1) then ret (-1)
          else clear_record (Some e);; let* k := kind p in insert (cwd s) dest n k)
       (fun _ s' => step s s') s3) as Hrest.
  { intros ok s3 R3 Hok. destruct ok; cbn [negb]; [|apply wp_ret; strans]. specialize (Hok eq_refl).
    eapply wp_use; [apply lookup_spec; [apply Hok|lia]|]. intros d s4 (R4 & _ & _).
    destruct (negb (d.1 =? -1)); [apply wp_ret; strans|].
    pose proof (reads_held s3 s4 n p R4 Hok) as H4. pose proof (proj1 H4) as L4.
    assert (record_ptr s4 e) as He4.
    { apply (step_record_ptr s1); [done|strans|done]. }
    unfold clear_record. apply wp_put32; [by apply record_ptr_valid|].
    pose proof (record_ptr_clear s4 e L4 He4) as T5. set (s5 := write s4 e _) in *.
    pose proof (step_held s4 s5 n p T5 H4) as H5. unfold kind. apply wp_assoc.
    rewrite <- (padd_0 p). apply (wp_node_get16 s5 n); [apply H5|apply H5|lia|]. apply wp_bind_ret.
    eapply wp_mono; [apply insert_spec; [apply H5|lia|done|done]|]. intros u s6 [T6 _]. strans. }
  destruct file.
  { apply wp_bind_ret, (Hrest true); [apply reads_refl, L2|]. intros _. by apply Hfile. }
  eapply wp_use; [apply (supported_fresh s2 p n DIR_MODE); [done|by right|by apply (step_node_ptr s1); [|apply R2|]|done]|].
  intros ok s3 (R3 & _ & Hdir). apply Hrest; [done|]. intros E. by apply Hdir.
Qed.

End Bodies.

(** ** Ext2 engine: transactions

    [finish] commits or rolls back: a failed operation leaves the disk and the
    superblock and descriptors in memory as they were. *)
Section Commit.
Context {D : Type} `{BD : BlockDevice D} {DL : DeviceLaws D}.
#[local] Abbreviation St := (Fs D).
#[local] Abbreviation M := (@M D).
Implicit Types (s : St) (p q e : Ptr).

(** ** The invariant between operations *)
Record wf s : Prop := {
  wf_mem : mem_ok s;
  wf_layout : mounted s = true -> layout (geo s) (superblock s) (descriptors s) }.
Lemma laid_wf s : laid s -> wf s.
Proof. intros [Hm HL]. by constructor. Qed.
Lemma wf_laid s : wf s -> mounted s = true -> laid s.
Proof. intros [Hm HL] H. split; [done|by apply HL]. Qed.
Lemma unmounted_wf s : mem_ok s -> mounted s = false -> wf s.
Proof. intros Hm H. constructor; [done|congruence]. Qed.

(** ** Only the device changes *)
Definition dev_change s s' : Prop := exists d, s' = set_dev d s.
Lemma dev_change_refl s : dev_change s s.
Proof. exists (dev s). by destruct s. Qed.
Lemma dev_change_trans s1 s2 s3 : dev_change s1 s2 -> dev_change s2 s3 -> dev_change s1 s3.
Proof. intros [d ->] [d' ->]. by exists d'. Qed.
Lemma set_dev_mem s d : mem_ok s -> mem_ok (set_dev d s).
Proof. intros Hm. destruct Hm. by constructor. Qed.

(** ** Observers: what they see stays as it was *)
Record observed s s' : Prop := {
  obs_wf : wf s';
  obs_image : image (dev s') = image (dev s);
  obs_super : superblock s' = superblock s;
  obs_desc : descriptors s' = descriptors s;
  obs_cwd : cwd s' = cwd s;
  obs_mounted : mounted s' = true -> mounted s = true }.
Lemma observed_refl s : wf s -> observed s s.
Proof. by constructor. Qed.
Lemma observed_trans s1 s2 s3 : observed s1 s2 -> observed s2 s3 -> observed s1 s3.
Proof. intros [W1 I1 S1 D1 C1 M1] [W2 I2 S2 D2 C2 M2]. constructor; try congruence; auto. Qed.
Lemma reads_observed s s' : laid s -> reads s s' -> observed s s'.
Proof.
  intros Hl R. pose proof (reads_step _ _ R) as T.
  constructor; try apply T; try apply R; [by apply laid_wf, (reads_laid s)|]. by rewrite (step_mounted _ _ T).
Qed.
Lemma observed_reads s s1 s2 : observed s s1 -> laid s1 -> reads s1 s2 -> observed s s2.
Proof. intros H L R. apply (observed_trans s s1); [done|by apply reads_observed]. Qed.

(** ** [engine_ready] *)
Lemma engine_ready_spec s : wf s ->
  wp engine_ready (fun r s' => observed s s' /\
    (if r : bool then reads s s' /\ mounted s = true /\ laid s' else mounted s' = false)) s.
Proof.
  intros Hw. unfold engine_ready. apply wp_gets. destruct (mounted s) eqn:Hmt.
  2: { apply wp_ret. split; [by apply observed_refl|done]. }
  pose proof (wf_laid s Hw Hmt) as Hl. pose proof (present_image (dev s)) as Hpi.
  apply wp_bind. unfold wp at 1. destruct (disk_present (dev s)) as [ok d] eqn:Ed. cbn [snd] in Hpi.
  assert (reads s (set_dev d s)) as R.
  { assert (set_dev d s = set_cache (cache s) (set_error (cache_error s) (set_failed (failed_block s) (set_dev d s)))) as E by done.
    rewrite E. apply reads_device; try done; try apply Hl; [|by left].
    intros n (Hf & Hu). split; [done|]. cbn. destruct Hu as [?|[?|Hu]]; auto. do 2 right.
    pose proof (present_sticky (dev s) (u32 (n * 2)) 2 Hu) as Hst. by rewrite Ed in Hst. }
  destruct ok; cbn [negb].
  - apply wp_ret. split; [by apply reads_observed|]. split; [done|]. split; [done|]. by apply (reads_laid s).
  - apply wp_modify. unfold println. apply wp_modify, wp_ret. split; [|done].
    constructor; try done. apply unmounted_wf; [|done]. destruct (proj1 Hl). by constructor.
Qed.
Lemma wp_ready {B} s (f : bool -> M B) Q : wf s ->
  (forall s1, observed s s1 -> mounted s1 = false -> wp (f false) Q s1) ->
  (forall s1, observed s s1 -> reads s s1 -> mounted s = true -> laid s1 -> wp (f true) Q s1) ->
  wp (bind engine_ready f) Q s.
Proof.
  intros Hw Hf Ht. eapply wp_use; [by apply engine_ready_spec|]. intros [] s1 [Ho H1]; [|by apply Hf].
  destruct H1 as (R & Hm & L). by apply Ht.
Qed.

(** ** Device writes *)
Lemma wp_m_and (a b : M bool) (Q : bool -> St -> Prop) s :
  wp a (fun r s' => if r then wp b Q s' else Q false s') s -> wp (m_and a b) Q s.
Proof. intros H. unfold m_and. apply wp_bind. eapply wp_mono; [exact H|]. by intros [] s' H'. Qed.
Lemma write_device_change s lba bs : wp (write_device lba bs) (fun _ s' => dev_change s s') s.
Proof. unfold wp, write_device. destruct (disk_write (dev s) lba bs) as [ok d]. by exists d. Qed.
Lemma flush_device_change s : wp flush_device (fun _ s' => dev_change s s') s.
Proof. unfold wp, flush_device. destruct (disk_flush (dev s)) as [ok d]. by exists d. Qed.
Lemma skip_change s : wp skip (fun _ s' => dev_change s s') s.
Proof. apply dev_change_refl. Qed.

(** A computation that changes the device only. *)
Definition touches_device (m : M bool) : Prop := forall s, wp m (fun _ s' => dev_change s s') s.
Lemma touches_and a b : touches_device a -> touches_device b -> touches_device (m_and a b).
Proof.
  intros Ha Hb s. apply wp_m_and. eapply wp_mono; [apply Ha|]. intros [] s' H'; [|done].
  eapply wp_mono; [apply Hb|]. intros r s2 H2. by eapply dev_change_trans.
Qed.
Lemma touches_if (c : bool) a : touches_device a -> touches_device (if c then a else skip).
Proof. intros Ha. destruct c; [done|]. intros s. apply skip_change. Qed.
Lemma touches_write lba bs : touches_device (write_device lba bs).
Proof. intros s. apply write_device_change. Qed.
Lemma touches_slots l : touches_device (write_slots l).
Proof.
  induction l as [|c l IH]; cbn [write_slots]; [intros s; apply skip_change|].
  repeat apply touches_and; [apply touches_if, touches_write..|done].
Qed.
Lemma touches_descriptors n k now before : touches_device (write_descriptors n k now before).
Proof.
  revert k. induction n as [|n IH]; intros k; cbn [write_descriptors]; [intros s; apply skip_change|].
  apply touches_and; [apply touches_if, touches_write|apply IH].
Qed.
Lemma touches_super lba half : touches_device (write_super lba half).
Proof. intros s. unfold write_super. apply wp_gets, touches_write. Qed.

(** ** [commit]: the device, and the state field of the superblock *)
Definition set_state_value (v : Z) (sb : list Z) : list Z := splice sb 58 (le16_bytes v).
(** As [s] but for the device and the superblock's state field. *)
Definition commits s s' : Prop :=
  exists d sb, s' = set_dev d (set_super sb s) /\ (sb = superblock s \/ exists v, sb = set_state_value v (superblock s)).

Lemma set_state_twice v w sb : zlen sb = 1024 -> set_state_value v (set_state_value w sb) = set_state_value v sb.
Proof.
  intros Hz. unfold set_state_value.
  assert (zlen (splice sb 58 (le16_bytes w)) = 1024) as Hz'.
  { rewrite zlen_splice; [done|lia|]. change (zlen (le16_bytes w)) with 2. lia. }
  apply list_eq. intros i. destruct (Nat.lt_ge_cases i 1024).
  2: { rewrite !lookup_ge_None_2; [done|..].
       - enough (zlen (splice sb 58 (le16_bytes v)) = 1024) by (unfold zlen in *; lia).
         rewrite zlen_splice; [done|lia|]. change (zlen (le16_bytes v)) with 2. lia.
       - enough (zlen (splice (splice sb 58 (le16_bytes w)) 58 (le16_bytes v)) = 1024) by (unfold zlen in *; lia).
         rewrite zlen_splice; [done|lia|]. change (zlen (le16_bytes v)) with 2. lia. }
  assert (forall l : list Z, zlen l = 1024 -> l !! i = Some (byte_at l (Z.of_nat i))) as Hl.
  { intros l Hll. unfold byte_at. rewrite Nat2Z.id, nth_lookup. destruct (l !! i) eqn:E; [done|]. apply lookup_ge_None_1 in E. unfold zlen in Hll. lia. }
  rewrite !Hl.
  - f_equal. rewrite !byte_splice; try (change (zlen (le16_bytes _)) with 2); try lia.
    destruct ((58 <=? Z.of_nat i) && (Z.of_nat i <? 58 + 2)); done.
  - rewrite zlen_splice; [done|lia|]. change (zlen (le16_bytes v)) with 2. lia.
  - rewrite zlen_splice; [done|lia|]. change (zlen (le16_bytes v)) with 2. lia.
Qed.

Lemma commits_dev s s1 s' : commits s s1 -> dev_change s1 s' -> commits s s'.
Proof. intros (d & sb & -> & H) [d' ->]. exists d', sb. done. Qed.
Lemma touches_commits s s1 m : touches_device m -> commits s s1 -> wp m (fun _ s' => commits s s') s1.
Proof. intros Hm H. eapply wp_mono; [apply Hm|]. intros r s2 H2. by eapply commits_dev. Qed.
Lemma set_state_commits s s1 v : mem_ok s -> commits s s1 -> wp (set_state v) (fun r s' => r = true /\ commits s s') s1.
Proof.
  intros Hm (d & sb & -> & H). unfold set_state.
  assert (zlen (superblock s) = 1024) as Hz by apply Hm.
  assert (zlen sb = 1024) as Hzb.
  { destruct H as [->|[w ->]]; [done|]. unfold set_state_value. rewrite zlen_splice; [done|lia|].
    change (zlen (le16_bytes w)) with 2. lia. }
  apply wp_put16; [unfold valid; cbn; lia|]. apply wp_ret. split; [done|].
  exists d, (set_state_value v sb). split; [done|]. right. exists v.
  destruct H as [->|[w ->]]; [done|]. by apply set_state_twice.
Qed.
Lemma wp_commits_and s s1 (a b : M bool) : wp a (fun _ s' => commits s s') s1 ->
  (forall s', commits s s' -> wp b (fun _ s' => commits s s') s') -> wp (m_and a b) (fun _ s' => commits s s') s1.
Proof. intros Ha Hb. apply wp_m_and. eapply wp_mono; [exact Ha|]. intros [] s' H'; [by apply Hb|done]. Qed.

Lemma commit_spec s : mem_ok s -> wp commit (fun _ s' => commits s s') s.
Proof.
  intros Hm. unfold commit.
  assert (commits s s) as H0 by (exists (dev s), (superblock s); split; [by destruct s|by left]).
  assert (forall v s1, commits s s1 -> wp (set_state v) (fun _ s' => commits s s') s1) as Hst.
  { intros v s1 H1. eapply wp_mono; [by apply set_state_commits|]. by intros r s' [_ H]. }
  repeat first
    [ apply wp_commits_and; [first [by apply Hst|apply touches_commits; [first [apply touches_super|apply touches_slots
        |apply touches_descriptors|intros ?; apply flush_device_change|apply touches_if, touches_super]|done]]|intros ? ?]
    | apply wp_gets ].
  apply touches_commits; [intros ?; apply flush_device_change|done].
Qed.

(** ** [finish] *)
Lemma rollback_mem s : mem_ok s -> mem_ok (set_cache (map (fun c => {| slot_block := slot_block c; slot_data := slot_before c;
    slot_before := slot_before c |}) (cache s)) (set_super (saved_super s) (set_descriptors (saved_descriptors s) s))).
Proof.
  intros [? ? ? ? ? Hc Hn ? ?]. constructor; cbn; try done.
  - apply Forall_map. eapply Forall_impl; [exact Hc|]. intros c (? & ? & ?). done.
  - unfold zlen in *. by rewrite length_map.
Qed.

(** How a transaction ends, from the state [s0] it began in: rolled back,
    committed, or unmounted. *)
Record ended s0 (r : Z) s' : Prop := {
  ended_wf : wf s';
  ended_cwd : cwd s' = cwd s0;
  ended_result : r = 0 \/ r = -1;
  ended_failed : r = -1 -> mounted s' = true ->
    image (dev s') = image (dev s0) /\ superblock s' = superblock s0 /\ descriptors s' = descriptors s0 }.

(** The state inside a transaction. *)
Record inside s0 s : Prop := {
  in_laid : laid s;
  in_layout : layout (geo s) (superblock s0) (descriptors s0);
  in_image : image (dev s) = image (dev s0);
  in_saved : saved_super s = superblock s0 /\ saved_descriptors s = descriptors s0;
  in_cwd : cwd s = cwd s0 }.
Lemma inside_step s0 s s' : inside s0 s -> step s s' -> inside s0 s'.
Proof.
  intros [L HL I [V1 V2] C] T. destruct (step_saved _ _ T) as [W1 W2].
  constructor; [by apply (step_laid s)|by rewrite (step_geo _ _ T)|by rewrite (step_image _ _ T)|split; congruence|].
  by rewrite (step_cwd _ _ T).
Qed.

Lemma set_state_laid sb s d : laid s -> commits s (set_dev d (set_super sb s)) -> laid (set_dev d (set_super sb s)).
Proof.
  intros Hl (d' & sb' & E & Hc). injection E as -> ->.
  assert (zlen (superblock s) = 1024) as Hz by apply Hl.
  assert (buffer 1024 sb' /\ le32 sb' 100 = le32 (superblock s) 100) as [Hbuf H100].
  { destruct Hc as [->|[v ->]]; [split; [apply Hl|done]|]. unfold set_state_value. split; [split|].
    - rewrite zlen_splice; [done|lia|]. change (zlen (le16_bytes v)) with 2. lia.
    - apply splice_ok; [apply Hl|apply le16_bytes_ok].
    - apply le32_splice_out; change (zlen (le16_bytes v)) with 2; lia. }
  destruct Hl as [Hm HL]. split; [destruct Hm; by constructor|]. constructor; [apply HL|].
  intros g Hg. cbn in *. destruct (lay_groups _ _ _ HL g Hg) as [B I Di Tb BA IA].
  unfold metadata_end, backup_at in *. by constructor; unfold metadata_end, backup_at; rewrite ?H100.
Qed.

Lemma finish_spec s0 s r : inside s0 s -> wp (finish r) (fun v s' => ended s0 v s') s.
Proof.
  intros [Hl HL Hi [Hsb Hgd] Hcw]. unfold finish. apply wp_gets.
  destruct (truth r || cache_error s).
  { unfold rollback. apply wp_modify, wp_ret. constructor; [|done|by right|].
    - constructor; [apply rollback_mem, Hl|]. intros _. cbn. by rewrite Hsb, Hgd.
    - intros _ _. cbn. done. }
  apply wp_gets. destruct (negb _); [by apply wp_ret; constructor; [apply laid_wf| |left|]|].
  eapply wp_use; [apply commit_spec, Hl|]. intros ok s1 H1. pose proof H1 as (d & sb & -> & _).
  pose proof (set_state_laid sb s d Hl H1) as L1. destruct ok.
  - apply wp_ret. by constructor; [apply laid_wf| |left|].
  - apply wp_modify. unfold println. apply wp_modify, wp_ret. constructor; [|done|by right|done].
    apply unmounted_wf; [|done]. destruct (proj1 L1). by constructor.
Qed.

(** ** [begin] and [transaction] *)
Definition begun s : St := set_saved (superblock s) (descriptors s) s.
Lemma begun_laid s : laid s -> laid (begun s).
Proof. intros [Hm HL]. split; [destruct Hm; by constructor|done]. Qed.
Lemma begun_held s n p : held s n p -> held (begun s) n p.
Proof. intros (Hl & Hp & Hf). split; [by apply begun_laid|]. by split. Qed.

Lemma observed_ended s s' : observed s s' -> ended s (-1) s'.
Proof. intros [W I S Ds C M]. constructor; try done. by right. Qed.
Lemma begin_spec {B} s (f : bool -> M B) Q : wf s ->
  (forall s1, observed s s1 -> wp (f true) Q s1) ->
  (forall s1, reads s s1 -> laid s1 -> mounted s = true -> inside s (begun s1) -> wp (f false) Q (begun s1)) ->
  wp (bind begin f) Q s.
Proof.
  intros Hw Ht Hf. unfold begin. apply wp_assoc, wp_ready; [done|intros s1 O1 H1; by apply wp_bind_ret, Ht|].
  intros s1 O1 R1 Hm L1. cbn [negb]. apply wp_assoc, wp_gets. destruct (cache_error s1).
  { by apply wp_bind_ret, Ht. }
  apply wp_assoc, wp_modify, wp_bind_ret. fold (begun s1). apply Hf; [done..|].
  destruct O1 as [W I S Ds C Mt]. pose proof (wf_laid s Hw Hm) as Hl.
  constructor; [by apply begun_laid| |done|done|done].
  cbn. rewrite (step_geo _ _ (reads_step _ _ R1)). apply Hl.
Qed.

Lemma transaction_use s (body : M Z) : wf s ->
  (forall s1, reads s s1 -> laid s1 -> wp body (fun _ s2 => step (begun s1) s2) (begun s1)) ->
  wp (transaction body) (fun r s' => ended s r s') s.
Proof.
  intros Hw Hb. unfold transaction. apply begin_spec; [done|intros s1 O1; by apply wp_ret, observed_ended|].
  intros s1 R1 L1 Hm I1. eapply wp_use; [by apply Hb|]. intros r s2 T. by apply finish_spec, (inside_step s (begun s1)).
Qed.
Lemma transaction_spec s (body : M Z) : wf s ->
  (forall s1, laid s1 -> wp body (fun _ s2 => step s1 s2) s1) -> wp (transaction body) (fun r s' => ended s r s') s.
Proof. intros Hw Hb. apply transaction_use; [done|]. intros s1 R1 L1. by apply Hb, begun_laid. Qed.

End Commit.
