(* ===== verification/Ext2Engine.v ===== *)
(** * Ext2 engine: the public operations

    Each operation, from a state between operations, is free of undefined
    behaviour and terminates; readers leave the volume as it was, and writers
    end a transaction. *)
From Stdlib Require Import String.
From S2P Require Import Prelude CString Ext2Core Ext2Dir Ext2Ops Ext2Mount Ext2Logic Ext2Frame Ext2Blocks.
From S2P Require Import Ext2Walk Ext2Alloc Ext2Create Ext2Files Ext2Bodies.

Section Engine.
Context {D : Type} `{BD : BlockDevice D} {DL : DeviceLaws D}.
#[local] Abbreviation St := (Fs D).
#[local] Abbreviation M := (@M D).
Implicit Types (s : St) (p q e : Ptr).

Lemma file_mode : mode_type FILE_MODE. Proof. by left. Qed.
Lemma dir_mode : mode_type DIR_MODE. Proof. by right. Qed.
#[local] Hint Resolve file_mode dir_mode : barnix.

(** A result of [lookup_path]: an inode number or -1, which [node_of] rejects. *)
Lemma wp_path {B} s name (f : Z -> M B) Q : laid s ->
  (forall r s', reads s s' -> laid s' -> r = -1 \/ is_u32 r -> wp (f r) Q s') -> wp (bind (lookup_path name) f) Q s.
Proof.
  intros Hl Hf. eapply wp_use; [by apply lookup_path_spec|]. intros r s' [R H]. apply Hf; [done|by apply (reads_laid s)|done].
Qed.

(** ** [engine_size], [engine_exec_check], [engine_is_dir] *)
Lemma engine_size_spec s name : wf s ->
  wp (engine_size name) (fun r s' => observed s s' /\ (r = -1 \/ 0 <= r <= MAX_FILE /\ laid s')) s.
Proof.
  intros Hw. unfold engine_size. apply wp_ready; [done|intros s1 O1 _; apply wp_ret; auto|].
  intros s1 O1 R1 Hm L1. cbn [negb]. apply wp_path; [done|]. intros n s2 R2 L2 Hn.
  pose proof (observed_reads s s1 s2 O1 L1 R2) as O2.
  apply supported_node_spec; [done|by left|intros r s3 R3 _; apply wp_ret|intros p s3 R3 Hn3 Hlv Hh Hok].
  - split; [by apply (observed_reads s s2)|by left].
  - unfold wp. rewrite get32_eq; [|apply Hh|apply (held_valid s3 n); [done|lia..]].
    split; [by apply (observed_reads s s2)|]. right. pose proof (node_size _ _ _ Hok) as Hs. cbn in Hs.
    assert (is_u32 (v32 s3 (padd p 4))) as Hu by apply v32_range, Hh. unfold is_u32 in Hu. split; [lia|apply Hh].
Qed.

Lemma engine_exec_check_spec s name : wf s -> wp (engine_exec_check name) (fun _ s' => observed s s') s.
Proof.
  intros Hw. unfold engine_exec_check. apply wp_ready; [done|intros s1 O1 _; by apply wp_ret|].
  intros s1 O1 R1 Hm L1. cbn [negb]. apply wp_path; [done|]. intros n s2 R2 L2 Hn.
  pose proof (observed_reads s s1 s2 O1 L1 R2) as O2.
  destruct (Z.ltb_spec n 0); [by apply wp_ret|].
  eapply wp_use; [apply inode_spec; [done|lia]|]. intros [p|] s3 (R3 & _ & H3).
  2: { apply wp_ret. by apply (observed_reads s s2). }
  destruct H3 as (Hp & Hlv & Hf). pose proof (reads_laid s2 s3 L2 R3) as L3.
  pose proof (observed_reads s s2 s3 O2 L2 R3) as O3.
  assert (valid s3 p 2) as Hv by (rewrite <- (padd_0 p); apply (node_valid s3 n); [done|done|lia..]).
  unfold kind. apply wp_assoc, wp_get16; [apply L3|done|]. apply wp_bind_ret.
  destruct (_ =? FILE_MODE); cbn [negb]; [|by apply wp_ret].
  apply wp_get16; [apply L3|done|]. destruct (has_bits _ _); cbn [negb]; [|by apply wp_ret].
  eapply wp_use; [apply (supported_fresh s3 p n); [done|by left|done|done]|]. intros ok s4 (R4 & _).
  apply wp_ret. by apply (observed_reads s s3).
Qed.

Lemma engine_is_dir_spec s name : wf s -> wp (engine_is_dir name) (fun r s' => observed s s' /\ (r = 0 \/ r = 1)) s.
Proof.
  intros Hw. unfold engine_is_dir. apply wp_ready; [done|intros s1 O1 _; by apply wp_ret; auto|].
  intros s1 O1 R1 Hm L1. cbn [negb]. apply wp_path; [done|]. intros n s2 R2 L2 Hn.
  pose proof (observed_reads s s1 s2 O1 L1 R2) as O2.
  destruct (Z.leb_spec n 0); [by apply wp_ret; auto|].
  apply (supported_inode_spec s2 n DIR_MODE (fun _ ok => ret (c_bool ok))); [done|lia|by right| |].
  - intros r s3 R3 _. apply wp_ret. split; [by apply (observed_reads s s2)|by left].
  - intros p s3 R3 _ _ _. apply wp_ret. split; [by apply (observed_reads s s2)|by right].
Qed.

(** ** Reading *)
Lemma slice_length l o n : 0 <= o -> 0 <= n -> o + n <= zlen l -> zlen (slice l o n) = n.
Proof. unfold slice, zlen. intros. rewrite length_take, length_drop. lia. Qed.
Lemma slice_ok l o n : bytes_ok l -> bytes_ok (slice l o n).
Proof. intros. by apply Forall_take, Forall_drop. Qed.

Lemma rounds_nonneg offset size : 0 <= size -> 0 <= rounds offset size.
Proof. intros. unfold rounds. destruct (Z.eqb_spec size 0); [lia|]. pose proof (Z.div_le_mono offset (offset + size - 1) 1024). lia. Qed.
Lemma read_loop_spec fuel s n p offset size out : held s n p -> node_ok s p FILE_MODE ->
  0 <= offset -> 0 <= size -> offset + size <= MAX_FILE -> rounds offset size < Z.of_nat fuel -> bytes_ok out ->
  wp (read_loop fuel p offset size out) (fun r s' => reads s s' /\ zlen r = zlen out + size /\ bytes_ok r) s.
Proof.
  revert s offset size out. induction fuel as [|fuel IH]; intros s offset size out Hh Hok Ho Hs Hmax Hf Hout.
  { pose proof (rounds_nonneg offset size). lia. }
  cbn [read_loop]. destruct (Z.eqb_spec size 0) as [->|Hne].
  { apply wp_ret. split; [apply reads_refl, Hh|]. split; [lia|done]. }
  unfold BLOCK_SIZE. destruct (rounds_next offset size Ho) as (Hc & Hw & Hr); [lia|].
  set (chunk := Z.min (1024 - offset mod 1024) size) in *.
  eapply wp_use; [apply (file_block_spec s n); [done|unfold MAX_FILE in Hmax; dm_lia]|].
  intros b s1 (R1 & -> & _). pose proof (reads_held s s1 n p R1 Hh) as Hh1.
  pose proof (reads_node_ok s s1 n p FILE_MODE R1 Hh Hok) as Hok1.
  assert (forall bs s2, reads s1 s2 -> zlen bs = chunk -> bytes_ok bs ->
    wp (read_loop fuel p (offset + chunk) (size - chunk) (out ++ bs))
      (fun r s' => reads s s' /\ zlen r = zlen out + size /\ bytes_ok r) s2) as Hrest.
  { intros bs s2 R2 Hl Hb. eapply wp_mono.
    - apply IH; [by apply (reads_held s1)|by apply (reads_node_ok s1 s2 n)|lia..|apply Forall_app; by split].
    - intros r s3 (R3 & Hz & Hrb). split; [rtrans|]. split; [|done]. rewrite Hz, zlen_app. lia. }
  unfold truth. destruct (Z.eqb_spec (fptr s1 p (offset / 1024)) 0) as [E|E]; cbn [negb].
  - apply wp_bind_ret, Hrest; [apply reads_refl, Hh1|by rewrite zlen_replicate by lia|].
    apply Forall_forall. intros x Hx%elem_of_replicate. destruct Hx as [-> _]. unfold is_byte. lia.
  - apply wp_assoc. eapply wp_use; [apply block_spec; [apply Hh1|apply laid_blocks, Hh1|by apply (fptr_range s1 n)]|].
    intros base s2 (R2 & B2 & Z2 & F2). apply wp_load.
    + apply (in_block_valid s2 (fptr s1 p (offset / 1024))); [apply (reads_held s1 s2 n p R2 Hh1)|done|..];
        cbn [padd fst snd]; rewrite ?Z2; pose proof (Z.mod_pos_bound offset 1024); lia.
    + lia.
    + apply Hrest; [done| |apply slice_ok, bytes_of_ok, (reads_held s1 s2 n p R2 Hh1)].
      cbn [padd fst snd]. rewrite Z2. pose proof (Z.mod_pos_bound offset 1024).
      apply slice_length; [lia..|]. rewrite (in_block_size s2 (fptr s1 p (offset / 1024))); [lia|apply (reads_held s1 s2 n p R2 Hh1)|done].
Qed.

Definition u32_args (offset size : Z) : Prop := is_u32 offset /\ is_u32 size.
Lemma engine_read_spec s name offset size : wf s -> u32_args offset size ->
  wp (engine_read name offset size) (fun r s' => observed s s' /\ bytes_ok r.2 /\
    ((r = (-1, [])) \/ (0 <= r.1 <= size /\ zlen r.2 = r.1))) s.
Proof.
  intros Hw [Ho Hz]. unfold is_u32 in *. assert (bytes_ok []) as Hnil by constructor.
  unfold engine_read. apply wp_ready; [done|intros s1 O1 _; apply wp_ret; auto|].
  intros s1 O1 R1 Hm L1. cbn [negb]. apply wp_path; [done|]. intros n s2 R2 L2 Hn.
  pose proof (observed_reads s s1 s2 O1 L1 R2) as O2.
  apply supported_node_spec; [done|by left|intros r s3 R3 _; apply wp_ret|intros p s3 R3 Hn3 Hlv Hh Hok].
  { split; [by apply (observed_reads s s2)|auto]. }
  pose proof (observed_reads s s2 s3 O2 L2 R3) as O3.
  apply (wp_node s3 n); [done|lia|]. set (len := v32 s3 (padd p 4)).
  pose proof (node_size _ _ _ Hok) as Hs. cbn in Hs. fold len in Hs.
  destruct (Z.ltb_spec len offset); [apply wp_ret; auto|].
  eapply wp_use; [apply (read_loop_spec 270 s3 n p); [done|done|lia..| |done]|].
  { apply rounds_bound; lia. }
  intros out s4 (R4 & Hl & Hb). apply wp_ret. split; [apply (observed_reads s s3); [done|apply Hh|done]|].
  split; [done|]. right. cbn. change (zlen []) with 0 in Hl. lia.
Qed.

(** ** [engine_cat] *)
Lemma wp_println {B} c t (f : unit -> M B) Q s : wp (f tt) Q (add_output (Println c t) s) -> wp (bind (println c t) f) Q s.
Proof. done. Qed.
Lemma wp_print {B} c t (f : unit -> M B) Q s : wp (f tt) Q (add_output (Print c t) s) -> wp (bind (print c t) f) Q s.
Proof. done. Qed.
Lemma output_wf s o : wf s -> wf (add_output o s).
Proof. intros [Hm HL]. constructor; [destruct Hm; by constructor|done]. Qed.
Lemma output_observed s s' o : observed s s' -> observed s (add_output o s').
Proof. intros [W I S Ds C M0]. constructor; try done. by apply output_wf. Qed.
Lemma output_reads s o : mem_ok s -> reads s (add_output o s).
Proof. intros Hm. constructor; try done. constructor; try done. destruct Hm; by constructor. Qed.

Lemma cat_loop_spec fuel s name size offset : wf s -> 0 <= offset -> size <= MAX_FILE -> size - offset < Z.of_nat fuel ->
  (0 < fuel)%nat -> wp (cat_loop fuel name size offset) (fun _ s' => observed s s') s.
Proof.
  revert s offset. induction fuel as [|fuel IH]; intros s offset Hw Ho Hs Hf Hp; [lia|]. cbn [cat_loop].
  destruct (Z.ltb_spec offset size); [|by apply output_observed, observed_refl].
  eapply wp_use; [apply engine_read_spec; [done|unfold u32_args, is_u32, MAX_FILE in *; lia]|].
  intros r s1 (O1 & Hb & Hr). destruct (Z.leb_spec r.1 0); [by apply output_observed|].
  apply wp_print. destruct Hr as [->|[Hr _]]; [cbn in *; lia|].
  eapply wp_mono; [apply IH; [apply output_wf, O1|lia..]|].
  intros u s2 O2. apply (observed_trans s (add_output (Print WHITE (Lit (cstr r.2))) s1)); [by apply output_observed|done].
Qed.
Lemma engine_cat_spec s name : wf s -> wp (engine_cat name) (fun _ s' => observed s s') s.
Proof.
  intros Hw. unfold engine_cat. eapply wp_use; [by apply engine_size_spec|]. intros size s1 [O1 Hr].
  destruct (Z.ltb_spec size 0); [by apply output_observed|]. destruct Hr; [lia|].
  eapply wp_mono; [apply cat_loop_spec; [apply O1|lia..]|]. intros u s2 O2. by apply (observed_trans s s1).
Qed.

(** ** Writers *)
Lemma engine_touch_spec s name : wf s -> bytes_ok name -> wp (engine_touch name) (fun r s' => ended s r s') s.
Proof.
  intros Hw Hb. apply transaction_spec; [done|]. intros s1 L1.
  eapply wp_mono; [by apply create_spec|]. by intros r s2 [T _].
Qed.
Lemma engine_mkdir_spec s name : wf s -> bytes_ok name -> wp (engine_mkdir name) (fun r s' => ended s r s') s.
Proof.
  intros Hw Hb. apply transaction_spec; [done|]. intros s1 L1.
  eapply wp_mono; [by apply create_spec|]. by intros r s2 [T _].
Qed.
Lemma engine_rm_spec s name : wf s -> wp (engine_rm name) (fun r s' => ended s r s') s.
Proof. intros Hw. apply transaction_spec; [done|]. intros s1 L1. by apply remove_node_spec; [|left]. Qed.
Lemma engine_rmdir_spec s name : wf s -> wp (engine_rmdir name) (fun r s' => ended s r s') s.
Proof. intros Hw. apply transaction_spec; [done|]. intros s1 L1. by apply remove_node_spec; [|right]. Qed.
Lemma engine_mv_spec s source destination : wf s -> bytes_ok destination ->
  wp (engine_mv source destination) (fun r s' => ended s r s') s.
Proof. intros Hw Hb. apply transaction_spec; [done|]. intros s1 L1. by apply move_node_spec. Qed.

Lemma split_last_app (path a b : list Z) : split_last path = Some (a, b) -> path = a ++ SLASH :: b.
Proof.
  revert a b. induction path as [|c path IH]; cbn; intros a b; [done|].
  destruct (split_last path) as [[x y]|].
  - intros [= <- <-]. cbn. f_equal. by apply IH.
  - destruct (Z.eqb_spec c SLASH) as [->|]; [|done]. by intros [= <- <-].
Qed.
Lemma set_cwd_laid c s : is_u32 c -> laid s -> laid (set_cwd c s).
Proof. intros Hc [Hm HL]. split; [destruct Hm; by constructor|done]. Qed.
(** The current directory is moved inside a transaction, and moved back. *)
Lemma inside_move s0 s s' dir : inside s0 s -> is_u32 dir -> step (set_cwd dir s) s' -> inside s0 (set_cwd (cwd s0) s').
Proof.
  intros [L HL I [V1 V2] C] Hd T. destruct (step_saved _ _ T) as [W1 W2].
  pose proof (step_laid _ _ (set_cwd_laid dir s Hd L) T) as L'.
  constructor; cbn; [apply set_cwd_laid; [rewrite <- C; apply L|done]|by rewrite (step_geo _ _ T)|by rewrite (step_image _ _ T)| |done].
  split; [by rewrite W1|by rewrite W2].
Qed.

Lemma engine_write_spec s name bs size : wf s -> (forall n, name = Some n -> bytes_ok n) -> bytes_ok bs -> size <= zlen bs ->
  wp (engine_write name bs size) (fun r s' => ended s r s') s.
Proof.
  intros Hw Hn Hb Hs. unfold engine_write.
  destruct name as [name|]; [|by apply wp_ret, observed_ended, observed_refl]. specialize (Hn name eq_refl).
  apply begin_spec; [done|intros s1 O1; by apply wp_ret, observed_ended|]. intros s1 R1 L1 Hm I1.
  apply wp_gets. pose proof (begun_laid s1 L1) as LB. pose proof (in_cwd _ _ I1) as Ec.
  assert (forall s2 dir base, reads (begun s1) s2 -> is_u32 dir -> bytes_ok base ->
    wp (let* r := write_file base bs size in modify (set_cwd (cwd (begun s1)));; finish r)
       (fun r s' => ended s r s') (set_cwd dir s2)) as Hrest.
  { intros s2 dir base R2 Hd Hbase. pose proof (reads_laid _ s2 LB R2) as L2.
    eapply wp_use; [apply write_file_spec; [by apply set_cwd_laid|done..]|]. intros r s3 T.
    apply wp_modify. apply finish_spec. rewrite Ec. apply (inside_move s s2 s3 dir); [|done|done].
    by apply (inside_step s (begun s1)); [|apply R2]. }
  destruct (split_last name) as [[parent base]|] eqn:Esp.
  2: { apply (Hrest (begun s1) (cwd (begun s1)) name); [apply reads_refl, LB|apply LB|done]. }
  apply split_last_app in Esp. assert (bytes_ok base) as Hbase.
  { unfold bytes_ok in *. rewrite Esp in Hn. apply Forall_app in Hn as [_ Hn]. by apply Forall_cons in Hn as [_ Hn]. }
  destruct (256 <=? zlen parent); [by apply finish_spec|].
  apply wp_path; [done|]. intros dir s2 R2 L2 Hd.
  assert (forall s3, reads s2 s3 -> wp (finish (-1)) (fun r s' => ended s r s') s3) as Hfail.
  { intros s3 R3. apply finish_spec, (inside_step s (begun s1)); [done|]. apply (reads_step (begun s1)). rtrans. }
  destruct (Z.leb_spec dir 0); [apply wp_bind_ret; cbn [negb]; apply Hfail, reads_refl, L2|].
  destruct Hd as [?|Hd]; [lia|]. apply wp_assoc.
  apply (supported_inode_spec s2 dir DIR_MODE (fun _ ok => if negb ok then finish (-1) else
    modify (set_cwd dir);; (let* r := write_file base bs size in modify (set_cwd (cwd (begun s1)));; finish r)));
    [done|lia|by right| |].
  - intros r s3 R3 _. by apply Hfail.
  - intros p s3 R3 _ _ _. cbn [negb]. apply wp_modify, Hrest; [rtrans|done|done].
Qed.

Lemma ended_after s s1 s2 r : observed s s1 -> ended s1 r s2 -> ended s r s2.
Proof.
  intros [W I S Ds C M0] [W' C' Hr Hf]. constructor; [done|congruence|done|].
  intros Hr1 Hm2. destruct (Hf Hr1 Hm2) as (-> & -> & ->). done.
Qed.
Lemma engine_append_spec s name bs size : wf s -> bytes_ok name -> bytes_ok bs -> size <= zlen bs ->
  wp (engine_append name bs size) (fun r s' => ended s r s') s.
Proof.
  intros Hw Hn Hb Hs. unfold engine_append.
  apply wp_ready; [done|intros s1 O1 _; by apply wp_ret, observed_ended|]. intros s1 O1 R1 Hm L1. cbn [negb orb].
  destruct ((size <? 0) || (MAX_FILE <? size)) eqn:Hz; [by apply wp_ret, observed_ended|].
  apply orb_false_iff in Hz as [? ?]; bool_to_prop.
  apply wp_gets. assert (is_u32 (cwd s1)) as Hcw by apply L1.
  eapply wp_use; [apply lookup_spec; [done|unfold is_u32 in Hcw; lia]|]. intros r s2 (R2 & _).
  pose proof (reads_laid s1 s2 L1 R2) as L2. pose proof (observed_reads s s1 s2 O1 L1 R2) as O2.
  destruct (r.1 =? -1).
  { eapply wp_mono; [apply engine_write_spec; [apply O2|by intros n [= <-]|done|done]|]. intros v s3. by apply ended_after. }
  apply supported_node_spec; [done|by left|intros x s3 R3 _; apply wp_ret, observed_ended; by apply (observed_reads s s2)|].
  intros p s3 R3 Hn3 Hlv Hh Hok. pose proof (observed_reads s s2 s3 O2 L2 R3) as O3.
  apply (wp_node s3 r.1); [done|lia|]. set (len := v32 s3 (padd p 4)).
  pose proof (node_size _ _ _ Hok) as Hsz. cbn in Hsz. fold len in Hsz.
  assert (is_u32 len) as Hlen by apply v32_range, Hh. unfold is_u32 in Hlen.
  rewrite u32_small by (unfold is_u32, MAX_FILE in *; lia).
  destruct (Z.ltb_spec (MAX_FILE - len) size); [by apply wp_ret, observed_ended|].
  eapply wp_mono; [apply transaction_use; [apply O3|]|intros v s5; by apply ended_after].
  intros s4 R4 L4. pose proof (reads_held s3 s4 r.1 p R4 Hh) as Hh4.
  apply (wp_node (begun s4) r.1); [by apply begun_held|lia|].
  change (v32 (begun s4) (padd p 4)) with (v32 s4 (padd p 4)). rewrite (held_v32 s3 s4 r.1 p 4) by (done || lia). fold len.
  apply (write_range_spec (begun s4) r.1); [by apply begun_laid|by apply begun_held|by apply Forall_take|lia|].
  unfold zlen in *. rewrite length_take. lia.
Qed.

Lemma engine_cp_spec s source destination : wf s -> bytes_ok destination ->
  wp (engine_cp source destination) (fun r s' => ended s r s') s.
Proof.
  intros Hw Hb. unfold engine_cp. eapply wp_use; [by apply engine_size_spec|]. intros size s1 [O1 Hr].
  destruct (Z.ltb_spec size 0); [by apply wp_ret, observed_ended|]. destruct Hr; [lia|].
  destruct H0 as [Hr L1]. apply wp_gets. assert (is_u32 (cwd s1)) as Hcw by apply L1.
  eapply wp_use; [apply lookup_spec; [done|unfold is_u32 in Hcw; lia]|]. intros r s2 (R2 & _).
  pose proof (observed_reads s s1 s2 O1 L1 R2) as O2.
  destruct (r.1 =? -1); cbn [negb]; [|by apply wp_ret, observed_ended].
  eapply wp_use; [apply engine_read_spec; [apply O2|unfold u32_args, is_u32, MAX_FILE in *; lia]|].
  intros c s3 (O3 & Hc & Hrd). pose proof (observed_trans s s2 s3 O2 O3) as O.
  destruct (Z.eqb_spec c.1 size); cbn [negb]; [|by apply wp_ret, observed_ended].
  eapply wp_mono; [apply engine_write_spec; [apply O|by intros n [= <-]|done|]|intros v s4; by apply ended_after].
  destruct Hrd as [->|[_ ->]]; [cbn in *; lia|lia].
Qed.

(** ** [engine_cd], [engine_stat], [engine_df], [engine_sync] *)
(** Only the current directory may move. *)
Lemma engine_cd_spec s name : wf s ->
  wp (engine_cd name) (fun r s' => exists s1, observed s s1 /\ (s' = s1 /\ r = -1 \/ r = 0 /\ exists c, is_u32 c /\ s' = set_cwd c s1)) s.
Proof.
  intros Hw. unfold engine_cd. apply wp_ready; [done|intros s1 O1 _; apply wp_ret; eauto|].
  intros s1 O1 R1 Hm L1. cbn [negb]. apply wp_path; [done|]. intros n s2 R2 L2 Hn.
  pose proof (observed_reads s s1 s2 O1 L1 R2) as O2.
  destruct (Z.leb_spec n 0); [apply wp_bind_ret, wp_ret; eauto|]. destruct Hn as [?|Hn]; [lia|]. apply wp_assoc.
  apply (supported_inode_spec s2 n DIR_MODE (fun _ ok => if negb ok then ret (-1) else modify (set_cwd n);; ret 0));
    [done|lia|by right| |].
  - intros r s3 R3 _. apply wp_ret. exists s3. split; [by apply (observed_reads s s2)|auto].
  - intros p s3 R3 _ _ _. apply wp_modify, wp_ret. exists s3. split; [by apply (observed_reads s s2)|eauto].
Qed.
End Engine.
