(* ===== verification/Ext2Listing.v ===== *)
(** * Ext2 engine: listings

    The operations that walk a directory for their caller: what they store
    fits the caller's buffer, and they leave the volume as it was. *)
From Stdlib Require Import String.
From S2P Require Import Prelude CString Ext2Core Ext2Dir Ext2Ops Ext2Mount Ext2Logic Ext2Frame Ext2Blocks.
From S2P Require Import Ext2Walk Ext2Alloc Ext2Create Ext2Files Ext2Bodies Ext2Engine.

Section Listing.
Context {D : Type} `{BD : BlockDevice D} {DL : DeviceLaws D}.
#[local] Abbreviation St := (Fs D).
#[local] Abbreviation M := (@M D).
Implicit Types (s : St) (p q e : Ptr).

(** ** Rules *)
Lemma wp_kind {B} s n p (f : Z -> M B) Q : laid s -> node_ptr s n p ->
  (forall k, wp (f k) Q s) -> wp (bind (kind p) f) Q s.
Proof.
  intros Hl Hp Hf. unfold kind. apply wp_assoc, wp_get16; [apply Hl| |by apply wp_bind_ret].
  rewrite <- (padd_0 p). by apply (node_valid s n); [|done|lia..].
Qed.
Lemma wp_record_inode {B} s b e (f : Z -> M B) Q : laid s -> shown s b e ->
  (0 <= v32 s e <= inode_count (geo s) -> wp (f (v32 s e)) Q s) -> wp (bind (get32 e) f) Q s.
Proof.
  intros Hl Hs Hf. apply wp_get32; [apply Hl| |apply Hf, Hs]. rewrite <- (padd_0 e). apply (shown_head s b); [done..|lia|lia|lia].
Qed.
Lemma wp_record_size {B} s b e (f : Z -> M B) Q : laid s -> shown s b e ->
  (0 <= rec_names s e < 256 -> wp (f (rec_names s e)) Q s) -> wp (bind (load8 (padd e 6)) f) Q s.
Proof.
  intros Hl Hs Hf. apply wp_load8; [apply (shown_head s b); [done..|lia|lia|lia]|]. apply Hf.
  apply v8_range, Hl.
Qed.
Lemma wp_record_text {B} s b e (f : list Z -> M B) Q : laid s -> shown s b e ->
  (zlen (rec_text s e) = rec_names s e -> bytes_ok (rec_text s e) -> wp (f (rec_text s e)) Q s) ->
  wp (bind (load (padd e 8) (rec_names s e)) f) Q s.
Proof.
  intros Hl Hs Hf. assert (0 <= rec_names s e <= rec_len s e - 8) as Hn by apply Hs.
  assert (valid s (padd e 8) (rec_names s e)) as Hv by (apply (shown_valid s b); [done..|lia|lia|lia]).
  assert (region s (padd e 8).1 = Some (bytes_of s e.1)) as Hr.
  { apply (valid_region s e 4); [|lia]. rewrite <- (padd_0 e). apply (shown_head s b); [done..|lia|lia|lia]. }
  apply wp_bind. unfold wp, load. rewrite Hr. unfold valid in Hv. change (padd e 8).1 with e.1 in Hv.
  ztrue (0 <=? (padd e 8).2). ztrue (0 <=? rec_names s e). ztrue ((padd e 8).2 + rec_names s e <=? zlen (bytes_of s e.1)).
  cbn [andb]. apply Hf; [|apply slice_ok, bytes_of_ok, Hl].
  cbn [padd fst snd] in Hv. apply slice_length; lia.
Qed.
Lemma wp_hidden {B} s b e (f : bool -> M B) Q : laid s -> shown s b e -> (forall h, wp (f h) Q s) -> wp (bind (hidden e) f) Q s.
Proof.
  intros Hl Hs Hf. unfold hidden, m_or. apply wp_assoc. eapply wp_use; [by apply (name_equal_spec s b)|].
  intros x s' [-> _]. destruct x; [by apply wp_bind_ret|].
  eapply wp_use; [by apply (name_equal_spec s b)|]. intros y s' [-> _]. apply Hf.
Qed.
(** Walking a supported directory, with readers as bodies. *)
Lemma wp_walk {A R B} (bad : A -> R) (body : A -> Ptr -> M (A + R)) s n p (Inv : A -> Prop) (Post : R -> Prop) a
    (f : A + R -> M B) Q :
  held s n p -> node_ok s p DIR_MODE -> Inv a -> (forall a, Inv a -> Post (bad a)) ->
  (forall a s1 b e, reads s s1 -> laid s1 -> Inv a -> shown s1 b e ->
     wp (body a e) (fun r s2 => reads s1 s2 /\ match r with inl a' => Inv a' | inr x => Post x end) s1) ->
  (forall r s1, reads s s1 -> laid s1 -> match r with inl a' => Inv a' | inr x => Post x end -> wp (f r) Q s1) ->
  wp (bind (walk bad body p a) f) Q s.
Proof.
  intros Hh Hok Ha Hbad Hbody Hf. pose proof (node_size _ _ _ Hok) as Hsz.
  change (DIR_MODE =? FILE_MODE) with false in Hsz. cbv iota in Hsz. destruct Hsz as (_ & c & Ec & Hc & _).
  eapply wp_use; [apply (walk_spec bad body s (fun x _ => Inv x) (fun x s' => reads s s' /\ Post x)) with (n := n) (c := c)|].
  all: try done.
  - intros x s1 R1 HI. split; [done|by apply Hbad].
  - intros x s1 b e R1 L HI Hs. eapply wp_mono; [by apply (Hbody x s1 b e)|]. intros [a'|y] s2 [R2 H2]; [by split|split; [rtrans|done]].
  - intros [a'|x] s1 Hr.
    + destruct Hr as [R1 H1]. apply Hf; [done|by apply (reads_laid s); [apply Hh|]|done].
    + destruct Hr as [R1 H1]. apply Hf; [done|by apply (reads_laid s); [apply Hh|]|done].
Qed.
(** [inode] of a record, whose result is only looked at. *)
Lemma wp_child {B} s n (f : option Ptr -> M B) Q : laid s -> 0 <= n ->
  (forall r s1, reads s s1 -> laid s1 -> (forall p, r = Some p -> node_ptr s1 n p) -> wp (f r) Q s1) ->
  wp (bind (inode n) f) Q s.
Proof.
  intros Hl Hn Hf. eapply wp_use; [by apply inode_spec|]. intros r s1 (R1 & _ & H1).
  apply Hf; [done|by apply (reads_laid s)|]. intros p ->. apply H1.
Qed.

(** ** [engine_getdents] *)
Lemma dirent_length ino o n type (name : list Z) : zlen name = n ->
  let reclen := Z.land (10 + n + 2 + 3) (Z.lnot 3) in zlen (dirent ino o reclen type name) = reclen /\ reclen mod 4 = 0.
Proof.
  intros Hn. cbv zeta. pose proof (zlen_nonneg name).
  assert (Z.land (10 + n + 2 + 3) (Z.lnot 3) = (n + 15) / 4 * 4) as ->.
  { replace (10 + n + 2 + 3) with (n + 15) by lia.
    rewrite <- Z.ldiff_land. change 3 with (Z.ones 2). rewrite Z.ldiff_ones_r by lia.
    rewrite Z.shiftl_mul_pow2, Z.shiftr_div_pow2 by lia. done. }
  split; [|by rewrite Z.mod_mul]. unfold dirent. rewrite !zlen_app.
  change (zlen (le32_bytes ino)) with 4. change (zlen (le32_bytes o)) with 4.
  change (zlen (le16_bytes ((n + 15) / 4 * 4))) with 2. change (zlen [type]) with 1. rewrite Hn.
  rewrite zlen_replicate by dm_lia. dm_lia.
Qed.

Definition dents_fit (capacity : Z) (a : Dents) : Prop :=
  d_written a = zlen (d_out a) /\ zlen (d_out a) <= Z.max 0 capacity.
Definition dents_stop (capacity : Z) (x : DentsStop) : Prop := match x with Full a | Broken a => dents_fit capacity a end.
Lemma entry_type_spec s ino : laid s -> 0 <= ino -> wp (entry_type ino) (fun _ s' => reads s s') s.
Proof.
  intros Hl Hi. unfold entry_type. apply wp_child; [done|done|]. intros [p|] s1 R1 L1 Hp; [|by apply wp_ret].
  apply (wp_kind s1 ino); [done|by apply Hp|]. intros k. destruct (_ =? _); [by apply wp_ret|].
  apply (wp_kind s1 ino); [done|by apply Hp|]. intros k'. by apply wp_ret.
Qed.
Lemma getdents_body_spec capacity s b e a : laid s -> shown s b e -> dents_fit capacity a ->
  wp (getdents_body capacity a e) (fun r s' => reads s s' /\
    match r with inl a' => dents_fit capacity a' | inr x => dents_stop capacity x end) s.
Proof.
  intros Hl Hs Ha. unfold getdents_body. apply (wp_record_inode s b); [done|done|]. intros Hi.
  destruct (_ =? 0); [by apply wp_ret; split; [apply reads_refl, Hl|]|].
  destruct (_ <? _); [by apply wp_ret; split; [apply reads_refl, Hl|]|].
  apply (wp_record_size s b); [done|done|]. intros Hn.
  destruct (Z.ltb_spec (capacity - d_written a) (Z.land (10 + rec_names s e + 2 + 3) (Z.lnot 3)));
    [by apply wp_ret; split; [apply reads_refl, Hl|]|].
  eapply wp_use; [apply entry_type_spec; [done|lia]|]. intros type s1 R1. pose proof (reads_laid s s1 Hl R1) as L1.
  assert (rec_names s1 e = rec_names s e) as En.
  { apply reads_v8; [done|apply (shown_head s b); [done..|lia|lia|lia]|apply Hs]. }
  rewrite <- En. apply (wp_record_text s1 b); [done|by apply (reads_shown s s1)|]. intros Ht _. apply wp_ret. split; [done|].
  unfold dents_fit in *. cbn [d_out d_written]. rewrite zlen_app, (proj1 (dirent_length _ _ (rec_names s1 e) _ _ Ht)). rewrite En. lia.
Qed.

Lemma engine_getdents_spec s name capacity position : wf s ->
  wp (engine_getdents name capacity position) (fun r s' => observed s s' /\ zlen r.1.2 <= Z.max 0 capacity /\
    (r.1.1 = zlen r.1.2 \/ (r.1.1 = -22 /\ r.1.2 = []) \/ (r.1.1 = -1 /\ r.2 = position))) s.
Proof.
  intros Hw. assert (zlen (@nil Z) <= Z.max 0 capacity) as H0 by (change (zlen []) with 0; lia).
  unfold engine_getdents. apply wp_ready; [done|intros s1 O1 _; apply wp_ret; cbn [fst snd]; auto 6|].
  intros s1 O1 R1 Hm L1. cbn [negb]. apply wp_path; [done|]. intros n s2 R2 L2 Hn.
  pose proof (observed_reads s s1 s2 O1 L1 R2) as O2.
  apply supported_node_spec; [done|by right|intros r s3 R3 _; apply wp_ret; split; [by apply (observed_reads s s2)|cbn [fst snd]; auto 6]|].
  intros p s3 R3 Hn3 Hlv Hh Hok. pose proof (observed_reads s s2 s3 O2 L2 R3) as O3.
  apply (wp_walk Broken (getdents_body capacity) s3 n p (dents_fit capacity) (dents_stop capacity)); [done|done|done|done|..].
  - intros a s4 b e R4 L4 Ha Hs. by apply (getdents_body_spec capacity s4 b).
  - intros r s4 R4 L4 Hr. assert (observed s s4) as O4 by (apply (observed_reads s s3); [done|apply Hh|done]).
    destruct r as [a|[a|a]]; destruct Hr as [Hw1 Hr]; apply wp_ret; (split; [done|]); cbn [fst snd]; [auto| |auto 6].
    split; [done|]. rewrite Hw1. destruct (truth (zlen (d_out a))) eqn:E; [auto|]. right; left. split; [done|].
    unfold truth in E. destruct (d_out a) as [|x l]; [done|]. rewrite zlen_cons in E. pose proof (zlen_nonneg l). bool_to_prop. lia.
Qed.

(** ** [engine_ls] *)
Lemma reads_output s s1 o : mem_ok s1 -> reads s s1 -> reads s (add_output o s1).
Proof. intros Hm R. apply (reads_trans s s1); [done|by apply output_reads]. Qed.
Lemma output_laid s o : laid s -> laid (add_output o s).
Proof. intros [Hm HL]. split; [destruct Hm; by constructor|done]. Qed.
Lemma ls_body_spec s b e : laid s -> shown s b e ->
  wp (ls_body tt e) (fun r s' => reads s s' /\ match r with inl _ => True | inr _ => True end) s.
Proof.
  intros Hl Hs. unfold ls_body. apply (wp_record_inode s b); [done|done|]. intros Hi.
  destruct (_ =? 0); [by apply wp_ret; split; [apply reads_refl, Hl|]|].
  apply (wp_hidden s b); [done|done|]. intros []; [by apply wp_ret; split; [apply reads_refl, Hl|]|].
  apply (wp_record_size s b); [done|done|]. intros Hn. apply (wp_record_text s b); [done|done|]. intros _ _.
  apply wp_child; [done|lia|]. intros r s1 R1 L1 Hp. apply wp_print.
  set (s2 := add_output _ s1). assert (laid s2) as L2 by by apply output_laid.
  assert (reads s s2) as R2 by by apply reads_output; [apply L1|].
  assert (forall s3, reads s s3 -> laid s3 -> wp (println WHITE (Lit []);; ret (inl tt : unit + unit))
            (fun r s' => reads s s' /\ match r with inl _ => True | inr _ => True end) s3) as Hend.
  { intros s3 R3 L3. apply wp_println, wp_ret. split; [|done]. by apply reads_output; [apply L3|]. }
  destruct r as [p|]; [|by apply wp_bind_ret, Hend].
  apply wp_assoc, (wp_kind s2 (v32 s e)); [done|by apply Hp|]. intros k.
  destruct (_ =? _); [|by apply wp_bind_ret, Hend]. apply wp_print, Hend; [by apply reads_output; [apply L2|]|by apply output_laid].
Qed.
Lemma engine_ls_spec s : wf s -> wp engine_ls (fun _ s' => observed s s') s.
Proof.
  intros Hw. unfold engine_ls. apply wp_ready; [done|intros s1 O1 _; by apply wp_ret|].
  intros s1 O1 R1 Hm L1. cbn [negb]. apply wp_gets. assert (is_u32 (cwd s1)) as Hcw by apply L1.
  apply supported_inode_spec; [done|unfold is_u32 in Hcw; lia|by right| |].
  - intros r s2 R2 _. apply wp_ret. by apply (observed_reads s s1).
  - intros p s2 R2 _ Hh Hok. pose proof (observed_reads s s1 s2 O1 L1 R2) as O2.
    apply (wp_walk (fun _ => tt) ls_body s2 (cwd s1) p (fun _ => True) (fun _ => True)); [done..| |].
    + intros [] s3 b e R3 L3 _ Hs. by apply (ls_body_spec s3 b).
    + intros r s3 R3 L3 _. apply wp_ret. apply (observed_reads s s2); [done|apply Hh|done].
Qed.

(** ** [engine_getcwd] *)
Lemma climb_spec fuel s n path : laid s -> is_u32 n -> Forall is_u32 path ->
  wp (climb fuel n path) (fun r s' => reads s s' /\ match r with inl l => Forall is_u32 l | inr e => e < 0 end) s.
Proof.
  revert s n path. induction fuel as [|fuel IH]; intros s n path Hl Hn Hp; cbn [climb];
    (destruct (n =? ROOT_INO); [by apply wp_ret; split; [apply reads_refl, Hl|]|]).
  { apply wp_ret. split; [apply reads_refl, Hl|lia]. }
  eapply wp_use; [apply lookup_spec; [done|unfold is_u32 in Hn; lia]|]. intros r s1 (R1 & _ & Hr).
  destruct (Z.leb_spec r.1 0); cbn [orb]; [apply wp_ret; split; [done|lia]|].
  destruct (r.1 =? n); [apply wp_ret; split; [done|lia]|].
  assert (is_u32 r.1) as Hr1.
  { destruct Hr as [->|[->|(ino & e & -> & Hf & _)]]; [cbn in *; lia..|]. cbn.
    pose proof (inode_count_range _ (laid_geometry s1 (reads_laid s s1 Hl R1))). unfold is_u32. lia. }
  eapply wp_mono; [apply IH; [by apply (reads_laid s)|done|by constructor]|]. intros x s2 [R2 H2]. split; [rtrans|done].
Qed.
Lemma name_body_spec child s b e : laid s -> shown s b e ->
  wp (name_body child tt e) (fun r s' => s' = s /\ match r with inr (Some name) => bytes_ok name | _ => True end) s.
Proof.
  intros Hl Hs. unfold name_body. apply (wp_record_inode s b); [done|done|]. intros Hi.
  destruct (negb _); [by apply wp_ret|]. apply (wp_hidden s b); [done|done|]. intros []; [by apply wp_ret|].
  apply (wp_record_size s b); [done|done|]. intros Hn. apply (wp_record_text s b); [done|done|]. intros _ ?. by apply wp_ret.
Qed.
Lemma child_name_spec s n child : laid s -> 0 <= n -> wp (child_name n child) (fun r s' => reads s s' /\ match r with Some name => bytes_ok name | None => True end) s.
Proof.
  intros Hl Hn. unfold child_name. apply supported_inode_spec; [done|done|by right|intros r s1 R1 _; by apply wp_ret|].
  intros p s1 R1 _ Hh Hok.
  apply (wp_walk (fun _ => None) (name_body child) s1 n p (fun _ => True) (fun r => match r with Some name => bytes_ok name | None => True end)); [done..| |].
  - intros [] s2 b e R2 L2 _ Hs. eapply wp_mono; [by apply (name_body_spec child s2 b)|]. intros r s3 [-> Hr].
    split; [apply reads_refl, L2|by destruct r].
  - intros [|x] s2 R2 L2 Hx; apply wp_ret; (split; [rtrans|done]).
Qed.
Lemma descend_spec path s n capacity out : laid s -> is_u32 n -> Forall is_u32 path -> zlen out < capacity -> bytes_ok out ->
  wp (descend path n capacity out) (fun r s' => reads s s' /\ match r with inl l => zlen l < capacity /\ bytes_ok l | inr e => e.1 < 0 /\ zlen e.2 < capacity /\ bytes_ok e.2 end) s.
Proof.
  revert s n out. induction path as [|child path IH]; intros s n out Hl Hn Hp Hc Ho; cbn [descend].
  { apply wp_ret. split; [apply reads_refl, Hl|done]. }
  apply Forall_cons in Hp as [Hch Hp].
  eapply wp_use; [apply child_name_spec; [done|unfold is_u32 in Hn; lia]|]. intros [name|] s1 [R1 Hb]; [|apply wp_ret; by split_and!].
  pose proof (reads_laid s s1 Hl R1) as L1. assert (bytes_ok (out ++ name)) as Hon by by apply Forall_app.
  destruct (Z.leb_spec (capacity - zlen out) (zlen name)); [apply wp_ret; by split_and!|].
  destruct path as [|c path]; [apply wp_ret; rewrite zlen_app; split; [done|split; [lia|done]]|].
  destruct (Z.leb_spec capacity (zlen (out ++ name) + 1)) as [?|Hlt]; [apply wp_ret; split_and!; [done|done|cbn [snd]; rewrite zlen_app; lia|done]|].
  eapply wp_mono; [apply IH; [done|done|done| |]|].
  - rewrite zlen_app. change (zlen [SLASH]) with 1. lia.
  - apply Forall_app. split; [done|]. by apply (bool_decide_unpack _).
  - intros r s2 [R2 H2]. split; [rtrans|done].
Qed.
(** Success: the length of the text and its terminator, which fit. *)
Lemma engine_getcwd_spec s capacity : wf s ->
  wp (engine_getcwd capacity) (fun r s' => observed s s' /\
    ((r.1 < 0 /\ zlen r.2 <= Z.max 0 capacity) \/ (r.1 = zlen r.2 /\ r.1 <= capacity /\ exists text, r.2 = text ++ [0] /\ bytes_ok text))) s.
Proof.
  intros Hw. unfold engine_getcwd. destruct (Z.ltb_spec capacity 2); [apply wp_ret; split; [by apply observed_refl|left; split; [cbn [fst]; lia|cbn [snd]; change (zlen []) with 0; lia]]|].
  apply wp_ready; [done|intros s1 O1 _; apply wp_ret; split; [done|left; split; [cbn [fst]; lia|cbn [snd]; change (zlen []) with 0; lia]]|].
  intros s1 O1 R1 Hm L1. cbn [negb]. apply wp_gets. assert (is_u32 (cwd s1)) as Hcw by apply L1.
  eapply wp_use; [apply climb_spec; [done|done|constructor]|]. intros [path|e] s2 [R2 H2].
  2: { apply wp_ret. split; [by apply (observed_reads s s1)|left; split; [done|cbn [snd]; change (zlen []) with 0; lia]]. }
  pose proof (reads_laid s1 s2 L1 R2) as L2.
  eapply wp_use; [apply descend_spec; [done|unfold is_u32, ROOT_INO; lia|done|change (zlen [SLASH]) with 1; lia|by apply (bool_decide_unpack _)]|].
  intros [out|e] s3 [R3 H3]; apply wp_ret; (split; [apply (observed_reads s s1); [done|done|rtrans]|]).
  - right. destruct H3 as [H3 Hb]. cbn. rewrite zlen_app. change (zlen [0]) with 1. split; [lia|]. split; [lia|eauto].
  - left. destruct H3 as (He & Hz & _). split; [done|lia].
Qed.

(** ** [engine_pwd] *)
Lemma show_path_spec path s n : laid s -> is_u32 n -> Forall is_u32 path -> wp (show_path path n) (fun _ s' => reads s s') s.
Proof.
  revert s n. induction path as [|child path IH]; intros s n Hl Hn Hp; cbn [show_path].
  { by apply reads_output; [apply Hl|apply reads_refl, Hl]. }
  apply Forall_cons in Hp as [Hch Hp].
  eapply wp_use; [apply child_name_spec; [done|unfold is_u32 in Hn; lia]|]. intros [name|] s1 [R1 _]; [|by apply wp_ret].
  pose proof (reads_laid s s1 Hl R1) as L1. apply wp_print. set (s2 := add_output _ s1).
  assert (laid s2) as L2 by by apply output_laid. assert (reads s s2) as R2 by by apply reads_output; [apply L1|].
  assert (forall s3, reads s s3 -> laid s3 -> wp (show_path path child) (fun _ s' => reads s s') s3) as Hrest.
  { intros s3 R3 L3. eapply wp_mono; [by apply IH|]. intros [] s4 R4. by apply (reads_trans s s3). }
  destruct path as [|c path]; [by apply wp_bind_ret, Hrest|].
  apply wp_print, Hrest; [by apply reads_output; [apply L2|]|by apply output_laid].
Qed.
Lemma engine_pwd_spec s : wf s -> wp engine_pwd (fun _ s' => observed s s') s.
Proof.
  intros Hw. unfold engine_pwd. apply wp_ready; [done|intros s1 O1 _; by apply wp_ret|].
  intros s1 O1 R1 Hm L1. cbn [negb]. apply wp_gets. assert (is_u32 (cwd s1)) as Hcw by apply L1.
  eapply wp_use; [apply climb_spec; [done|done|constructor]|]. intros [path|e] s2 [R2 H2].
  - pose proof (reads_laid s1 s2 L1 R2) as L2. apply wp_print. set (s3 := add_output _ s2).
    assert (laid s3) as L3 by by apply output_laid. assert (reads s1 s3) as R3 by by apply reads_output; [apply L2|].
    eapply wp_mono; [apply show_path_spec; [done|unfold is_u32, ROOT_INO; lia|done]|].
    intros [] s4 R4. apply (observed_reads s s1); [done|done|]. by apply (reads_trans s1 s3).
  - destruct (e =? -36); [|apply wp_ret; by apply (observed_reads s s1)].
    apply (observed_reads s s1); [done|done|]. apply reads_output; [|done]. apply (reads_laid s1 s2 L1 R2).
Qed.

(** ** [engine_stat], [engine_df], [engine_sync] *)
Lemma engine_stat_spec s name : wf s -> wp (engine_stat name) (fun _ s' => observed s s') s.
Proof.
  intros Hw. unfold engine_stat. apply wp_ready; [done|intros s1 O1 _; by apply wp_ret|].
  intros s1 O1 R1 Hm L1. cbn [negb]. apply wp_path; [done|]. intros n s2 R2 L2 Hn.
  pose proof (observed_reads s s1 s2 O1 L1 R2) as O2.
  eapply wp_use; [by apply (node_of_spec s2 n)|]. intros r s3 [R3 Hr]. pose proof (reads_laid s2 s3 L2 R3) as L3.
  pose proof (observed_reads s s2 s3 O2 L2 R3) as O3.
  destruct Hr as [->|(p & -> & Hn0 & Hp & _)]; [by apply wp_ret|].
  apply wp_print, wp_println, wp_print. set (s4 := add_output _ _).
  assert (laid s4) as L4 by by repeat apply output_laid.
  assert (observed s s4) as O4 by by repeat apply output_observed.
  apply wp_assoc, (wp_kind s4 n); [done|done|]. intros k. apply wp_println, wp_print. set (s5 := add_output _ _).
  assert (laid s5) as L5 by by repeat apply output_laid.
  apply wp_assoc, wp_get32; [apply L5|apply (node_valid s5 n); [done|done|lia..]|].
  apply wp_print, wp_println, wp_ret. by repeat apply output_observed.
Qed.
Lemma wp_super {B} s k (f : Z -> M B) Q : laid s -> 0 <= k <= 1020 -> (forall v, wp (f v) Q s) -> wp (bind (get32 (padd SB k)) f) Q s.
Proof. intros Hl Hk Hf. apply wp_get32; [apply Hl|apply valid_super; [apply Hl|lia..]|done]. Qed.
Lemma engine_df_spec s : wf s -> wp engine_df (fun _ s' => observed s s') s.
Proof.
  intros Hw. unfold engine_df. apply wp_ready; [done|intros s1 O1 _; by apply wp_ret|].
  intros s1 O1 R1 Hm L1. cbn [negb]. apply wp_println, wp_print. apply wp_assoc, wp_super; [by repeat apply output_laid|lia|]. intros fi.
  apply wp_print, wp_print. apply wp_assoc, wp_gets. apply wp_print, wp_print.
  apply wp_assoc, wp_super; [by repeat apply output_laid|lia|]. intros fb.
  apply wp_print, wp_print. apply wp_assoc, wp_gets. apply wp_print, wp_println. by repeat apply output_observed.
Qed.
Lemma engine_sync_spec s : wf s -> wp engine_sync (fun _ s' => observed s s') s.
Proof.
  intros Hw. unfold engine_sync. apply wp_ready; [done|intros s1 O1 _; apply wp_println, wp_ret; by apply output_observed|].
  intros s1 O1 R1 Hm L1. cbn [negb]. apply wp_bind. unfold wp at 1, flush_device.
  pose proof (flush_image (dev s1)) as Hf. destruct (disk_flush (dev s1)) as [ok d]. cbn [snd] in Hf.
  assert (observed s (set_dev d s1)) as O2.
  { destruct O1 as [[Wm Wl] I S Ds C M0]. constructor; try done; [|cbn; congruence]. constructor; [destruct Wm; by constructor|done]. }
  destruct ok; [by apply wp_ret|]. apply wp_println, wp_ret. by apply output_observed.
Qed.
End Listing.

(** ** Ext2 engine: mounting

    [engine_init] never leaves its buffers, for any image whose first
    unreserved inode is in the first bitmap block, and what it accepts has
    the layout that the other operations rely on. *)
Section Init.
Context {D : Type} `{BD : BlockDevice D} {DL : DeviceLaws D}.
#[local] Abbreviation St := (Fs D).
#[local] Abbreviation M := (@M D).
Implicit Types (s : St) (p q e : Ptr).

(** While mounting, the memory is sound and the disk is as it was. *)
Record mounting (d0 : D) s : Prop := {
  mnt_mem : mem_ok s;
  mnt_image : image (dev s) = image d0;
  mnt_off : mounted s = false }.
Lemma mounting_wf d0 s : mounting d0 s -> wf s.
Proof. intros [Hm _ H]. by apply unmounted_wf. Qed.
Lemma mounting_write d0 s p bs : mounting d0 s -> valid s p (zlen bs) -> bytes_ok bs -> mounting d0 (write s p bs).
Proof.
  intros [Hm Hi Ho] Hv Hb. constructor; [by apply write_mem_ok|..]; unfold write; by destruct p.1.
Qed.

(** ** Reading the superblock and the descriptors *)
Lemma seqZ_1 n : seqZ n 1 = [n].
Proof. by rewrite seqZ_cons, seqZ_nil by lia. Qed.
Lemma read_into_spec d0 s lba p : mounting d0 s -> valid s p 512 ->
  wp (read_into lba p) (fun failed s' => mounting d0 s' /\ geo s' = geo s /\
    exists bs d, zlen bs = 512 /\ bytes_ok bs /\ s' = write (set_dev d s) p bs /\
      (failed = false -> bs = image d0 lba)) s.
Proof.
  intros [Hm Hi Ho] Hv. unfold read_into, read_device. apply wp_bind. unfold wp at 1.
  destruct (disk_read_many (dev s) lba 1) as [[ok bs] d] eqn:Er.
  destruct (read_length _ _ _ _ _ _ Er) as [Hl Hb]; [lia|]. cbn [fst snd].
  assert (mounting d0 (set_dev d s)) as M1.
  { constructor; [by apply set_dev_mem| |done]. cbn. by rewrite (read_image _ _ _ _ _ _ Er). }
  assert (valid (set_dev d s) p (zlen bs)) as Hv1 by (rewrite Hl; done).
  apply wp_store; [done|by destruct bs|]. apply wp_ret.
  split; [by apply mounting_write|]. split; [unfold write; by destruct p.1|].
  exists bs, d. split; [done|]. split; [done|]. split; [done|]. intros Hf.
  destruct ok; [|done]. rewrite (read_value _ _ _ _ _ Er) by lia. rewrite <- Hi, seqZ_1. cbn [map concat].
  by rewrite app_nil_r.
Qed.
Lemma read_descriptors_spec d0 n s k : mounting d0 s -> 0 <= k -> k + Z.of_nat n <= 40 ->
  wp (read_descriptors n k) (fun _ s' => mounting d0 s' /\ geo s' = geo s /\ superblock s' = superblock s) s.
Proof.
  revert s k. induction n as [|n IH]; intros s k Hm Hk Hn; cbn [read_descriptors]; [by apply wp_ret|].
  unfold m_or. assert (valid s (padd GD (k * 512)) 512) as Hv.
  { pose proof (mem_desc s (mnt_mem _ _ Hm)) as [Hz _]. unfold valid, GD. cbn. unfold bytes_of. cbn. lia. }
  eapply wp_use; [by apply (read_into_spec d0)|]. intros failed s1 (M1 & G1 & bs & d & Hl & Hb & -> & _).
  destruct failed; [by apply wp_ret|]. eapply wp_mono; [apply IH; [done|lia..]|].
  intros r s2 (M2 & G2 & S2). split; [done|]. split; [by rewrite G2|]. by rewrite S2.
Qed.

(** ** The geometry *)
Definition plain_geometry (G : Geometry) : Prop :=
  16 <= blocks G <= MAX_BLOCKS /\ 1 <= blocks_per_group G <= 8192 /\ 1 <= inodes_per_group G <= 8192 /\
  (inode_size G = 128 \/ inode_size G = 256) /\ (inodes_per_group G * inode_size G) mod 1024 = 0 /\
  11 <= first_inode G <= inode_count G.
Lemma set_groups_ok G b : plain_geometry G -> groups (set_groups G) <= MAX_GROUPS ->
  inode_count G = groups (set_groups G) * inodes_per_group G -> geometry_ok (set_filetype b (set_groups G)).
Proof. intros (? & ? & ? & ? & ? & ?) Hg Hc. constructor; try first [assumption|reflexivity].
  cbn [descriptor_blocks groups set_filetype set_groups]. unfold BLOCK_SIZE. f_equal. lia. Qed.

(** [superblock_rejected], when it accepts. *)
Lemma parse_geometry_spec d0 s : mounting d0 s ->
  wp parse_geometry (fun G s' => s' = s /\ 0 <= inode_size G /\ is_u32 (blocks_per_group G) /\ is_u32 (inodes_per_group G) /\
     (first_inode G = 11 \/ first_inode G = le32 (superblock s) 84)) s.
Proof.
  intros Hm. pose proof (mnt_mem _ _ Hm) as Hmm. unfold parse_geometry.
  assert (forall k n, 0 <= k -> 0 <= n -> k + n <= 1024 -> valid s (padd SB k) n) as Hv by (intros; apply valid_super; [done|lia..]).
  assert (valid s SB 4) as Hv0 by (rewrite <- (padd_0 SB); apply Hv; lia).
  do 3 (apply wp_get32; [done|first [exact Hv0|apply Hv; lia]|]).
  destruct (truth _).
  - apply wp_get16; [done|apply Hv; lia|]. do 3 (apply wp_get32; [done|apply Hv; lia|]). apply wp_gets, wp_ret. cbn.
    pose proof (v16_range s (padd SB 88) Hmm). split; [done|]. split; [lia|]. split; [by apply v32_range|]. split; [by apply v32_range|by right].
  - apply wp_bind_ret, wp_bind_ret. do 2 (apply wp_get32; [done|apply Hv; lia|]). apply wp_gets, wp_ret. cbn.
    split; [done|]. split; [lia|]. split; [by apply v32_range|]. split; [by apply v32_range|by left].
Qed.
Lemma superblock_rejected_spec d0 s G : mounting d0 s -> is_u32 (blocks_per_group G) -> is_u32 (inodes_per_group G) ->
  wp (superblock_rejected G) (fun bad s' => s' = s /\ (bad = false -> plain_geometry G)) s.
Proof.
  intros Hm Hb Hi. pose proof (mnt_mem _ _ Hm) as Hmm. unfold superblock_rejected.
  assert (forall k n, 0 <= k -> 0 <= n -> k + n <= 1024 -> valid s (padd SB k) n) as Hv by (intros; apply valid_super; [done|lia..]).
  apply wp_get32; [done|apply Hv; lia|]. do 2 (apply wp_get16; [done|apply Hv; lia|]).
  do 7 (apply wp_get32; [done|apply Hv; lia|]). apply wp_gets, wp_ret. split; [done|].
  unfold truth, BLOCK_SIZE, is_u32 in *. rewrite !orb_false_iff, !negb_false_iff, andb_false_iff. intros H.
  unfold plain_geometry. destruct_and!. bool_to_prop.
  split_and!; lia.
Qed.

(** ** The groups *)
Lemma group_rejected_ok G sb gd g fb fi : geometry_ok G -> 0 <= g < groups G ->
  is_u32 (bitmap_of_group gd g) -> is_u32 (imap_of_group gd g) -> is_u32 (table_of_group gd g) ->
  group_rejected G g (backup_at sb g) (bitmap_of_group gd g) (imap_of_group gd g) (table_of_group gd g) fb fi = false ->
  group_ok G sb gd g.
Proof.
  intros HG Hg Hb Hi Ht. unfold group_rejected. rewrite (group_start_eq G HG g Hg), (group_size_eq G HG g Hg).
  pose proof (gstart_inside G HG g Hg). pose proof (gend_inside G HG g Hg). pose proof (gsize_range G HG g Hg).
  pose proof (ok_blocks G HG) as [_ Hmax]. unfold MAX_BLOCKS in Hmax.
  pose proof (groups_pos G HG). pose proof (ok_max_groups G HG) as Hgr. unfold MAX_GROUPS in Hgr.
  assert (0 <= descriptor_blocks G <= 21) as Hd by (rewrite (ok_descriptors G HG); dm_lia).
  unfold is_u32 in *.
  rewrite (u32_small (gstart G g + gsize G g)) by (unfold is_u32; lia).
  rewrite (u32_small (gstart G g + (if backup_at sb g then 1 + descriptor_blocks G else 0)))
    by (unfold is_u32; destruct backup_at; lia).
  fold (metadata_end G sb g). intros Hrej. rewrite !orb_false_iff in Hrej. destruct_and!. bool_to_prop.
  match goal with H : _ <= u32 _ |- _ => rewrite u32_small in H by (unfold is_u32; lia) end.
  bool_to_prop.
  repeat match goal with H : (_ && _) = false |- _ => apply andb_false_iff in H end.
  constructor; lia.
Qed.

Lemma v16_desc_valid s g k : mem_ok s -> 0 <= g < 640 -> 0 <= k <= 30 -> valid s (padd (group_desc g) k) 2.
Proof. intros. apply valid_desc; [done|done|lia..]. Qed.
Lemma check_groups_spec d0 n s g fb fi : mounting d0 s -> geometry_ok (geo s) -> 0 <= g -> g + Z.of_nat n <= groups (geo s) ->
  wp (check_groups n g fb fi) (fun r s' => mounting d0 s' /\ geo s' = geo s /\ superblock s' = superblock s /\
     descriptors s' = descriptors s /\ cache s' = cache s /\ cache_error s' = cache_error s /\
     (is_Some r -> forall h, g <= h < g + Z.of_nat n -> group_ok (geo s) (superblock s) (descriptors s) h)) s.
Proof.
  revert s g fb fi. induction n as [|n IH]; intros s g fb fi Hm HG Hg Hn; cbn [check_groups].
  { apply wp_ret. split_and!; try done. intros _ h Hh. lia. }
  pose proof (mnt_mem _ _ Hm) as Hmm. pose proof (ok_max_groups _ HG) as Hmax. unfold MAX_GROUPS in Hmax.
  apply wp_gets. assert (0 <= g < 640) as Hg6 by lia.
  assert (forall k, 0 <= k <= 28 -> valid s (padd (group_desc g) k) 4) as Hv by (intros; apply valid_desc; [done|done|lia..]).
  rewrite <- (padd_0 (group_desc g)) at 1. do 3 (apply wp_get32; [done|apply Hv; lia|]).
  apply backup_group_spec; [done|]. do 2 (apply wp_get16; [done|apply v16_desc_valid; [done|done|lia]|]).
  rewrite !v32_desc. set (fb1 := v16 s _). set (fi1 := v16 s _).
  fold (bitmap_of_group (descriptors s) g) (imap_of_group (descriptors s) g) (table_of_group (descriptors s) g).
  destruct (group_rejected _ _ _ _ _ _ _ _) eqn:Erej.
  { apply wp_ret. by split_and!. }
  assert (group_ok (geo s) (superblock s) (descriptors s) g) as Hok.
  { apply (group_rejected_ok _ _ _ _ fb1 fi1); [done|lia|..|done]; apply le32_range, Hmm. }
  unfold read_device. apply wp_bind. unfold wp at 1.
  destruct (disk_read_many (dev s) (u32 (bitmap_of_group (descriptors s) g * 2)) 2) as [[ok bs] d] eqn:Er. cbn [fst snd].
  assert (mounting d0 (set_dev d s)) as M1.
  { destruct Hm as [? Hi ?]. constructor; [by apply set_dev_mem| |done]. cbn. by rewrite (read_image _ _ _ _ _ _ Er). }
  destruct (_ || _).
  { apply wp_ret. by split_and!. }
  eapply wp_mono; [apply (IH (set_dev d s)); [done|done|lia|cbn; lia]|].
  intros r s2 (M2 & G2 & S2 & D2 & C2 & E2 & H2). split_and!; try done.
  intros Hr h Hh. destruct (Z.eq_dec h g) as [->|]; [done|]. apply H2; [done|lia].
Qed.

(** ** The reserved inodes and the root *)
Lemma reserved_rejected_spec n s b i : laid s -> is_u32 b -> 0 <= i -> i + Z.of_nat n <= 8192 ->
  wp (reserved_rejected n b i) (fun _ s' => reads s s') s.
Proof.
  revert s i. induction n as [|n IH]; intros s i Hl Hb Hi Hn; cbn [reserved_rejected]; [apply wp_ret, reads_refl, Hl|].
  eapply wp_use; [apply block_spec; [apply Hl|by apply laid_blocks|done]|]. intros map s1 (R1 & B1 & Z1 & F1).
  pose proof (reads_laid s s1 Hl R1) as L1. apply (wp_bit_in s1 b); [apply L1|done|done|lia|].
  destruct (negb _); [by apply wp_ret|]. eapply wp_mono; [apply IH; [done|done|lia|lia]|]. intros r s2 R2. rtrans.
Qed.
(** The root is a directory with its standard entries. *)
Lemma root_rejected_spec s : laid s ->
  wp root_rejected (fun bad s' => reads s s' /\ (bad = false -> cache_error s' = false /\ live s' ROOT_INO)) s.
Proof.
  intros Hl. unfold root_rejected.
  apply (supported_inode_spec s ROOT_INO DIR_MODE (fun _ ok => if negb ok then ret true else _)); [done|unfold ROOT_INO; lia|by right|..].
  { intros r s1 R1 _. by apply wp_ret. }
  intros p s1 R1 Hlv Hh Hok. cbn [negb]. pose proof (reads_laid s s1 Hl R1) as L1.
  eapply wp_use; [apply lookup_spec; [done|unfold ROOT_INO; lia]|]. intros d s2 (R2 & _). pose proof (reads_laid s1 s2 L1 R2) as L2.
  destruct (negb _); [by apply wp_ret; split; [rtrans|]|].
  eapply wp_use; [apply lookup_spec; [done|unfold ROOT_INO; lia]|]. intros dd s3 (R3 & _).
  destruct (negb _); [by apply wp_ret; split; [rtrans|]|].
  unfold wp, gets. split; [rtrans|]. intros He. split; [done|]. apply (reads_live s2); [done|]. by apply (reads_live s1).
Qed.

(** ** [engine_init] *)
(** How it ends: mounted on a laid out volume, or unmounted. *)
Record initialised (d0 : D) (r : Z) s : Prop := {
  init_wf : wf s;
  init_image : image (dev s) = image d0;
  init_result : r = 0 /\ mounted s = true \/ r = -1 /\ mounted s = false;
  init_root : r = 0 -> cwd s = ROOT_INO /\ live s ROOT_INO /\ cache_error s = false }.
Lemma mounting_failed d0 s : mounting d0 s -> initialised d0 (-1) s.
Proof. intros Hm. pose proof (mounting_wf d0 s Hm). destruct Hm. constructor; try done. by right. Qed.
Lemma mounting_geo d0 s G : mounting d0 s -> mounting d0 (set_geo G s).
Proof. intros [Hm Hi Ho]. constructor; [by destruct Hm; constructor|done|done]. Qed.
Lemma mounting_reads d0 s s' : mounting d0 s -> reads s s' -> mounting d0 s'.
Proof.
  intros [Hm Hi Ho] R. pose proof (reads_step _ _ R) as T. constructor; [apply T|by rewrite (step_image _ _ T)|].
  by rewrite (step_mounted _ _ T).
Qed.
Lemma mount_ready d0 s : mounting d0 s -> laid s -> live s ROOT_INO -> cache_error s = false ->
  initialised d0 0 (set_mounted true (set_cwd ROOT_INO (set_hints 0 0 s))).
Proof.
  intros [Hm Hi Ho] [_ HL] Hlv He. constructor; [|done|by left|done].
  constructor; [|done]. destruct Hm. constructor; try done.
Qed.

(** The checks of the inode bitmap and of the root, on a laid out volume. *)
Lemma finish_init_spec d0 s : mounting d0 s -> laid s -> first_inode (geo s) <= 8193 ->
  wp (let* imap := get32 (padd GD 4) in
      let* bad := m_or (reserved_rejected (Z.to_nat (first_inode (geo s) - 1)) imap 0) root_rejected in
      if bad then ret (-1) else modify (set_hints 0 0);; modify (set_cwd ROOT_INO);; modify (set_mounted true);; ret 0)
     (initialised d0) s.
Proof.
  intros Hm Hl Hfi. pose proof (ok_first_inode _ (laid_geometry s Hl)).
  apply wp_get32; [apply Hl|apply (valid_desc s 0 4 4); [apply Hl|lia..]|].
  unfold m_or. apply wp_assoc.
  eapply wp_use; [apply reserved_rejected_spec; [done|apply v32_range, Hl|lia|lia]|]. intros bad s1 R1.
  pose proof (mounting_reads d0 s s1 Hm R1) as M1. pose proof (reads_laid s s1 Hl R1) as L1.
  destruct bad; [by apply wp_bind_ret, wp_ret, mounting_failed|].
  eapply wp_use; [by apply root_rejected_spec|]. intros bad s2 [R2 H2].
  pose proof (mounting_reads d0 s1 s2 M1 R2) as M2. pose proof (reads_laid s1 s2 L1 R2) as L2.
  destruct bad; [by apply wp_ret, mounting_failed|]. destruct H2 as [He Hlv]; [done|].
  do 3 apply wp_modify. apply wp_ret. by apply mount_ready.
Qed.

Lemma init_groups_spec d0 s : mounting d0 s -> plain_geometry (geo s) -> first_inode (geo s) <= 8193 ->
  wp init_groups (initialised d0) s.
Proof.
  intros Hm HG Hfi. unfold init_groups. apply wp_gets, wp_modify, wp_gets. cbn [geo set_geo].
  set (G := set_groups (geo s)). pose proof (mounting_geo d0 s G Hm) as M1.
  destruct ((MAX_GROUPS <? groups G) || negb (inode_count G =? groups G * inodes_per_group G)) eqn:Eg.
  { by apply wp_ret, mounting_failed. }
  apply orb_false_iff in Eg as [Hg Hc]. bool_to_prop.
  assert (forall b, geometry_ok (set_filetype b G)) as HGok by (intros b; by apply set_groups_ok).
  assert (zlen (descriptors s) = 20480) as Hdz by apply Hm.
  assert (valid (set_geo G s) GD 20480) as HvG by (unfold valid, GD, bytes_of; cbn; lia).
  change (MAX_GROUPS * 32) with 20480. apply wp_memset; [done|lia|].
  set (s1 := write _ _ _). assert (mounting d0 s1) as M2.
  { apply mounting_write; [done|by rewrite zlen_replicate by lia|apply zero_bytes_ok]. }
  pose proof (groups_pos _ (HGok true)) as Hgp. change (1 <= groups G) in Hgp. unfold MAX_GROUPS in Hg.
  assert (0 <= descriptor_blocks G <= 20) as Hd.
  { pose proof (ok_descriptors _ (HGok true)) as E. cbn [descriptor_blocks set_filetype groups] in E. rewrite E. clearbody G. clear -Hg Hgp. dm_lia. }
  eapply wp_use; [apply (read_descriptors_spec d0); [done|lia|lia]|]. intros failed s2 (M3 & G3 & S3).
  destruct failed; [by apply wp_ret, mounting_failed|].
  assert (mem_ok s2) as Hm2 by apply M3.
  do 2 (apply wp_get32; [done|apply valid_super; [done|lia..]|]). apply wp_modify.
  set (ft := _ && _). set (s3 := set_geo _ s2). assert (mounting d0 s3) as M4 by by apply mounting_geo.
  assert (geo s3 = set_filetype ft G) as G4 by done.
  eapply wp_use; [apply (check_groups_spec d0); [done|by rewrite G4|lia|rewrite G4; change (groups (set_filetype ft G)) with (groups G); lia]|].
  intros sums s4 (M5 & G5 & S5 & D5 & C5 & E5 & H5).
  destruct sums as [[fb fi]|]; [|by apply wp_ret, mounting_failed].
  assert (laid s4) as L5.
  { split; [apply M5|]. rewrite G5, S5, D5. constructor; [by rewrite G4|]. intros g Hgr. apply H5; [done|].
    rewrite G4 in Hgr. change (0 <= g < groups G) in Hgr. lia. }
  do 2 (apply wp_get32; [apply L5|apply valid_super; [apply L5|lia..]|]).
  destruct (_ || _); [by apply wp_ret, mounting_failed|].
  assert (first_inode G = first_inode (geo s4)) as -> by (by rewrite G5).
  apply finish_init_spec; [done|done|]. by rewrite G5.
Qed.

(** The first unreserved inode has its bit in the one bitmap block. *)
Definition first_inode_fits (d : D) : Prop := le32 (image d 2) 84 <= 8193.
Lemma take_splice_first l bs : zlen bs = 512 -> 512 <= zlen l -> le32 (splice l 0 bs) 84 = le32 bs 84.
Proof. intros Hb Hl. rewrite le32_splice_in by lia. by rewrite Z.sub_0_r. Qed.
Lemma engine_init_spec s : mem_ok s -> first_inode_fits (dev s) -> wp engine_init (initialised (dev s)) s.
Proof.
  intros Hm Hfit. unfold engine_init. apply wp_modify. set (s0 := set_mounted false s).
  assert (mounting (dev s) s0) as M0 by (constructor; [destruct Hm; by constructor|done|done]).
  assert (zlen (superblock s) = 1024) as Hz by apply Hm.
  unfold m_or. apply wp_assoc.
  eapply wp_use; [apply (read_into_spec (dev s)); [done|unfold valid, SB, bytes_of; cbn; lia]|].
  intros failed s1 (M1 & _ & bs & d & Hl & Hb & E1 & Hv). destruct failed; [by apply wp_bind_ret, wp_ret, mounting_failed|].
  specialize (Hv eq_refl).
  assert (superblock s1 = splice (superblock s) 0 bs) as Es1 by (by rewrite E1).
  assert (zlen (superblock s1) = 1024) as Hz1 by apply M1.
  eapply wp_use; [apply (read_into_spec (dev s)); [done|unfold valid, SB, bytes_of; cbn; lia]|].
  intros failed s2 (M2 & _ & bs2 & d2 & Hl2 & Hb2 & E2 & _). destruct failed; [by apply wp_ret, mounting_failed|].
  assert (superblock s2 = splice (superblock s1) 512 bs2) as Es2 by (by rewrite E2).
  assert (le32 (superblock s2) 84 <= 8193) as Hfi.
  { rewrite Es2, le32_splice_out by lia. rewrite Es1, take_splice_first by lia. by rewrite Hv. }
  eapply wp_use; [by apply (parse_geometry_spec (dev s))|]. intros G s3 (-> & _ & Hb1 & Hi1 & Hf1).
  apply wp_modify. pose proof (mounting_geo (dev s) s2 G M2) as M3.
  eapply wp_use; [by apply (superblock_rejected_spec (dev s))|]. intros bad s4 [-> HG]. destruct bad.
  - apply wp_println, wp_ret, mounting_failed. destruct M3 as [Hm3 Hi3 Ho3]. constructor; [by destruct Hm3; constructor|done|done].
  - apply init_groups_spec; [done|by apply HG|]. cbn [geo set_geo]. lia.
Qed.
End Init.
