(* ===== verification/Ext2Api.v ===== *)
(** * Ext2 engine: the entry points

    Every [ext_] entry point, from every state between operations: defined,
    terminating and back in a sound state; what a failure leaves on the disk. *)
From Stdlib Require Import String.
From stdpp Require Import gmap.
From S2P Require Import Prelude CString Ext2Core Ext2Dir Ext2Ops Ext2Mount Ext2Format Ext2Logic Ext2Frame Ext2Blocks.
From S2P Require Import Ext2Walk Ext2Alloc Ext2Create Ext2Files Ext2Bodies Ext2Engine Ext2Listing.

Section Api.
Context {D : Type} `{BD : BlockDevice D} {DL : DeviceLaws D}.
#[local] Abbreviation St := (Fs D).
#[local] Abbreviation M := (@M D).
Implicit Types (s : St).

(** ** [entry] *)
Definition reset s : St := set_cache [] (set_error false s).
Lemma reset_wf s : wf s -> wf (reset s).
Proof.
  intros [Hm HL]. constructor; [|done]. destruct Hm. constructor; try done; apply Forall_nil_2.
Qed.
Definition unmounted s : St := set_mounted false s.
Lemma unmounted_wf' s : wf s -> wf (unmounted s).
Proof. intros [Hm HL]. apply unmounted_wf; [destruct Hm; by constructor|done]. Qed.
Lemma entry_spec {A} (failure : A -> A) (op : M A) (Q : A -> St -> Prop) s :
  wp op (fun r s' => if cache_error s' then Q (failure r) (unmounted s') else Q r s') (reset s) -> wp (entry failure op) Q s.
Proof.
  intros H. unfold entry. unfold cache_reset. apply wp_modify. fold (reset s). eapply wp_use; [exact H|].
  intros r s' HQ. cbv beta in HQ. apply wp_gets. destruct (cache_error s'); [by apply wp_modify, wp_ret|by apply wp_ret].
Qed.

(** ** Arguments: C strings and buffers hold bytes, numbers are in range, and
    a size, which may be negative, is not past the end of its buffer *)
Definition args_ok (op : ExtOp) : Prop :=
  match op with
  | ExtRead _ offset size => u32_args offset size
  | ExtTouch name | ExtMkdir name => bytes_ok name
  | ExtWrite (Some name) data size | ExtAppend name data size => bytes_ok name /\ bytes_ok data /\ size <= zlen data
  | ExtWrite None data size => bytes_ok data /\ size <= zlen data
  | ExtCp _ destination | ExtMv _ destination => bytes_ok destination
  | _ => True
  end.
Inductive OpKind := Reader | Writer | Mover | Mounter.
Definition op_kind (op : ExtOp) : OpKind :=
  match op with
  | ExtInit => Mounter
  | ExtCd _ => Mover
  | ExtTouch _ | ExtWrite _ _ _ | ExtRm _ | ExtMkdir _ | ExtAppend _ _ _ | ExtCp _ _ | ExtMv _ _ | ExtRmdir _ => Writer
  | _ => Reader
  end.

(** What an operation of each kind ensures. *)
Definition volume_kept s s' : Prop :=
  image (dev s') = image (dev s) /\ superblock s' = superblock s /\ descriptors s' = descriptors s.
Definition ensured s (op : ExtOp) (r : Reply) s' : Prop :=
  wf s' /\
  (cache_error s' = true -> mounted s' = false) /\
  match op_kind op with
  | Reader => volume_kept s s' /\ cwd s' = cwd s /\ (mounted s' = true -> mounted s = true)
  | Writer => cwd s' = cwd s /\ (value r = 0 \/ value r = -1) /\ (value r = -1 -> mounted s' = true -> volume_kept s s')
  | Mover => volume_kept s s' /\ (value r = 0 \/ value r = -1) /\ (value r = -1 -> mounted s' = true -> cwd s' = cwd s)
  | Mounter => image (dev s') = image (dev s) /\
      (value r = 0 /\ mounted s' = true /\ cwd s' = ROOT_INO /\ live s' ROOT_INO \/ value r = -1 /\ mounted s' = false)
  end.

Lemma reader_entry {A} s op (m : M A) failure (f : A -> Reply) : wf s -> op_kind op = Reader ->
  wp m (fun _ s' => observed (reset s) s') (reset s) ->
  wp (entry failure (let* x := m in ret (f x))) (fun r s' => ensured s op r s') s.
Proof.
  intros Hw Hk H. apply entry_spec. eapply wp_use; [exact H|]. intros x s' O. apply wp_ret. unfold ensured. rewrite Hk.
  destruct O as [W I S Ds C M0]. destruct (cache_error s') eqn:E.
  - split; [by apply unmounted_wf'|]. done.
  - split; [done|]. split; [congruence|]. done.
Qed.
Lemma writer_entry s op (m : M Z) : wf s -> op_kind op = Writer ->
  wp m (fun r s' => ended (reset s) r s') (reset s) ->
  wp (entry (failed_reply (-1)) (just m)) (fun r s' => ensured s op r s') s.
Proof.
  intros Hw Hk H. apply entry_spec. unfold just. eapply wp_use; [exact H|]. intros x s' E. apply wp_ret. unfold ensured. rewrite Hk.
  destruct E as [W C Hr Hf]. destruct (cache_error s') eqn:E.
  - split; [by apply unmounted_wf'|]. split; [done|]. split; [done|]. split; [by right|done].
  - split; [done|]. split; [congruence|]. split; [done|]. by split.
Qed.
Lemma init_entry s : wf s -> first_inode_fits (dev s) ->
  wp (entry (failed_reply (-1)) (just engine_init)) (fun r s' => ensured s ExtInit r s') s.
Proof.
  intros Hw Hf. apply entry_spec. unfold just. eapply wp_use; [apply engine_init_spec; [apply reset_wf, Hw|done]|].
  intros r s' [W I Hr Hroot]. apply wp_ret. unfold ensured. cbn [op_kind]. destruct (cache_error s') eqn:E.
  - split; [by apply unmounted_wf'|]. split; [done|]. split; [done|]. by right.
  - split; [done|]. split; [congruence|]. split; [done|]. destruct Hr as [[-> Hm]|[-> Hm]]; [left|by right].
    destruct Hroot as (Hc & Hl & _); done.
Qed.
Lemma cd_entry s name : wf s ->
  wp (entry (failed_reply (-1)) (just (engine_cd name))) (fun r s' => ensured s (ExtCd name) r s') s.
Proof.
  intros Hw. apply entry_spec. unfold just. eapply wp_use; [apply engine_cd_spec, reset_wf, Hw|].
  intros r s' (s1 & [W I S Ds C M0] & Hr). apply wp_ret. unfold ensured. cbn [op_kind].
  assert (volume_kept s s1) as HV by done.
  destruct Hr as [[-> ->]|(-> & c & Hc & ->)].
  - destruct (cache_error s1) eqn:E; [split; [by apply unmounted_wf'|]|split; [done|]]; (split; [cbn; congruence|]);
      (split; [done|]); (split; [by right|]); intros _ ?; done.
  - assert (wf (set_cwd c s1)) as Wc by (destruct W as [Hm HL]; constructor; [destruct Hm; by constructor|done]).
    cbn [cache_error set_cwd]. destruct (cache_error s1) eqn:E; [split; [by apply unmounted_wf'|]|split; [done|]];
      (split; [cbn; congruence|]); (split; [done|]); (split; [auto|]); cbn; intros; congruence.
Qed.

(** ** All entry points *)
Lemma ext_op_spec s op : wf s -> args_ok op -> (op = ExtInit -> first_inode_fits (dev s)) ->
  wp (ext_op op) (fun r s' => ensured s op r s') s.
Proof.
  intros Hw Ha Hfit. pose proof (reset_wf s Hw) as Hr. destruct op as [|name|name|name o size| |name|name|name d size|name|name|name|cap| |name|name d size|a b|a b|name| |name|name cap pos|];
    cbn [ext_op args_ok] in *; unfold just, nothing.
  - apply init_entry; auto.
  - apply reader_entry; [done..|]. by apply engine_exec_check_spec.
  - apply reader_entry; [done..|]. eapply wp_mono; [by apply engine_size_spec|]. by intros r s' [O _].
  - apply reader_entry; [done..|]. eapply wp_mono; [by apply engine_read_spec|]. by intros r s' [O _].
  - apply reader_entry; [done..|]. by apply engine_ls_spec.
  - apply reader_entry; [done..|]. by apply engine_cat_spec.
  - apply writer_entry; [done..|]. by apply engine_touch_spec.
  - apply writer_entry; [done..|]. destruct name as [name|].
    + apply engine_write_spec; [done|by intros n [= <-]; apply Ha|apply Ha|apply Ha].
    + apply engine_write_spec; [done|done|apply Ha|apply Ha].
  - apply writer_entry; [done..|]. by apply engine_rm_spec.
  - apply writer_entry; [done..|]. by apply engine_mkdir_spec.
  - by apply cd_entry.
  - apply reader_entry; [done..|]. eapply wp_mono; [by apply engine_getcwd_spec|]. by intros r s' [O _].
  - apply reader_entry; [done..|]. by apply engine_df_spec.
  - apply reader_entry; [done..|]. by apply engine_stat_spec.
  - apply writer_entry; [done..|]. apply engine_append_spec; [done|apply Ha|apply Ha|apply Ha].
  - apply writer_entry; [done..|]. by apply engine_cp_spec.
  - apply writer_entry; [done..|]. by apply engine_mv_spec.
  - apply writer_entry; [done..|]. by apply engine_rmdir_spec.
  - apply reader_entry; [done..|]. by apply engine_sync_spec.
  - apply reader_entry; [done..|]. eapply wp_mono; [by apply engine_is_dir_spec|]. by intros r s' [O _].
  - apply reader_entry; [done..|]. eapply wp_mono; [by apply engine_getdents_spec|]. by intros r s' [O _].
  - apply reader_entry; [done..|]. by apply engine_pwd_spec.
Qed.
End Api.

(** ** Ext2 engine on a memory device

    The memory device keeps the laws of a device; a formatted one, mounted by
    the engine itself, is the state the examples start from. *)
(** ** The laws *)
Definition md_readable (d : MemoryDisk) (lba n : Z) : bool := (0 <? n) && (n <=? 8) && (0 <=? lba) && (lba + n <=? md_sectors d).
Lemma md_read d lba n : disk_read_many d lba n =
  if md_readable d lba n then (true, md_range d lba (Z.to_nat n), d) else (false, replicate (Z.to_nat (n * 512)) 0, d).
Proof. done. Qed.
Lemma sector_bytes_ok l : zlen (sector_bytes l) = 512 /\ bytes_ok (sector_bytes l).
Proof.
  unfold sector_bytes, zlen. split.
  - rewrite length_map, length_take, length_app, length_replicate. lia.
  - apply Forall_map, Forall_forall. intros x _. apply u8_range.
Qed.
Lemma md_sector_ok d lba : zlen (md_sector d lba) = 512 /\ bytes_ok (md_sector d lba).
Proof. unfold md_sector. destruct (md_data d !! lba); [apply sector_bytes_ok|]. split; [done|apply zeros_ok]. Qed.
Lemma md_range_ok d lba n : zlen (md_range d lba n) = Z.of_nat n * 512 /\ bytes_ok (md_range d lba n).
Proof.
  revert lba. induction n as [|n IH]; intros lba; cbn [md_range]; [split; [done|constructor]|].
  destruct (md_sector_ok d lba), (IH (lba + 1)). rewrite zlen_app. split; [lia|]. by apply Forall_app.
Qed.
Lemma md_range_seq d lba n : md_range d lba n = concat (map (md_sector d) (seqZ lba (Z.of_nat n))).
Proof.
  revert lba. induction n as [|n IH]; intros lba; [done|]. cbn [md_range]. rewrite seqZ_cons by lia.
  cbn [map concat]. rewrite IH. do 4 f_equal; lia.
Qed.
(** 512 bytes survive the normalisation of a write. *)
Lemma sector_bytes_id l : zlen l = 512 -> bytes_ok l -> sector_bytes l = l.
Proof.
  unfold sector_bytes, zlen. intros Hl Hb. rewrite take_app_le by lia. rewrite take_ge by lia.
  rewrite <- (map_id l) at 2. apply map_ext_in. intros x Hx. apply list_elem_of_In in Hx.
  unfold bytes_ok in Hb. rewrite Forall_forall in Hb. apply u8_small. by apply Hb.
Qed.

#[export] Program Instance memory_laws : DeviceLaws MemoryDisk := {
  image := md_sector;
  unreadable := fun d lba n => md_readable d lba n = false }.
Next Obligation.
  intros d lba n ok bs d' H Hn. rewrite md_read in H. destruct (md_readable d lba n); injection H as <- <- <-.
  - destruct (md_range_ok d lba (Z.to_nat n)). split; [lia|done].
  - split; [|apply zeros_ok]. unfold zlen. rewrite length_replicate. lia.
Qed.
Next Obligation.
  intros d lba n bs d' H Hn. rewrite md_read in H. destruct (md_readable d lba n); [|done]. injection H as <- <-.
  rewrite md_range_seq. by rewrite Z2Nat.id by lia.
Qed.
Next Obligation. intros d lba n ok bs d' H. rewrite md_read in H. destruct (md_readable d lba n); by simplify_eq. Qed.
Next Obligation. intros d lba n bs d' H. rewrite md_read in H. destruct (md_readable d lba n) eqn:E; by simplify_eq. Qed.
Next Obligation. intros d lba n ok bs d' Hu H. rewrite md_read, Hu in H. by simplify_eq. Qed.
Next Obligation. intros d lba n ok bs d' lba' n' H. rewrite md_read in H. destruct (md_readable d lba n); by simplify_eq. Qed.
Next Obligation. done. Qed.
Next Obligation. done. Qed.
Next Obligation. done. Qed.
Next Obligation.
  intros d lba bs d' H Hl Hb. cbn in H. destruct (_ && _); [|done]. injection H as <-. unfold md_sector. cbn.
  by rewrite lookup_insert_eq, sector_bytes_id.
Qed.
Next Obligation.
  intros d lba bs ok d' lba' H Hne. cbn in H. destruct (_ && _); injection H as <- <-; [|done].
  unfold md_sector. cbn. by rewrite lookup_insert_ne.
Qed.

(** ** Ext2 engine: what the entry points promise

    The theorems of the engine over any device that keeps the laws, each with
    an instance on a memory device that the formatter prepared. *)
(** ** Powers, for the backup groups *)
Definition is_power (n base : Z) : Prop := exists k, 0 <= k /\ n = base ^ k.
Lemma power_of_spec fuel n base : 2 <= base -> 1 <= n < 2 ^ Z.of_nat fuel ->
  power_of fuel n base = true <-> is_power n base.
Proof.
  intros Hb. revert n. induction fuel as [|fuel IH]; intros n Hn; [change (2 ^ Z.of_nat 0) with 1 in Hn; lia|].
  rewrite Nat2Z.inj_succ, Z.pow_succ_r in Hn by lia.
  assert (n = 1 -> is_power n base) as H1 by (intros ->; by exists 0).
  assert (forall k, 0 <= k -> n = base ^ k -> n = 1 \/ exists j, 0 <= j /\ n = base * base ^ j) as Hk.
  { intros k Hk E. destruct (Z.eq_dec k 0) as [->|]; [by left|right]. exists (k - 1). split; [lia|].
    rewrite E, <- Z.pow_succ_r by lia. f_equal. lia. }
  cbn [power_of]. destruct (Z.ltb_spec 1 n); cbn [andb].
  2: { rewrite Z.eqb_eq. split; [auto|]. intros (k & ? & _). lia. }
  destruct (Z.eqb_spec (n mod base) 0) as [Hm|Hm].
  - assert (n = base * (n / base)) as Hd by (apply Z.div_exact; lia).
    assert (1 <= n / base < 2 ^ Z.of_nat fuel) as Hr by nia. rewrite (IH _ Hr). split.
    + intros (k & Hk0 & E). exists (k + 1). split; [lia|]. rewrite Z.pow_add_r, Z.pow_1_r by lia. lia.
    + intros (k & Hk0 & E). destruct (Hk k Hk0 E) as [?|(j & Hj & Ej)]; [lia|]. exists j. split; [done|]. nia.
  - rewrite Z.eqb_eq. split; [lia|]. intros (k & Hk0 & E). destruct (Hk k Hk0 E) as [?|(j & Hj & Ej)]; [lia|].
    exfalso. apply Hm. rewrite Ej, Z.mul_comm. apply Z.mod_mul. lia.
Qed.
(** ** A formatted memory device *)
Definition blank_disk : MemoryDisk := {| md_sectors := 4096; md_data := ∅ |}.
Definition formatted : MemoryDisk :=
  match fs_format_selected (boot blank_disk) with Some (_, s) => dev s | None => blank_disk end.
(** The state after an operation. *)
Definition next {D} `{BlockDevice D} (op : ExtOp) (s : Fs D) : Fs D :=
  match ext_op op s with Some (_, s') => s' | None => s end.
Definition mounted_fs : Fs MemoryDisk := next ExtInit (boot formatted).

Lemma boot_wf {D} `{BD : BlockDevice D} {DL : DeviceLaws D} (d : D) : wf (boot d).
Proof.
  apply unmounted_wf; [|done]. constructor; try (split; [|apply zeros_ok]); try done.
  all: try (unfold is_u32; cbn; lia).
Qed.
Lemma next_wf {D} `{BD : BlockDevice D} {DL : DeviceLaws D} (s : Fs D) op : wf s -> args_ok op -> (op = ExtInit -> first_inode_fits (dev s)) -> wf (next op s).
Proof.
  intros Hw Ha Hfit. destruct (wp_result _ _ _ (ext_op_spec s op Hw Ha Hfit)) as (r & s' & E & W & _). unfold next. by rewrite E.
Qed.
Lemma formatted_fits : first_inode_fits formatted.
Proof. vm_compute. discriminate. Qed.
Lemma mounted_fs_wf : wf mounted_fs.
Proof. apply next_wf; [apply boot_wf|exact I|intros _; exact formatted_fits]. Qed.
Lemma mounted_fs_mounted : mounted mounted_fs = true.
Proof. vm_compute. reflexivity. Qed.

(** The examples are evaluated by [vm_compute] only. *)
#[local] Strategy opaque [formatted mounted_fs].

Lemma laid_reset {D} `{BD : BlockDevice D} {DL : DeviceLaws D} (s : Fs D) : wf s -> mounted s = true -> laid (reset s).
Proof. intros Hw Hm. apply wf_laid; [by apply reset_wf|done]. Qed.
Lemma coherent_reset {D} `{BD : BlockDevice D} {DL : DeviceLaws D} (s : Fs D) : coherent (reset s).
Proof. split; constructor. Qed.

Section Claims.
Context {D : Type} `{BD : BlockDevice D} {DL : DeviceLaws D}.
Implicit Types (s : Fs D).


(** C2: an operation that fails leaves no trace, on a device whose failed reads
    keep failing until something is written ([DeviceLaws]): a writer that returns -1 on a
    volume that is still mounted has left every sector of the disk, the
    superblock and the descriptors as they were; and no writer moves the
    current directory. *)
Theorem ext_writer_atomic s op : wf s -> args_ok op -> op_kind op = Writer ->
  exists r s', ext_op op s = Some (r, s') /\ cwd s' = cwd s /\ (value r = 0 \/ value r = -1) /\
    (value r = -1 -> mounted s' = true -> volume_kept s s').
Proof.
  intros Hw Ha Hk. assert (op = ExtInit -> first_inode_fits (dev s)) as Hfit by (by intros ->).
  destruct (wp_result _ _ _ (ext_op_spec s op Hw Ha Hfit)) as (r & s' & E & _ & _ & H).
  rewrite Hk in H. destruct H as (Hc & Hv & Hf). eauto 10.
Qed.

(** C4: the readers write nothing, on a device that keeps [DeviceLaws]: the disk, the superblock and the descriptors
    stay as they were, also when they fail, and the current directory stays. *)
Theorem ext_reader_pure s op : wf s -> args_ok op -> op_kind op = Reader ->
  exists r s', ext_op op s = Some (r, s') /\ volume_kept s s' /\ cwd s' = cwd s /\ (mounted s' = true -> mounted s = true).
Proof.
  intros Hw Ha Hk. assert (op = ExtInit -> first_inode_fits (dev s)) as Hfit by (by intros ->).
  destruct (wp_result _ _ _ (ext_op_spec s op Hw Ha Hfit)) as (r & s' & E & _ & _ & H).
  rewrite Hk in H. destruct H as (Hc & Hv & Hf). eauto 10.
Qed.

(** C5: mounting decides, for an image whose superblock names a first inode of
    at most 8193: [ext_init] returns 0 with the volume mounted, its layout
    checked group by group, the root marked as used and the current directory;
    or -1 with nothing mounted; it never writes. *)
Theorem ext_init_mounts s : wf s -> first_inode_fits (dev s) ->
  exists r s', ext_op ExtInit s = Some (r, s') /\ image (dev s') = image (dev s) /\
    ((value r = 0 /\ mounted s' = true /\ layout (geo s') (superblock s') (descriptors s') /\ cwd s' = ROOT_INO /\
      live s' ROOT_INO) \/ (value r = -1 /\ mounted s' = false)).
Proof.
  intros Hw Ha. destruct (wp_result _ _ _ (ext_op_spec s ExtInit Hw I (fun _ => Ha))) as (r & s' & E & W & _ & I & H).
  exists r, s'. split; [done|]. split; [done|]. destruct H as [(Hv & Hm & Hc & Hl)|H]; [left|by right].
  split; [done|]. split; [done|]. split; [by apply W|done].
Qed.

(** C3: the allocator hands out what was free: a number it returns had its bit
    clear in the map of its group, as the disk or the cache holds it, has it
    set afterwards, and no set bit of any map, cached or still on the disk, was
    cleared; a block is none of the metadata and holds zeros. *)
Theorem allocate_fresh s is_inode : laid s -> coherent s ->
  exists n s', allocate is_inode s = Some (n, s') /\ laid s' /\ image (dev s') = image (dev s) /\
    (forall b i, is_map s b -> 0 <= i < 8192 -> seen_bit s b i = true -> seen_bit s' b i = true) /\
    (n <> 0 -> exists g i, 0 <= g < groups (geo s) /\ 0 <= i < map_limit (geo s) is_inode g /\
       n = number (geo s) is_inode g i /\
       seen_bit s (map_block s is_inode g) i = false /\ seen_bit s' (map_block s is_inode g) i = true /\
       (is_inode = false -> data s' n = true /\ view s' n = zero_block)).
Proof.
  intros Hl Hc. destruct (wp_result _ _ _ (allocate_spec s is_inode Hl)) as (n & s' & E & (T & _ & S) & H).
  pose proof (step_laid s s' Hl T) as L'. exists n, s'.
  split; [done|]. split; [done|]. split; [apply (step_image _ _ T)|]. split; [exact (S Hc)|]. intros Hn.
  destruct (H Hn) as [_ _ Hu Ht _ _ Hb _]. destruct (Hu Hc) as (g & i & Hg & Hi & En & Hs).
  exists g, i. do 4 (split; [done|]). split.
  - subst n. rewrite <- (step_geo _ _ T) in Ht. rewrite <- (step_geo _ _ T) in Hg, Hi.
    apply taken_bit in Ht; [|done..]. rewrite (step_geo _ _ T) in Hg.
    assert (map_block s' is_inode g = map_block s is_inode g) as Em by (destruct is_inode; [by apply step_imap|by apply step_bitmap]).
    rewrite <- Em. by apply map_bit_seen.
  - intros Hf. destruct (Hb Hf) as [Hd (j & Hj & Hz)]. split; [done|]. unfold view. by rewrite Hj.
Qed.

(** C28: a listing fits its caller's buffer: [ext_getdents] stores at most
    [capacity] bytes, also before an invalid record stops it, and returns how
    many, or -22 with nothing stored for a buffer too small for one entry, or
    -1 with the position unchanged. *)
Theorem engine_getdents_fits s name capacity position : wf s ->
  exists r s', engine_getdents name capacity position s = Some (r, s') /\ zlen r.1.2 <= Z.max 0 capacity /\
    (r.1.1 = zlen r.1.2 \/ (r.1.1 = -22 /\ r.1.2 = []) \/ (r.1.1 = -1 /\ r.2 = position)).
Proof.
  intros Hw. destruct (wp_result _ _ _ (engine_getdents_spec s name capacity position Hw)) as (r & s' & E & _ & H). eauto.
Qed.

(** C29: the groups with a backup of the superblock: all of them on a volume
    without the sparse feature, and otherwise group 0 and the powers of 3, 5
    and 7, 1 included; the 32 rounds of the division loop are enough. *)
Theorem backup_group_sparse s g : mem_ok s -> is_u32 g ->
  exists b, backup_group g s = Some (b, s) /\
    (b = true <-> has_bits (le32 (superblock s) 100) 1 = false \/ g = 0 \/ is_power g 3 \/ is_power g 5 \/ is_power g 7).
Proof.
  intros Hm Hg. exists (backup_at (superblock s) g). split.
  - destruct (wp_result (backup_group g) (fun b s' => b = backup_at (superblock s) g /\ s' = s) s) as (b & s' & E & -> & ->); [|done].
    apply wp_tail. by apply backup_group_spec.
  - unfold backup_at, is_u32 in *. rewrite !orb_true_iff, negb_true_iff, !Z.eqb_eq.
    destruct (Z.eq_dec g 0) as [->|H0]; [tauto|].
    rewrite !power_of_spec by lia. enough (g = 1 -> is_power g 3) by tauto. intros ->. by exists 0.
Qed.
End Claims.

Lemma ext_writer_atomic_witness : exists r s', ext_op (ExtMkdir [46]) mounted_fs = Some (r, s') /\ cwd s' = cwd mounted_fs /\
  (value r = 0 \/ value r = -1) /\ (value r = -1 -> mounted s' = true -> volume_kept mounted_fs s').
Proof.
  apply (ext_writer_atomic mounted_fs (ExtMkdir [46])); [exact mounted_fs_wf| |reflexivity].
  repeat constructor; unfold is_byte; lia.
Defined.
Lemma ext_reader_pure_witness : exists r s', ext_op (ExtStat [47]) mounted_fs = Some (r, s') /\ volume_kept mounted_fs s' /\
  cwd s' = cwd mounted_fs /\ (mounted s' = true -> mounted mounted_fs = true).
Proof. apply (ext_reader_pure mounted_fs (ExtStat [47])); [exact mounted_fs_wf|exact I|reflexivity]. Defined.
Lemma ext_init_mounts_witness : exists r s', ext_op ExtInit (boot formatted) = Some (r, s') /\
  image (dev s') = image formatted /\
  ((value r = 0 /\ mounted s' = true /\ layout (geo s') (superblock s') (descriptors s') /\ cwd s' = ROOT_INO /\
    live s' ROOT_INO) \/ (value r = -1 /\ mounted s' = false)).
Proof. apply (ext_init_mounts (boot formatted)); [apply boot_wf|exact formatted_fits]. Defined.
Lemma allocate_fresh_witness : exists n s', allocate false (reset mounted_fs) = Some (n, s') /\ laid s' /\
  image (dev s') = image (dev (reset mounted_fs)) /\
  (forall b i, is_map (reset mounted_fs) b -> 0 <= i < 8192 -> seen_bit (reset mounted_fs) b i = true -> seen_bit s' b i = true) /\
  (n <> 0 -> exists g i, 0 <= g < groups (geo (reset mounted_fs)) /\ 0 <= i < map_limit (geo (reset mounted_fs)) false g /\
     n = number (geo (reset mounted_fs)) false g i /\
     seen_bit (reset mounted_fs) (map_block (reset mounted_fs) false g) i = false /\
     seen_bit s' (map_block (reset mounted_fs) false g) i = true /\
     (false = false -> data s' n = true /\ view s' n = zero_block)).
Proof.
  apply (allocate_fresh (reset mounted_fs) false).
  - exact (laid_reset mounted_fs mounted_fs_wf mounted_fs_mounted).
  - exact (coherent_reset mounted_fs).
Defined.
Lemma engine_getdents_fits_witness : exists r s', engine_getdents [47] 64 0 mounted_fs = Some (r, s') /\
  zlen r.1.2 <= Z.max 0 64 /\ (r.1.1 = zlen r.1.2 \/ (r.1.1 = -22 /\ r.1.2 = []) \/ (r.1.1 = -1 /\ r.2 = 0)).
Proof. apply (engine_getdents_fits mounted_fs [47] 64 0). exact mounted_fs_wf. Defined.
Lemma backup_group_sparse_witness : exists b, backup_group 9 (boot formatted) = Some (b, boot formatted) /\
  (b = true <-> has_bits (le32 (superblock (boot formatted)) 100) 1 = false \/ 9 = 0 \/ is_power 9 3 \/ is_power 9 5 \/ is_power 9 7).
Proof. apply (backup_group_sparse (boot formatted) 9); [exact (wf_mem _ (boot_wf formatted))|unfold is_u32; lia]. Defined.
