(* ===== verification/State.v ===== *)
(** * State passing

    A state monad for the components whose code only threads state, with
    stdpp's notation, and Hoare-style rules for it. *)
From Stdlib Require Import String Ascii.
From S2P Require Import Prelude.

Definition state (S A : Type) : Type := S -> A * S.
#[export] Instance state_ret S : MRet (state S) := fun _ a s => (a, s).
#[export] Instance state_bind S : MBind (state S) := fun _ _ f m s => let '(a, s') := m s in f a s'.
Definition gets {S A} (f : S -> A) : state S A := fun s => (f s, s).
Definition modify {S} (f : S -> S) : state S unit := fun s => (tt, f s).
(** A computation on a part of the state. *)
Definition zoom {S T A} (get : S -> T) (set : T -> S -> S) (m : state T A) : state S A :=
  fun s => let '(a, t) := m (get s) in (a, set t s).

(** C string literals. *)
Definition text (s : string) : list Z := map (fun a => Z.of_N (N_of_ascii a)) (list_ascii_of_string s).

Lemma run_bind {S A B} (m : state S A) (f : A -> state S B) s : (m ≫= f) s = f (m s).1 (m s).2.
Proof. unfold mbind, state_bind. by destruct (m s). Qed.
Lemma run_gets {S A B} (g : S -> A) (f : A -> state S B) s : (gets g ≫= f) s = f (g s) s.
Proof. done. Qed.

(** What a computation ensures from a state. *)
Definition ensures {S A} (m : state S A) (Q : A -> S -> Prop) (s : S) : Prop := Q (m s).1 (m s).2.
Section Rules.
Context {S : Type}.
Lemma ensures_ret {A} (a : A) (Q : A -> S -> Prop) s : Q a s -> ensures (mret a) Q s.
Proof. done. Qed.
Lemma ensures_bind {A B} (m : state S A) (f : A -> state S B) (Q : B -> S -> Prop) s :
  ensures m (fun a s' => ensures (f a) Q s') s -> ensures (m ≫= f) Q s.
Proof. unfold ensures, mbind, state_bind. by destruct (m s). Qed.
Lemma ensures_mono {A} (m : state S A) (P Q : A -> S -> Prop) s :
  ensures m P s -> (forall a s', P a s' -> Q a s') -> ensures m Q s.
Proof. unfold ensures. auto. Qed.
Lemma ensures_use {A B} (m : state S A) (f : A -> state S B) (P : A -> S -> Prop) (Q : B -> S -> Prop) s :
  ensures m P s -> (forall a s', P a s' -> ensures (f a) Q s') -> ensures (m ≫= f) Q s.
Proof. intros H Hf. apply ensures_bind. by eapply ensures_mono. Qed.
Lemma ensures_gets {A B} (g : S -> A) (f : A -> state S B) (Q : B -> S -> Prop) s :
  ensures (f (g s)) Q s -> ensures (gets g ≫= f) Q s.
Proof. done. Qed.
Lemma ensures_modify {B} (g : S -> S) (f : unit -> state S B) (Q : B -> S -> Prop) s :
  ensures (f tt) Q (g s) -> ensures (modify g ≫= f) Q s.
Proof. done. Qed.
End Rules.
