(* ===== verification/Disk.v ===== *)
(** * Disks

    src/disk.c: the selected device or partition, the ATA driver over its
    ports, the RAM disk and the dispatch to the USB and PCI drivers.  The
    processor's ports and the other two drivers are the interface [Drivers];
    a boolean result is true where the code returns 0. *)
From Stdlib Require Import String.
From S2P Require Import Prelude CString State.

Class Drivers (W : Type) := {
  inb : Z -> state W Z; outb : Z -> Z -> state W unit;
  inw : Z -> state W Z; outw : Z -> Z -> state W unit;
  usb_storage_select : Z -> state W bool; usb_storage_probe : state W bool;
  usb_storage_sectors : W -> Z; usb_storage_generation : W -> Z;
  usb_storage_present : state W bool;
  usb_storage_read : Z -> Z -> state W (bool * list Z); usb_storage_write : Z -> list Z -> state W bool;
  usb_storage_flush : state W bool;
  storage_pci_init : state W unit; storage_pci_count : W -> Z;
  storage_pci_name : W -> Z -> list Z; storage_pci_type : W -> Z -> list Z; storage_pci_present : Z -> state W bool;
  storage_pci_capacity : W -> Z -> Z;
  storage_pci_read : Z -> Z -> Z -> state W (bool * list Z); storage_pci_write : Z -> Z -> list Z -> state W bool;
  storage_pci_flush : Z -> state W bool }.

Definition DISK_SECTORS : Z := 4096.
Definition ATA_CMD_READ : Z := 0x20.
Definition ATA_CMD_WRITE : Z := 0x30.
Definition ATA_CMD_IDENTIFY : Z := 0xEC.
Definition ATA_CMD_FLUSH : Z := 0xE7.
Definition ATA_SR_ERR : Z := 0x01.
Definition ATA_SR_DRQ : Z := 0x08.
Definition ATA_SR_BSY : Z := 0x80.
Definition USB_STORAGE_MAX : Z := 48.
Definition DISK_MAX_DEVICES : Z := 64.
Definition DISK_PCI_BASE : Z := 64.
Definition DISK_NONE : Z := 0.
Definition DISK_RAM : Z := 1.
Definition DISK_ATA : Z := 2.
Definition DISK_USB : Z := 3.

Record DiskSelection := { id : Z; offset : Z; sectors : Z; generation : Z }.
Definition no_selection : DiskSelection := {| id := DISK_NONE; offset := 0; sectors := 0; generation := 0 |}.

(** [ram_disk] by sector. *)
Record Disk (W : Type) := {
  world : W; ram_disk : Z -> list Z; ram_ready : bool; selected : DiskSelection;
  ata_capacity : list Z; ata_lba48 : list bool; ata_unit : Z; device_names : list (list Z) }.
Arguments world {W}. Arguments ram_disk {W}. Arguments ram_ready {W}. Arguments selected {W}.
Arguments ata_capacity {W}. Arguments ata_lba48 {W}. Arguments ata_unit {W}. Arguments device_names {W}.

Section Disk.
Context {W : Type} `{DR : Drivers W}.
#[local] Abbreviation DM := (state (Disk W)).

Definition set_world (w : W) (d : Disk W) : Disk W :=
  {| world := w; ram_disk := ram_disk d; ram_ready := ram_ready d; selected := selected d;
     ata_capacity := ata_capacity d; ata_lba48 := ata_lba48 d; ata_unit := ata_unit d; device_names := device_names d |}.
Definition set_ram (r : Z -> list Z) (ready : bool) (d : Disk W) : Disk W :=
  {| world := world d; ram_disk := r; ram_ready := ready; selected := selected d;
     ata_capacity := ata_capacity d; ata_lba48 := ata_lba48 d; ata_unit := ata_unit d; device_names := device_names d |}.
Definition set_selected (s : DiskSelection) (d : Disk W) : Disk W :=
  {| world := world d; ram_disk := ram_disk d; ram_ready := ram_ready d; selected := s;
     ata_capacity := ata_capacity d; ata_lba48 := ata_lba48 d; ata_unit := ata_unit d; device_names := device_names d |}.
Definition set_ata (cap : list Z) (lba48 : list bool) (unit : Z) (d : Disk W) : Disk W :=
  {| world := world d; ram_disk := ram_disk d; ram_ready := ram_ready d; selected := selected d;
     ata_capacity := cap; ata_lba48 := lba48; ata_unit := unit; device_names := device_names d |}.
Definition set_names (l : list (list Z)) (d : Disk W) : Disk W :=
  {| world := world d; ram_disk := ram_disk d; ram_ready := ram_ready d; selected := selected d;
     ata_capacity := ata_capacity d; ata_lba48 := ata_lba48 d; ata_unit := ata_unit d; device_names := l |}.
Definition io {A} (m : state W A) : DM A := zoom world set_world m.

(** ** Identifiers *)
Definition is_ata (id : Z) : bool := (id =? DISK_ATA) || ((4 <=? id) && (id <=? 6)).
Definition ata_id (unit : Z) : Z := if truth unit then unit + 3 else DISK_ATA.
Definition ata_use (id : Z) : DM unit :=
  modify (fun d => set_ata (ata_capacity d) (ata_lba48 d) (if id =? DISK_ATA then 0 else id - 3) d).
Definition usb_names (i : Z) : list Z := text "usb" ++ itoa i.
Definition is_usb (id : Z) : bool := (id =? DISK_USB) || ((8 <=? id) && (id <? 8 + USB_STORAGE_MAX - 1)).
Definition usb_id (unit : Z) : Z := if truth unit then 7 + unit else DISK_USB.
Definition usb_unit (id : Z) : Z := if id =? DISK_USB then 0 else id - 7.
Fixpoint first_index (n : nat) (i : Z) (p : Z -> bool) : Z :=
  match n with
  | O => -1
  | S n' => if p i then i else first_index n' (i + 1) p
  end.
Definition usb_name_unit (name : list Z) : Z :=
  first_index (Z.to_nat USB_STORAGE_MAX) 0 (fun i => strcmp name (usb_names i) =? 0).

(** ** The ATA driver *)
Definition ata_sectors (d : Disk W) : Z := nth (Z.to_nat (ata_unit d)) (ata_capacity d) 0.
Definition lba48 (d : Disk W) : bool := nth (Z.to_nat (ata_unit d)) (ata_lba48 d) false.
Definition ata_base (d : Disk W) : Z := if ata_unit d <? 2 then 0x1F0 else 0x170.
Definition ata_slave (d : Disk W) : Z := Z.shiftl (Z.land (ata_unit d) 1) 4.
(** The register at [ATA_DATA + k]. *)
Definition ata_out (k v : Z) : DM unit := b ← gets ata_base; io (outb (b + k) (u8 v)).
Definition ata_in (k : Z) : DM Z := b ← gets ata_base; io (inb (b + k)).
Definition io_wait : DM unit := io (outb 0x80 0).
Definition WAITS : nat := Z.to_nat 1000000.

Fixpoint wait_not_busy (n : nat) : DM bool :=
  match n with
  | O => mret false
  | S n' => v ← ata_in 7; if has_bits v ATA_SR_BSY then wait_not_busy n' else mret true
  end.
Definition ata_wait_not_busy : DM bool := wait_not_busy WAITS.
Fixpoint wait_drq (n : nat) : DM bool :=
  match n with
  | O => mret false
  | S n' =>
      v ← ata_in 7;
      if has_bits v ATA_SR_ERR then mret false
      else if negb (has_bits v ATA_SR_BSY) && has_bits v ATA_SR_DRQ then mret true
      else wait_drq n'
  end.
Definition ata_wait_drq : DM bool := wait_drq WAITS.
Definition ata_select_drive : DM bool :=
  s ← gets ata_slave; _ ← ata_out 6 (Z.lor 0xE0 s); _ ← io_wait; ata_wait_not_busy.

Fixpoint in_words (n : nat) : DM (list Z) :=
  match n with
  | O => mret []
  | S n' => b ← gets ata_base; v ← io (inw b); l ← in_words n'; mret (v :: l)
  end.
Fixpoint out_words (l : list Z) : DM unit :=
  match l with
  | lo :: hi :: l' => b ← gets ata_base; _ ← io (outw b (lo + hi * 256)); out_words l'
  | _ => mret tt
  end.
Definition put_capacity (v : Z) (d : Disk W) : Disk W :=
  set_ata (<[Z.to_nat (ata_unit d) := v]> (ata_capacity d)) (ata_lba48 d) (ata_unit d) d.
Definition put_lba48 (b : bool) (d : Disk W) : Disk W :=
  set_ata (ata_capacity d) (<[Z.to_nat (ata_unit d) := b]> (ata_lba48 d)) (ata_unit d) d.

Definition ata_identify : DM bool :=
  _ ← modify (put_capacity 0);
  ok ← ata_select_drive;
  if negb ok then mret false
  else
    _ ← ata_out 2 0; _ ← ata_out 3 0; _ ← ata_out 4 0; _ ← ata_out 5 0;
    _ ← ata_out 7 ATA_CMD_IDENTIFY; _ ← io_wait;
    v ← ata_in 7;
    if v =? 0 then mret false
    else
      ok ← ata_wait_drq;
      if negb ok then mret false
      else
        identity ← in_words 256;
        let word k := nth k identity 0 in
        let wide := has_bits (word 83%nat) (Z.shiftl 1 10) in
        _ ← modify (put_lba48 wide);
        let capacity :=
          if wide then Z.lor (word 100%nat) (Z.lor (Z.shiftl (word 101%nat) 16)
                         (Z.lor (Z.shiftl (word 102%nat) 32) (Z.shiftl (word 103%nat) 48)))
          else Z.lor (word 60%nat) (Z.shiftl (word 61%nat) 16) in
        _ ← modify (put_capacity capacity);
        if (Z.land (word 106%nat) 0xd000 =? 0x5000) && (negb (word 117%nat =? 256) || truth (word 118%nat)) then mret false
        else mret (negb (capacity =? 0)).

Definition ata_prepare_lba (lba : Z) : DM bool :=
  wide ← gets lba48;
  if negb wide && (2 ^ 28 <=? lba) then mret false
  else
    ok ← ata_wait_not_busy;
    if negb ok then mret false
    else
      s ← gets ata_slave;
      _ ← ata_out 6 (Z.lor 0xE0 (Z.lor s (if wide : bool then 0 else Z.land (Z.shiftr lba 24) 0x0F)));
      _ ← (if wide : bool then
             _ ← ata_out 2 0; _ ← ata_out 3 (Z.shiftr lba 24); _ ← ata_out 4 0; ata_out 5 0
           else (mret tt : DM unit));
      _ ← ata_out 2 1;
      _ ← ata_out 3 (Z.land lba 0xFF);
      _ ← ata_out 4 (Z.land (Z.shiftr lba 8) 0xFF);
      _ ← ata_out 5 (Z.land (Z.shiftr lba 16) 0xFF);
      mret true.

Definition words_bytes (l : list Z) : list Z := flat_map le16_bytes l.
Definition ata_read (lba : Z) : DM (bool * list Z) :=
  n ← gets ata_sectors;
  if n <=? lba then mret (false, [])
  else
    ok ← ata_prepare_lba lba;
    if negb ok then mret (false, [])
    else
      wide ← gets lba48;
      _ ← ata_out 7 (if wide : bool then 0x24 else ATA_CMD_READ);
      ok ← ata_wait_drq;
      if negb ok then mret (false, [])
      else words ← in_words 256; mret (true, words_bytes words).

Definition ata_flush_command : DM unit := wide ← gets lba48; ata_out 7 (if wide : bool then 0xea else ATA_CMD_FLUSH).
(** The 512 bytes at an offset of a buffer; callers pass buffers that have them. *)
Definition sector_at (data : list Z) (o : Z) : list Z := map (fun i => u8 (byte_at data (o + i))) (seqZ 0 512).
Definition ata_write (lba : Z) (bytes : list Z) : DM bool :=
  n ← gets ata_sectors;
  if n <=? lba then mret false
  else
    ok ← ata_prepare_lba lba;
    if negb ok then mret false
    else
      wide ← gets lba48;
      _ ← ata_out 7 (if wide : bool then 0x34 else ATA_CMD_WRITE);
      ok ← ata_wait_drq;
      if negb ok then mret false
      else
        _ ← out_words (sector_at bytes 0);
        ok ← ata_wait_not_busy;
        if negb ok then mret false else _ ← ata_flush_command; ata_wait_not_busy.

(** ** Raw reads *)
Fixpoint ata_read_loop (n : nat) (lba : Z) (out : list Z) : DM (bool * list Z) :=
  match n with
  | O => mret (true, out)
  | S n' => r ← ata_read (u32 lba); if r.1 : bool then ata_read_loop n' (lba + 1) (out ++ r.2) else mret (false, out)
  end.
Definition ram_range (ram : Z -> list Z) (lba count : Z) : list Z := concat (map ram (seqZ lba count)).
Definition raw_read (id lba count : Z) : DM (bool * list Z) :=
  if DISK_PCI_BASE <=? id then io (storage_pci_read (id - DISK_PCI_BASE) lba count)
  else if is_usb id then
    ok ← io (usb_storage_select (usb_unit id));
    if ok : bool then io (usb_storage_read lba count) else mret (false, [])
  else if is_ata id then _ ← ata_use id; ata_read_loop (Z.to_nat count) lba []
  else
    d ← gets (fun d => d);
    mret (if (id =? DISK_RAM) && ram_ready d && (lba <? DISK_SECTORS) && (count <=? DISK_SECTORS - lba)
          then (true, ram_range (ram_disk d) lba count) else (false, [])).

(** ** Selecting a device or a partition *)
Definition little32 (p : list Z) (o : Z) : Z :=
  Z.lor (byte_at p o) (Z.lor (Z.shiftl (byte_at p (o + 1)) 8)
    (Z.lor (Z.shiftl (byte_at p (o + 2)) 16) (Z.shiftl (byte_at p (o + 3)) 24))).
Definition clip32 (n : Z) : Z := if 0xffffffff <? n then 0xffffffff else u32 n.

(** The ATA names, and the index of a PCI device of that name. *)
Definition ata_name (name : list Z) : bool :=
  (strcmp name (text "ata0") =? 0) ||
  ((strncmp name (text "disk") 4 =? 0) && (49 <=? schar (byte_at name 4)) && (schar (byte_at name 4) <=? 52) &&
   (byte_at name 5 =? 0)).
Fixpoint find_pci (n : nat) (i : Z) (name : list Z) : DM Z :=
  match n with
  | O => mret (-1)
  | S n' =>
      w ← gets world;
      if strcmp name (storage_pci_name w i) =? 0 then
        p ← io (storage_pci_present i);
        if p : bool then mret i else find_pci n' (i + 1) name
      else find_pci n' (i + 1) name
  end.

(** The device of that name and its sectors; [None] for the failing return. *)
Definition find_device (name : list Z) : DM (option (Z * Z * Z)) :=
  let usb := usb_name_unit name in
  if 0 <=? usb then
    ok ← io (usb_storage_select usb);
    if negb ok then mret None
    else
      ok ← io usb_storage_probe;
      if negb ok then mret None
      else w ← gets world; mret (Some (usb_id usb, usb_storage_sectors w, usb_storage_generation w))
  else if ata_name name then
    _ ← modify (fun d => set_ata (ata_capacity d) (ata_lba48 d) (if head_char name =? 97 then 0 else byte_at name 4 - 49) d);
    ok ← ata_identify;
    if negb ok then mret None
    else n ← gets ata_sectors; u ← gets ata_unit; mret (Some (ata_id u, clip32 n, 0))
  else
    ready ← gets ram_ready;
    if (strcmp name (text "ram0") =? 0) && ready then mret (Some (DISK_RAM, DISK_SECTORS, 0))
    else
      _ ← io storage_pci_init;
      w ← gets world;
      i ← find_pci (Z.to_nat (storage_pci_count w)) 0 name;
      if i <? 0 then mret None
      else w ← gets world; mret (Some (DISK_PCI_BASE + i, clip32 (storage_pci_capacity w i), 0)).

(** The first Linux entry of a partition table: [None] for a bad one, with
    the range it takes of the device otherwise. *)
Fixpoint linux_entry (n : nat) (i : Z) (mbr : list Z) (physical : Z) : option (Z * Z) :=
  match n with
  | O => None
  | S n' =>
      let e := 446 + i * 16 in
      if negb (byte_at mbr (e + 4) =? 0x83) then linux_entry n' (i + 1) mbr physical
      else
        let start := little32 mbr (e + 8) in
        let count := little32 mbr (e + 12) in
        if (start =? 0) || (count =? 0) || (physical <=? start) || (physical - start <? count) then None
        else Some (start, count)
  end.

(** Where the filesystem of a device is: a raw superblock first. *)
Definition locate (id physical : Z) : DM (option (Z * Z)) :=
  r ← (if physical <? 4 then mret (false, []) else raw_read id 2 1);
  if negb r.1 then mret None
  else if (byte_at r.2 56 =? 0x53) && (byte_at r.2 57 =? 0xEF) then mret (Some (0, physical))
  else
    r ← raw_read id 0 1;
    if negb r.1 then mret None
    else if (byte_at r.2 510 =? 0x55) && (byte_at r.2 511 =? 0xAA) then mret (linux_entry 4 0 r.2 physical)
    else mret (Some (0, physical)).

Definition select_device (name : list Z) (raw : bool) : DM bool :=
  f ← find_device name;
  match f with
  | None => mret false
  | Some (i, physical, gen) =>
      place ← (if raw then mret (Some (0, physical)) else locate i physical);
      match place with
      | None => mret false
      | Some (o, n) => _ ← modify (set_selected {| id := i; offset := o; sectors := n; generation := gen |}); mret true
      end
  end.

(** ** The selected device *)
Definition disk_present : DM bool :=
  s ← gets selected;
  if DISK_PCI_BASE <=? id s then io (storage_pci_present (id s - DISK_PCI_BASE))
  else
    _ ← (if is_ata (id s) then ata_use (id s) else mret tt);
    ok ← (if is_usb (id s) then io (usb_storage_select (usb_unit (id s))) else mret true);
    if negb ok then mret false
    else if is_usb (id s) then
      p ← io usb_storage_present;
      w ← gets world; mret (p && (generation s =? usb_storage_generation w))
    else if is_ata (id s) then n ← gets ata_sectors; mret (negb (n =? 0))
    else r ← gets ram_ready; mret ((id s =? DISK_RAM) && r).
Definition disk_read_many (lba count : Z) : DM (bool * list Z) :=
  p ← disk_present;
  s ← gets selected;
  if negb p || (count =? 0) || (8 <? count) || (sectors s <=? lba) || (u32 (sectors s - lba) <? count) then mret (false, [])
  else raw_read (id s) (u32 (lba + offset s)) count.
Definition disk_read (lba : Z) : DM (bool * list Z) := disk_read_many lba 1.
Definition disk_write (lba : Z) (bytes : list Z) : DM bool :=
  p ← disk_present;
  s ← gets selected;
  if negb p || (sectors s <=? lba) then mret false
  else if DISK_PCI_BASE <=? id s then io (storage_pci_write (id s - DISK_PCI_BASE) (u32 (lba + offset s)) bytes)
  else if is_usb (id s) then io (usb_storage_write (u32 (lba + offset s)) bytes)
  else if is_ata (id s) then ata_write (u32 (lba + offset s)) bytes
  else
    _ ← modify (fun d => set_ram (fun n => if n =? lba then sector_at bytes 0 else ram_disk d n) (ram_ready d) d);
    mret true.
Definition disk_flush : DM bool :=
  p ← disk_present;
  s ← gets selected;
  if negb p then mret false
  else if DISK_PCI_BASE <=? id s then io (storage_pci_flush (id s - DISK_PCI_BASE))
  else if is_usb (id s) then io usb_storage_flush
  else if is_ata (id s) then
    ok ← ata_select_drive;
    if negb ok then mret false
    else
      _ ← ata_flush_command;
      ok ← ata_wait_not_busy;
      if negb ok then mret false else v ← ata_in 7; mret (negb (has_bits v 0x21))
  else mret true.

(** A name that ends in p1 to p4 is a partition of the device before it. *)
Definition partition_name (name : list Z) : option (list Z * Z) :=
  let n := strlen name in
  if (3 <=? n) && (byte_at name (n - 2) =? 112) && (49 <=? schar (byte_at name (n - 1))) && (schar (byte_at name (n - 1)) <=? 52)
  then Some (take (Z.to_nat (n - 2)) name, byte_at name (n - 1) - 49) else None.
Definition select_named (name : list Z) (raw : bool) : DM bool :=
  match partition_name name with
  | None => select_device name raw
  | Some (base, i) =>
      if 32 <=? zlen base then mret false
      else
        ok ← select_device base true;
        if negb ok then mret false
        else
          mbr ← disk_read 0;
          if negb mbr.1 || negb (byte_at mbr.2 510 =? 0x55) || negb (byte_at mbr.2 511 =? 0xaa) then mret false
          else
            s ← gets selected;
            let e := 446 + i * 16 in
            let type := byte_at mbr.2 (e + 4) in
            let start := little32 mbr.2 (e + 8) in
            let size := little32 mbr.2 (e + 12) in
            if (type =? 0) || (type =? 0xee) || (start =? 0) || (size =? 0) || (sectors s <=? start)
               || (sectors s - start <? size) then mret false
            else
              _ ← modify (set_selected {| id := id s; offset := start; sectors := size; generation := generation s |});
              mret true
  end.
Definition disk_select (name : list Z) : DM bool := select_named name false.
Definition disk_select_raw (name : list Z) : DM bool := select_named name true.
Definition disk_init : DM bool := disk_select (text "ata0").
(** [None] is the null pointer; an image that is passed has [size] bytes. *)
Definition disk_init_from_memory (data : option (list Z)) (size : Z) : DM bool :=
  match data with
  | None => mret false
  | Some data =>
  if negb (size =? DISK_SECTORS * 512) then mret false
  else
    _ ← modify (set_ram (fun n => sector_at data (n * 512)) true);
    _ ← modify (set_selected {| id := DISK_RAM; offset := 0; sectors := DISK_SECTORS; generation := 0 |});
    mret true
  end.
Definition disk_selection : DM DiskSelection := gets selected.
Definition disk_restore (s : DiskSelection) : DM unit :=
  _ ← modify (set_selected s); if is_ata (id s) then ata_use (id s) else mret tt.
Definition disk_deselect : DM unit := modify (set_selected no_selection).
Definition disk_name : DM (list Z) :=
  s ← gets selected;
  if DISK_PCI_BASE <=? id s then w ← gets world; mret (storage_pci_name w (id s - DISK_PCI_BASE))
  else
    _ ← (if is_ata (id s) then ata_use (id s) else mret tt);
    u ← gets ata_unit;
    mret (if is_usb (id s) then usb_names (usb_unit (id s))
          else if is_ata (id s) then text "disk" ++ [49 + u]
          else if id s =? DISK_RAM then text "ram0" else text "none").
Definition disk_type : DM (list Z) :=
  s ← gets selected; w ← gets world;
  mret (if DISK_PCI_BASE <=? id s then storage_pci_type w (id s - DISK_PCI_BASE)
        else if id s =? DISK_RAM then text "ram" else if is_usb (id s) then text "usb" else text "disk").
Definition disk_capacity : DM Z :=
  s ← gets selected;
  if DISK_PCI_BASE <=? id s then w ← gets world; mret (storage_pci_capacity w (id s - DISK_PCI_BASE))
  else if is_usb (id s) then
    ok ← io (usb_storage_select (usb_unit (id s)));
    if negb ok then mret 0 else w ← gets world; mret (usb_storage_sectors w)
  else if is_ata (id s) then _ ← ata_use (id s); gets ata_sectors
  else mret (if id s =? DISK_RAM then DISK_SECTORS else 0).

(** ** The list of devices *)
Definition try_name (bounded : bool) (name : list Z) : DM unit :=
  l ← gets device_names;
  if bounded && (DISK_MAX_DEVICES <=? zlen l) then mret tt
  else
    ok ← disk_select_raw name;
    if ok : bool then modify (fun d => set_names (device_names d ++ [name]) d) else mret tt.
Fixpoint try_pci (n : nat) (i : Z) : DM unit :=
  match n with
  | O => mret tt
  | S n' =>
      l ← gets device_names;
      if DISK_MAX_DEVICES <=? zlen l then mret tt
      else
        p ← io (storage_pci_present i);
        w ← gets world;
        _ ← (if p : bool then modify (fun d => set_names (device_names d ++ [storage_pci_name w i]) d) else mret tt);
        try_pci n' (i + 1)
  end.
Fixpoint try_names (bounded : bool) (l : list (list Z)) : DM unit :=
  match l with
  | [] => mret tt
  | n :: l' => _ ← try_name bounded n; try_names bounded l'
  end.
Definition disk_device_count : DM Z :=
  previous ← gets selected;
  _ ← modify (set_names []);
  _ ← try_names false (map text ["ram0"; "disk1"; "disk2"; "disk3"; "disk4"]%string);
  _ ← try_names true (map usb_names (seqZ 0 USB_STORAGE_MAX));
  _ ← io storage_pci_init;
  w ← gets world;
  _ ← try_pci (Z.to_nat (storage_pci_count w)) 0;
  _ ← disk_restore previous;
  l ← gets device_names; mret (zlen l).
Definition disk_device_name (index : Z) : DM (list Z) :=
  l ← gets device_names;
  mret (if (0 <=? index) && (index <? zlen l) then nth (Z.to_nat index) l [] else text "none").

End Disk.

(** ** Decimal conversion of 64-bit numbers *)
(** One digit by long division, from bit [n - 1] down. *)
Fixpoint divide10 (n : nat) (value quotient remainder : Z) : Z * Z :=
  match n with
  | O => (quotient, remainder)
  | S n' =>
      let r := u32 (remainder * 2 + Z.land (Z.shiftr value (Z.of_nat n')) 1) in
      if 10 <=? r then divide10 n' value (Z.lor quotient (Z.shiftl 1 (Z.of_nat n'))) (r - 10)
      else divide10 n' value quotient r
  end.
Fixpoint u64_digits (fuel : nat) (value : Z) : list Z :=
  match fuel with
  | O => []
  | S fuel' =>
      let '(q, r) := divide10 64 value 0 0 in
      (48 + r) :: (if truth q then u64_digits fuel' q else [])
  end.
Definition disk_u64toa (value : Z) : list Z := rev (u64_digits 20 value).
