(* ===== verification/DiskProofs.v ===== *)
(** * Disks: addresses, ranges and numbers

    The ATA registers carry the sector number; a selected partition stays
    inside its device and the accesses inside the partition; the decimal
    printer; and what writing does on a partition of the RAM disk. *)
From Stdlib Require Import String.
From S2P Require Import Prelude CString State Disk.

(** ** [disk_u64toa] *)
Lemma lor_bit q n : 0 <= n -> q mod 2 ^ (n + 1) = 0 -> Z.lor q (Z.shiftl 1 n) = q + 2 ^ n.
Proof.
  intros Hn Hq. rewrite Z.shiftl_1_l. rewrite (lor_low (n + 1)); [done|lia| |done].
  rewrite Z.pow_add_r by lia. pose proof (Z.pow_pos_nonneg 2 n). lia.
Qed.
Lemma divide10_spec n value q r : 0 <= value -> 0 <= r < 10 -> q mod 2 ^ Z.of_nat n = 0 ->
  exists a r', divide10 n value q r = (q + a, r') /\ 0 <= r' < 10 /\ 0 <= a < 2 ^ Z.of_nat n /\
    r * 2 ^ Z.of_nat n + value mod 2 ^ Z.of_nat n = a * 10 + r'.
Proof.
  intros Hv. revert q r. induction n as [|n IH]; intros q r Hr Hq.
  { exists 0, r. cbn [divide10]. change (2 ^ Z.of_nat 0) with 1. rewrite Z.mod_1_r. split; [f_equal; lia|]. lia. }
  cbn [divide10]. rewrite Nat2Z.inj_succ, <- Z.add_1_r in *.
  set (m := Z.of_nat n) in *. assert (0 <= m) as Hm by lia. pose proof (Z.pow_pos_nonneg 2 m) as Hp.
  assert (2 ^ (m + 1) = 2 * 2 ^ m) as Hpow by (rewrite Z.pow_add_r by lia; lia).
  assert (Z.land (Z.shiftr value m) 1 = value / 2 ^ m mod 2) as Hbit.
  { change 1 with (2 ^ 1 - 1). rewrite land_mask, shr by lia. done. }
  rewrite Hbit. set (b := value / 2 ^ m mod 2). assert (0 <= b < 2) as Hb by (apply Z.mod_pos_bound; lia).
  rewrite u32_small by (unfold is_u32; lia).
  assert (value mod 2 ^ (m + 1) = b * 2 ^ m + value mod 2 ^ m) as Hsplit.
  { rewrite Hpow, (Z.mul_comm 2), Z.rem_mul_r by lia. unfold b. lia. }
  assert (q mod 2 ^ m = 0) as Hqm.
  { rewrite Hpow in Hq. apply Z.mod_divide in Hq; [|lia]. apply Z.mod_divide; [lia|]. destruct Hq as [k ->]. exists (k * 2). lia. }
  destruct (Z.leb_spec 10 (r * 2 + b)).
  - rewrite lor_bit by done. destruct (IH (q + 2 ^ m) (r * 2 + b - 10)) as (a & r' & E & Hr' & Ha & Hs); [lia| |].
    { rewrite <- Z.add_mod_idemp_r, Z.mod_same, Z.add_0_r by lia. done. }
    exists (a + 2 ^ m), r'. rewrite E. split; [f_equal; lia|]. split; [done|]. split; [lia|]. nia.
  - destruct (IH q (r * 2 + b)) as (a & r' & E & Hr' & Ha & Hs); [lia|done|].
    exists a, r'. rewrite E. split; [done|]. split; [done|]. split; [lia|]. nia.
Qed.
Lemma divide10_64 value : 0 <= value < 2 ^ 64 -> divide10 64 value 0 0 = (value / 10, value mod 10).
Proof.
  intros Hv. destruct (divide10_spec 64 value 0 0) as (a & r' & E & Hr' & Ha & Hs); [lia|lia|done|].
  change (Z.of_nat 64) with 64 in Hs. rewrite (Z.mod_small value) in Hs by lia. rewrite E.
  assert (value / 10 = a) as -> by (symmetry; apply (Z.div_unique _ _ _ r'); lia).
  assert (value mod 10 = r') as -> by (symmetry; apply (Z.mod_unique _ _ a); lia). done.
Qed.
#[local] Opaque divide10.
Lemma u64_digits_next fuel value : 0 <= value < 2 ^ 64 ->
  u64_digits (S fuel) value = (48 + value mod 10) :: (if truth (value / 10) then u64_digits fuel (value / 10) else []).
Proof. intros Hv. cbn [u64_digits]. by rewrite divide10_64. Qed.
#[local] Opaque u64_digits.
(** The number that decimal digits write. *)
Definition decimal (l : list Z) : Z := fold_left (fun v c => v * 10 + (c - 48)) l 0.
Lemma decimal_snoc l c : decimal (l ++ [c]) = decimal l * 10 + (c - 48).
Proof. unfold decimal. by rewrite fold_left_app. Qed.
Lemma u64_digits_spec fuel value : 0 <= value < 2 ^ 64 -> value < 10 ^ Z.of_nat fuel -> (0 < fuel)%nat ->
  Forall is_digit (u64_digits fuel value) /\ decimal (rev (u64_digits fuel value)) = value /\
  (length (u64_digits fuel value) <= fuel)%nat /\ u64_digits fuel value <> [] /\
  (head_char (rev (u64_digits fuel value)) = 48 -> u64_digits fuel value = [48]).
Proof.
  revert value. induction fuel as [|fuel IH]; intros value Hv Hf H0; [lia|].
  rewrite u64_digits_next by done. pose proof (Z.mod_pos_bound value 10) as Hm. pose proof (Z.div_mod value 10) as Hd.
  assert (is_digit (48 + value mod 10)) as Hdig by (unfold is_digit; lia).
  unfold truth. destruct (Z.eqb_spec (value / 10) 0) as [E|E]; cbn [negb rev].
  - split; [by constructor|]. split; [cbn; lia|]. split; [cbn; lia|]. split; [done|]. cbn. by intros ->.
  - rewrite Nat2Z.inj_succ, Z.pow_succ_r in Hf by lia.
    assert (fuel <> 0%nat) as Hz by (intros ->; change (10 ^ Z.of_nat 0) with 1 in Hf; dm_lia).
    destruct (IH (value / 10)) as (H1 & H2 & H3 & H4 & H5); [dm_lia|apply Z.div_lt_upper_bound; lia|lia|].
    split; [by constructor|]. split; [rewrite decimal_snoc, H2; lia|]. split; [cbn; lia|]. split; [done|].
    intros Hc. destruct (rev (u64_digits fuel (value / 10))) as [|c l] eqn:Er.
    { apply (f_equal (@length Z)) in Er. rewrite length_rev in Er. by destruct (u64_digits fuel (value / 10)). }
    rewrite (H5 Hc) in Er. cbn in Er. injection Er as <- <-. cbn in H2. lia.
Qed.
(** C33: the decimal text of a 64-bit number, made without 64-bit division, has
    only digits and that value, starts with 0 only if it is the text 0, and has at most twenty characters,
    so that it fits the callers' buffer of 21. *)
Theorem disk_u64toa_decimal value : 0 <= value < 2 ^ 64 ->
  Forall is_digit (disk_u64toa value) /\ decimal (disk_u64toa value) = value /\ 1 <= zlen (disk_u64toa value) <= 20 /\
  (head_char (disk_u64toa value) = 48 -> disk_u64toa value = [48]).
Proof.
  intros Hv. unfold disk_u64toa.
  assert (value < 10 ^ Z.of_nat 20) as H20 by (change (10 ^ Z.of_nat 20) with 100000000000000000000; lia).
  destruct (u64_digits_spec 20 value Hv H20 (Nat.lt_0_succ 19)) as (H1 & H2 & H3 & H4 & H5).
  split; [by apply Forall_rev|]. split; [exact H2|]. split; [|by intros ->%H5].
  revert H3 H4. generalize (u64_digits 20 value). intros l H3 H4. unfold zlen. rewrite length_rev.
  destruct l; [done|]. cbn [length] in *. lia.
Qed.
Lemma disk_u64toa_decimal_witness : decimal (disk_u64toa 18446744073709551615) = 18446744073709551615 /\
  zlen (disk_u64toa 18446744073709551615) <= 20 /\ (head_char (disk_u64toa 0) = 48 -> disk_u64toa 0 = [48]).
Proof.
  destruct (disk_u64toa_decimal 18446744073709551615) as (_ & H1 & H2 & _); [lia|]. split; [exact H1|]. split; [apply H2|].
  apply (disk_u64toa_decimal 0). lia.
Defined.

(** ** The ATA registers *)
(** A controller that records what it is told.  Its status registers read the given
    answers, then ready. *)
Record Recorder := { trace : list (Z * Z); answers : list Z }.
Definition record (p v : Z) (r : Recorder) : Recorder := {| trace := trace r ++ [(p, v)]; answers := answers r |}.
Definition answer (r : Recorder) : Z * Recorder :=
  match answers r with [] => (0x48, r) | a :: l => (a, {| trace := trace r; answers := l |}) end.
#[export] Instance recorder : Drivers Recorder := {
  inb _ := answer; outb p v := modify (record p v);
  inw _ := mret 0; outw p v := modify (record p v);
  usb_storage_select _ := mret false; usb_storage_probe := mret false; usb_storage_sectors _ := 0;
  usb_storage_generation _ := 0; usb_storage_present := mret false; usb_storage_read _ _ := mret (false, []);
  usb_storage_write _ _ := mret false; usb_storage_flush := mret false;
  storage_pci_init := mret tt; storage_pci_count _ := 0; storage_pci_name _ _ := []; storage_pci_type _ _ := [];
  storage_pci_present _ := mret false; storage_pci_capacity _ _ := 0; storage_pci_read _ _ _ := mret (false, []);
  storage_pci_write _ _ _ := mret false; storage_pci_flush _ := mret false }.

(** The state after the writes [w], with the answers [l] to come. *)
Definition told (w : list (Z * Z)) (l : list Z) (d : Disk Recorder) : Disk Recorder := set_world {| trace := trace (world d) ++ w; answers := l |} d.
Definition base_of (unit : Z) : Z := if unit <? 2 then 0x1F0 else 0x170.
Definition slave_of (unit : Z) : Z := Z.shiftl (Z.land unit 1) 4.
(** The register writes for a sector, with 28-bit and with 48-bit addresses. *)
Definition lba28_writes (unit d lo mid hi : Z) : list (Z * Z) :=
  [(base_of unit + 6, d); (base_of unit + 2, 1); (base_of unit + 3, lo); (base_of unit + 4, mid); (base_of unit + 5, hi)].
Definition lba48_writes (unit d lo mid hi b3 b4 b5 : Z) : list (Z * Z) :=
  [(base_of unit + 6, d); (base_of unit + 2, 0); (base_of unit + 3, b3); (base_of unit + 4, b4); (base_of unit + 5, b5);
   (base_of unit + 2, 1); (base_of unit + 3, lo); (base_of unit + 4, mid); (base_of unit + 5, hi)].

Lemma told_told v w l m d : told w m (told v l d) = told (v ++ w) m d.
Proof. unfold told. cbn. by rewrite <- app_assoc. Qed.
Lemma told_nil d : told [] (answers (world d)) d = d.
Proof. unfold told. rewrite app_nil_r. by destruct d as [[]]. Qed.
Lemma told_unit w l d : ata_unit (told w l d) = ata_unit d.
Proof. done. Qed.
Lemma in_eq k d : exists l, (ata_in k d).2 = told [] l d /\ (answers (world d) = [] -> ata_in k d = (0x48, d)).
Proof.
  unfold ata_in, mbind, state_bind, gets, io, zoom. cbn [inb recorder]. unfold answer.
  destruct d as [[tr ans] ? ? ? ? ? ? ?]; cbn. destruct ans as [|a l]; [exists []|exists l]; (split; [unfold told; cbn; by rewrite app_nil_r|done]).
Qed.
Lemma wait_spec n d : exists ok l, wait_not_busy n d = (ok, told [] l d) /\ (answers (world d) = [] -> (0 < n)%nat -> ok = true).
Proof.
  revert d. induction n as [|n IH]; intros d; cbn [wait_not_busy].
  { exists false, (answers (world d)). rewrite told_nil. split; [done|]. lia. }
  rewrite run_bind. destruct (in_eq 7 d) as (l & E & H). destruct (ata_in 7 d) as [v d']. cbn [fst snd] in *. subst d'.
  destruct (has_bits v ATA_SR_BSY) eqn:Eb.
  - destruct (IH (told [] l d)) as (ok & l' & E & _). exists ok, l'. rewrite E, told_told. split; [done|].
    intros Ha _. specialize (H Ha). injection H as ->. done.
  - exists true, l. by split.
Qed.
Lemma split_bytes lba : 0 <= lba < 2 ^ 32 ->
  lba = Z.land lba 0xFF + Z.land (Z.shiftr lba 8) 0xFF * 2 ^ 8 + Z.land (Z.shiftr lba 16) 0xFF * 2 ^ 16 + Z.shiftr lba 24 * 2 ^ 24.
Proof.
  intros H. change 0xFF with (2 ^ 8 - 1). rewrite !land_mask, !shr by lia. dm_lia.
Qed.
Lemma land_byte x : is_byte (Z.land x 0xFF).
Proof. change 0xFF with (2 ^ 8 - 1). rewrite land_mask by lia. unfold is_byte. pose proof (Z.mod_pos_bound x (2 ^ 8)). lia. Qed.

Lemma out_eq k v d : ata_out k v d = (tt, told [(base_of (ata_unit d) + k, u8 v)] (answers (world d)) d).
Proof. done. Qed.
Lemma told_answers w l d : answers (world (told w l d)) = l.
Proof. done. Qed.
Lemma prepare_writes d lba (wide : bool) : 0 <= ata_unit d -> ata_lba48 d !! Z.to_nat (ata_unit d) = Some wide ->
  exists (ok : bool) l, ata_prepare_lba lba d = (ok, told (if ok then
      if wide then lba48_writes (ata_unit d) (u8 (Z.lor 0xE0 (Z.lor (slave_of (ata_unit d)) 0))) (u8 (Z.land lba 0xFF))
                     (u8 (Z.land (Z.shiftr lba 8) 0xFF)) (u8 (Z.land (Z.shiftr lba 16) 0xFF)) (u8 (Z.shiftr lba 24)) 0 0
      else lba28_writes (ata_unit d) (u8 (Z.lor 0xE0 (Z.lor (slave_of (ata_unit d)) (Z.land (Z.shiftr lba 24) 0x0F)))) (u8 (Z.land lba 0xFF))
             (u8 (Z.land (Z.shiftr lba 8) 0xFF)) (u8 (Z.land (Z.shiftr lba 16) 0xFF)) else []) l d) /\
    (ok = true -> wide = true \/ lba < 2 ^ 28) /\ (answers (world d) = [] -> wide = true \/ lba < 2 ^ 28 -> ok = true).
Proof.
  intros Hu Hw. assert (lba48 d = wide) as Hf by (unfold lba48; rewrite nth_lookup, Hw; done).
  unfold ata_prepare_lba. rewrite run_gets, Hf.
  destruct (negb wide && (2 ^ 28 <=? lba)) eqn:E.
  { exists false, (answers (world d)). rewrite told_nil. split; [done|]. split; [done|]. intros _ [->|?]; [done|]. bool_to_prop. lia. }
  assert (wide = true \/ lba < 2 ^ 28) as Hl by (destruct wide; [by left|right]; cbn [negb andb] in E; by apply Z.leb_gt).
  rewrite run_bind. unfold ata_wait_not_busy. destruct (wait_spec WAITS d) as (ok & l & Ew & Hr). rewrite Ew. cbn [fst snd].
  assert (0 < WAITS)%nat as HW by (unfold WAITS; lia). destruct ok; cbn [negb]; [|exists false, l; split; [done|]; split; [done|]; auto].
  exists true, l. split; [|by split]. rewrite run_gets. change (ata_slave (told [] l d)) with (slave_of (ata_unit d)).
  destruct wide; repeat first [progress unfold mret, state_ret; cbn [fst snd]|rewrite run_bind; cbn [fst snd]|rewrite out_eq; cbn [fst snd]|rewrite told_told|rewrite told_answers|rewrite told_unit]; done.
Qed.

Definition drive_ok (unit x : Z) : bool :=
  let d := u8 (Z.lor 0xE0 (Z.lor (slave_of unit) x)) in
  eqb (Z.testbit d 4) (Z.testbit unit 0) && Z.testbit d 6 && (Z.land d 0x0F =? x).
Lemma drive_bits unit x : 0 <= unit < 4 -> 0 <= x < 16 ->
  let d := u8 (Z.lor 0xE0 (Z.lor (slave_of unit) x)) in
  Z.testbit d 4 = Z.testbit unit 0 /\ Z.testbit d 6 = true /\ Z.land d 0x0F = x.
Proof.
  intros Hu Hx. assert (forallb (fun u => forallb (drive_ok u) (seqZ 0 16)) (seqZ 0 4) = true) as H by (vm_compute; reflexivity).
  rewrite forallb_forall in H. specialize (H unit ltac:(apply list_elem_of_In, elem_of_seqZ; lia)).
  rewrite forallb_forall in H. assert (drive_ok unit x = true) as Hd by (apply H, list_elem_of_In, elem_of_seqZ; lia).
  unfold drive_ok in Hd. cbv zeta in *. bool_to_prop. split; [by apply eqb_prop|done].
Qed.

(** C26: the registers the driver writes before a command address the sector it
    was asked for, whatever the status registers answer and whatever the other drives
    support: it gives up before the first write, or, with the addresses that the selected drive
    supports, with 28 bits the four parts put together are the
    number, in the drive register of the right unit, and with 48 bits
    the second and the first values of the three registers are.  It goes on for a sector that
    the addresses of the drive reach, on a controller that is ready, and never for another sector. *)
Theorem ata_prepare_lba_address d lba (wide : bool) : 0 <= ata_unit d < 4 -> ata_lba48 d !! Z.to_nat (ata_unit d) = Some wide -> is_u32 lba ->
  exists (ok : bool) writes l, ata_prepare_lba lba d = (ok, told writes l d) /\
    (answers (world d) = [] -> wide = true \/ lba < 2 ^ 28 -> ok = true) /\ (ok = false -> writes = []) /\
    (ok = true -> exists dr lo mid hi b3, is_byte lo /\ is_byte mid /\ is_byte hi /\
       Z.testbit dr 4 = Z.testbit (ata_unit d) 0 /\ Z.testbit dr 6 = true /\
       if wide then writes = lba48_writes (ata_unit d) dr lo mid hi b3 0 0 /\ lba = lo + mid * 2 ^ 8 + hi * 2 ^ 16 + b3 * 2 ^ 24
       else writes = lba28_writes (ata_unit d) dr lo mid hi /\ lba = lo + mid * 2 ^ 8 + hi * 2 ^ 16 + Z.land dr 0x0F * 2 ^ 24).
Proof.
  intros Hu Hw Hb. destruct (prepare_writes d lba wide ltac:(lia) Hw) as (ok & l & E & Hl & Hr). eexists ok, _, l. split; [exact E|].
  split; [exact Hr|]. split; [by intros ->|]. intros ->. specialize (Hl eq_refl). revert Hu. generalize (ata_unit d). intros unit Hu.
  unfold is_u32 in Hb. pose proof (split_bytes lba Hb) as Hs.
  assert (is_byte (Z.shiftr lba 24)) as H3 by (rewrite shr by lia; unfold is_byte; dm_lia).
  pose proof (land_byte lba) as B0. pose proof (land_byte (Z.shiftr lba 8)) as B1. pose proof (land_byte (Z.shiftr lba 16)) as B2.
  rewrite !(u8_small (Z.land _ 0xFF)), (u8_small (Z.shiftr lba 24)) by done.
  destruct wide.
  - destruct (drive_bits unit 0 Hu ltac:(lia)) as (E1 & E2 & _).
    eexists _, (Z.land lba 0xFF), (Z.land (Z.shiftr lba 8) 0xFF), (Z.land (Z.shiftr lba 16) 0xFF), (Z.shiftr lba 24). do 3 (split; [done|]).
    split; [exact E1|]. split; [exact E2|]. split; [reflexivity|exact Hs].
  - destruct Hl as [|Hl]; [done|]. assert (0 <= Z.shiftr lba 24 < 16) as H4 by (rewrite shr by lia; dm_lia).
    assert (Z.land (Z.shiftr lba 24) 0x0F = Z.shiftr lba 24) as ->.
    { change 0x0F with (2 ^ 4 - 1). rewrite land_mask by lia. apply Z.mod_small. lia. }
    revert Hs H4. generalize (Z.shiftr lba 24). intros x Hs H4. destruct (drive_bits unit x Hu H4) as (E1 & E2 & E3).
    eexists _, (Z.land lba 0xFF), (Z.land (Z.shiftr lba 8) 0xFF), (Z.land (Z.shiftr lba 16) 0xFF), 0. do 3 (split; [done|]). split; [exact E1|]. split; [exact E2|]. split; [reflexivity|]. by rewrite E3.
Qed.
(** The second drive of the second channel has 28-bit addresses, the first of the first channel 48-bit ones. *)
Definition mixed_drives : Disk Recorder :=
  {| world := {| trace := []; answers := [0xD0; 0x50] |}; ram_disk := fun _ => []; ram_ready := false; selected := no_selection;
     ata_capacity := [0; 0; 0; 0]; ata_lba48 := [true; false; false; false]; ata_unit := 3; device_names := [] |}.
Lemma ata_prepare_lba_address_witness : exists writes l dr lo mid hi,
  ata_prepare_lba 0x1234567 mixed_drives = (true, told writes l mixed_drives) /\ writes = lba28_writes 3 dr lo mid hi /\
  0x1234567 = lo + mid * 2 ^ 8 + hi * 2 ^ 16 + Z.land dr 0x0F * 2 ^ 24.
Proof.
  destruct (ata_prepare_lba_address mixed_drives 0x1234567 false) as (ok & writes & l & E & _ & _ & H); [cbn; lia|reflexivity|unfold is_u32; lia|].
  assert (ok = true) as ->.
  { assert ((ata_prepare_lba 0x1234567 mixed_drives).1 = true) as E1 by (vm_compute; reflexivity). by rewrite E in E1. }
  destruct (H eq_refl) as (dr & lo & mid & hi & _ & _ & _ & _ & _ & _ & Hw & Hl). by exists writes, l, dr, lo, mid, hi.
Defined.

(** ** Disks: ranges

    A selected device or partition is inside what the driver can address, and
    reads and writes of the selection stay inside it. *)
(** What the other drivers are relied on for. *)
Class DriversOk (W : Type) `{DR : Drivers W} := {
  usb_sectors_range : forall w, is_u32 (usb_storage_sectors w);
  usb_read_bytes : forall lba n w, bytes_ok (usb_storage_read lba n w).1.2;
  pci_read_bytes : forall i lba n w, bytes_ok (storage_pci_read i lba n w).1.2 }.

Section Range.
Context {W : Type} `{DR : Drivers W} {DO : DriversOk W}.
#[local] Abbreviation DM := (state (Disk W)).
Implicit Types d : Disk W.

(** ** Computations that keep the selection and the RAM disk *)
Class Keeps {A} (m : DM A) : Prop :=
  keeps : forall d, selected (m d).2 = selected d /\ ram_disk (m d).2 = ram_disk d /\ ram_ready (m d).2 = ram_ready d.
#[export] Instance keeps_ret {A} (a : A) : Keeps (mret a).
Proof. done. Qed.
#[export] Instance keeps_gets {A} (f : Disk W -> A) : Keeps (gets f).
Proof. done. Qed.
#[export] Instance keeps_io {A} (m : state W A) : Keeps (io m).
Proof. intros d. unfold io, zoom. by destruct (m (world d)). Qed.
#[export] Instance keeps_bind {A B} (m : DM A) (f : A -> DM B) : Keeps m -> (forall a, Keeps (f a)) -> Keeps (m ≫= f).
Proof.
  intros Hm Hf d. unfold mbind, state_bind. specialize (Hm d). destruct (m d) as [a d1]. cbn in Hm.
  destruct Hm as (S1 & R1 & Y1), (Hf a d1) as (S2 & R2 & Y2). split; [congruence|]. split; congruence.
Qed.
#[export] Instance keeps_if {A} (b : bool) (m1 m2 : DM A) : Keeps m1 -> Keeps m2 -> Keeps (if b then m1 else m2).
Proof. by destruct b. Qed.
#[export] Instance keeps_ata c l u : Keeps (modify (fun d => set_ata (c d) (l d) (u d) d)).
Proof. done. Qed.
#[export] Instance keeps_capacity v : Keeps (modify (put_capacity v)).
Proof. done. Qed.
#[export] Instance keeps_lba48 v : Keeps (modify (put_lba48 v)).
Proof. done. Qed.
#[export] Instance keeps_ata_use i : Keeps (ata_use i).
Proof. unfold ata_use. done. Qed.
#[export] Instance keeps_ata_out k v : Keeps (ata_out k v).
Proof. unfold ata_out. apply _. Qed.
#[export] Instance keeps_ata_in k : Keeps (ata_in k).
Proof. unfold ata_in. apply _. Qed.
#[export] Instance keeps_wait n : Keeps (wait_not_busy n).
Proof. induction n; cbn; apply _. Qed.
#[export] Instance keeps_wait_drq n : Keeps (wait_drq n).
Proof. induction n; cbn; apply _. Qed.
#[export] Instance keeps_in_words n : Keeps (in_words n).
Proof. induction n; cbn; apply _. Qed.
#[export] Instance keeps_out_words l : Keeps (out_words l).
Proof.
  enough (forall n l, (length l <= n)%nat -> Keeps (out_words l)) by eauto.
  clear l. intros n. induction n as [|n IH]; intros l Hl; (destruct l as [|a [|b l]]; [apply keeps_ret|apply keeps_ret|]); cbn in Hl; [lia|].
  apply keeps_bind; [apply _|]. intros p. apply keeps_bind; [apply _|]. intros _. apply IH. lia.
Qed.
#[export] Instance keeps_select : Keeps ata_select_drive.
Proof. unfold ata_select_drive, io_wait, ata_wait_not_busy. apply _. Qed.
#[export] Instance keeps_identify : Keeps ata_identify.
Proof. unfold ata_identify, io_wait, ata_wait_drq. cbv zeta. apply _. Qed.
#[export] Instance keeps_prepare lba : Keeps (ata_prepare_lba lba).
Proof. unfold ata_prepare_lba, ata_wait_not_busy. apply _. Qed.
#[export] Instance keeps_read lba : Keeps (ata_read lba).
Proof. unfold ata_read, ata_wait_drq. apply _. Qed.
#[export] Instance keeps_read_loop n lba out : Keeps (ata_read_loop n lba out).
Proof. revert lba out. induction n; intros; cbn; apply _. Qed.
#[export] Instance keeps_raw_read i lba n : Keeps (raw_read i lba n).
Proof. unfold raw_read. apply _. Qed.
#[export] Instance keeps_present : Keeps disk_present.
Proof. unfold disk_present. apply _. Qed.
#[export] Instance keeps_read_many lba n : Keeps (disk_read_many lba n).
Proof. unfold disk_read_many. apply _. Qed.
#[export] Instance keeps_find_pci n i name : Keeps (find_pci n i name).
Proof. revert i. induction n; intros; cbn; apply _. Qed.
#[export] Instance keeps_find_device name : Keeps (find_device name).
Proof. unfold find_device. cbv zeta. apply _. Qed.
#[export] Instance keeps_locate i n : Keeps (locate i n).
Proof. unfold locate. apply _. Qed.

(** ** Bytes *)
Definition ram_bytes d : Prop := forall n, bytes_ok (ram_disk d n).
Lemma words_bytes_ok l : bytes_ok (words_bytes l).
Proof. unfold words_bytes. induction l as [|x l IH]; cbn; [constructor|]. repeat constructor; [apply u8_range..|exact IH]. Qed.
Lemma ata_read_bytes lba d : bytes_ok (ata_read lba d).1.2.
Proof.
  apply (ensures_bind (gets ata_sectors) _ (fun r _ => bytes_ok r.2)). unfold ensures at 1. cbn [gets fst snd].
  destruct (_ <=? _); [constructor|].
  apply ensures_bind. unfold ensures at 1. destruct (negb _); [constructor|].
  apply ensures_bind. unfold ensures at 1. apply ensures_bind. unfold ensures at 1.
  apply ensures_bind. unfold ensures at 1. destruct (negb _); [constructor|].
  apply ensures_bind. unfold ensures at 1. apply ensures_ret, words_bytes_ok.
Qed.
Lemma ata_loop_bytes n lba out d : bytes_ok out -> bytes_ok (ata_read_loop n lba out d).1.2.
Proof.
  revert lba out d. induction n as [|n IH]; intros lba out d Ho; cbn [ata_read_loop]; [done|].
  apply (ensures_bind (ata_read (u32 lba)) _ (fun r _ => bytes_ok r.2)). unfold ensures at 1.
  destruct ((ata_read (u32 lba) d).1.1); [|done]. apply IH, Forall_app. split; [done|apply ata_read_bytes].
Qed.
Lemma ram_range_bytes ram lba n : (forall k, bytes_ok (ram k)) -> bytes_ok (ram_range ram lba n).
Proof. intros H. unfold ram_range. induction (seqZ lba n); cbn; [constructor|]. apply Forall_app. split; [apply H|assumption]. Qed.
Lemma io_fst {A} (m : state W A) d : (io m d).1 = (m (world d)).1.
Proof. unfold io, zoom. by destruct (m (world d)). Qed.
Lemma raw_read_bytes i lba n d : ram_bytes d -> bytes_ok (raw_read i lba n d).1.2.
Proof.
  intros Hr. unfold raw_read. destruct (_ <=? i).
  { rewrite io_fst. apply pci_read_bytes. }
  destruct (is_usb i).
  { apply (ensures_bind (io (usb_storage_select (usb_unit i))) _ (fun r _ => bytes_ok r.2)). unfold ensures at 1.
    destruct (_ : bool); [|constructor]. unfold ensures. rewrite io_fst. apply usb_read_bytes. }
  destruct (is_ata i); [apply (ensures_modify _ _ (fun r _ => bytes_ok r.2)), ata_loop_bytes; constructor|].
  apply (ensures_gets _ _ (fun r _ => bytes_ok r.2)), ensures_ret. destruct (_ && _); [by apply ram_range_bytes|constructor].
Qed.

(** ** Ranges *)
Definition range_ok (s : DiskSelection) : Prop := 0 <= offset s /\ 0 <= sectors s /\ offset s + sectors s < 2 ^ 32.
Lemma little32_range p o : bytes_ok p -> is_u32 (little32 p o).
Proof.
  intros Hp. unfold little32. pose proof (byte_at_ok p o Hp). pose proof (byte_at_ok p (o + 1) Hp).
  pose proof (byte_at_ok p (o + 2) Hp). pose proof (byte_at_ok p (o + 3) Hp). unfold is_byte, is_u32 in *.
  rewrite !shl by lia. repeat apply lor_below; try lia.
Qed.
Lemma clip32_range n : is_u32 (clip32 n).
Proof. unfold clip32. destruct (_ <? n); [unfold is_u32; lia|apply u32_range]. Qed.
Lemma linux_entry_range n i mbr physical : bytes_ok mbr ->
  match linux_entry n i mbr physical with Some (o, c) => 0 <= o /\ 0 < c /\ o + c <= physical | None => True end.
Proof.
  intros Hm. revert i. induction n as [|n IH]; intros i; cbn [linux_entry]; [done|].
  destruct (negb _); [apply IH|]. pose proof (little32_range mbr (446 + i * 16 + 8) Hm) as H1.
  pose proof (little32_range mbr (446 + i * 16 + 12) Hm) as H2. unfold is_u32 in *.
  destruct (_ || _) eqn:E; [done|]. bool_to_prop. lia.
Qed.
Lemma find_device_range name d :
  match (find_device name d).1 with Some (_, n, _) => is_u32 n | None => True end.
Proof.
  change (ensures (find_device name) (fun r _ => match r with Some (_, n, _) => is_u32 n | None => True end) d).
  unfold find_device. cbv zeta. destruct (0 <=? _).
  { apply ensures_bind. unfold ensures at 1. destruct (negb _); [done|]. apply ensures_bind. unfold ensures at 1.
    destruct (negb _); [done|]. apply ensures_gets, ensures_ret, usb_sectors_range. }
  destruct (ata_name name).
  { apply ensures_modify, ensures_bind. unfold ensures at 1. destruct (negb _); [done|].
    apply ensures_gets, ensures_gets, ensures_ret, clip32_range. }
  apply ensures_gets. destruct (_ && _); [apply ensures_ret; unfold is_u32, DISK_SECTORS; lia|].
  apply ensures_bind. unfold ensures at 1. apply ensures_gets, ensures_bind. unfold ensures at 1.
  destruct (_ <? 0); [done|]. apply ensures_gets, ensures_ret, clip32_range.
Qed.
Lemma locate_range i physical d : ram_bytes d -> is_u32 physical ->
  match (locate i physical d).1 with Some (o, c) => 0 <= o /\ 0 <= c /\ o + c <= physical | None => True end.
Proof.
  intros Hr Hp. unfold is_u32 in Hp.
  change (ensures (locate i physical) (fun r _ => match r with Some (o, c) => 0 <= o /\ 0 <= c /\ o + c <= physical | None => True end) d).
  unfold locate. apply ensures_bind. unfold ensures at 1. set (m := if physical <? 4 then _ else _).
  assert (ram_bytes (m d).2) as Hr1.
  { assert (Keeps m) as Hk by apply _. destruct (Hk d) as (_ & R & _). intros n. rewrite R. apply Hr. }
  destruct (negb _); [done|]. destruct (_ && _); [apply ensures_ret; lia|].
  apply ensures_bind. unfold ensures at 1. pose proof (raw_read_bytes i 0 1 (m d).2 Hr1) as Hb.
  destruct (negb _); [done|]. destruct (_ && _); [|apply ensures_ret; lia].
  apply ensures_ret. pose proof (linux_entry_range 4 0 _ physical Hb) as H. destruct (linux_entry _ _ _ _) as [[o c]|]; [lia|done].
Qed.
Lemma keeps_bytes {A} (m : DM A) d : Keeps m -> ram_bytes d -> ram_bytes (m d).2.
Proof. intros Hk Hr n. destruct (Hk d) as (_ & -> & _). apply Hr. Qed.
Lemma select_device_range name raw d : ram_bytes d ->
  ensures (select_device name raw) (fun ok d' => ram_bytes d' /\ (ok = true -> range_ok (selected d'))) d.
Proof.
  intros Hr. unfold select_device. apply ensures_bind. unfold ensures at 1.
  pose proof (find_device_range name d) as Hf. pose proof (keeps_bytes (find_device name) d _ Hr) as Hr1.
  destruct (find_device name d) as [f d1]. cbn [fst snd] in *. destruct f as [[[i n] gen]|]; [|by apply ensures_ret].
  apply ensures_bind. unfold ensures at 1. set (m := if raw then _ else _).
  assert (Keeps m) as Hk by (unfold m; apply _). pose proof (keeps_bytes m d1 Hk Hr1) as Hr2. unfold is_u32 in Hf.
  assert (match (m d1).1 with Some (o, c) => 0 <= o /\ 0 <= c /\ o + c <= n | None => True end) as Hp.
  { unfold m. destruct raw; [cbn; lia|]. apply locate_range; [done|unfold is_u32; lia]. }
  destruct (m d1) as [place d2]. cbn [fst snd] in *. destruct place as [[o c]|]; [|by apply ensures_ret].
  apply ensures_modify, ensures_ret. split; [done|]. intros _. unfold range_ok. cbn. lia.
Qed.
Lemma select_named_range name raw d : ram_bytes d ->
  ensures (select_named name raw) (fun ok d' => ram_bytes d' /\ (ok = true -> range_ok (selected d'))) d.
Proof.
  intros Hr. unfold select_named. destruct (partition_name name) as [[base i]|]; [|by apply select_device_range].
  destruct (_ <=? _); [by apply ensures_ret|].
  eapply ensures_use; [by apply select_device_range|]. intros ok d1 [Hr1 Hs]. destruct ok; cbn [negb]; [|by apply ensures_ret].
  specialize (Hs eq_refl). apply ensures_bind. unfold ensures at 1.
  pose proof (keeps_bytes (disk_read_many 0 1) d1 _ Hr1) as Hr2. destruct (keeps (m := disk_read_many 0 1) d1) as (S2 & _ & _).
  assert (bytes_ok (disk_read 0 d1).1.2) as Hb.
  { unfold disk_read, disk_read_many. apply (ensures_bind disk_present _ (fun r _ => bytes_ok r.2)). unfold ensures at 1.
    apply ensures_gets. destruct (_ || _); [constructor|]. apply raw_read_bytes. by apply keeps_bytes; [apply _|]. }
  unfold disk_read in *. destruct (disk_read_many 0 1 d1) as [mbr d2]. cbn [fst snd] in *.
  destruct (_ || _); [by apply ensures_ret|]. apply ensures_gets. cbv zeta.
  pose proof (little32_range mbr.2 (446 + i * 16 + 8) Hb) as H1.
  pose proof (little32_range mbr.2 (446 + i * 16 + 12) Hb) as H2. unfold is_u32 in *.
  destruct (_ || _) eqn:E; [by apply ensures_ret|]. rewrite S2 in *. bool_to_prop. destruct Hs as (? & ? & ?).
  apply ensures_modify, ensures_ret. split; [done|]. intros _. unfold range_ok. cbn. rewrite ?S2 in *. lia.
Qed.

(** C18: a selection that succeeds, of a device, of the Linux partition found on
    it or of a partition named p1 to p4, covers sectors that exist: its
    offset and length are in range and their sum does not wrap. *)
Theorem disk_select_range name raw d : ram_bytes d ->
  exists ok d', select_named name raw d = (ok, d') /\ ram_bytes d' /\ (ok = true -> range_ok (selected d')).
Proof.
  intros Hr. destruct (select_named name raw d) as [ok d'] eqn:E. exists ok, d'. split; [done|].
  pose proof (select_named_range name raw d Hr) as H. unfold ensures in H. by rewrite E in H.
Qed.

(** C19: reads stay inside the selection: a read either fails at the checks or
    reaches the driver with sectors of the selection only, without wrapping. *)
Theorem disk_read_confined lba count d : is_u32 lba -> is_u32 count -> range_ok (selected d) ->
  let d1 := (disk_present d).2 in let s := selected d in
  disk_read_many lba count d = ((false, []), d1) \/
  exists a, a = lba + offset s /\ offset s <= a /\ a + count <= offset s + sectors s /\ 1 <= count <= 8 /\
    disk_read_many lba count d = raw_read (id s) a count d1.
Proof.
  intros Hl Hc (H1 & H2 & H3). cbv zeta. unfold is_u32 in *. destruct (keeps (m := disk_present) d) as (S1 & _ & _).
  unfold disk_read_many, mbind, state_bind, gets. destruct (disk_present d) as [p d1]. cbn [fst snd] in *. rewrite S1.
  destruct (negb p || (count =? 0) || (8 <? count) || (sectors (selected d) <=? lba)) eqn:E; cbn [orb]; [by left|].
  bool_to_prop. rewrite u32_small by (unfold is_u32; lia).
  destruct (Z.ltb_spec (sectors (selected d) - lba) count); [by left|]. right. exists (lba + offset (selected d)).
  rewrite u32_small by (unfold is_u32; lia). repeat (split; [lia|]). done.
Qed.
End Range.

#[export] Program Instance recorder_ok : DriversOk Recorder.
Next Obligation. intros w. unfold is_u32. cbn. lia. Qed.
Next Obligation. intros lba n w. constructor. Qed.
Next Obligation. intros i lba n w. constructor. Qed.
(** A live system whose RAM disk is zeroed but for a partition table with one
    Linux partition of 2048 sectors at sector 2048. *)
Definition table_sector : list Z :=
  replicate 446 0 ++ [0; 0; 0; 0; 0x83; 0; 0; 0] ++ le32_bytes 2048 ++ le32_bytes 2048 ++ replicate 48 0 ++ [0x55; 0xaa].
Definition live_disk : Disk Recorder :=
  {| world := {| trace := []; answers := [] |}; ram_disk := fun n => if n =? 0 then table_sector else replicate 512 0; ram_ready := true;
     selected := {| id := DISK_RAM; offset := 0; sectors := DISK_SECTORS; generation := 0 |};
     ata_capacity := [0; 0; 0; 0]; ata_lba48 := repeat false 4; ata_unit := 0; device_names := [] |}.
Lemma table_sector_ok : bytes_ok table_sector.
Proof. apply (bool_decide_unpack _). vm_compute. exact I. Qed.
Lemma live_disk_bytes : ram_bytes live_disk.
Proof.
  intros n. cbn [ram_disk live_disk]. destruct (n =? 0); [exact table_sector_ok|apply zeros_ok].
Qed.
Lemma disk_select_range_witness : (select_named (text "ram0p1") false live_disk).1 = true /\
  exists ok d', select_named (text "ram0p1") false live_disk = (ok, d') /\ ram_bytes d' /\ (ok = true -> range_ok (selected d')).
Proof. split; [vm_compute; reflexivity|]. apply (disk_select_range (text "ram0p1") false live_disk). exact live_disk_bytes. Defined.
Lemma disk_read_confined_witness :
  let d1 := (disk_present live_disk).2 in let s := selected live_disk in
  disk_read_many 4090 6 live_disk = ((false, []), d1) \/
  exists a, a = 4090 + offset s /\ offset s <= a /\ a + 6 <= offset s + sectors s /\ 1 <= 6 <= 8 /\
    disk_read_many 4090 6 live_disk = raw_read (id s) a 6 d1.
Proof.
  apply (disk_read_confined 4090 6 live_disk); unfold is_u32, range_ok, DISK_SECTORS; cbn; unfold DISK_SECTORS; lia.
Defined.
