(* ===== verification/DiskRam.v ===== *)
(** * Disks: the RAM disk

    The selected RAM disk, run through the functions of src/disk.c, keeps the
    laws that the ext2 engine asks of a device, so the theorems of the engine
    hold of the live system.  On a partition of the RAM disk it does not:
    [disk_write] leaves the offset of the partition out. *)
From Stdlib Require Import String.
From S2P Require Import Prelude CString Ext2Core Ext2Dir Ext2Ops Ext2Mount Ext2Format Ext2Logic Ext2Listing Ext2Bodies Ext2Api.
From S2P Require Import State Disk DiskProofs.

Section Ram.
Context {W : Type} `{DR : Drivers W}.
Implicit Types d : Disk W.

Definition whole_ram : DiskSelection := {| id := DISK_RAM; offset := 0; sectors := DISK_SECTORS; generation := 0 |}.
Record ram_selected d : Prop := {
  ram_is_selected : selected d = whole_ram;
  ram_is_ready : ram_ready d = true;
  ram_contents : forall n, zlen (ram_disk d n) = 512 /\ bytes_ok (ram_disk d n) }.

Lemma sector_at_ok data o : zlen (sector_at data o) = 512 /\ bytes_ok (sector_at data o).
Proof.
  unfold sector_at. split; [by unfold zlen; rewrite length_map, length_seqZ|].
  apply Forall_map, Forall_forall. intros x _. apply u8_range.
Qed.
Lemma sector_at_id l : zlen l = 512 -> bytes_ok l -> sector_at l 0 = l.
Proof.
  intros Hl Hb. apply list_eq. intros i. unfold sector_at. rewrite list_lookup_fmap.
  destruct (Nat.lt_ge_cases i 512) as [Hi|Hi].
  - rewrite lookup_seqZ_lt by lia. cbn [fmap option_fmap option_map]. rewrite u8_small by (by apply byte_at_ok).
    unfold byte_at. rewrite nth_lookup. replace (Z.to_nat (0 + (0 + Z.of_nat i))) with i by lia.
    destruct (l !! i) eqn:E; [done|]. apply lookup_ge_None_1 in E. unfold zlen in Hl. lia.
  - rewrite lookup_seqZ_ge by lia. cbn. symmetry. apply lookup_ge_None_2. unfold zlen in Hl. lia.
Qed.

(** ** The operations on the selected RAM disk *)
Definition in_ram (lba n : Z) : bool := (0 <? n) && (n <=? 8) && (lba <? DISK_SECTORS) && (n <=? DISK_SECTORS - lba).
Lemma ram_present d : ram_selected d -> Disk.disk_present d = (true, d).
Proof.
  intros [Hs Hr _]. unfold Disk.disk_present, mbind, state_bind, gets. rewrite Hs. cbn. by rewrite Hr.
Qed.
Lemma ram_read d lba n : ram_selected d -> is_u32 lba -> is_u32 n ->
  Disk.disk_read_many lba n d = (if in_ram lba n then (true, ram_range (ram_disk d) lba n) else (false, []), d).
Proof.
  intros Hd Hl Hn. pose proof (ram_present d Hd) as Hp. destruct Hd as [Hs Hr _].
  unfold Disk.disk_read_many, mbind, state_bind, gets. rewrite Hp, Hs. unfold is_u32, in_ram, DISK_SECTORS in *. cbn [sectors whole_ram negb orb offset id].
  unfold DISK_SECTORS.
  destruct (Z.eqb_spec n 0); [by zfalse (0 <? n)|]. ztrue (0 <? n).
  destruct (Z.ltb_spec 8 n); [by zfalse (n <=? 8)|]. ztrue (n <=? 8).
  destruct (Z.leb_spec 4096 lba); [by zfalse (lba <? 4096)|]. ztrue (lba <? 4096).
  rewrite u32_small by (unfold is_u32; lia).
  destruct (Z.ltb_spec (4096 - lba) n); [by zfalse (n <=? 4096 - lba)|]. ztrue (n <=? 4096 - lba). cbn [orb andb].
  rewrite Z.add_0_r, u32_small by (unfold is_u32; lia).
  unfold raw_read. cbn [is_usb is_ata]. change (DISK_PCI_BASE <=? DISK_RAM) with false. change (is_usb DISK_RAM) with false.
  change (is_ata DISK_RAM) with false. cbv iota. unfold mbind, state_bind, gets. rewrite Hr. unfold DISK_SECTORS.
  ztrue (lba <? 4096). by ztrue (n <=? 4096 - lba).
Qed.
Definition ram_write d (lba : Z) (bytes : list Z) : Disk W :=
  set_ram (fun n => if n =? lba then sector_at bytes 0 else ram_disk d n) (ram_ready d) d.
Lemma ram_write_eq d lba bytes : ram_selected d ->
  Disk.disk_write lba bytes d = if DISK_SECTORS <=? lba then (false, d) else (true, ram_write d lba bytes).
Proof.
  intros Hd. pose proof (ram_present d Hd) as Hp. destruct Hd as [Hs Hr _].
  unfold Disk.disk_write, mbind, state_bind, gets. rewrite Hp, Hs. cbn [sectors whole_ram negb orb].
  by destruct (DISK_SECTORS <=? lba).
Qed.
Lemma ram_write_selected d lba bytes : ram_selected d -> ram_selected (ram_write d lba bytes).
Proof. intros [Hs Hr Hc]. constructor; try done. intros n. cbn. destruct (n =? lba); [apply sector_at_ok|done]. Qed.
Lemma ram_flush d : ram_selected d -> Disk.disk_flush d = (true, d).
Proof. intros Hd. unfold Disk.disk_flush, mbind, state_bind, gets. rewrite (ram_present d Hd). by rewrite (ram_is_selected d Hd). Qed.

Lemma ram_read_one d k : ram_selected d -> 0 <= k < 4096 -> disk_read k d = ((true, ram_disk d k), d).
Proof.
  intros He Hk. unfold disk_read. rewrite ram_read by (done || (unfold is_u32; lia)).
  unfold in_ram, DISK_SECTORS. ztrue (k <? 4096). ztrue (1 <=? 4096 - k). cbn [andb Z.ltb Z.leb Z.compare Pos.compare Pos.compare_cont].
  unfold ram_range. rewrite seqZ_1. cbn [map concat]. by rewrite app_nil_r.
Qed.

(** ** The device of the engine *)
Definition RamDisk : Type := { d : Disk W | ram_selected d }.
(** Run an operation that keeps the RAM disk selected. *)
Definition run_ram {A} (m : state (Disk W) A) (H : forall d, ram_selected d -> ram_selected (m d).2) (x : RamDisk) : A * RamDisk :=
  ((m (proj1_sig x)).1, exist _ (m (proj1_sig x)).2 (H _ (proj2_sig x))).
Definition arg_ok (lba n : Z) : bool := bool_decide (is_u32 lba) && bool_decide (is_u32 n).
Definition guarded_read (lba n : Z) : state (Disk W) (bool * list Z) :=
  if arg_ok lba n then Disk.disk_read_many lba n else mret (false, []).
Definition guarded_write (lba : Z) (bytes : list Z) : state (Disk W) bool :=
  if arg_ok lba 0 then Disk.disk_write lba bytes else mret false.
Lemma present_ram d : ram_selected d -> ram_selected (Disk.disk_present d).2.
Proof. intros H. by rewrite (ram_present d H). Qed.
Lemma flush_ram d : ram_selected d -> ram_selected (Disk.disk_flush d).2.
Proof. intros H. by rewrite (ram_flush d H). Qed.
Lemma arg_ok_spec lba n : arg_ok lba n = true -> is_u32 lba /\ is_u32 n.
Proof. unfold arg_ok. intros [H1 H2]%andb_true_iff. split; [exact (bool_decide_eq_true_1 _ H1)|exact (bool_decide_eq_true_1 _ H2)]. Qed.
Lemma guarded_read_eq d lba n : ram_selected d ->
  guarded_read lba n d = (if arg_ok lba n && in_ram lba n then (true, ram_range (ram_disk d) lba n) else (false, []), d).
Proof.
  intros H. unfold guarded_read. destruct (arg_ok lba n) eqn:E; [|done]. apply arg_ok_spec in E as [? ?]. by rewrite ram_read.
Qed.
Lemma read_ram lba n d : ram_selected d -> ram_selected (guarded_read lba n d).2.
Proof. intros H. by rewrite guarded_read_eq. Qed.
Lemma guarded_write_eq d lba bytes : ram_selected d ->
  guarded_write lba bytes d = if arg_ok lba 0 && (lba <? DISK_SECTORS) then (true, ram_write d lba bytes) else (false, d).
Proof.
  intros H. unfold guarded_write. destruct (arg_ok lba 0); [|done]. rewrite ram_write_eq by done. cbn [andb].
  rewrite Z.ltb_antisym. by destruct (DISK_SECTORS <=? lba).
Qed.
Lemma write_ram lba bytes d : ram_selected d -> ram_selected (guarded_write lba bytes d).2.
Proof. intros H. rewrite guarded_write_eq by done. destruct (_ && _); [by apply ram_write_selected|done]. Qed.

#[export] Instance ram_device : BlockDevice RamDisk := {
  Ext2Core.disk_present := run_ram Disk.disk_present present_ram;
  disk_sectors x := sectors (selected (proj1_sig x));
  Ext2Core.disk_read_many x lba n :=
    let '(r, y) := run_ram (guarded_read lba n) (read_ram lba n) x in
    (r.1, if r.1 then r.2 else replicate (Z.to_nat (n * 512)) 0, y);
  Ext2Core.disk_write x lba bytes := run_ram (guarded_write lba bytes) (write_ram lba bytes) x;
  Ext2Core.disk_flush := run_ram Disk.disk_flush flush_ram }.

Lemma ram_device_read x lba n : exists y, ram_disk (proj1_sig y) = ram_disk (proj1_sig x) /\
  Ext2Core.disk_read_many x lba n =
    (if arg_ok lba n && in_ram lba n then (true, ram_range (ram_disk (proj1_sig x)) lba n, y)
     else (false, replicate (Z.to_nat (n * 512)) 0, y)).
Proof.
  destruct x as [d Hd]. exists (exist _ (guarded_read lba n d).2 (read_ram lba n d Hd)). split.
  - cbn [proj1_sig]. by rewrite guarded_read_eq.
  - cbn. unfold run_ram. cbn [proj1_sig proj2_sig].
    assert ((guarded_read lba n d).1 = if arg_ok lba n && in_ram lba n then (true, ram_range (ram_disk d) lba n) else (false, []))
      as -> by (by rewrite guarded_read_eq).
    by destruct (arg_ok lba n && in_ram lba n).
Qed.
Lemma ram_range_length d lba n : ram_selected d -> 0 <= n -> zlen (ram_range (ram_disk d) lba n) = n * 512.
Proof.
  intros Hd Hn. unfold ram_range. rewrite <- (Z2Nat.id n) by lia. generalize (Z.to_nat n). clear n Hn. intros n. revert lba.
  induction n as [|n IH]; intros lba; [done|]. rewrite seqZ_cons by lia. cbn [map concat]. rewrite zlen_app.
  replace (Z.pred (Z.of_nat (S n))) with (Z.of_nat n) by lia. rewrite IH. rewrite (proj1 (ram_contents d Hd lba)). lia.
Qed.

#[export] Program Instance ram_laws : DeviceLaws RamDisk := {
  image x := ram_disk (proj1_sig x);
  unreadable x lba n := arg_ok lba n && in_ram lba n = false }.
Next Obligation.
  intros x lba n ok bs y H Hn. destruct (ram_device_read x lba n) as (z & _ & E). pose proof (eq_trans (eq_sym E) H) as H'. clear H.
  destruct (_ && _); injection H' as <- <- <-.
  - split; [apply ram_range_length; [apply (proj2_sig x)|lia]|]. apply ram_range_bytes. intros k. apply (ram_contents _ (proj2_sig x)).
  - split; [unfold zlen; rewrite length_replicate; lia|apply zeros_ok].
Qed.
Next Obligation.
  intros x lba n bs y H Hn. destruct (ram_device_read x lba n) as (z & _ & E). pose proof (eq_trans (eq_sym E) H) as H'. clear H.
  destruct (_ && _); [|done]. by injection H' as <- <-.
Qed.
Next Obligation.
  intros x lba n ok bs y H. destruct (ram_device_read x lba n) as (z & Hz & E). pose proof (eq_trans (eq_sym E) H) as H'. clear H.
  destruct (_ && _); injection H' as <- <- <-; done.
Qed.
Next Obligation.
  intros x lba n bs y H. destruct (ram_device_read x lba n) as (z & Hz & E). pose proof (eq_trans (eq_sym E) H) as H'. clear H. by destruct (_ && _).
Qed.
Next Obligation.
  intros x lba n ok bs y Hu H. destruct (ram_device_read x lba n) as (z & Hz & E). pose proof (eq_trans (eq_sym E) H) as H'. rewrite Hu in H'. by injection H' as <- _ _.
Qed.
Next Obligation. done. Qed.
Next Obligation. intros [d Hd]. cbn. by rewrite (ram_present d Hd). Qed.
Next Obligation. done. Qed.
Next Obligation. intros [d Hd]. cbn. by rewrite (ram_flush d Hd). Qed.
Next Obligation.
  intros [d Hd] lba bs y H Hl Hb. cbn in H. injection H as H <-. cbn [proj1_sig].
  rewrite guarded_write_eq in * by done. destruct (_ && _); [|done]. cbn. rewrite Z.eqb_refl. by apply sector_at_id.
Qed.
Next Obligation.
  intros [d Hd] lba bs ok y k H Hne. cbn in H. injection H as _ <-. cbn [proj1_sig].
  rewrite guarded_write_eq by done. destruct (_ && _); [|done]. cbn. by zfalse (k =? lba).
Qed.

(** C10: loading an image makes the RAM disk the selected device, with the
    sectors of the image; on it, what is written to a sector is read back, and
    the other sectors keep what they held. *)
Theorem ram_disk_roundtrip data d lba bytes : is_u32 lba -> lba < DISK_SECTORS -> zlen bytes = 512 -> bytes_ok bytes ->
  exists d0 d1,
    disk_init_from_memory (Some data) (DISK_SECTORS * 512) d = (true, d0) /\ ram_selected d0 /\
    (forall k, 0 <= k < DISK_SECTORS -> disk_read k d0 = ((true, sector_at data (k * 512)), d0)) /\
    Disk.disk_write lba bytes d0 = (true, d1) /\ ram_selected d1 /\
    disk_read lba d1 = ((true, bytes), d1) /\
    (forall k, 0 <= k < DISK_SECTORS -> k <> lba -> disk_read k d1 = ((true, sector_at data (k * 512)), d1)).
Proof.
  intros Hl Hlt Hz Hb. unfold is_u32, DISK_SECTORS in *.
  set (d0 := set_selected whole_ram (set_ram (fun n => sector_at data (n * 512)) true d)).
  assert (ram_selected d0) as H0 by (constructor; [done|done|intros n; apply sector_at_ok]).
  exists d0, (ram_write d0 lba bytes).
  split; [done|]. split; [done|]. split; [intros k Hk; by rewrite ram_read_one|].
  split; [rewrite ram_write_eq by done; unfold DISK_SECTORS; by zfalse (4096 <=? lba)|].
  split; [by apply ram_write_selected|]. split.
  - rewrite ram_read_one; [|by apply ram_write_selected|lia]. cbn [ram_disk ram_write set_ram]. by rewrite Z.eqb_refl, sector_at_id.
  - intros k Hk Hne. rewrite ram_read_one; [|by apply ram_write_selected|lia]. cbn [ram_disk ram_write set_ram]. by zfalse (k =? lba).
Qed.

(** C30: on a partition of the RAM disk the code does not do this: a write to a
    sector of the partition succeeds, lands on the sector of that number of
    the whole disk, and a read of the sector still gives what was there. *)
Theorem ram_partition_write_misplaced d lba bytes : id (selected d) = DISK_RAM -> ram_ready d = true ->
  0 < offset (selected d) -> offset (selected d) + sectors (selected d) <= DISK_SECTORS -> 0 <= lba < sectors (selected d) ->
  exists d1, Disk.disk_write lba bytes d = (true, d1) /\ ram_disk d1 lba = sector_at bytes 0 /\
    disk_read lba d1 = ((true, ram_disk d (lba + offset (selected d))), d1).
Proof.
  intros Hi Hr Ho Hs Hl. unfold DISK_SECTORS in *. exists (ram_write d lba bytes).
  assert (forall e, selected e = selected d -> ram_ready e = true -> Disk.disk_present e = (true, e)) as Hp.
  { intros e Es Er. unfold Disk.disk_present, mbind, state_bind, gets. rewrite Es, Hi. cbn. by rewrite Er. }
  split; [|split].
  - unfold Disk.disk_write, mbind, state_bind, gets. rewrite Hp by done. cbn [negb orb].
    zfalse (sectors (selected d) <=? lba). by rewrite Hi.
  - cbn [ram_disk ram_write set_ram]. by rewrite Z.eqb_refl.
  - assert (ram_ready (ram_write d lba bytes) = true) as Hr2 by exact Hr.
    unfold disk_read, Disk.disk_read_many, mbind, state_bind, gets. rewrite Hp by done.
    change (selected (ram_write d lba bytes)) with (selected d). cbn [negb orb].
    zfalse (sectors (selected d) <=? lba). rewrite u32_small by (unfold is_u32; lia).
    zfalse (sectors (selected d) - lba <? 1). cbn [orb]. rewrite u32_small by (unfold is_u32; lia).
    unfold raw_read. rewrite Hi. change (DISK_PCI_BASE <=? DISK_RAM) with false. change (is_usb DISK_RAM) with false.
    change (is_ata DISK_RAM) with false. cbv iota. unfold mbind, state_bind, gets.
    change ((1 =? 0) || (8 <? 1) || false || false) with false. cbv beta iota. rewrite Hr2. unfold DISK_SECTORS, mret, state_ret.
    ztrue (lba + offset (selected d) <? 4096). ztrue (1 <=? 4096 - (lba + offset (selected d))). cbn [andb].
    change ((DISK_RAM =? DISK_RAM) && true) with true. cbn [andb].
    unfold ram_range. rewrite seqZ_1. cbn [map concat]. rewrite app_nil_r.
    cbn [ram_disk ram_write set_ram]. by zfalse (lba + offset (selected d) =? lba).
Qed.
End Ram.

Lemma ram_disk_roundtrip_witness : exists d0 d1,
    disk_init_from_memory (Some [1; 2; 3]) (DISK_SECTORS * 512) live_disk = (true, d0) /\ ram_selected d0 /\
    (forall k, 0 <= k < DISK_SECTORS -> disk_read k d0 = ((true, sector_at [1; 2; 3] (k * 512)), d0)) /\
    Disk.disk_write 7 table_sector d0 = (true, d1) /\ ram_selected d1 /\
    disk_read 7 d1 = ((true, table_sector), d1) /\
    (forall k, 0 <= k < DISK_SECTORS -> k <> 7 -> disk_read k d1 = ((true, sector_at [1; 2; 3] (k * 512)), d1)).
Proof.
  apply (ram_disk_roundtrip [1; 2; 3] live_disk 7 table_sector);
    [unfold is_u32; lia|unfold DISK_SECTORS; lia|vm_compute; reflexivity|exact table_sector_ok].
Defined.
(** The partition ram0p1 of the live disk, selected by its name. *)
Definition on_partition : Disk Recorder := (select_named (text "ram0p1") false live_disk).2.
Lemma ram_partition_write_misplaced_witness : exists d1,
    Disk.disk_write 0 [42] on_partition = (true, d1) /\ ram_disk d1 0 = sector_at [42] 0 /\
    disk_read 0 d1 = ((true, ram_disk on_partition (0 + offset (selected on_partition))), d1).
Proof.
  assert (selected on_partition = {| id := DISK_RAM; offset := 2048; sectors := 2048; generation := 0 |}) as E by (vm_compute; reflexivity).
  apply (ram_partition_write_misplaced on_partition 0 [42]); rewrite ?E;
    [reflexivity|vm_compute; reflexivity|cbn; lia|unfold DISK_SECTORS; cbn; lia|cbn; lia].
Defined.
