(* ===== verification/LinuxMemory.v ===== *)
(** * The address space of a Linux program

    src/linux_memory.c: the page tables that are built for a program, the
    registration of device registers, the heap and the range check of user
    pointers; with the translation of an address that the processor makes
    from such tables. *)
From S2P Require Import Prelude.

Definition APP_LOAD_MIN : Z := 0x01000000.
Definition APP_STACK_TOP : Z := 0x01400000.
Definition APP_STACK_SIZE : Z := 0x00010000.

(** Where the linker puts the page-aligned arrays of the file. *)
Class Layout := {
  directory_at : Z; tables_at : Z; user_table_at : Z; mmio_tables_at : Z;
  layout_aligned : directory_at mod 4096 = 0 /\ tables_at mod 4096 = 0 /\ user_table_at mod 4096 = 0 /\ mmio_tables_at mod 4096 = 0;
  layout_low : 0 <= directory_at /\ 0 <= tables_at /\ 0 <= user_table_at /\ 0 <= mmio_tables_at /\
    directory_at + 4096 <= 2 ^ 32 /\ tables_at + 8 * 4096 <= 2 ^ 32 /\ user_table_at + 4096 <= 2 ^ 32 /\ mmio_tables_at + 32 * 4096 <= 2 ^ 32;
  layout_apart :
    (user_table_at + 4096 <= tables_at \/ tables_at + 8 * 4096 <= user_table_at) /\
    (user_table_at + 4096 <= mmio_tables_at \/ mmio_tables_at + 32 * 4096 <= user_table_at) /\
    (tables_at + 8 * 4096 <= mmio_tables_at \/ mmio_tables_at + 32 * 4096 <= tables_at) }.

Record Memory := {
  directory : Z -> Z;
  tables : Z -> Z -> Z;
  user_table : Z -> Z;
  mmio_tables : Z -> Z -> Z;
  mmio_indices : list Z;
  user_base : Z; user_top : Z;
  heap_base : Z; heap_break : Z;
  cr0 : Z; cr3 : Z; saved_cr0 : Z; saved_cr3 : Z;
  bytes : Z -> Z }.
Record LinuxMemoryState := { state_base : Z; state_heap_base : Z; state_heap_break : Z }.

Definition set_cell {A} (f : Z -> A) (k : Z) (v : A) : Z -> A := fun i => if i =? k then v else f i.
Definition set_mmio (t : Z -> Z -> Z) (l : list Z) (m : Memory) : Memory :=
  {| directory := directory m; tables := tables m; user_table := user_table m; mmio_tables := t; mmio_indices := l;
     user_base := user_base m; user_top := user_top m; heap_base := heap_base m; heap_break := heap_break m;
     cr0 := cr0 m; cr3 := cr3 m; saved_cr0 := saved_cr0 m; saved_cr3 := saved_cr3 m; bytes := bytes m |}.
Definition set_heap (b : Z) (y : Z -> Z) (m : Memory) : Memory :=
  {| directory := directory m; tables := tables m; user_table := user_table m; mmio_tables := mmio_tables m; mmio_indices := mmio_indices m;
     user_base := user_base m; user_top := user_top m; heap_base := heap_base m; heap_break := b;
     cr0 := cr0 m; cr3 := cr3 m; saved_cr0 := saved_cr0 m; saved_cr3 := saved_cr3 m; bytes := y |}.
Definition set_control (c0 c3 : Z) (m : Memory) : Memory :=
  {| directory := directory m; tables := tables m; user_table := user_table m; mmio_tables := mmio_tables m; mmio_indices := mmio_indices m;
     user_base := user_base m; user_top := user_top m; heap_base := heap_base m; heap_break := heap_break m;
     cr0 := c0; cr3 := c3; saved_cr0 := saved_cr0 m; saved_cr3 := saved_cr3 m; bytes := bytes m |}.

(** ** Device registers *)
(** The slot whose table covers an index of the directory, or the first free one. *)
Fixpoint find_slot (l : list Z) (index slot : Z) : Z :=
  match l with
  | [] => slot
  | i :: l' => if negb (i =? index) then find_slot l' index (slot + 1) else slot
  end.
(** One page of the loop; [None] when the tables are exhausted. *)
Definition map_page (page : Z) (m : Memory) : option Memory :=
  let index := Z.shiftr page 10 in
  let slot := find_slot (mmio_indices m) index 0 in
  let count := zlen (mmio_indices m) in
  if (slot =? count) && (count =? 32) then None
  else
    let indices := if slot =? count then mmio_indices m ++ [index] else mmio_indices m in
    let table := set_cell (mmio_tables m slot) (Z.land page 1023) (Z.lor (u32 (Z.shiftl page 12)) 0x1b) in
    Some (set_mmio (set_cell (mmio_tables m) slot table) indices m).
Fixpoint map_pages (n : nat) (page : Z) (m : Memory) : Z * Memory :=
  match n with
  | O => (0, m)
  | S n' => match map_page page m with Some m' => map_pages n' (page + 1) m' | None => (-1, m) end
  end.
Definition linux_memory_map_mmio (base size : Z) (m : Memory) : Z * Memory :=
  if (size =? 0) || (base <? 0x10000000) || (0xffffffff - base <? size - 1) then (-1, m)
  else
    let last := Z.shiftr (u32 (base + size - 1)) 12 in
    let page := Z.shiftr base 12 in
    map_pages (Z.to_nat (last + 1 - page)) page m.

Section Paging.
Context `{Layout}.

(** ** The address space *)
Definition kernel_table (i j : Z) : Z :=
  let address := (i * 1024 + j) * 4096 in if truth address then Z.lor address 3 else 0.
Definition user_entry (i : Z) : Z := Z.lor (APP_LOAD_MIN + i * 4096) 7.
Definition low_directory : Z -> Z :=
  fold_left (fun d i => set_cell d i (Z.lor (tables_at + i * 4096) 7)) (seqZ 0 8) (fun _ => 0).
Fixpoint mmio_entries (l : list Z) (i : Z) (d : Z -> Z) : Z -> Z :=
  match l with
  | [] => d
  | index :: l' => mmio_entries l' (i + 1) (set_cell d index (Z.lor (mmio_tables_at + i * 4096) 3))
  end.
Definition linux_memory_enter (base image_end : Z) (m : Memory) : Memory :=
  let heap := Z.land (u32 (image_end + 4095)) (u32 (Z.lnot 4095)) in
  {| directory := mmio_entries (mmio_indices m) 0 (set_cell low_directory (Z.shiftr base 22) (Z.lor user_table_at 7));
     tables := kernel_table; user_table := user_entry; mmio_tables := mmio_tables m; mmio_indices := mmio_indices m;
     user_base := base; user_top := u32 (base + APP_STACK_TOP - APP_LOAD_MIN);
     heap_base := heap; heap_break := heap;
     cr0 := Z.lor (cr0 m) 0x80000000; cr3 := directory_at; saved_cr0 := cr0 m; saved_cr3 := cr3 m; bytes := bytes m |}.
Definition linux_memory_leave (m : Memory) : Memory := set_control (saved_cr0 m) (saved_cr3 m) m.

(** ** Translation by the processor

    Two levels of tables; an entry counts if its present bit (0) is set, in
    user mode with the user bit (2) and for a write with the write bit (1). *)
Definition frame (e : Z) : Z := Z.land e (Z.lnot 4095).
Definition admits (user write : bool) (e : Z) : bool :=
  Z.testbit e 0 && (negb user || Z.testbit e 2) && (negb write || Z.testbit e 1).
Definition table_of (m : Memory) (pa : Z) : option (Z -> Z) :=
  if pa =? user_table_at then Some (user_table m)
  else if (tables_at <=? pa) && (pa <? tables_at + 8 * 4096) then Some (tables m ((pa - tables_at) / 4096))
  else if (mmio_tables_at <=? pa) && (pa <? mmio_tables_at + 32 * 4096) then Some (mmio_tables m ((pa - mmio_tables_at) / 4096))
  else None.
Definition translate (m : Memory) (user write : bool) (va : Z) : option Z :=
  let pde := directory m (Z.shiftr va 22) in
  if negb (admits user write pde) then None
  else match table_of m (frame pde) with
  | None => None
  | Some t =>
      let pte := t (Z.land (Z.shiftr va 12) 1023) in
      if admits user write pte then Some (Z.lor (frame pte) (Z.land va 4095)) else None
  end.

(** ** The heap; kernel stores go through the tables in force *)
Definition store_zero (m : Memory) (y : Z -> Z) (va : Z) : Z -> Z :=
  match translate m false true va with Some pa => set_cell y pa 0 | None => y end.
Definition linux_memory_brk (requested : Z) (m : Memory) : Z * Memory :=
  if (heap_base m <=? requested) && (requested <=? u32 (user_top m - APP_STACK_SIZE)) then
    let y := if heap_break m <? requested
             then fold_left (store_zero m) (seqZ (heap_break m) (requested - heap_break m)) (bytes m) else bytes m in
    (requested, set_heap requested y m)
  else (heap_break m, m).
Definition linux_user_range (m : Memory) (address size : Z) : bool :=
  (user_base m <=? address) && (address <=? user_top m) && (size <=? u32 (user_top m - address)).
Definition linux_memory_capture (m : Memory) : LinuxMemoryState :=
  {| state_base := user_base m; state_heap_base := heap_base m; state_heap_break := heap_break m |}.
Definition linux_memory_resume (s : LinuxMemoryState) (m : Memory) : Memory :=
  let m' := linux_memory_enter (state_base s) (state_heap_base s) m in set_heap (state_heap_break s) (bytes m') m'.
End Paging.
