(* ===== verification/LinuxMemoryProofs.v ===== *)
(** * The address space of a Linux program: isolation and the heap *)
From S2P Require Import Prelude LinuxMemory.

(** ** Entries *)
Lemma frame_lor a f : a mod 4096 = 0 -> 0 <= f < 4096 -> frame (Z.lor a f) = a.
Proof.
  intros Ha Hf. unfold frame. rewrite (lor_low 12 a f) by (done || lia).
  change 4095 with (Z.ones 12). rewrite <- Z.ldiff_land, Z.ldiff_ones_r, shl, shr by lia. dm_lia.
Qed.
Lemma lor_page a b : a mod 4096 = 0 -> Z.lor a (Z.land b 4095) = a + b mod 4096.
Proof.
  intros Ha. change 4095 with (2 ^ 12 - 1). rewrite land_mask by lia.
  apply (lor_low 12); [lia|apply Z.mod_pos_bound; lia|done].
Qed.
Lemma admits_lor user write a f : a mod 4096 = 0 -> 0 <= f < 4096 -> admits user write (Z.lor a f) = admits user write f.
Proof.
  intros Ha Hf. unfold admits. assert (forall i, 0 <= i < 12 -> Z.testbit (Z.lor a f) i = Z.testbit f i) as E; [|by rewrite !E by lia].
  intros i Hi. rewrite Z.lor_spec. rewrite <- (Z.mod_pow2_bits_low a 12 i) by lia. change (2 ^ 12) with 4096. by rewrite Ha, Z.bits_0.
Qed.
Lemma shr22 va : Z.shiftr va 22 = va / 4194304.
Proof. by rewrite shr by lia. Qed.
Lemma page_index va : Z.land (Z.shiftr va 12) 1023 = va / 4096 mod 1024.
Proof. rewrite shr by lia. change 1023 with (2 ^ 10 - 1). by rewrite land_mask by lia. Qed.

(** ** The tables of device registers *)
(** Every page a table maps is a device page of its directory index, with
    the flags supervisor, writable and uncached. *)
Definition device_page (page : Z) : Z := Z.lor (page * 4096) 0x1b.
Record mmio_ok (m : Memory) : Prop := {
  mmio_nodup : NoDup (mmio_indices m);
  mmio_count : zlen (mmio_indices m) <= 32;
  mmio_high : Forall (fun i => 64 <= i < 1024) (mmio_indices m);
  mmio_entry : forall k i j, mmio_indices m !! k = Some i -> 0 <= j < 1024 ->
    mmio_tables m (Z.of_nat k) j = 0 \/ mmio_tables m (Z.of_nat k) j = device_page (i * 1024 + j);
  mmio_fresh : forall k j, zlen (mmio_indices m) <= k -> mmio_tables m k j = 0 }.
Definition mapped (m : Memory) (page : Z) : Prop :=
  exists k, mmio_indices m !! k = Some (page / 1024) /\ mmio_tables m (Z.of_nat k) (page mod 1024) = device_page page.

Lemma find_slot_spec l index : forall s,
  (exists k, l !! k = Some index /\ find_slot l index s = s + Z.of_nat k) \/ ~ index ∈ l /\ find_slot l index s = s + zlen l.
Proof.
  induction l as [|i l IH]; intros s; [right; split; [by intros ?%elem_of_nil|cbn; unfold zlen; cbn; lia]|].
  cbn [find_slot]. destruct (Z.eqb_spec i index) as [->|Hne]; cbn [negb].
  - left. exists 0%nat. split; [done|lia].
  - destruct (IH (s + 1)) as [(k & Hk & ->)|[Hn ->]].
    + left. exists (S k). split; [done|lia].
    + right. rewrite zlen_cons. split; [|lia]. intros [?|?]%elem_of_cons; [congruence|done].
Qed.

Lemma map_page_spec m page : mmio_ok m -> 0x10000 <= page < 0x100000 ->
  match map_page page m with
  | Some m' => mmio_ok m' /\ mapped m' page /\ (forall p, mapped m p -> mapped m' p) /\ exists t l, m' = set_mmio t l m
  | None => zlen (mmio_indices m) = 32 /\ ~ (page / 1024) ∈ mmio_indices m
  end.
Proof.
  intros [Hnd Hc Hh He Hf] Hp. unfold map_page. rewrite shr by lia. change (2 ^ 10) with 1024.
  change 1023 with (2 ^ 10 - 1). rewrite land_mask by lia. change (2 ^ 10) with 1024.
  assert (Z.lor (u32 (Z.shiftl page 12)) 0x1b = device_page page) as ->.
  { unfold device_page. rewrite shl by lia. rewrite u32_small by (unfold is_u32; lia). done. }
  assert (page = page / 1024 * 1024 + page mod 1024) as Hsplit by dm_lia.
  pose proof (Z.mod_pos_bound page 1024 ltac:(lia)) as Hm.
  destruct (find_slot_spec (mmio_indices m) (page / 1024) 0) as [(k & Hk & ->)|[Hn ->]]; rewrite Z.add_0_l.
  - pose proof (lookup_lt_Some _ _ _ Hk). assert (Z.of_nat k < zlen (mmio_indices m)) by (unfold zlen; lia).
    zfalse (Z.of_nat k =? zlen (mmio_indices m)). cbn [andb]. split_and!.
    + constructor; cbn [mmio_indices mmio_tables set_mmio]; [done|done|done| |].
      * intros k' i j Hk' Hj. unfold set_cell. destruct (Z.eqb_spec (Z.of_nat k') (Z.of_nat k)) as [E|E]; [|by apply (He k' i j)].
        assert (k' = k) as -> by lia. assert (i = page / 1024) as -> by congruence.
        destruct (Z.eqb_spec j (page mod 1024)) as [->|]; [right; by rewrite <- Hsplit|by apply He].
      * intros k' j Hk'. unfold set_cell. zfalse (k' =? Z.of_nat k). by apply Hf.
    + exists k. cbn [mmio_indices mmio_tables set_mmio]. split; [done|]. unfold set_cell. by rewrite !Z.eqb_refl.
    + intros p (k' & Hk' & Ht). exists k'. cbn [mmio_indices mmio_tables set_mmio]. split; [done|]. unfold set_cell.
      destruct (Z.eqb_spec (Z.of_nat k') (Z.of_nat k)) as [E|E]; [|done]. assert (k' = k) as -> by lia.
      destruct (Z.eqb_spec (p mod 1024) (page mod 1024)) as [Ep|]; [|done]. f_equal.
      assert (p / 1024 = page / 1024) by congruence. dm_lia.
    + by eexists _, _.
  - rewrite Z.eqb_refl. destruct (Z.eqb_spec (zlen (mmio_indices m)) 32) as [E|E]; cbn [andb]; [done|]. split_and!.
    + constructor; cbn [mmio_indices mmio_tables set_mmio].
      * apply NoDup_app. split; [done|]. split; [|apply NoDup_singleton]. intros x Hx ->%list_elem_of_singleton. done.
      * rewrite zlen_app. change (zlen [page / 1024]) with 1. lia.
      * apply Forall_app. split; [done|]. apply Forall_singleton. dm_lia.
      * intros k i j Hk Hj. unfold set_cell. apply lookup_app_Some in Hk as [Hk|[Hge Hk]].
        -- pose proof (lookup_lt_Some _ _ _ Hk). assert (Z.of_nat k <> zlen (mmio_indices m)) by (unfold zlen; lia).
           zfalse (Z.of_nat k =? zlen (mmio_indices m)). by apply (He k i j).
        -- assert (k - length (mmio_indices m) = 0)%nat as E0 by (apply lookup_lt_Some in Hk; cbn in Hk; lia).
           rewrite E0 in Hk. injection Hk as <-. assert (Z.of_nat k = zlen (mmio_indices m)) as -> by (unfold zlen; lia).
           rewrite Z.eqb_refl. destruct (Z.eqb_spec j (page mod 1024)) as [->|]; [right; by rewrite <- Hsplit|left; by apply Hf].
      * intros k j Hk. rewrite zlen_app in Hk. change (zlen [page / 1024]) with 1 in Hk. unfold set_cell.
        zfalse (k =? zlen (mmio_indices m)). apply Hf. lia.
    + exists (length (mmio_indices m)). cbn [mmio_indices mmio_tables set_mmio]. split; [by rewrite lookup_app_r, Nat.sub_diag by lia|].
      unfold set_cell. fold (zlen (mmio_indices m)). by rewrite !Z.eqb_refl.
    + intros p (k & Hk & Ht). exists k. cbn [mmio_indices mmio_tables set_mmio]. split; [by apply lookup_app_l_Some|].
      pose proof (lookup_lt_Some _ _ _ Hk). assert (Z.of_nat k <> zlen (mmio_indices m)) by (unfold zlen; lia).
      unfold set_cell. by zfalse (Z.of_nat k =? zlen (mmio_indices m)).
    + by eexists _, _.
Qed.

Lemma map_pages_spec n : forall page m, mmio_ok m -> 0x10000 <= page -> page + Z.of_nat n <= 0x100000 ->
  let '(r, m') := map_pages n page m in
  mmio_ok m' /\ (forall p, mapped m p -> mapped m' p) /\ (exists t l, m' = set_mmio t l m) /\
  (r = 0 /\ (forall p, page <= p < page + Z.of_nat n -> mapped m' p) \/ r = -1 /\ zlen (mmio_indices m') = 32).
Proof.
  induction n as [|n IH]; intros page m Hm Hlo Hhi.
  { split_and!; [done|done|exists (mmio_tables m), (mmio_indices m); by destruct m|]. left. split; [done|lia]. }
  cbn [map_pages]. pose proof (map_page_spec m page Hm ltac:(lia)) as Hp. destruct (map_page page m) as [m1|].
  2:{ split_and!; [done|done|exists (mmio_tables m), (mmio_indices m); by destruct m|]. right. split; [done|]. lia. }
  destruct Hp as (H1 & Hpage & Hkeep & (t & l & Hset)). specialize (IH (page + 1) m1 H1 ltac:(lia) ltac:(lia)).
  destruct (map_pages n (page + 1) m1) as [r m']. destruct IH as (H2 & Hkeep2 & (t2 & l2 & Hset2) & Hr). split_and!; [done|auto| |].
  - exists t2, l2. by rewrite Hset2, Hset.
  - destruct Hr as [[-> Hall]|[-> ?]]; [left; split; [done|]|by right]. intros p Hrange.
    destruct (decide (p = page)) as [->|]; [by apply Hkeep2|apply Hall; lia].
Qed.

(** ** The directory of a program *)
Section Paging.
Context `{Layout}.
Definition base_ok (base : Z) : Prop := base mod 4194304 = 0 /\ 0 < base /\ base + 4194304 < 2 ^ 32.
Definition window (base va : Z) : Prop := base <= va < base + 4194304.

Lemma mmio_entries_spec l : forall i d index, NoDup l ->
  (forall k, l !! k = Some index -> mmio_entries l i d index = Z.lor (mmio_tables_at + (i + Z.of_nat k) * 4096) 3) /\
  (~ index ∈ l -> mmio_entries l i d index = d index).
Proof.
  induction l as [|x l IH]; intros i d index Hnd; [done|]. apply NoDup_cons in Hnd as [Hx Hnd]. cbn [mmio_entries].
  destruct (IH (i + 1) (set_cell d x (Z.lor (mmio_tables_at + i * 4096) 3)) index Hnd) as [IH1 IH2]. split.
  - intros [|k] Hk; [injection Hk as ->|].
    + rewrite IH2 by done. unfold set_cell. rewrite Z.eqb_refl. do 2 f_equal. lia.
    + rewrite (IH1 k Hk). do 3 f_equal. lia.
  - rewrite not_elem_of_cons. intros [Hne Hn]. rewrite IH2 by done. unfold set_cell. by zfalse (index =? x).
Qed.
Lemma low_directory_eq i : low_directory i = if (0 <=? i) && (i <? 8) then Z.lor (tables_at + i * 4096) 7 else 0.
Proof.
  destruct (decide (0 <= i < 8)) as [Hi|Hi].
  - ztrue (0 <=? i). ztrue (i <? 8). cbn [andb]. assert (i = 0 \/ i = 1 \/ i = 2 \/ i = 3 \/ i = 4 \/ i = 5 \/ i = 6 \/ i = 7) as Hc by lia.
    destruct Hc as [->|[->|[->|[->|[->|[->|[->| ->]]]]]]]; reflexivity.
  - assert ((0 <=? i) && (i <? 8) = false) as -> by (apply andb_false_iff; lia).
    unfold low_directory. change (seqZ 0 8) with [0; 1; 2; 3; 4; 5; 6; 7]. cbn [fold_left]. unfold set_cell.
    repeat match goal with |- context [i =? ?k] => zfalse (i =? k) end. done.
Qed.
Lemma directory_eq base image_end m i : mmio_ok m ->
  let d := directory (linux_memory_enter base image_end m) in
  (forall k, mmio_indices m !! k = Some i -> d i = Z.lor (mmio_tables_at + Z.of_nat k * 4096) 3) /\
  (~ i ∈ mmio_indices m -> d i = if i =? base / 4194304 then Z.lor user_table_at 7
                                else if (0 <=? i) && (i <? 8) then Z.lor (tables_at + i * 4096) 7 else 0).
Proof.
  intros Hm d. unfold d. cbn [directory linux_memory_enter]. rewrite shr22.
  destruct (mmio_entries_spec (mmio_indices m) 0 (set_cell low_directory (base / 4194304) (Z.lor user_table_at 7)) i (mmio_nodup m Hm)) as [H1 H2].
  split; [exact H1|]. intros Hn. rewrite H2 by done. unfold set_cell. by rewrite low_directory_eq.
Qed.

Lemma table_of_user m : table_of m user_table_at = Some (user_table m).
Proof. unfold table_of. by rewrite Z.eqb_refl. Qed.
Lemma table_of_kernel m i : 0 <= i < 8 -> table_of m (tables_at + i * 4096) = Some (tables m i).
Proof.
  intros Hi. unfold table_of. pose proof layout_apart. pose proof layout_aligned. zfalse (tables_at + i * 4096 =? user_table_at).
  ztrue (tables_at <=? tables_at + i * 4096). ztrue (tables_at + i * 4096 <? tables_at + 8 * 4096). cbn [andb].
  do 2 f_equal. dm_lia.
Qed.
Lemma table_of_mmio m k : 0 <= k < 32 -> table_of m (mmio_tables_at + k * 4096) = Some (mmio_tables m k).
Proof.
  intros Hk. unfold table_of. pose proof layout_apart. zfalse (mmio_tables_at + k * 4096 =? user_table_at).
  destruct ((tables_at <=? _) && _) eqn:C; [bool_to_prop; lia|].
  ztrue (mmio_tables_at <=? mmio_tables_at + k * 4096). ztrue (mmio_tables_at + k * 4096 <? mmio_tables_at + 32 * 4096). cbn [andb].
  do 2 f_equal. dm_lia.
Qed.

(** One walk of the tables, once the entry of the directory is known. *)
Lemma translate_entry m user write va a f t : directory m (va / 4194304) = Z.lor a f -> a mod 4096 = 0 -> 0 <= f < 4096 ->
  table_of m a = Some t ->
  translate m user write va = let pte := t (va / 4096 mod 1024) in
    if admits user write f && admits user write pte then Some (frame pte + va mod 4096) else None.
Proof.
  intros Hd Ha Hf Ht. unfold translate. rewrite shr22, Hd, admits_lor, frame_lor, Ht, page_index by done.
  destruct (admits user write f); cbn [negb andb]; [|done]. cbv zeta. destruct (admits user write (t _)); [|done].
  f_equal. apply lor_page. unfold frame. change 4095 with (Z.ones 12). rewrite <- Z.ldiff_land, Z.ldiff_ones_r, shl by lia. dm_lia.
Qed.
Lemma translate_absent m user write va : directory m (va / 4194304) = 0 -> translate m user write va = None.
Proof. intros Hd. unfold translate. rewrite shr22, Hd. done. Qed.

Section Entered.
Variables (base image_end : Z) (m : Memory).
Hypothesis Hbase : base_ok base.
Hypothesis Hm : mmio_ok m.
#[local] Abbreviation entered := (linux_memory_enter base image_end m).

Lemma translate_mmio user write va k : mmio_indices m !! k = Some (va / 4194304) ->
  translate entered user write va =
    let pte := mmio_tables m (Z.of_nat k) (va / 4096 mod 1024) in
    if admits user write 3 && admits user write pte then Some (frame pte + va mod 4096) else None.
Proof.
  intros Hk. pose proof (lookup_lt_Some _ _ _ Hk). pose proof (mmio_count m Hm) as Hc. unfold zlen in Hc. pose proof layout_aligned.
  destruct (directory_eq base image_end m (va / 4194304) Hm) as [Hd _].
  apply (translate_entry entered user write va (mmio_tables_at + Z.of_nat k * 4096) 3); [by apply Hd|dm_lia|lia|apply (table_of_mmio entered); lia].
Qed.
Lemma translate_window user write va : window base va -> ~ base / 4194304 ∈ mmio_indices m ->
  translate entered user write va = Some (APP_LOAD_MIN + (va - base)).
Proof.
  intros Hw Hn. unfold window in Hw. destruct Hbase as (Hal & Hpos & Hend). pose proof layout_aligned.
  assert (va / 4194304 = base / 4194304) as E by dm_lia.
  destruct (directory_eq base image_end m (va / 4194304) Hm) as [_ Hd]. rewrite E in Hd. specialize (Hd Hn). rewrite Z.eqb_refl in Hd.
  rewrite (translate_entry entered user write va user_table_at 7 user_entry); [|by rewrite E|lia|lia|apply (table_of_user entered)].
  cbv zeta. unfold user_entry. set (j := va / 4096 mod 1024).
  assert ((APP_LOAD_MIN + j * 4096) mod 4096 = 0) by (unfold APP_LOAD_MIN; dm_lia).
  rewrite admits_lor, frame_lor by (done || lia). replace (admits user write 7) with true by (by destruct user, write). cbn [andb].
  f_equal. unfold j. dm_lia.
Qed.
Lemma translate_low user write va : 0 <= va < 33554432 -> ~ window base va ->
  translate entered user write va = if user || (va <? 4096) then None else Some va.
Proof.
  intros Hva Hw. unfold window in Hw. destruct Hbase as (Hal & Hpos & Hend). pose proof layout_aligned.
  assert (~ va / 4194304 ∈ mmio_indices m) as Hn.
  { intros Hin. pose proof (mmio_high m Hm) as Hh. rewrite Forall_forall in Hh. apply Hh in Hin. dm_lia. }
  destruct (directory_eq base image_end m (va / 4194304) Hm) as [_ Hd]. specialize (Hd Hn).
  rewrite (proj2 (Z.eqb_neq (va / 4194304) (base / 4194304))) in Hd by dm_lia.
  replace ((0 <=? va / 4194304) && (va / 4194304 <? 8)) with true in Hd by (symmetry; apply andb_true_iff; dm_lia).
  rewrite (translate_entry entered user write va (tables_at + va / 4194304 * 4096) 7 (kernel_table (va / 4194304)));
    [|done|dm_lia|lia|apply (table_of_kernel entered); dm_lia].
  cbv zeta. unfold kernel_table. set (page := va / 4194304 * 1024 + va / 4096 mod 1024).
  assert (page = va / 4096) as -> by (unfold page; dm_lia). unfold truth. destruct (Z.eqb_spec (va / 4096 * 4096) 0) as [E|E]; cbn [negb].
  - ztrue (va <? 4096). rewrite orb_true_r. change (admits user write 0) with false. by rewrite andb_false_r.
  - zfalse (va <? 4096). rewrite orb_false_r, admits_lor, frame_lor by dm_lia. destruct user, write; [done|done| |]; cbn; f_equal; dm_lia.
Qed.

(** What a user program can reach: the window, and only there. *)
Lemma user_reach write va pa : 0 <= va < 2 ^ 32 ->
  translate entered true write va = Some pa -> window base va /\ ~ base / 4194304 ∈ mmio_indices m.
Proof.
  intros Hva Ht. destruct (decide (va / 4194304 ∈ mmio_indices m)) as [Hin|Hn].
  { apply list_elem_of_lookup in Hin as [k Hk]. rewrite (translate_mmio true write va k Hk) in Ht. by destruct write. }
  destruct Hbase as (Hal & Hpos & Hend). destruct (decide (window base va)) as [Hw|Hw].
  { split; [done|]. assert (va / 4194304 = base / 4194304) as <- by (unfold window in Hw; dm_lia). done. }
  exfalso. destruct (Z.lt_ge_cases va 33554432) as [Hlo|Hhi]; [by rewrite (translate_low true write va ltac:(lia) Hw) in Ht|].
  destruct (directory_eq base image_end m (va / 4194304) Hm) as [_ Hd]. specialize (Hd Hn).
  rewrite (proj2 (Z.eqb_neq (va / 4194304) (base / 4194304))) in Hd by (unfold window in Hw; dm_lia).
  replace ((0 <=? va / 4194304) && (va / 4194304 <? 8)) with false in Hd by (symmetry; apply andb_false_iff; dm_lia).
  by rewrite translate_absent in Ht.
Qed.
End Entered.

(** C11: isolation: with the tables built for a program, user code reaches an
    address exactly if it is in the 4 MiB window of the program (and no device registers were
    put there), always in the arena reserved for programs; kernel memory below 32 MiB stays
    mapped to itself for the kernel alone, and page zero for nobody. *)
Theorem enter_isolates base image_end m write va : base_ok base -> mmio_ok m -> 0 <= va < 2 ^ 32 ->
  let space := linux_memory_enter base image_end m in
  (forall pa, translate space true write va = Some pa <->
     window base va /\ ~ base / 4194304 ∈ mmio_indices m /\ pa = APP_LOAD_MIN + (va - base)) /\
  (va < 33554432 -> ~ window base va -> translate space false write va = if va <? 4096 then None else Some va).
Proof.
  intros Hb Hm Hva space. split.
  - intros pa. split.
    + intros Ht. destruct (user_reach base image_end m Hb Hm write va pa Hva Ht) as [Hw Hn]. unfold space in Ht.
      rewrite (translate_window base image_end m Hb Hm true write va Hw Hn) in Ht. split_and!; [done|done|congruence].
    + intros (Hw & Hn & ->). by apply translate_window.
  - intros Hlo Hw. unfold space. by rewrite (translate_low base image_end m Hb Hm false write va ltac:(lia) Hw).
Qed.

(** C12: the range check of user pointers is exact: it accepts a range of at least one
    byte if and only if user code could itself reach each of its bytes, and these are then all in the
    arena of the program. *)
Theorem user_range_exact base image_end m address size : base_ok base -> mmio_ok m -> ~ base / 4194304 ∈ mmio_indices m ->
  is_u32 address -> is_u32 size -> 0 < size ->
  let space := linux_memory_enter base image_end m in
  linux_user_range space address size = true <->
  forall x, address <= x < address + size ->
    exists pa, translate space true true x = Some pa /\ APP_LOAD_MIN <= pa < APP_STACK_TOP.
Proof.
  intros Hb Hm Hn Ha Hs Hpos space. unfold is_u32 in *. pose proof Hb as (Hal & Hp & Hend).
  assert (user_top space = base + 4194304) as Htop.
  { unfold space. cbn [user_top linux_memory_enter]. unfold APP_STACK_TOP, APP_LOAD_MIN. rewrite u32_small by (unfold is_u32; lia). lia. }
  unfold linux_user_range. rewrite Htop. change (user_base space) with base. split.
  - intros C. bool_to_prop. rewrite u32_small in * by (unfold is_u32; lia). intros x Hx.
    assert (window base x) as Hw by (unfold window; lia). exists (APP_LOAD_MIN + (x - base)).
    split; [by apply translate_window|]. unfold window, APP_LOAD_MIN, APP_STACK_TOP in *. lia.
  - intros Hall. assert (forall x, address <= x < address + size -> x < 2 ^ 32 -> window base x) as Hw.
    { intros x Hx Hx32. destruct (Hall x Hx) as (pa & Ht & _). by destruct (user_reach base image_end m Hb Hm true x pa ltac:(lia) Ht). }
    assert (address + size <= base + 4194304) as Hle.
    { destruct (Z.le_gt_cases (address + size) (2 ^ 32)) as [Hc|Hc].
      - specialize (Hw (address + size - 1) ltac:(lia) ltac:(lia)). unfold window in Hw. lia.
      - specialize (Hw (2 ^ 32 - 1) ltac:(lia) ltac:(lia)). unfold window in Hw. lia. }
    specialize (Hw address ltac:(lia) ltac:(lia)). unfold window in Hw.
    rewrite !andb_true_iff, !Z.leb_le, u32_small by (unfold is_u32; lia). lia.
Qed.

Lemma device_reach base image_end m write va : base_ok base -> mmio_ok m -> 0 <= va < 2 ^ 32 -> mapped m (va / 4096) ->
  translate (linux_memory_enter base image_end m) false write va = Some va /\
  translate (linux_memory_enter base image_end m) true write va = None.
Proof.
  intros Hb Hm Hva (k & Hk & Ht). replace (va / 4096 / 1024) with (va / 4194304) in Hk by dm_lia.
  rewrite !(translate_mmio base image_end m Hm _ write va k Hk). cbv zeta. rewrite Ht. unfold device_page.
  rewrite !admits_lor, frame_lor by dm_lia. destruct write; (split; [cbn; f_equal; dm_lia|done]).
Qed.

(** ** The heap *)
Record running (m : Memory) : Prop := {
  running_base : base_ok (user_base m);
  running_top : user_top m = user_base m + 4194304;
  running_map : (forall user write va, window (user_base m) va -> translate m user write va = Some (APP_LOAD_MIN + (va - user_base m))) /\
    forall write va pa, 0 <= va < 2 ^ 32 -> translate m true write va = Some pa -> window (user_base m) va;
  running_heap : user_base m <= heap_base m <= heap_break m /\ heap_break m <= user_top m;
  running_aligned : heap_base m mod 4096 = 0 }.
Lemma running_window m : running m -> forall user write va, window (user_base m) va -> translate m user write va = Some (APP_LOAD_MIN + (va - user_base m)).
Proof. intros Hr. apply (running_map m Hr). Qed.
Definition user_byte (m : Memory) (va : Z) : Z := bytes m (APP_LOAD_MIN + (va - user_base m)).

Lemma round_page n : is_u32 (n + 4095) -> Z.land (u32 (n + 4095)) (u32 (Z.lnot 4095)) = (n + 4095) / 4096 * 4096.
Proof.
  intros Hn. rewrite (u32_small (n + 4095)) by done. change (u32 (Z.lnot 4095)) with (Z.land (Z.lnot 4095) (Z.ones 32)).
  change 4095 with (Z.ones 12) at 2. rewrite Z.land_assoc, <- Z.ldiff_land, Z.ldiff_ones_r, Z.land_ones by lia.
  rewrite shl, shr by lia. unfold is_u32 in Hn. change (2 ^ 12) with 4096. apply Z.mod_small. dm_lia.
Qed.
Lemma enter_running base image_end m : base_ok base -> mmio_ok m -> ~ base / 4194304 ∈ mmio_indices m ->
  base <= image_end <= base + 4194304 - APP_STACK_SIZE -> running (linux_memory_enter base image_end m).
Proof.
  intros Hb Hm Hn Hi. pose proof Hb as (Hal & Hp & Hend). unfold APP_STACK_SIZE in Hi. constructor; [done| | | |].
  - cbn [user_top user_base linux_memory_enter]. unfold APP_STACK_TOP, APP_LOAD_MIN. rewrite u32_small by (unfold is_u32; lia). lia.
  - split; [intros user write va Hw; by apply translate_window|]. intros write va pa Hva Ht. by destruct (user_reach base image_end m Hb Hm write va pa Hva Ht).
  - cbn [user_top user_base heap_base heap_break linux_memory_enter]. rewrite round_page by (unfold is_u32; lia).
    unfold APP_STACK_TOP, APP_LOAD_MIN. rewrite u32_small by (unfold is_u32; lia). dm_lia.
  - cbn [heap_base linux_memory_enter]. rewrite round_page by (unfold is_u32; lia). dm_lia.
Qed.

Lemma store_zeros m n : running m -> forall va y pa, user_base m <= va -> va + Z.of_nat n <= user_top m ->
  fold_left (store_zero m) (seqZ va (Z.of_nat n)) y pa =
  if decide (APP_LOAD_MIN + (va - user_base m) <= pa < APP_LOAD_MIN + (va - user_base m) + Z.of_nat n) then 0 else y pa.
Proof.
  intros Hr. pose proof (running_top m Hr) as Ht. induction n as [|n IH]; intros va y pa Hw Hend.
  { cbn. destruct (decide _); [lia|done]. }
  rewrite seqZ_cons by lia. cbn [fold_left]. replace (Z.pred (Z.of_nat (S n))) with (Z.of_nat n) by lia.
  assert (store_zero m y va = set_cell y (APP_LOAD_MIN + (va - user_base m)) 0) as ->
    by (unfold store_zero; by rewrite running_window by (done || unfold window; lia)).
  rewrite IH by lia. unfold set_cell.
  destruct (Z.eqb_spec pa (APP_LOAD_MIN + (va - user_base m))); repeat destruct (decide _); try lia; done.
Qed.

Lemma brk_effect m requested : running m -> is_u32 requested ->
  let '(r, m') := linux_memory_brk requested m in
  running m' /\ r = heap_break m' /\ heap_base m' = heap_base m /\
  (r = requested <-> heap_base m <= requested <= user_top m - APP_STACK_SIZE \/ requested = heap_break m) /\
  (r <> requested -> m' = m) /\
  (forall va, window (user_base m) va -> user_byte m' va = if decide (heap_break m <= va < r) then 0 else user_byte m va) /\
  (forall pa, ~ (APP_LOAD_MIN <= pa < APP_STACK_TOP) -> bytes m' pa = bytes m pa).
Proof.
  intros Hr Hq. pose proof Hr as [(Hal & Hp & Hend) Htop Hwin Hheap Hhal]. unfold is_u32 in *. unfold linux_memory_brk.
  rewrite u32_small by (unfold is_u32, APP_STACK_SIZE; lia).
  destruct ((heap_base m <=? requested) && (requested <=? user_top m - APP_STACK_SIZE)) eqn:C.
  2:{ apply andb_false_iff in C. rewrite !Z.leb_gt in C. split_and!; try done; try lia.
      intros va Hw. destruct (decide _); [lia|done]. }
  bool_to_prop. set (y := if heap_break m <? requested then _ else _).
  assert (forall pa, y pa = if decide (APP_LOAD_MIN + (heap_break m - user_base m) <= pa < APP_LOAD_MIN + (requested - user_base m)) then 0 else bytes m pa) as Hy.
  { intros pa. unfold y. destruct (Z.ltb_spec (heap_break m) requested).
    - replace (requested - heap_break m) with (Z.of_nat (Z.to_nat (requested - heap_break m))) by lia.
      rewrite store_zeros by (done || unfold window, APP_STACK_SIZE in *; lia). repeat destruct (decide _); try lia; done.
    - destruct (decide _); [lia|done]. }
  unfold APP_STACK_SIZE in *. split_and!; cbn [heap_break heap_base user_top user_base set_heap bytes]; try done; try lia.
  - constructor; try done. cbn [heap_break heap_base user_top user_base set_heap]. lia.
  - intros va Hw. unfold user_byte. cbn [bytes user_base set_heap]. rewrite Hy. repeat destruct (decide _); try lia; done.
  - intros pa Hpa. rewrite Hy. destruct (decide _); [|done]. unfold APP_LOAD_MIN, APP_STACK_TOP in *. lia.
Qed.
(** C24: the heap grows and shrinks between its base and the stack only; what it gains is
    zero, and no other byte of memory changes. *)
Theorem brk_spec m requested : running m -> is_u32 requested ->
  let '(r, m') := linux_memory_brk requested m in
  running m' /\ r = heap_break m' /\ heap_base m' = heap_base m /\
  (r = requested <-> heap_base m <= requested <= user_top m - APP_STACK_SIZE \/ requested = heap_break m) /\
  (r <> requested -> m' = m) /\
  (forall va, window (user_base m) va -> user_byte m' va = if decide (heap_break m <= va < r) then 0 else user_byte m va) /\
  (forall pa, ~ (APP_LOAD_MIN <= pa < APP_STACK_TOP) -> bytes m' pa = bytes m pa).
Proof. exact (brk_effect m requested). Qed.

(** ** Switching between programs *)
Lemma resume_effect m other : running m ->
  let m' := linux_memory_resume (linux_memory_capture m) other in
  linux_memory_capture m' = linux_memory_capture m /\ user_top m' = user_top m /\ bytes m' = bytes other /\
  (mmio_ok other -> ~ user_base m / 4194304 ∈ mmio_indices other -> running m') /\
  cr0 (linux_memory_leave m') = cr0 other /\ cr3 (linux_memory_leave m') = cr3 other.
Proof.
  intros [Hb Htop Hwin Hheap Hal] m'. pose proof Hb as (Hba & Hp & Hend).
  assert (Z.land (u32 (heap_base m + 4095)) (u32 (Z.lnot 4095)) = heap_base m) as Hround.
  { rewrite round_page by (unfold is_u32; dm_lia). dm_lia. }
  assert (u32 (user_base m + APP_STACK_TOP - APP_LOAD_MIN) = user_top m) as Ht.
  { unfold APP_STACK_TOP, APP_LOAD_MIN. rewrite u32_small by (unfold is_u32; lia). lia. }
  split; [|split; [exact Ht|split; [done|split; [|done]]]].
  - unfold m', linux_memory_capture, linux_memory_resume. cbn. by rewrite Hround.
  - intros Hm Hn. constructor; unfold m'; cbn [user_base user_top heap_base heap_break set_heap linux_memory_resume linux_memory_enter linux_memory_capture state_base state_heap_base state_heap_break].
    + done.
    + by rewrite Ht.
    + split; [intros user write va Hw; apply (translate_window (user_base m) (heap_base m) other Hb Hm user write va Hw Hn)|].
      intros write va pa Hva Ht'. by destruct (user_reach (user_base m) (heap_base m) other Hb Hm write va pa Hva Ht').
    + rewrite Hround, Ht. lia.
    + by rewrite Hround.
Qed.
(** C25: a captured address space is resumed as it was, heap included, over the tables of
    any other program, and leaving it restores the paging state of the kernel. *)
Theorem capture_resume m other : running m ->
  let m' := linux_memory_resume (linux_memory_capture m) other in
  linux_memory_capture m' = linux_memory_capture m /\ user_top m' = user_top m /\ bytes m' = bytes other /\
  (mmio_ok other -> ~ user_base m / 4194304 ∈ mmio_indices other -> running m') /\
  cr0 (linux_memory_leave m') = cr0 other /\ cr3 (linux_memory_leave m') = cr3 other.
Proof. exact (resume_effect m other). Qed.
End Paging.

(** ** The theorems at a concrete layout *)
Definition sample_layout : Layout.
Proof.
  refine {| directory_at := 0x200000; tables_at := 0x201000; user_table_at := 0x209000; mmio_tables_at := 0x20a000 |};
    [split_and!; reflexivity|lia|lia].
Defined.
#[local] Existing Instance sample_layout.
Definition boot_memory : Memory :=
  {| directory := fun _ => 0; tables := fun _ _ => 0; user_table := fun _ => 0; mmio_tables := fun _ _ => 0; mmio_indices := [];
     user_base := 0; user_top := 0; heap_base := 0; heap_break := 0; cr0 := 0x11; cr3 := 0; saved_cr0 := 0; saved_cr3 := 0; bytes := fun a => a mod 256 |}.
Lemma boot_mmio : mmio_ok boot_memory.
Proof. constructor; [constructor|done|constructor|by intros|done]. Qed.
(** A network card whose registers were registered at boot. *)
Definition card_memory : Memory := (map_pages 32 0xfebc0 boot_memory).2.
Lemma card_mmio : mmio_ok card_memory /\ mapped card_memory (0xfebc0010 / 4096).
Proof.
  pose proof (map_pages_spec 32 0xfebc0 boot_memory boot_mmio ltac:(lia) ltac:(lia)) as Hmap.
  assert ((map_pages 32 0xfebc0 boot_memory).1 = 0) as E by (vm_compute; reflexivity). unfold card_memory.
  destruct (map_pages 32 0xfebc0 boot_memory) as [r m']. cbn [fst snd] in *. subst r.
  destruct Hmap as (H1 & _ & _ & [[_ H2]|[? _]]); [|done]. split; [done|]. apply H2. dm_lia.
Qed.
Lemma card_indices : mmio_indices card_memory = [1018].
Proof. vm_compute. reflexivity. Qed.
#[local] Opaque map_pages.
Definition program_base : Z := 0x08000000.
Lemma program_base_ok : base_ok program_base.
Proof. unfold base_ok, program_base. split_and!; [reflexivity|lia|lia]. Qed.
Lemma program_apart : ~ program_base / 4194304 ∈ mmio_indices card_memory.
Proof. rewrite card_indices. change (program_base / 4194304) with 32. intros Hin%list_elem_of_singleton. lia. Qed.
Definition program_memory : Memory := linux_memory_enter program_base 0x08050000 card_memory.
Lemma program_running : running program_memory.
Proof. apply enter_running; [exact program_base_ok|apply card_mmio|exact program_apart|unfold program_base, APP_STACK_SIZE; lia]. Qed.

Lemma enter_isolates_witness :
  (forall pa, translate program_memory true true 0x08048000 = Some pa <->
     window program_base 0x08048000 /\ ~ program_base / 4194304 ∈ mmio_indices card_memory /\ pa = APP_LOAD_MIN + (0x08048000 - program_base)) /\
  (0x08048000 < 33554432 -> ~ window program_base 0x08048000 ->
     translate program_memory false true 0x08048000 = if 0x08048000 <? 4096 then None else Some 0x08048000).
Proof. apply (enter_isolates program_base 0x08050000 card_memory true 0x08048000); [exact program_base_ok|apply card_mmio|lia]. Defined.
Lemma user_range_exact_witness : linux_user_range program_memory 0x08048000 64 = true <->
  forall x, 0x08048000 <= x < 0x08048000 + 64 ->
    exists pa, translate program_memory true true x = Some pa /\ APP_LOAD_MIN <= pa < APP_STACK_TOP.
Proof.
  apply (user_range_exact program_base 0x08050000 card_memory 0x08048000 64);
    [exact program_base_ok|apply card_mmio|exact program_apart|unfold is_u32; lia|unfold is_u32; lia|lia].
Defined.
Lemma brk_spec_witness : let '(r, m') := linux_memory_brk 0x08060000 program_memory in
  running m' /\ r = heap_break m' /\ heap_base m' = heap_base program_memory /\
  (r = 0x08060000 <-> heap_base program_memory <= 0x08060000 <= user_top program_memory - APP_STACK_SIZE \/ 0x08060000 = heap_break program_memory) /\
  (r <> 0x08060000 -> m' = program_memory) /\
  (forall va, window (user_base program_memory) va -> user_byte m' va = if decide (heap_break program_memory <= va < r) then 0 else user_byte program_memory va) /\
  (forall pa, ~ (APP_LOAD_MIN <= pa < APP_STACK_TOP) -> bytes m' pa = bytes program_memory pa).
Proof. apply (brk_spec program_memory 0x08060000); [exact program_running|unfold is_u32; lia]. Defined.
Lemma capture_resume_witness :
  let m' := linux_memory_resume (linux_memory_capture program_memory) boot_memory in
  linux_memory_capture m' = linux_memory_capture program_memory /\ user_top m' = user_top program_memory /\ bytes m' = bytes boot_memory /\
  (mmio_ok boot_memory -> ~ user_base program_memory / 4194304 ∈ mmio_indices boot_memory -> running m') /\
  cr0 (linux_memory_leave m') = cr0 boot_memory /\ cr3 (linux_memory_leave m') = cr3 boot_memory.
Proof. apply (capture_resume program_memory boot_memory). exact program_running. Defined.
