(* ===== verification/LinuxKernel.v ===== *)
(** * The kernel state behind the Linux system calls

    The objects that src/linux_syscall.c, src/linux_task.c and
    src/linux_exec.c keep, the calls they make into the rest of the kernel,
    and the monad their operations run in.  An operation returns, leaves the user
    program for good, stops the kernel, or faults on an address that the page
    tables in force do not map. *)
From Stdlib Require Import String.
From S2P Require Import Prelude CString ElfFormat LinuxMemory.

Inductive Out (A : Type) := Ret (a : A) | Left (status : Z) | Panic | Fault.
Arguments Ret {A} a. Arguments Left {A} status. Arguments Panic {A}. Arguments Fault {A}.

(** ** Open files and pipes (src/linux_syscall.c) *)
Definition FD_COUNT : Z := 16.
Definition LINUX_TASK_LIMIT : Z := 3.
Definition PATH_SIZE : Z := 128.
Definition PIPE_SIZE : Z := 4096.
Definition PIPE_COUNT : Z := FD_COUNT * LINUX_TASK_LIMIT / 2.
Definition IOV_MAX : Z := 1024.
Definition O_ACCMODE : Z := 3.
Definition O_WRONLY : Z := 1.
Definition O_CREAT : Z := 64.
Definition O_EXCL : Z := 128.
Definition O_TRUNC : Z := 512.
Definition O_APPEND : Z := 1024.
Definition O_NONBLOCK : Z := 2048.
Definition O_DIRECTORY : Z := 65536.
Definition O_CLOEXEC : Z := 524288.
Definition ENOENT : Z := 2.
Definition EIO : Z := 5.
Definition EBADF : Z := 9.
Definition EAGAIN : Z := 11.
Definition EFAULT : Z := 14.
Definition EISDIR : Z := 21.
Definition EINVAL : Z := 22.
Definition ENFILE : Z := 23.
Definition EMFILE : Z := 24.
Definition ENOTTY : Z := 25.
Definition ESPIPE : Z := 29.
Definition ENAMETOOLONG : Z := 36.
Definition ENOSYS : Z := 38.
Definition LINUX_IO_WAIT : Z := -4096.
Definition LINUX_IO_SIGPIPE : Z := -4097.

Record Pipe := { readers : Z; writers : Z; pipe_head : Z; pipe_used : Z; pipe_data : list Z }.
(** The pipe of a description is its place in the array of pipes. *)
Record OpenFile := {
  refs : Z; position : Z; flags : Z; terminal : bool; is_directory : bool; file_pipe : option nat; file_name : list Z }.
Record PipeIo := {
  io_active : bool; io_writing : bool; io_fd : Z; io_count : Z; io_index : Z; io_offset : Z; io_total : Z; io_length : Z;
  io_vectors : list (Z * Z) }.
(** A descriptor is the place of its description; [file_task] is the slot
    whose descriptors are in use. *)
Record Files := {
  pipes : list Pipe; pending_io : list PipeIo; descriptions : list OpenFile;
  task_files : list (list (option nat)); task_flags : list (list Z); file_task : nat }.

(** ** Tasks (src/linux_task.c) *)
Inductive TaskState := UNUSED | RUNNING | READY | WAITING | IO_WAITING | ZOMBIE.
#[global] Instance task_state_eq_dec : EqDecision TaskState.
Proof. solve_decision. Defined.
Record LinuxTrapFrame := {
  edi : Z; esi : Z; ebp : Z; saved_esp : Z; ebx : Z; edx : Z; ecx : Z; eax : Z;
  gs : Z; fs : Z; es : Z; ds : Z; eip : Z; cs : Z; eflags : Z; user_esp : Z; ss : Z }.
Record Task := {
  task_state : TaskState; pid : Z; parent : Z; status : Z; wait_pid : Z; wait_status : Z;
  task_frame : LinuxTrapFrame; task_memory : LinuxMemoryState; task_cwd : list Z }.
Record Tasks := { tasks : list Task; current : nat; next_pid : Z; root_status : Z }.

(** ** Programs being started (src/linux_exec.c) *)
Record Staged := {
  plan : ElfPlan; staged_strings : list Z; exec_path : list Z; offsets : list Z; argc : Z; envc : Z }.
Record Exec := { staged : Staged; exec_active : bool; pending_entry : Z; pending_stack : Z }.

(** ** The whole state; [W] is the rest of the kernel: files, accounts, console *)
Record K (W : Type) := {
  mem : Memory; files : Files; sched : Tasks; exec : Exec; regs : LinuxTrapFrame; world : W }.
Arguments mem {W}. Arguments files {W}. Arguments sched {W}. Arguments exec {W}. Arguments regs {W}. Arguments world {W}.
Arguments Build_K {W}.

(** The calls into the file system, the permissions and the console. *)
Class Services (W : Type) := {
  fs_getcwd : Z -> W -> Z * list Z * W;
  fs_cd : list Z -> W -> bool * W;
  fs_is_dir : list Z -> W -> bool * W;
  fs_file_size : list Z -> W -> Z * W;
  fs_read : list Z -> Z -> Z -> W -> Z * list Z * W;
  fs_pwrite : list Z -> Z -> list Z -> bool -> W -> Z * W;
  fs_write : list Z -> list Z -> W -> Z * W;
  fs_getdents : list Z -> Z -> Z -> W -> Z * list Z * Z * W;
  fs_exec_check : list Z -> W -> Z * W;
  fs_load_executable : list Z -> W -> Z * list Z * W;
  check_permission : list Z -> Z -> W -> bool * W;
  permissions_uid : W -> Z * W;
  getch : W -> Z * W;
  print_char : Z -> W -> W;
  println : string -> W -> W }.

Section Monad.
Context {W : Type}.
Definition KM (A : Type) : Type := K W -> Out A * K W.
#[export] Instance km_ret : MRet KM := fun _ a k => (Ret a, k).
#[export] Instance km_bind : MBind KM := fun _ _ f m k =>
  match m k with
  | (Ret a, k') => f a k'
  | (Left s, k') => (Left s, k')
  | (Panic, k') => (Panic, k')
  | (Fault, k') => (Fault, k')
  end.
Definition get {A} (f : K W -> A) : KM A := fun k => (Ret (f k), k).
Definition put_mem (m : Memory) : KM unit := fun k => (Ret tt, Build_K m (files k) (sched k) (exec k) (regs k) (world k)).
Definition put_files (f : Files) : KM unit := fun k => (Ret tt, Build_K (mem k) f (sched k) (exec k) (regs k) (world k)).
Definition put_sched (t : Tasks) : KM unit := fun k => (Ret tt, Build_K (mem k) (files k) t (exec k) (regs k) (world k)).
Definition put_exec (e : Exec) : KM unit := fun k => (Ret tt, Build_K (mem k) (files k) (sched k) e (regs k) (world k)).
Definition put_regs (r : LinuxTrapFrame) : KM unit := fun k => (Ret tt, Build_K (mem k) (files k) (sched k) (exec k) r (world k)).
Definition call {A} (f : W -> A * W) : KM A := fun k =>
  let '(a, w) := f (world k) in (Ret a, Build_K (mem k) (files k) (sched k) (exec k) (regs k) w).
Definition leave_user {A} (s : Z) : KM A := fun k => (Left s, k).
Definition panic {A} : KM A := fun k => (Panic, k).
Definition fault {A} : KM A := fun k => (Fault, k).
End Monad.
Arguments KM : clear implicits.

(** ** Kernel accesses to user addresses, through the tables in force *)
Section Access.
Context {W : Type} `{Layout}.
Fixpoint load_bytes (n : nat) (va : Z) : KM W (list Z) :=
  match n with
  | O => mret []
  | S n' =>
      m ← get mem;
      match translate m false false va with
      | None => fault
      | Some pa => rest ← load_bytes n' (u32 (va + 1)); mret (bytes m pa :: rest)
      end
  end.
Definition set_byte (pa v : Z) (m : Memory) : Memory := set_heap (heap_break m) (set_cell (bytes m) pa v) m.
Fixpoint store_bytes (va : Z) (bs : list Z) : KM W unit :=
  match bs with
  | [] => mret tt
  | b :: bs' =>
      m ← get mem;
      match translate m false true va with
      | None => fault
      | Some pa => put_mem (set_byte pa b m);; store_bytes (u32 (va + 1)) bs'
      end
  end.
Definition load32 (va : Z) : KM W Z := bs ← load_bytes 4 va; mret (u32 (le32 bs 0)).
Definition user_range (address size : Z) : KM W bool := m ← get mem; mret (linux_user_range m address size).
End Access.
