(* ===== verification/LinuxFiles.v ===== *)
(** * Descriptors and pipes (src/linux_syscall.c)

    Open files are shared between descriptors by counting references; a pipe
    is a ring of 4096 bytes that blocked readers and writers resume on. *)
From S2P Require Import Prelude CString LinuxMemory LinuxKernel.

(** ** The tables *)
Definition no_file : OpenFile :=
  {| refs := 0; position := 0; flags := 0; terminal := false; is_directory := false; file_pipe := None; file_name := [] |}.
Definition no_pipe : Pipe := {| readers := 0; writers := 0; pipe_head := 0; pipe_used := 0; pipe_data := replicate 4096 0 |}.
Definition no_io : PipeIo :=
  {| io_active := false; io_writing := false; io_fd := 0; io_count := 0; io_index := 0; io_offset := 0; io_total := 0; io_length := 0;
     io_vectors := replicate 1024 (0, 0) |}.
Definition description (f : Files) (d : nat) : OpenFile := nth d (descriptions f) no_file.
Definition pipe_at (f : Files) (p : nat) : Pipe := nth p (pipes f) no_pipe.
Definition io_at (f : Files) (slot : nat) : PipeIo := nth slot (pending_io f) no_io.
Definition slot_file (f : Files) (slot : nat) (fd : Z) : option nat := nth (Z.to_nat fd) (nth slot (task_files f) []) None.
Definition slot_flags (f : Files) (slot : nat) (fd : Z) : Z := nth (Z.to_nat fd) (nth slot (task_flags f) []) 0.

Definition set_refs (r : Z) (o : OpenFile) : OpenFile :=
  {| refs := r; position := position o; flags := flags o; terminal := terminal o; is_directory := is_directory o; file_pipe := file_pipe o; file_name := file_name o |}.
Definition set_position (p : Z) (o : OpenFile) : OpenFile :=
  {| refs := refs o; position := p; flags := flags o; terminal := terminal o; is_directory := is_directory o; file_pipe := file_pipe o; file_name := file_name o |}.
Definition set_file_flags (v : Z) (o : OpenFile) : OpenFile :=
  {| refs := refs o; position := position o; flags := v; terminal := terminal o; is_directory := is_directory o; file_pipe := file_pipe o; file_name := file_name o |}.
Definition drop_end (reader : bool) (p : Pipe) : Pipe :=
  {| readers := if reader then u32 (readers p - 1) else readers p; writers := if reader then writers p else u32 (writers p - 1);
     pipe_head := pipe_head p; pipe_used := pipe_used p; pipe_data := pipe_data p |}.
Definition set_active (b : bool) (io : PipeIo) : PipeIo :=
  {| io_active := b; io_writing := io_writing io; io_fd := io_fd io; io_count := io_count io; io_index := io_index io; io_offset := io_offset io;
     io_total := io_total io; io_length := io_length io; io_vectors := io_vectors io |}.

Definition put_description (d : nat) (o : OpenFile) (f : Files) : Files :=
  {| pipes := pipes f; pending_io := pending_io f; descriptions := <[d := o]> (descriptions f); task_files := task_files f; task_flags := task_flags f; file_task := file_task f |}.
Definition put_pipe (p : nat) (x : Pipe) (f : Files) : Files :=
  {| pipes := <[p := x]> (pipes f); pending_io := pending_io f; descriptions := descriptions f; task_files := task_files f; task_flags := task_flags f; file_task := file_task f |}.
Definition put_io (slot : nat) (x : PipeIo) (f : Files) : Files :=
  {| pipes := pipes f; pending_io := <[slot := x]> (pending_io f); descriptions := descriptions f; task_files := task_files f; task_flags := task_flags f; file_task := file_task f |}.
Definition put_slot (slot : nat) (fd : Z) (d : option nat) (v : Z) (f : Files) : Files :=
  {| pipes := pipes f; pending_io := pending_io f; descriptions := descriptions f;
     task_files := alter (fun l => <[Z.to_nat fd := d]> l) slot (task_files f);
     task_flags := alter (fun l => <[Z.to_nat fd := v]> l) slot (task_flags f); file_task := file_task f |}.
Definition put_task (slot : nat) (f : Files) : Files :=
  {| pipes := pipes f; pending_io := pending_io f; descriptions := descriptions f; task_files := task_files f; task_flags := task_flags f; file_task := slot |}.

(** ** Descriptors *)
Definition terminal_file (i : Z) : OpenFile :=
  {| refs := 1; position := 0; flags := if truth i then O_WRONLY else 0; terminal := true; is_directory := false; file_pipe := None; file_name := [] |}.
Definition linux_syscall_reset : Files :=
  {| pipes := replicate (Z.to_nat PIPE_COUNT) no_pipe; pending_io := replicate (Z.to_nat LINUX_TASK_LIMIT) no_io;
     descriptions := map terminal_file [0; 1; 2] ++ replicate (Z.to_nat (FD_COUNT * LINUX_TASK_LIMIT - 3)) no_file;
     task_files := ([Some 0%nat; Some 1%nat; Some 2%nat] ++ replicate (Z.to_nat (FD_COUNT - 3)) None) ::
                   replicate (Z.to_nat (LINUX_TASK_LIMIT - 1)) (replicate (Z.to_nat FD_COUNT) None);
     task_flags := replicate (Z.to_nat LINUX_TASK_LIMIT) (replicate (Z.to_nat FD_COUNT) 0); file_task := 0 |}.
Definition get_file (f : Files) (fd : Z) : option nat := if fd <? FD_COUNT then slot_file f (file_task f) fd else None.
Fixpoint first_fd (n : nat) (i : Z) (f : Files) : option Z :=
  match n with
  | O => None
  | S n' => match slot_file f (file_task f) i with None => Some i | Some _ => first_fd n' (i + 1) f end
  end.
Definition free_fd (minimum : Z) (f : Files) : Z :=
  match first_fd (Z.to_nat (FD_COUNT - minimum)) minimum f with Some i => i | None => - EMFILE end.
Definition writable (o : OpenFile) : bool := truth (Z.land (flags o) O_ACCMODE).
Definition release (d : nat) (f : Files) : Files :=
  let o := description f d in
  let o' := set_refs (u32 (refs o - 1)) o in
  let f := put_description d o' f in
  if truth (refs o') then f
  else match file_pipe o' with
  | Some p => put_pipe p (drop_end (negb (writable o')) (pipe_at f p)) f
  | None => f
  end.
Definition close_fd (fd : Z) (f : Files) : Z * Files :=
  match get_file f fd with
  | None => (- EBADF, f)
  | Some d => (0, put_slot (file_task f) fd None 0 (release d f))
  end.
(** Close the descriptors of the current slot that satisfy a test. *)
Fixpoint close_each (test : Files -> Z -> bool) (n : nat) (fd : Z) (f : Files) : Files :=
  match n with
  | O => f
  | S n' => close_each test n' (fd + 1) (if test f fd then (close_fd fd f).2 else f)
  end.
Definition is_open (f : Files) (fd : Z) : bool := match slot_file f (file_task f) fd with Some _ => true | None => false end.
Definition closes_on_exec (f : Files) (fd : Z) : bool := is_open f fd && truth (Z.land (slot_flags f (file_task f) fd) 1).
Definition linux_syscall_exec (f : Files) : Files := close_each closes_on_exec (Z.to_nat FD_COUNT) 0 f.
Definition linux_files_switch (slot : nat) (f : Files) : Files := put_task slot f.
Definition share (d : option nat) (f : Files) : Files :=
  match d with Some d => put_description d (set_refs (u32 (refs (description f d) + 1)) (description f d)) f | None => f end.
Fixpoint fork_each (parent child : nat) (n : nat) (fd : Z) (f : Files) : Files :=
  match n with
  | O => f
  | S n' =>
      let d := slot_file f parent fd in
      fork_each parent child n' (fd + 1) (share d (put_slot child fd d (slot_flags f parent fd) f))
  end.
Definition linux_files_fork (parent child : nat) (f : Files) : Files :=
  fork_each parent child (Z.to_nat FD_COUNT) 0 (put_io child (set_active false (io_at f child)) f).
Definition linux_files_exit (slot : nat) (f : Files) : Files :=
  let previous := file_task f in
  let f := put_task slot (put_io slot (set_active false (io_at f slot)) f) in
  put_task previous (close_each is_open (Z.to_nat FD_COUNT) 0 f).

(** ** Making a pipe *)
Fixpoint two_fds (n : nat) (i : Z) (f : Files) : list Z :=
  match n with
  | O => []
  | S n' => if is_open f i then two_fds n' (i + 1) f else i :: two_fds n' (i + 1) f
  end.
Fixpoint free_descriptions (l : list OpenFile) (i : nat) : list nat :=
  match l with [] => [] | o :: l' => if truth (refs o) then free_descriptions l' (S i) else i :: free_descriptions l' (S i) end.
Fixpoint free_pipe (l : list Pipe) (i : nat) : option nat :=
  match l with
  | [] => None
  | p :: l' => if negb (truth (readers p)) && negb (truth (writers p)) then Some i else free_pipe l' (S i)
  end.
Definition pipe_end (p : nat) (write : bool) (fl : Z) : OpenFile :=
  {| refs := 1; position := 0; flags := Z.lor (if write then O_WRONLY else 0) (Z.land fl O_NONBLOCK);
     terminal := false; is_directory := false; file_pipe := Some p; file_name := [] |}.
(** The two descriptors, or the error. *)
Definition new_pipe (fl : Z) (f : Files) : sum Z (Z * Z * Files) :=
  match two_fds (Z.to_nat FD_COUNT) 0 f with
  | fd0 :: fd1 :: _ =>
      match free_descriptions (descriptions f) 0 with
      | d0 :: d1 :: _ =>
          match free_pipe (pipes f) 0 with
          | Some p =>
              let x := pipe_at f p in
              let f := put_pipe p {| readers := 1; writers := 1; pipe_head := 0; pipe_used := 0; pipe_data := pipe_data x |} f in
              let cloexec := if truth (Z.land fl O_CLOEXEC) then 1 else 0 in
              let f := put_slot (file_task f) fd0 (Some d0) cloexec (put_description d0 (pipe_end p false fl) f) in
              let f := put_slot (file_task f) fd1 (Some d1) cloexec (put_description d1 (pipe_end p true fl) f) in
              inr (fd0, fd1, f)
          | None => inl (- ENFILE)
          end
      | _ => inl (- ENFILE)
      end
  | _ => inl (- EMFILE)
  end.

Section Io.
Context {W : Type} `{Layout}.
Definition create_pipe (address fl : Z) : KM W Z :=
  if truth (Z.land fl (u32 (Z.lnot (Z.lor O_NONBLOCK O_CLOEXEC)))) then mret (- EINVAL)
  else
    ok ← user_range address 8;
    if negb (ok : bool) then mret (- EFAULT)
    else
      f ← get files;
      match new_pipe fl f with
      | inl e => mret e
      | inr (fd0, fd1, f') => put_files f';; store_bytes address (le32_bytes fd0 ++ le32_bytes fd1);; mret 0
      end.

(** ** Transfers *)
Definition nonblocking (o : OpenFile) : bool := truth (Z.land (flags o) O_NONBLOCK).
(** The description a pending transfer works on. *)
Definition io_file (f : Files) (slot : nat) : option nat := slot_file f slot (io_fd (io_at f slot)).
Definition pipe_of (f : Files) (o : OpenFile) : Pipe := match file_pipe o with Some p => pipe_at f p | None => no_pipe end.
Definition linux_io_ready (slot : nat) (f : Files) : bool :=
  let io := io_at f slot in
  if negb (io_active io) then false
  else match io_file f slot with
  | None => false
  | Some d =>
      let o := description f d in
      let p := pipe_of f o in
      if nonblocking o then true
      else if negb (io_writing io) then truth (pipe_used p) || negb (truth (writers p))
      else
        let need := if io_length io <=? PIPE_SIZE then io_length io else 1 in
        negb (truth (readers p)) || (need <=? u32 (PIPE_SIZE - pipe_used p))
  end.

Definition advance (chunk : Z) (io : PipeIo) : PipeIo :=
  {| io_active := io_active io; io_writing := io_writing io; io_fd := io_fd io; io_count := io_count io; io_index := io_index io;
     io_offset := u32 (io_offset io + chunk); io_total := u32 (io_total io + chunk); io_length := io_length io; io_vectors := io_vectors io |}.
Definition next_vector (io : PipeIo) : PipeIo :=
  {| io_active := io_active io; io_writing := io_writing io; io_fd := io_fd io; io_count := io_count io; io_index := u32 (io_index io + 1);
     io_offset := 0; io_total := io_total io; io_length := io_length io; io_vectors := io_vectors io |}.
Definition vector_at (io : PipeIo) : Z * Z := nth (Z.to_nat (io_index io)) (io_vectors io) (0, 0).
Definition pipe_put (pos : Z) (bs : list Z) (p : Pipe) : Pipe :=
  {| readers := readers p; writers := writers p; pipe_head := pipe_head p; pipe_used := u32 (pipe_used p + zlen bs); pipe_data := splice (pipe_data p) pos bs |}.
Definition pipe_take (pos chunk : Z) (p : Pipe) : Pipe :=
  {| readers := readers p; writers := writers p; pipe_head := (pos + chunk) mod PIPE_SIZE; pipe_used := u32 (pipe_used p - chunk); pipe_data := pipe_data p |}.
(** The copying loop on the transfer and the pipe; the fuel bounds the
    number of passes. *)
Fixpoint copy_loop (fuel : nat) (available : Z) (io : PipeIo) (p : Pipe) : KM W (PipeIo * Pipe) :=
  match fuel with
  | O => panic
  | S fuel' =>
      if available =? 0 then mret (io, p)
      else
        let '(address, length) := vector_at io in
        if io_offset io =? length then copy_loop fuel' available (next_vector io) p
        else
          let pos := if io_writing io then (pipe_head p + pipe_used p) mod PIPE_SIZE else pipe_head p in
          let chunk := u32 (length - io_offset io) in
          let chunk := if available <? chunk then available else chunk in
          let chunk := if PIPE_SIZE - pos <? chunk then PIPE_SIZE - pos else chunk in
          let user := u32 (address + io_offset io) in
          if io_writing io then
            bs ← load_bytes (Z.to_nat chunk) user;
            copy_loop fuel' (available - chunk) (advance chunk io) (pipe_put pos bs p)
          else
            store_bytes user (take (Z.to_nat chunk) (drop (Z.to_nat pos) (pipe_data p)));;
            copy_loop fuel' (available - chunk) (advance chunk io) (pipe_take pos chunk p)
  end.
Definition copy_fuel (io : PipeIo) (available : Z) : nat := Z.to_nat (io_count io - io_index io + available + 1).

(** The end of a transfer: it is no longer pending. *)
Definition io_done (slot : nat) (result : Z) : KM W Z :=
  f ← get files; put_files (put_io slot (set_active false (io_at f slot)) f);; mret result.
Definition linux_io_resume : KM W Z :=
  f ← get files;
  let slot := file_task f in
  let io := io_at f slot in
  match get_file f (io_fd io) with
  | None => fault
  | Some d =>
      let o := description f d in
      match file_pipe o with
      | None => fault
      | Some pn =>
          let p := pipe_at f pn in
          if io_writing io && negb (truth (readers p)) then io_done slot LINUX_IO_SIGPIPE
          else if negb (io_writing io) && negb (truth (pipe_used p)) && negb (truth (writers p)) then io_done slot 0
          else
            let available := if io_writing io then u32 (PIPE_SIZE - pipe_used p) else pipe_used p in
            if (available =? 0) || (io_writing io && (io_length io <=? PIPE_SIZE) && (available <? io_length io)) then
              if negb (nonblocking o) then mret LINUX_IO_WAIT
              else io_done slot (if truth (io_total io) then s32 (io_total io) else - EAGAIN)
            else
              let remaining := u32 (io_length io - io_total io) in
              let available := if remaining <? available then remaining else available in
              r ← copy_loop (copy_fuel io available) available io p;
              let '(io', p') := (r : PipeIo * Pipe) in
              f ← get files;
              put_files (put_pipe pn p' (put_io slot io' f));;
              if io_writing io' && (io_total io' <? io_length io') && negb (nonblocking o) then mret LINUX_IO_WAIT
              else io_done slot (s32 (io_total io'))
      end
  end.

(** The vectors of a request, read from the user and checked. *)
Fixpoint read_vectors (n : nat) (address : Z) : KM W (list (Z * Z)) :=
  match n with
  | O => mret []
  | S n' => a ← load32 address; l ← load32 (u32 (address + 4)); rest ← read_vectors n' (u32 (address + 8)); mret ((a, l) :: rest)
  end.
(** The error or zero, and the sum of the lengths that passed. *)
Fixpoint check_vectors (l : list (Z * Z)) (total : Z) : KM W (Z * Z) :=
  match l with
  | [] => mret (0, total)
  | (address, length) :: l' =>
      if u32 (0x7fffffff - total) <? length then mret (- EINVAL, total)
      else
        ok ← user_range address length;
        if truth length && negb (ok : bool) then mret (- EFAULT, total) else check_vectors l' (u32 (total + length))
  end.
Definition start_io (io : PipeIo) (fd count : Z) (writing : bool) : PipeIo :=
  {| io_active := false; io_writing := writing; io_fd := fd; io_count := count; io_index := 0; io_offset := 0; io_total := 0; io_length := 0;
     io_vectors := io_vectors io |}.
Definition set_vectors (l : list (Z * Z)) (total : Z) (active : bool) (io : PipeIo) : PipeIo :=
  {| io_active := active; io_writing := io_writing io; io_fd := io_fd io; io_count := io_count io; io_index := io_index io; io_offset := io_offset io;
     io_total := io_total io; io_length := total; io_vectors := l ++ drop (length l) (io_vectors io) |}.
Definition pipe_transfer (fd address count : Z) (writing vectored : bool) : KM W Z :=
  f ← get files;
  match get_file f fd with
  | None => fault
  | Some d =>
      let mode := Z.land (flags (description f d)) O_ACCMODE in
      if (if writing then mode =? 0 else mode =? O_WRONLY) then mret (- EBADF)
      else
        let slot := file_task f in
        let io := start_io (io_at f slot) fd (if vectored then count else 1) writing in
        put_files (put_io slot io f);;
        if vectored && (IOV_MAX <? count) then mret (- EINVAL)
        else
          ok ← (if vectored && truth count then user_range address (count * 8) else mret true);
          if negb (ok : bool) then mret (- EFAULT)
          else
            vs ← (if vectored then read_vectors (Z.to_nat count) address else mret [(address, count)]);
            checked ← check_vectors vs 0;
            let '(error, total) := (checked : Z * Z) in
            put_files (put_io slot (set_vectors vs total (negb (truth error) && truth total) io) f);;
            if truth error then mret error
            else if total =? 0 then mret 0
            else linux_io_resume
  end.
End Io.
