(* ===== verification/LinuxPipes.v ===== *)
(** * Pipes refine queues of bytes

    The ring of a pipe represents a queue; a transfer appends the next bytes
    of the user's vectors to it, or moves its first bytes to the user. *)
From S2P Require Import Prelude CString ElfFormat LinuxMemory LinuxMemoryProofs LinuxKernel LinuxFiles.

(** ** The ring *)
Definition contents (p : Pipe) : list Z := map (fun i => byte_at (pipe_data p) ((pipe_head p + i) mod PIPE_SIZE)) (seqZ 0 (pipe_used p)).
Record pipe_ok (p : Pipe) : Prop := {
  pipe_data_length : length (pipe_data p) = 4096%nat;
  pipe_head_range : 0 <= pipe_head p < PIPE_SIZE;
  pipe_used_range : 0 <= pipe_used p <= PIPE_SIZE }.

Lemma map_seqZ_shift {A} (f : Z -> A) m n k : map f (seqZ (m + k) n) = map (fun i => f (i + k)) (seqZ m n).
Proof. rewrite <- (Z.add_comm k), <- fmap_add_seqZ. unfold fmap. rewrite map_map. apply list_fmap_ext. intros. f_equal. lia. Qed.
Lemma map_seqZ_ext {A} (f g : Z -> A) m n : (forall i, m <= i < m + n -> f i = g i) -> map f (seqZ m n) = map g (seqZ m n).
Proof. intros Hfg. apply list_fmap_ext. intros _ i Hi%list_elem_of_lookup_2%elem_of_seqZ. by apply Hfg. Qed.
Lemma map_byte_at l : forall o, 0 <= o -> map (fun i => byte_at (l) (i - o)) (seqZ o (zlen l)) = l.
Proof.
  intros o Ho. change (seqZ o (zlen l)) with (seqZ (0 + o) (zlen l)). rewrite map_seqZ_shift. apply list_eq. intros i. rewrite list_lookup_fmap.
  destruct (Nat.lt_ge_cases i (length l)) as [Hi|Hi].
  - rewrite lookup_seqZ_lt by (unfold zlen; lia). cbn [fmap option_fmap option_map]. unfold byte_at. rewrite nth_lookup.
    replace (Z.to_nat (0 + Z.of_nat i + o - o)) with i by lia. destruct (lookup_lt_is_Some_2 l i Hi) as [x ->]. done.
  - rewrite lookup_seqZ_ge by (unfold zlen; lia). symmetry. by apply lookup_ge_None_2.
Qed.
Lemma pipe_put_contents p bs : pipe_ok p -> let pos := (pipe_head p + pipe_used p) mod PIPE_SIZE in
  zlen bs <= PIPE_SIZE - pos -> pipe_used p + zlen bs <= PIPE_SIZE ->
  pipe_ok (pipe_put pos bs p) /\ contents (pipe_put pos bs p) = contents p ++ bs /\ pipe_used (pipe_put pos bs p) = pipe_used p + zlen bs.
Proof.
  intros [Hd Hh Hu] pos Hpos Hfit. pose proof (zlen_nonneg bs). unfold PIPE_SIZE in *.
  assert (zlen (pipe_data p) = 4096) as Hz by (unfold zlen; lia).
  pose proof (Z.mod_pos_bound (pipe_head p + pipe_used p) 4096 ltac:(lia)) as Hp. fold pos in Hp.
  assert (u32 (pipe_used p + zlen bs) = pipe_used p + zlen bs) as E by (apply u32_small; unfold is_u32; lia).
  split; [|split; [|exact E]].
  - constructor; cbn [pipe_data pipe_head pipe_used pipe_put]; [|done|unfold PIPE_SIZE; lia].
    pose proof (zlen_splice (pipe_data p) pos bs ltac:(lia) ltac:(lia)). unfold zlen in *. lia.
  - unfold contents. cbn [pipe_data pipe_head pipe_used pipe_put]. rewrite E, seqZ_app, map_app by lia. f_equal.
    + apply map_seqZ_ext. intros i Hi. unfold PIPE_SIZE. apply byte_splice_out; [lia|lia|dm_lia|]. unfold pos. dm_lia.
    + rewrite <- (map_byte_at bs (pipe_used p)) at 2 by lia. apply map_seqZ_ext. intros i Hi. unfold PIPE_SIZE.
      rewrite byte_splice_in; [|lia|lia|unfold pos in *; dm_lia]. f_equal. unfold pos in *. dm_lia.
Qed.
Lemma pipe_take_contents p chunk : pipe_ok p -> 0 <= chunk -> chunk <= PIPE_SIZE - pipe_head p -> chunk <= pipe_used p ->
  pipe_ok (pipe_take (pipe_head p) chunk p) /\ pipe_used (pipe_take (pipe_head p) chunk p) = pipe_used p - chunk /\
  contents p = take (Z.to_nat chunk) (drop (Z.to_nat (pipe_head p)) (pipe_data p)) ++ contents (pipe_take (pipe_head p) chunk p).
Proof.
  intros [Hd Hh Hu] Hc Hend Hused. unfold PIPE_SIZE in *.
  assert (u32 (pipe_used p - chunk) = pipe_used p - chunk) as E by (apply u32_small; unfold is_u32; lia).
  split; [|split; [exact E|]].
  - constructor; cbn [pipe_data pipe_head pipe_used pipe_take]; [done|unfold PIPE_SIZE; apply Z.mod_pos_bound; lia|unfold PIPE_SIZE; lia].
  - unfold contents. cbn [pipe_data pipe_head pipe_used pipe_take]. rewrite E. replace (pipe_used p) with (chunk + (pipe_used p - chunk)) at 1 by lia.
    rewrite seqZ_app, map_app by lia. f_equal.
    + apply list_eq. intros i. rewrite list_lookup_fmap. destruct (Nat.lt_ge_cases i (Z.to_nat chunk)) as [Hi|Hi].
      * rewrite lookup_seqZ_lt by lia. rewrite lookup_take_lt, lookup_drop by lia. cbn [fmap option_fmap option_map]. unfold byte_at. rewrite nth_lookup.
        unfold PIPE_SIZE. rewrite Z.mod_small by lia. replace (Z.to_nat (pipe_head p + (0 + Z.of_nat i))) with (Z.to_nat (pipe_head p) + i)%nat by lia.
        destruct (lookup_lt_is_Some_2 (pipe_data p) (Z.to_nat (pipe_head p) + i) ltac:(lia)) as [x ->]. done.
      * rewrite lookup_seqZ_ge by lia. symmetry. apply lookup_ge_None_2. rewrite length_take. lia.
    + rewrite map_seqZ_shift. apply map_seqZ_ext. intros i Hi. unfold PIPE_SIZE. f_equal. dm_lia.
Qed.

(** ** User memory *)
Definition user_put (m : Memory) (ab : Z * Z) : Memory := set_byte (APP_LOAD_MIN + (ab.1 - user_base m)) ab.2 m.
Definition put_all (m : Memory) (l : list (Z * Z)) : Memory := fold_left user_put l m.
Definition with_mem {W} (k : K W) (m : Memory) : K W := Build_K m (files k) (sched k) (exec k) (regs k) (world k).
Definition with_files {W} (k : K W) (f : Files) : K W := Build_K (mem k) f (sched k) (exec k) (regs k) (world k).
(** A range of user addresses, empty ones included. *)
Definition inside (m : Memory) (va n : Z) : Prop := 0 < n -> user_base m <= va /\ va + n <= user_top m.

Section Memory.
Context {W : Type} `{Layout}.
Implicit Types k : K W.

Lemma put_running m ab : running m -> running (user_put m ab).
Proof. intros [? ? ? ? ?]. by constructor. Qed.
Lemma put_all_running l : forall m, running m -> running (put_all m l).
Proof. induction l as [|ab l IH]; intros m Hm; [done|]. cbn. apply IH. by apply put_running. Qed.
Lemma put_all_app m a b : put_all m (a ++ b) = put_all (put_all m a) b.
Proof. apply fold_left_app. Qed.
Lemma put_all_fields l : forall m, user_base (put_all m l) = user_base m /\ user_top (put_all m l) = user_top m.
Proof. induction l as [|ab l IH]; intros m; [done|]. change (put_all m (ab :: l)) with (put_all (user_put m ab) l). destruct (IH (user_put m ab)) as [-> ->]. done. Qed.
Lemma inside_put_all m l va n : inside (put_all m l) va n <-> inside m va n.
Proof. unfold inside. by destruct (put_all_fields l m) as [-> ->]. Qed.

Lemma load_spec n : forall k va, running (mem k) -> inside (mem k) va (Z.of_nat n) ->
  load_bytes n va k = (Ret (map (user_byte (mem k)) (seqZ va (Z.of_nat n))), k).
Proof.
  induction n as [|n IH]; intros k va Hr Hin; [done|]. pose proof Hr as [(_ & Hp & Hend) Htop [Hwin _] _ _].
  destruct (Hin ltac:(lia)) as [Hlo Hhi]. cbn [load_bytes]. unfold mbind, km_bind, get. rewrite Hwin by (unfold window; lia).
  destruct n as [|n].
  - cbn [load_bytes]. unfold mret, km_ret. rewrite seqZ_cons by lia. done.
  - rewrite u32_small by (unfold is_u32; lia). rewrite IH; [|done|unfold inside; lia]. rewrite (seqZ_cons va) by lia. cbn [map].
    replace (Z.pred (Z.of_nat (S (S n)))) with (Z.of_nat (S n)) by lia. unfold mret, km_ret. done.
Qed.
Lemma store_spec bs : forall k va, running (mem k) -> inside (mem k) va (zlen bs) ->
  store_bytes va bs k = (Ret tt, with_mem k (put_all (mem k) (zip (seqZ va (zlen bs)) bs))).
Proof.
  induction bs as [|b bs IH]; intros k va Hr Hin; [by destruct k|]. pose proof Hr as [(_ & Hp & Hend) Htop [Hwin _] _ _].
  rewrite zlen_cons in *. pose proof (zlen_nonneg bs). destruct (Hin ltac:(lia)) as [Hlo Hhi].
  cbn [store_bytes]. unfold mbind, km_bind, get. rewrite Hwin by (unfold window; lia). unfold put_mem. cbv beta iota.
  rewrite seqZ_cons by lia. cbn [zip zip_with]. replace (Z.pred (1 + zlen bs)) with (zlen bs) by lia.
  destruct bs as [|b2 bs]; [done|]. rewrite u32_small by (unfold is_u32; rewrite zlen_cons in Hhi; pose proof (zlen_nonneg bs); lia).
  rewrite IH; [done| |].
  - apply (put_running (mem k) (va, b) Hr).
  - unfold inside. cbn [mem user_base user_top set_byte set_heap]. lia.
Qed.
End Memory.

(** ** A transfer and what is left of it *)
Definition vectors (io : PipeIo) : list (Z * Z) := take (Z.to_nat (io_count io)) (io_vectors io).
Definition addresses (l : list (Z * Z)) : list Z := concat (map (fun an => seqZ an.1 an.2) l).
Definition rest_from (l : list (Z * Z)) (offset : Z) : list Z :=
  match l with [] => [] | (a, n) :: l' => seqZ (a + offset) (n - offset) ++ addresses l' end.
(** The user addresses still to be transferred, in order. *)
Definition rest (io : PipeIo) : list Z := rest_from (drop (Z.to_nat (io_index io)) (vectors io)) (io_offset io).
Definition vector_ok (m : Memory) (an : Z * Z) : Prop := is_u32 an.1 /\ 0 <= an.2 < 2 ^ 31 /\ inside m an.1 an.2.
Record io_ok (m : Memory) (io : PipeIo) : Prop := {
  io_count_range : 0 <= io_index io <= io_count io /\ io_count io <= IOV_MAX;
  io_vectors_length : io_count io <= zlen (io_vectors io);
  io_vectors_ok : Forall (vector_ok m) (vectors io);
  io_offset_range : 0 <= io_offset io <= (vector_at io).2 \/ io_index io = io_count io /\ io_offset io = 0;
  io_total_rest : io_total io + zlen (rest io) = io_length io /\ 0 <= io_total io;
  io_length_short : io_length io < 2 ^ 31 }.
(** The fields that a transfer keeps. *)
Definition same_request (io io' : PipeIo) : Prop :=
  io_active io' = io_active io /\ io_writing io' = io_writing io /\ io_fd io' = io_fd io /\ io_length io' = io_length io /\
  io_count io' = io_count io /\ io_vectors io' = io_vectors io.
Definition same_ends (p p' : Pipe) : Prop := readers p' = readers p /\ writers p' = writers p.

Lemma vector_ok_put m l an : vector_ok (put_all m l) an <-> vector_ok m an.
Proof. unfold vector_ok. by rewrite inside_put_all. Qed.
Lemma io_ok_put m l io : io_ok m io -> io_ok (put_all m l) io.
Proof. intros [? ? ? ? ? ?]. constructor; try done. eapply Forall_impl; [eassumption|]. intros an. by rewrite vector_ok_put. Qed.

Lemma rest_view m io : io_ok m io -> 0 < zlen (rest io) ->
  exists a n l, drop (Z.to_nat (io_index io)) (vectors io) = (a, n) :: l /\ vector_at io = (a, n) /\ io_index io < io_count io /\
    vector_ok m (a, n) /\ 0 <= io_offset io <= n.
Proof.
  intros [Hc Hl Hv Ho _ _] Hpos. unfold rest in Hpos. destruct (drop _ (vectors io)) as [|[a n] l] eqn:E; [done|].
  exists a, n, l. assert (vectors io !! Z.to_nat (io_index io) = Some (a, n)) as Hlk.
  { replace (Z.to_nat (io_index io)) with (Z.to_nat (io_index io) + 0)%nat by lia. by rewrite <- lookup_drop, E. }
  pose proof (lookup_lt_Some _ _ _ Hlk) as Hlt. unfold vectors in Hlt. rewrite length_take in Hlt.
  assert (vector_at io = (a, n)) as Hva.
  { unfold vector_at. unfold vectors in Hlk. rewrite lookup_take_lt in Hlk by lia. by apply nth_lookup_Some. }
  split; [done|]. split; [done|]. split; [lia|]. split; [by apply (Forall_lookup_1 _ _ _ _ Hv Hlk)|]. rewrite Hva in Ho. cbn [snd] in Ho. lia.
Qed.
Lemma rest_next io a n l : drop (Z.to_nat (io_index io)) (vectors io) = (a, n) :: l -> 0 <= io_index io < 2 ^ 31 -> io_offset io = n ->
  rest (next_vector io) = rest io /\ drop (Z.to_nat (io_index (next_vector io))) (vectors (next_vector io)) = l.
Proof.
  intros Hd Hi Ho. unfold rest. rewrite Hd. cbn [next_vector io_index io_offset].
  rewrite u32_small by (unfold is_u32; lia). change (vectors (next_vector io)) with (vectors io).
  assert (drop (Z.to_nat (io_index io + 1)) (vectors io) = l) as ->.
  { replace (Z.to_nat (io_index io + 1)) with (Z.to_nat (io_index io) + 1)%nat by lia. by rewrite <- drop_drop, Hd. }
  split; [|done]. cbn [rest_from]. rewrite Ho, Z.sub_diag. cbn [seqZ]. destruct l as [|[a' n'] l']; [done|]. cbn [rest_from addresses map concat fst snd].
  by rewrite Z.add_0_r, Z.sub_0_r.
Qed.
Lemma next_io_ok m io a n l : io_ok m io -> drop (Z.to_nat (io_index io)) (vectors io) = (a, n) :: l -> io_index io < io_count io ->
  io_offset io = n -> io_ok m (next_vector io) /\ rest (next_vector io) = rest io /\ same_request io (next_vector io).
Proof.
  intros Hio Hd Hlt Ho. pose proof Hio as [[? ?] Hl Hv _ [Ht Ht0] Hs]. unfold IOV_MAX in *.
  destruct (rest_next io a n l Hd ltac:(lia) Ho) as [Hr Hdrop]. split; [|by split].
  assert (u32 (io_index io + 1) = io_index io + 1) as E by (apply u32_small; unfold is_u32; lia).
  constructor; cbn [next_vector io_index io_count io_offset io_length io_total io_vectors] in *; rewrite ?E; try done.
  - unfold IOV_MAX. lia.
  - destruct (decide (io_index io + 1 = io_count io)) as [|Hne]; [by right|left].
    destruct l as [|[a' n'] l'] eqn:El.
    + exfalso. rewrite E in Hdrop. apply (f_equal length) in Hdrop. rewrite length_drop in Hdrop. unfold vectors in Hdrop.
      cbn [next_vector io_count io_vectors length] in Hdrop. rewrite length_take in Hdrop. unfold zlen in Hl. lia.
    + assert (vectors io !! Z.to_nat (io_index io + 1) = Some (a', n')) as Hlk.
      { rewrite E in Hdrop. change (vectors (next_vector io)) with (vectors io) in Hdrop.
        replace (Z.to_nat (io_index io + 1)) with (Z.to_nat (io_index io + 1) + 0)%nat by lia. by rewrite <- lookup_drop, Hdrop. }
      pose proof (Forall_lookup_1 _ _ _ _ Hv Hlk) as (_ & Hn' & _). cbn [snd] in Hn'.
      assert (vector_at (next_vector io) = (a', n')) as ->; [|cbn [snd]; lia].
      unfold vector_at. cbn [next_vector io_index io_vectors]. rewrite E. apply nth_lookup_Some. unfold vectors in Hlk.
      rewrite lookup_take_lt in Hlk by lia. done.
  - by rewrite Hr.
Qed.
Lemma advance_io_ok m io a n l chunk : io_ok m io -> drop (Z.to_nat (io_index io)) (vectors io) = (a, n) :: l -> vector_at io = (a, n) ->
  vector_ok m (a, n) -> 0 <= io_offset io -> 0 < chunk <= n - io_offset io ->
  io_ok m (advance chunk io) /\ rest io = seqZ (a + io_offset io) chunk ++ rest (advance chunk io) /\
  io_total (advance chunk io) = io_total io + chunk /\ same_request io (advance chunk io).
Proof.
  intros Hio Hd Hva (_ & Hn & _) Ho Hc. pose proof Hio as [Hcount Hl Hv _ [Ht Ht0] Hs]. cbn [fst snd] in Hn.
  assert (u32 (io_offset io + chunk) = io_offset io + chunk) as E by (apply u32_small; unfold is_u32; lia).
  assert (rest io = seqZ (a + io_offset io) chunk ++ rest (advance chunk io)) as Hr.
  { unfold rest. cbn [advance io_index io_offset]. change (vectors (advance chunk io)) with (vectors io). rewrite Hd, E. cbn [rest_from].
    replace (n - io_offset io) with (chunk + (n - io_offset io - chunk)) by lia. rewrite seqZ_app, <- app_assoc by lia.
    do 3 f_equal; lia. }
  assert (io_total io + chunk + zlen (rest (advance chunk io)) = io_length io) as Htot.
  { rewrite Hr, zlen_app in Ht. unfold zlen at 1 in Ht. rewrite length_seqZ in Ht. lia. }
  pose proof (zlen_nonneg (rest (advance chunk io))).
  assert (u32 (io_total io + chunk) = io_total io + chunk) as Et by (apply u32_small; unfold is_u32; lia).
  split; [|split; [exact Hr|split; [exact Et|by split]]].
  constructor; try done; cbn [advance io_index io_count io_offset io_length io_total io_vectors] in *; rewrite ?E, ?Et.
  - left. change (vector_at (advance chunk io)) with (vector_at io). rewrite Hva. cbn [snd]. lia.
  - change (rest _) with (rest (advance chunk io)). lia.
Qed.

(** ** The copying loop *)
Section Copy.
Context {W : Type} `{Layout}.
Implicit Types k : K W.

Lemma same_request_refl io : same_request io io.
Proof. by split_and!. Qed.
Lemma same_request_trans a b c : same_request a b -> same_request b c -> same_request a c.
Proof. intros (? & ? & ? & ? & ? & ?) (? & ? & ? & ? & ? & ?). split_and!; congruence. Qed.
Lemma take_seqZ_app a c n l : 0 <= c <= n -> take (Z.to_nat n) (seqZ a c ++ l) = seqZ a c ++ take (Z.to_nat (n - c)) l.
Proof. intros Hc. rewrite take_app_ge by (rewrite length_seqZ; lia). rewrite length_seqZ. do 2 f_equal. lia. Qed.
Lemma drop_seqZ_app a c n l : 0 <= c <= n -> drop (Z.to_nat n) (seqZ a c ++ l) = drop (Z.to_nat (n - c)) l.
Proof. intros Hc. rewrite drop_app_ge by (rewrite length_seqZ; lia). rewrite length_seqZ. f_equal. lia. Qed.

(** The bounds of one chunk. *)
Definition chunk_of (available pos n offset : Z) : Z :=
  let chunk := u32 (n - offset) in
  let chunk := if available <? chunk then available else chunk in
  if PIPE_SIZE - pos <? chunk then PIPE_SIZE - pos else chunk.
Lemma chunk_bounds available pos n offset : 0 < available -> 0 <= pos < PIPE_SIZE -> 0 <= offset <= n -> n < 2 ^ 31 -> offset <> n ->
  0 < chunk_of available pos n offset <= n - offset /\ chunk_of available pos n offset <= available /\ chunk_of available pos n offset <= PIPE_SIZE - pos.
Proof.
  intros Ha Hp Ho Hn Hne. unfold chunk_of. rewrite u32_small by (unfold is_u32; lia). cbv zeta.
  destruct (Z.ltb_spec available (n - offset)); repeat match goal with |- context [?a <? ?b] => destruct (Z.ltb_spec a b) end; lia.
Qed.
Lemma chunk_inside m a n offset chunk : vector_ok m (a, n) -> running m -> 0 <= offset -> 0 < chunk <= n - offset ->
  u32 (a + offset) = a + offset /\ inside m (a + offset) chunk.
Proof.
  intros (Ha & Hn & Hin) Hr Ho Hc. cbn [fst snd] in *. unfold inside in *. specialize (Hin ltac:(lia)).
  destruct (running_base m Hr) as (_ & ? & ?). pose proof (running_top m Hr). split; [apply u32_small; unfold is_u32 in *; lia|lia].
Qed.

Lemma copy_write fuel : forall available io p k, running (mem k) -> io_ok (mem k) io -> io_writing io = true -> pipe_ok p ->
  0 <= available <= zlen (rest io) -> pipe_used p + available <= PIPE_SIZE -> io_count io - io_index io + available < Z.of_nat fuel ->
  exists io' p', copy_loop fuel available io p k = (Ret (io', p'), k) /\
    io_ok (mem k) io' /\ same_request io io' /\ rest io' = drop (Z.to_nat available) (rest io) /\ io_total io' = io_total io + available /\
    pipe_ok p' /\ same_ends p p' /\ pipe_used p' = pipe_used p + available /\
    contents p' = contents p ++ map (user_byte (mem k)) (take (Z.to_nat available) (rest io)).
Proof.
  induction fuel as [|fuel IH]; intros available io p k Hr Hio Hw Hp Hav Hfit Hf.
  { pose proof (io_count_range _ _ Hio). lia. }
  cbn [copy_loop]. destruct (Z.eqb_spec available 0) as [->|Hnz].
  { exists io, p. split; [done|]. split; [done|]. split; [apply same_request_refl|]. split; [done|]. split; [lia|]. split; [done|].
    split; [done|]. split; [lia|]. cbn [take map]. by rewrite app_nil_r. }
  destruct (rest_view _ _ Hio ltac:(lia)) as (a & n & l & Hd & Hva & Hlt & Hvok & Ho). rewrite Hva. destruct (Z.eqb_spec (io_offset io) n) as [En|En].
  { destruct (next_io_ok _ _ _ _ _ Hio Hd Hlt En) as (Hio1 & Hr1 & Hs1).
    destruct (IH available (next_vector io) p k Hr Hio1) as (io' & p' & -> & Hio' & Hs' & Hrest & Ht & ?); try done; [by rewrite Hr1| |].
    - pose proof (io_count_range _ _ Hio) as [? ?]. unfold IOV_MAX in *. cbn [next_vector io_count io_index]. rewrite u32_small by (unfold is_u32; lia). lia.
    - exists io', p'. rewrite Hr1 in *. split; [done|]. split; [done|]. split; [by eapply same_request_trans|]. done. }
  pose proof (pipe_used_range p Hp) as Hu. pose proof (Z.mod_pos_bound (pipe_head p + pipe_used p) PIPE_SIZE ltac:(unfold PIPE_SIZE; lia)) as Hpos.
  set (pos := (pipe_head p + pipe_used p) mod PIPE_SIZE) in *.
  pose proof Hvok as (_ & Hn31 & _). cbn [snd] in Hn31. rewrite Hw. cbv zeta. fold (chunk_of available pos n (io_offset io)).
  destruct (chunk_bounds available pos n (io_offset io) ltac:(lia) Hpos Ho ltac:(lia) En) as (Hc & Hca & Hcp).
  set (chunk := chunk_of available pos n (io_offset io)) in *.
  destruct (chunk_inside _ _ _ _ _ Hvok Hr (proj1 Ho) Hc) as [Eu Hins]. rewrite Eu. unfold mbind, km_bind.
  rewrite load_spec by (done || rewrite Z2Nat.id by lia; done). rewrite Z2Nat.id by lia.
  set (bs := map _ _). assert (zlen bs = chunk) as Hbs by (unfold bs, zlen; rewrite length_map, length_seqZ; lia).
  destruct (advance_io_ok _ _ _ _ _ chunk Hio Hd Hva Hvok (proj1 Ho) Hc) as (Hio1 & Hr1 & Ht1 & Hs1).
  destruct (pipe_put_contents p bs Hp) as (Hp1 & Hc1 & Hu1); [fold pos; lia|lia|]. fold pos in Hp1, Hc1, Hu1.
  assert (zlen (rest (advance chunk io)) = zlen (rest io) - chunk) as Hz1 by (rewrite Hr1, zlen_app; unfold zlen at 2; rewrite length_seqZ; lia).
  destruct (IH (available - chunk) (advance chunk io) (pipe_put pos bs p) k Hr Hio1) as (io' & p' & -> & Hio' & Hs' & Hrest & Ht & Hp' & He' & Hu' & Hc');
    try done; [lia|lia|cbn [advance io_count io_index]; lia|].
  exists io', p'. split; [done|]. split; [done|]. split; [by eapply same_request_trans|].
  split; [rewrite Hrest, Hr1; symmetry; apply drop_seqZ_app; lia|]. split; [lia|]. split; [done|]. split; [exact He'|]. split; [lia|].
  rewrite Hc', Hc1, Hr1, take_seqZ_app, map_app, app_assoc by lia. done.
Qed.

Lemma with_mem_twice k m1 m2 : with_mem (with_mem k m1) m2 = with_mem k m2.
Proof. done. Qed.
Lemma zip_app_eq {A B} (a1 a2 : list A) (b1 b2 : list B) : length a1 = length b1 -> zip (a1 ++ a2) (b1 ++ b2) = zip a1 b1 ++ zip a2 b2.
Proof. revert b1. induction a1 as [|a a1 IH]; intros [|b b1] Hl; cbn in *; try done. by rewrite IH by lia. Qed.

Lemma copy_read fuel : forall available io p k, running (mem k) -> io_ok (mem k) io -> io_writing io = false -> pipe_ok p ->
  0 <= available <= zlen (rest io) -> available <= pipe_used p -> io_count io - io_index io + available < Z.of_nat fuel ->
  exists io' p', copy_loop fuel available io p k =
      (Ret (io', p'), with_mem k (put_all (mem k) (zip (take (Z.to_nat available) (rest io)) (take (Z.to_nat available) (contents p))))) /\
    io_ok (mem k) io' /\ same_request io io' /\ rest io' = drop (Z.to_nat available) (rest io) /\ io_total io' = io_total io + available /\
    pipe_ok p' /\ same_ends p p' /\ pipe_used p' = pipe_used p - available /\ contents p' = drop (Z.to_nat available) (contents p).
Proof.
  induction fuel as [|fuel IH]; intros available io p k Hr Hio Hw Hp Hav Hfit Hf.
  { pose proof (io_count_range _ _ Hio). lia. }
  cbn [copy_loop]. destruct (Z.eqb_spec available 0) as [->|Hnz].
  { exists io, p. split; [by destruct k|]. split; [done|]. split; [apply same_request_refl|]. split; [done|]. split; [lia|]. split; [done|].
    split; [done|]. split; [lia|]. done. }
  destruct (rest_view _ _ Hio ltac:(lia)) as (a & n & l & Hd & Hva & Hlt & Hvok & Ho). rewrite Hva. destruct (Z.eqb_spec (io_offset io) n) as [En|En].
  { destruct (next_io_ok _ _ _ _ _ Hio Hd Hlt En) as (Hio1 & Hr1 & Hs1).
    destruct (IH available (next_vector io) p k Hr Hio1) as (io' & p' & -> & Hio' & Hs' & Hrest & Ht & ?); try done; [by rewrite Hr1| |].
    - pose proof (io_count_range _ _ Hio) as [? ?]. unfold IOV_MAX in *. cbn [next_vector io_count io_index]. rewrite u32_small by (unfold is_u32; lia). lia.
    - exists io', p'. rewrite Hr1 in *. split; [done|]. split; [done|]. split; [by eapply same_request_trans|]. done. }
  pose proof (pipe_head_range p Hp) as Hpos.
  pose proof Hvok as (_ & Hn31 & _). cbn [snd] in Hn31. rewrite Hw. cbv zeta. fold (chunk_of available (pipe_head p) n (io_offset io)).
  destruct (chunk_bounds available (pipe_head p) n (io_offset io) ltac:(lia) Hpos Ho ltac:(lia) En) as (Hc & Hca & Hcp).
  set (chunk := chunk_of available (pipe_head p) n (io_offset io)) in *.
  destruct (chunk_inside _ _ _ _ _ Hvok Hr (proj1 Ho) Hc) as [Eu Hins]. rewrite Eu. unfold mbind, km_bind.
  set (bs := take (Z.to_nat chunk) (drop (Z.to_nat (pipe_head p)) (pipe_data p))).
  destruct (pipe_take_contents p chunk Hp) as (Hp1 & Hu1 & Hc1); [lia|lia|lia|]. fold bs in Hc1.
  assert (zlen bs = chunk) as Hbs.
  { unfold bs, zlen. rewrite length_take, length_drop. pose proof (pipe_data_length p Hp). unfold PIPE_SIZE in *. lia. }
  rewrite store_spec by (done || by rewrite Hbs). rewrite Hbs.
  destruct (advance_io_ok _ _ _ _ _ chunk Hio Hd Hva Hvok (proj1 Ho) Hc) as (Hio1 & Hr1 & Ht1 & Hs1).
  assert (zlen (rest (advance chunk io)) = zlen (rest io) - chunk) as Hz1 by (rewrite Hr1, zlen_app; unfold zlen at 2; rewrite length_seqZ; lia).
  destruct (IH (available - chunk) (advance chunk io) (pipe_take (pipe_head p) chunk p) (with_mem k (put_all (mem k) (zip (seqZ (a + io_offset io) chunk) bs))))
    as (io' & p' & -> & Hio' & Hs' & Hrest & Ht & Hp' & He' & Hu' & Hc');
    try done; [by apply put_all_running|by apply io_ok_put|lia|lia|cbn [advance io_count io_index]; lia|].
  exists io', p'. split.
  - rewrite with_mem_twice. cbn [mem with_mem]. rewrite <- put_all_app. do 3 f_equal. rewrite Hr1, Hc1, take_seqZ_app by lia.
    rewrite (take_app_ge bs) by (unfold zlen in Hbs; lia). rewrite zip_app_eq by (rewrite length_seqZ; unfold zlen in Hbs; lia).
    do 2 f_equal. f_equal. unfold zlen in Hbs. lia.
  - split.
    { destruct Hio' as [? ? Hv ? ? ?]. constructor; try done. eapply Forall_impl; [exact Hv|]. intros an. cbn [mem with_mem]. by rewrite vector_ok_put. }
    split; [by eapply same_request_trans|].
    split; [rewrite Hrest, Hr1; symmetry; apply drop_seqZ_app; lia|]. split; [lia|]. split; [done|]. split; [exact He'|]. split; [lia|].
    rewrite Hc', Hc1. rewrite (drop_app_ge bs) by (unfold zlen in Hbs; lia). f_equal. unfold zlen in Hbs. lia.
Qed.
End Copy.

(** ** Resuming a transfer

    The abstract pipe is a queue [q] of at most 4096 bytes, open or not at
    its other end.  A request of [length] bytes of which [left] are left moves [moved]
    bytes now: writes of at most 4096 bytes all at once or not at all. *)
Definition moved (writing other_end : bool) (queued length left : Z) : Z :=
  if writing then
    if negb other_end then 0
    else if (length <=? PIPE_SIZE) && (PIPE_SIZE - queued <? length) then 0
    else Z.min (PIPE_SIZE - queued) left
  else Z.min queued left.
(** The result for the user, or the request to wait. *)
Definition outcome (writing other_end nonblock : bool) (queued length total n : Z) : Z :=
  if writing && negb other_end then LINUX_IO_SIGPIPE
  else if negb writing && (queued =? 0) && negb other_end then 0
  else if n =? 0 then (if nonblock then (if total =? 0 then - EAGAIN else total) else LINUX_IO_WAIT)
  else if writing && (total + n <? length) && negb nonblock then LINUX_IO_WAIT
  else total + n.

Section Resume.
Context {W : Type} `{Layout}.
Implicit Types k : K W.

(** The current task has a transfer pending on a pipe. *)
Record pending k (d pn : nat) : Prop := {
  pending_running : running (mem k);
  pending_slot : (file_task (files k) < length (pending_io (files k)))%nat;
  pending_file : get_file (files k) (io_fd (io_at (files k) (file_task (files k)))) = Some d;
  pending_pipe : file_pipe (description (files k) d) = Some pn;
  pending_pipe_range : (pn < length (pipes (files k)))%nat;
  pending_pipe_ok : pipe_ok (pipe_at (files k) pn);
  pending_io_ok : io_ok (mem k) (io_at (files k) (file_task (files k)));
  pending_left : 0 < zlen (rest (io_at (files k) (file_task (files k)))) }.

Definition transferred k k' (pn : nat) (n : Z) : Prop :=
  let f := files k in let f' := files k' in let slot := file_task f in
  let io := io_at f slot in let io' := io_at f' slot in
  pipe_ok (pipe_at f' pn) /\ same_ends (pipe_at f pn) (pipe_at f' pn) /\
  io_total io' = io_total io + n /\ rest io' = drop (Z.to_nat n) (rest io) /\ io_writing io' = io_writing io /\
  io_fd io' = io_fd io /\ io_length io' = io_length io /\ io_ok (mem k) io' /\
  (forall i, i <> pn -> pipe_at f' i = pipe_at f i) /\ (forall s, s <> slot -> io_at f' s = io_at f s) /\
  descriptions f' = descriptions f /\ task_files f' = task_files f /\ task_flags f' = task_flags f /\ file_task f' = slot /\
  length (pipes f') = length (pipes f) /\ length (pending_io f') = length (pending_io f) /\
  sched k' = sched k /\ regs k' = regs k /\ exec k' = exec k /\ world k' = world k /\
  if io_writing io then
    contents (pipe_at f' pn) = contents (pipe_at f pn) ++ map (user_byte (mem k)) (take (Z.to_nat n) (rest io)) /\ mem k' = mem k
  else
    contents (pipe_at f' pn) = drop (Z.to_nat n) (contents (pipe_at f pn)) /\
    mem k' = put_all (mem k) (zip (take (Z.to_nat n) (rest io)) (take (Z.to_nat n) (contents (pipe_at f pn)))).

Lemma io_at_put f slot io s : (slot < length (pending_io f))%nat -> io_at (put_io slot io f) s = if decide (s = slot) then io else io_at f s.
Proof.
  intros Hs. unfold io_at, put_io. cbn [pending_io]. rewrite !nth_lookup. destruct (decide (s = slot)) as [->|Hne].
  - by rewrite list_lookup_insert_eq.
  - by rewrite list_lookup_insert_ne.
Qed.
Lemma pipe_at_put f pn p i : (pn < length (pipes f))%nat -> pipe_at (put_pipe pn p f) i = if decide (i = pn) then p else pipe_at f i.
Proof.
  intros Hs. unfold pipe_at, put_pipe. cbn [pipes]. rewrite !nth_lookup. destruct (decide (i = pn)) as [->|Hne].
  - by rewrite list_lookup_insert_eq.
  - by rewrite list_lookup_insert_ne.
Qed.
Lemma io_done_eq slot r k : io_done slot r k = (Ret r, with_files k (put_io slot (set_active false (io_at (files k) slot)) (files k))).
Proof. done. Qed.

Lemma not_moved k d pn (b : bool) : pending k d pn ->
  transferred k (if b then with_files k (put_io (file_task (files k)) (set_active false (io_at (files k) (file_task (files k)))) (files k)) else k) pn 0.
Proof.
  intros [Hr Hsl _ _ Hpn Hp Hio _]. assert (io_ok (mem k) (set_active false (io_at (files k) (file_task (files k))))) as Hio' by (by destruct Hio). unfold transferred. destruct b.
  - cbv zeta. cbn [files with_files]. rewrite io_at_put by done. rewrite decide_True by done.
    split; [done|]. split; [done|]. split; [cbn; lia|]. do 6 (split; [done|]). split; [intros s Hs; rewrite io_at_put by done; by rewrite decide_False|].
    do 5 (split; [done|]). split; [apply length_insert|]. do 4 (split; [done|]). destruct (io_writing _); cbn [take map drop Z.to_nat zip zip_with]; [by rewrite app_nil_r|done].
  - cbv zeta. split; [done|]. split; [done|]. split; [lia|]. do 17 (split; [done|]). destruct (io_writing _); [|done]. cbn [take map Z.to_nat]. by rewrite app_nil_r.
Qed.
Lemma rest_fuel io available : 0 <= io_index io <= io_count io -> 0 <= available ->
  io_count io - io_index io + available < Z.of_nat (copy_fuel io available).
Proof. intros Hi Ha. unfold copy_fuel. lia. Qed.

(** The state after a copy that ends with [io'] and [p']; [b]: no longer pending. *)
Definition after_copy k (m : Memory) (pn : nat) (io' : PipeIo) (p' : Pipe) (b : bool) : K W :=
  let f2 := put_pipe pn p' (put_io (file_task (files k)) io' (files k)) in
  with_files (with_mem k m) (if b then put_io (file_task (files k)) (set_active false (io_at f2 (file_task (files k)))) f2 else f2).
Lemma after_copy_transferred k d pn m io' p' b n : pending k d pn ->
  let io := io_at (files k) (file_task (files k)) in let p := pipe_at (files k) pn in
  same_request io io' -> rest io' = drop (Z.to_nat n) (rest io) -> io_total io' = io_total io + n -> io_ok (mem k) io' -> pipe_ok p' -> same_ends p p' ->
  (if io_writing io then contents p' = contents p ++ map (user_byte (mem k)) (take (Z.to_nat n) (rest io)) /\ m = mem k
   else contents p' = drop (Z.to_nat n) (contents p) /\ m = put_all (mem k) (zip (take (Z.to_nat n) (rest io)) (take (Z.to_nat n) (contents p)))) ->
  transferred k (after_copy k m pn io' p' b) pn n /\ (b = true -> io_active (io_at (files (after_copy k m pn io' p' b)) (file_task (files k))) = false).
Proof.
  intros [Hr Hsl _ _ Hpn Hp Hio _] io p (Ha & Hw & Hfd & Hlen & _) Hrest Htot Hok Hp' He Hc. unfold after_copy.
  set (f2 := put_pipe pn p' (put_io (file_task (files k)) io' (files k))).
  assert (forall s, io_at f2 s = if decide (s = file_task (files k)) then io' else io_at (files k) s) as Eio
    by (intros s; unfold f2; change (io_at (put_pipe ?a ?b ?f) s) with (io_at f s); by apply io_at_put).
  assert (forall i, pipe_at f2 i = if decide (i = pn) then p' else pipe_at (files k) i) as Ep
    by (intros i; unfold f2; rewrite pipe_at_put; [done|exact Hpn]).
  assert (length (pending_io f2) = length (pending_io (files k))) as El by (unfold f2; cbn; by rewrite length_insert).
  assert (io_ok (mem k) (set_active false io')) as Hok' by (by destruct Hok).
  unfold transferred. cbv zeta. cbn [files mem with_files with_mem]. destruct b.
  - split; [|intros _; rewrite io_at_put by lia; by rewrite decide_True].
    change (pipe_at (put_io ?a ?b ?f)) with (pipe_at f). rewrite !io_at_put by lia. rewrite !Ep, !decide_True, Eio, decide_True by done.
    split_and!; try done.
    + intros i Hi. rewrite Ep. by rewrite decide_False.
    + intros s Hs. rewrite io_at_put by lia. rewrite decide_False by done. rewrite Eio. by rewrite decide_False.
    + apply length_insert.
    + cbn. by rewrite length_insert.
  - split; [|done]. rewrite Ep, Eio, !decide_True by done. split_and!; try done.
    + intros i Hi. rewrite Ep. by rewrite decide_False.
    + intros s Hs. rewrite Eio. by rewrite decide_False.
    + apply length_insert.
Qed.

Lemma pending_total k d pn : pending k d pn -> s32 (io_total (io_at (files k) (file_task (files k)))) = io_total (io_at (files k) (file_task (files k))).
Proof.
  intros [_ _ _ _ _ _ Hio Hleft]. pose proof (io_total_rest _ _ Hio). pose proof (io_length_short _ _ Hio). apply s32_small. lia.
Qed.
Definition settled k (r : Z) k' : Prop :=
  (r <> LINUX_IO_WAIT -> io_active (io_at (files k') (file_task (files k))) = false).
Lemma resume_blocked k d pn (nb : bool) : pending k d pn ->
  let slot := file_task (files k) in let total := io_total (io_at (files k) slot) in
  let r := if nb then (if total =? 0 then - EAGAIN else total) else LINUX_IO_WAIT in
  exists k', (if negb nb then mret LINUX_IO_WAIT else io_done slot (if truth total then s32 total else - EAGAIN)) k = (Ret r, k') /\
    transferred k k' pn 0 /\ settled k r k' /\ (r = LINUX_IO_WAIT -> k' = k).
Proof.
  intros Hp slot total r. pose proof (not_moved k d pn nb Hp) as N. destruct nb; cbn [negb].
  - eexists. split; [rewrite io_done_eq|split; [exact N|split]].
    + unfold r, total, slot. rewrite (pending_total _ _ _ Hp). unfold truth. by destruct (io_total _ =? 0).
    + intros _. cbn [files with_files]. rewrite io_at_put by apply (pending_slot _ _ _ Hp). by rewrite decide_True.
    + unfold r, EAGAIN, LINUX_IO_WAIT, total. pose proof (io_total_rest _ _ (pending_io_ok _ _ _ Hp)). destruct (_ =? 0); intros; exfalso; unfold slot in *; lia.
  - exists k. split; [done|]. split; [exact N|]. split; [by intros []|done].
Qed.
Lemma resume_done k d pn r : pending k d pn ->
  exists k', io_done (file_task (files k)) r k = (Ret r, k') /\ transferred k k' pn 0 /\ settled k r k'.
Proof.
  intros Hp. eexists. split; [apply io_done_eq|]. split; [exact (not_moved k d pn true Hp)|].
  intros _. cbn [files with_files]. rewrite io_at_put by apply (pending_slot _ _ _ Hp). by rewrite decide_True.
Qed.
Lemma resume_moved k d pn m io' p' n (nb : bool) : pending k d pn ->
  let slot := file_task (files k) in let io := io_at (files k) slot in let p := pipe_at (files k) pn in
  same_request io io' -> rest io' = drop (Z.to_nat n) (rest io) -> io_total io' = io_total io + n -> io_ok (mem k) io' -> 0 < n <= zlen (rest io) -> pipe_ok p' -> same_ends p p' ->
  (if io_writing io then contents p' = contents p ++ map (user_byte (mem k)) (take (Z.to_nat n) (rest io)) /\ m = mem k
   else contents p' = drop (Z.to_nat n) (contents p) /\ m = put_all (mem k) (zip (take (Z.to_nat n) (rest io)) (take (Z.to_nat n) (contents p)))) ->
  let r := if io_writing io && (io_total io + n <? io_length io) && negb nb then LINUX_IO_WAIT else io_total io + n in
  exists k', (f ← get files; put_files (put_pipe pn p' (put_io slot io' f));;
    if io_writing io' && (io_total io' <? io_length io') && negb nb then mret LINUX_IO_WAIT else io_done slot (s32 (io_total io'))) (with_mem k m) = (Ret r, k') /\
    transferred k k' pn n /\ settled k r k'.
Proof.
  intros Hp slot io p Hs Hrest Ht Hok Hn Hp' He Hc r. pose proof Hs as (_ & Ew & _ & El & _).
  pose proof (io_total_rest _ _ (pending_io_ok _ _ _ Hp)) as Htr. pose proof (io_length_short _ _ (pending_io_ok _ _ _ Hp)) as Hl31. fold slot io in Htr, Hl31.
  pose proof (after_copy_transferred k d pn m io' p') as HA. fold slot io p in HA. unfold mbind, km_bind, get, put_files.
  cbn [files mem with_mem sched exec regs world]. rewrite Ew, El, Ht. unfold r. destruct (io_writing io && (io_total io + n <? io_length io) && negb nb).
  - exists (after_copy k m pn io' p' false). split; [done|]. split; [apply (HA false n Hp Hs Hrest Ht Hok Hp' He Hc)|by intros []].
  - exists (after_copy k m pn io' p' true). destruct (HA true n Hp Hs Hrest Ht Hok Hp' He Hc) as [HT HF]. split; [|split; [exact HT|]].
    + rewrite io_done_eq. rewrite s32_small by lia. done.
    + intros _. by apply HF.
Qed.

(** How many bytes the pending transfer moves, and what it returns. *)
Definition to_move k (pn : nat) : Z :=
  let f := files k in let io := io_at f (file_task f) in let p := pipe_at f pn in
  moved (io_writing io) (truth (if io_writing io then readers p else writers p)) (pipe_used p) (io_length io) (zlen (rest io)).
Definition resume_result k (d pn : nat) : Z :=
  let f := files k in let io := io_at f (file_task f) in let p := pipe_at f pn in
  outcome (io_writing io) (truth (if io_writing io then readers p else writers p)) (nonblocking (description f d)) (pipe_used p) (io_length io) (io_total io) (to_move k pn).
Lemma resume_spec k d pn : pending k d pn ->
  exists k', linux_io_resume k = (Ret (resume_result k d pn), k') /\ transferred k k' pn (to_move k pn) /\
    (resume_result k d pn <> LINUX_IO_WAIT -> io_active (io_at (files k') (file_task (files k))) = false) /\
    (to_move k pn = 0 -> resume_result k d pn = LINUX_IO_WAIT -> k' = k).
Proof.
  intros Hpend. pose proof Hpend as [Hr Hsl Hfile Hpipe Hpn Hp Hio Hleft]. unfold resume_result, to_move. cbv zeta.
  pose proof (resume_blocked k d pn (nonblocking (description (files k) d)) Hpend) as RB. pose proof (resume_done k d pn) as RD. cbv zeta in RB.
  pose proof (fun m io' p' n => resume_moved k d pn m io' p' n (nonblocking (description (files k) d)) Hpend) as RM. cbv zeta in RM.
  set (f := files k) in *. set (io := io_at f (file_task f)) in *. set (p := pipe_at f pn) in *.
  pose proof (pipe_used_range p Hp) as Hu. pose proof (io_total_rest _ _ Hio) as [Ht Ht0]. pose proof (io_length_short _ _ Hio) as Hl31.
  pose proof (io_count_range _ _ Hio) as [Hidx _].
  unfold linux_io_resume. unfold mbind at 1, km_bind at 1, get at 1. fold f io. rewrite Hfile, Hpipe. fold p. cbv zeta.
  assert (u32 (io_length io - io_total io) = zlen (rest io)) as Erem by (rewrite u32_small by (unfold is_u32; lia); lia).
  rewrite Erem. unfold moved, outcome. destruct (io_writing io) eqn:Ew; cbn [andb negb].
  - destruct (truth (readers p)) eqn:Erd; cbn [negb].
    2:{ destruct (RD LINUX_IO_SIGPIPE Hpend) as (k' & E & T & S). exists k'. split_and!; [exact E|exact T|exact S|done]. }
    rewrite (u32_small (PIPE_SIZE - pipe_used p)) by (unfold is_u32, PIPE_SIZE in *; lia). set (space := PIPE_SIZE - pipe_used p) in *.
    destruct (Z.eqb_spec space 0) as [Es|Es].
    { destruct RB as (k' & E & T & S & F). exists k'. cbn [orb].
      replace (if (io_length io <=? PIPE_SIZE) && (space <? io_length io) then 0 else Z.min space (zlen (rest io))) with 0 by (destruct (_ && _); lia).
      split_and!; [exact E|exact T|exact S|intros _; exact F]. }
    cbn [orb]. destruct ((io_length io <=? PIPE_SIZE) && (space <? io_length io)) eqn:Ea.
    { destruct RB as (k' & E & T & S & F). exists k'. split_and!; [exact E|exact T|exact S|intros _; exact F]. }
    replace (if zlen (rest io) <? space then zlen (rest io) else space) with (Z.min space (zlen (rest io))) by (destruct (Z.ltb_spec (zlen (rest io)) space); lia).
    set (n := Z.min space (zlen (rest io))). zfalse (n =? 0).
    destruct (copy_write (copy_fuel io n) n io p k Hr Hio Ew Hp ltac:(lia) ltac:(lia) (rest_fuel io n Hidx ltac:(lia)))
      as (io' & p' & E & Hio' & Hs & Hrest & Ht' & Hp' & He & _ & Hc).
    unfold mbind at 1, km_bind at 1. rewrite E.
    destruct (RM (mem k) io' p' n Hs Hrest Ht' Hio' ltac:(lia) Hp' He (conj Hc eq_refl)) as (k' & E' & T & S).
    exists k'. split_and!; [by destruct k|exact T|exact S|lia].
  - destruct ((pipe_used p =? 0) && negb (truth (writers p))) eqn:Eeof.
    { apply andb_true_iff in Eeof as [Eu Ewr]. assert (negb (truth (pipe_used p)) = true) as -> by (unfold truth; by rewrite Eu). rewrite Ewr. cbn [andb].
      destruct (RD 0 Hpend) as (k' & E & T & S). exists k'. apply Z.eqb_eq in Eu. rewrite Eu, Z.min_l by lia. split_and!; [exact E|exact T|exact S|done]. }
    assert (negb (truth (pipe_used p)) && negb (truth (writers p)) = false) as -> by (unfold truth in *; by rewrite negb_involutive).
    rewrite orb_false_r. destruct (Z.eqb_spec (pipe_used p) 0) as [Eu|Eu].
    { destruct RB as (k' & E & T & S & F). exists k'. rewrite Eu, Z.min_l by lia. split_and!; [exact E|exact T|exact S|intros _; exact F]. }
    replace (if zlen (rest io) <? pipe_used p then zlen (rest io) else pipe_used p) with (Z.min (pipe_used p) (zlen (rest io))) by (destruct (Z.ltb_spec (zlen (rest io)) (pipe_used p)); lia).
    set (n := Z.min (pipe_used p) (zlen (rest io))). zfalse (n =? 0).
    destruct (copy_read (copy_fuel io n) n io p k Hr Hio Ew Hp ltac:(lia) ltac:(lia) (rest_fuel io n Hidx ltac:(lia)))
      as (io' & p' & E & Hio' & Hs & Hrest & Ht' & Hp' & He & _ & Hc).
    unfold mbind at 1, km_bind at 1. rewrite E.
    destruct (RM (put_all (mem k) (zip (take (Z.to_nat n) (rest io)) (take (Z.to_nat n) (contents p)))) io' p' n Hs Hrest Ht' Hio' ltac:(lia) Hp' He (conj Hc eq_refl)) as (k' & E' & T & S).
    exists k'. split_and!; [exact E'|exact T|exact S|lia].
Qed.
(** C14: a pipe is a queue: resuming a transfer appends the next bytes of the user's
    vectors to the queue, or moves its first bytes to the user, as many as [moved] says and
    in order; it touches no other pipe, transfer or descriptor, ends within its fuel without a fault, and
    returns what [outcome] says; unless it has to wait it is no longer pending. *)
Theorem io_resume_queue k d pn : pending k d pn ->
  let f := files k in let io := io_at f (file_task f) in let p := pipe_at f pn in
  let other_end := truth (if io_writing io then readers p else writers p) in
  let n := moved (io_writing io) other_end (pipe_used p) (io_length io) (zlen (rest io)) in
  let r := outcome (io_writing io) other_end (nonblocking (description f d)) (pipe_used p) (io_length io) (io_total io) n in
  exists k', linux_io_resume k = (Ret r, k') /\ transferred k k' pn n /\
    (r <> LINUX_IO_WAIT -> io_active (io_at (files k') (file_task f)) = false) /\ (n = 0 -> r = LINUX_IO_WAIT -> k' = k).
Proof. exact (resume_spec k d pn). Qed.
End Resume.

(** ** A pipe between two descriptors of one program *)
Existing Instance sample_layout.
Definition sample_files : Files :=
  match new_pipe 0 linux_syscall_reset with
  | inr (fd0, fd1, f) =>
      put_io 0 (set_vectors [(0x08048000, 3); (0x08049000, 2)] 5 true (start_io no_io fd1 2 true)) f
  | inl _ => linux_syscall_reset
  end.
Definition no_tasks : Tasks := {| tasks := []; current := 0; next_pid := 2; root_status := 0 |}.
Definition no_plan : ElfPlan := {| entry := 0; base := 0; stack_top := 0; phoff := 0; phnum := 0; phdr := 0; legacy := false; segments := [] |}.
Definition no_exec : Exec :=
  {| staged := {| plan := no_plan; staged_strings := []; exec_path := replicate 128 0; offsets := replicate 128 0; argc := 0; envc := 0 |};
     exec_active := true; pending_entry := 0; pending_stack := 0 |}.
Definition no_regs : LinuxTrapFrame :=
  {| edi := 0; esi := 0; ebp := 0; saved_esp := 0; ebx := 0; edx := 0; ecx := 0; eax := 0; gs := 0; fs := 0; es := 0; ds := 0; eip := 0; cs := 0; eflags := 0; user_esp := 0; ss := 0 |}.
Definition sample_kernel : K unit := Build_K program_memory sample_files no_tasks no_exec no_regs tt.
Lemma sample_pending : pending sample_kernel 4 0.
Proof.
  constructor.
  - exact program_running.
  - vm_compute. lia.
  - vm_compute. reflexivity.
  - vm_compute. reflexivity.
  - vm_compute. lia.
  - constructor; vm_compute; [done|split; done|split; done].
  - constructor.
    + vm_compute. split_and!; done.
    + vm_compute. done.
    + change (vectors _) with [(0x08048000, 3); (0x08049000, 2)]. apply Forall_cons; split; [|apply Forall_cons; split; [|apply Forall_nil; done]].
      all: split; [cbn [fst]; unfold is_u32; lia|split; [cbn [snd]; lia|intros _; vm_compute; done]].
    + left. vm_compute. split; done.
    + split; [vm_compute; reflexivity|vm_compute; done].
    + vm_compute. done.
  - vm_compute. done.
Qed.
Lemma io_resume_queue_witness :
  exists k', linux_io_resume sample_kernel = (Ret 5, k') /\ transferred sample_kernel k' 0 5 /\
    (5 <> LINUX_IO_WAIT -> io_active (io_at (files k') 0) = false) /\ (5 = 0 -> 5 = LINUX_IO_WAIT -> k' = sample_kernel).
Proof. apply (io_resume_queue sample_kernel 4 0). exact sample_pending. Defined.
