(* ===== verification/LinuxRefs.v ===== *)
(** * Reference counts of open files and pipe ends

    A description counts the descriptors of all tasks that name it, a pipe
    the open descriptions at each of its ends. *)
From S2P Require Import Prelude CString LinuxMemory LinuxKernel LinuxFiles LinuxPipes.

(** ** Counting *)
Definition count {A} (P : A -> bool) (l : list A) : Z := zlen (List.filter P l).
Lemma count_cons {A} (P : A -> bool) x l : count P (x :: l) = c_bool (P x) + count P l.
Proof. unfold count. cbn [List.filter]. destruct (P x); [by rewrite zlen_cons|done]. Qed.
Lemma count_insert {A} (P : A -> bool) l i old new : l !! i = Some old ->
  count P (<[i := new]> l) = count P l - c_bool (P old) + c_bool (P new).
Proof.
  revert i. induction l as [|x l IH]; intros i Hi; [done|]. destruct i as [|i].
  - injection Hi as ->. change (<[0%nat := new]> (old :: l)) with (new :: l). rewrite !count_cons. lia.
  - change (<[S i := new]> (x :: l)) with (x :: <[i := new]> l). rewrite !count_cons, (IH i Hi). lia.
Qed.
Lemma count_bounds {A} (P : A -> bool) l : 0 <= count P l <= zlen l.
Proof. induction l as [|x l IH]; [done|]. rewrite count_cons, zlen_cons. destruct (P x); cbn [c_bool]; lia. Qed.
Lemma count_zero {A} (P : A -> bool) l : count P l = 0 -> Forall (fun x => P x = false) l.
Proof.
  induction l as [|x l IH]; [constructor|]. rewrite count_cons. pose proof (count_bounds P l). intros E.
  destruct (P x) eqn:Ex; cbn [c_bool] in E; [lia|]. constructor; [done|]. apply IH. lia.
Qed.
Lemma count_pos {A} (P : A -> bool) l x : x ∈ l -> P x = true -> 0 < count P l.
Proof.
  intros Hin Hx. pose proof (count_bounds P l) as Hb. destruct (decide (count P l = 0)) as [E|]; [|lia].
  apply count_zero in E. rewrite Forall_forall in E. specialize (E x Hin). congruence.
Qed.

(** ** The descriptors of all tasks as one list *)
Definition rows_ok {A} (l : list (list A)) : Prop := length l = 3%nat /\ Forall (fun r => length r = 16%nat) l.
Lemma alter_insert_rows {A} (l : list (list A)) i j x : rows_ok l -> rows_ok (alter (fun r => <[j := x]> r) i l).
Proof.
  intros [Hl Hr]. split; [by rewrite length_alter|]. apply Forall_lookup. intros k r Hk. rewrite Forall_lookup in Hr.
  destruct (decide (k = i)) as [->|Hne].
  - rewrite list_lookup_alter_eq in Hk. apply fmap_Some in Hk as (r0 & Hr0 & ->). rewrite length_insert. by apply (Hr i).
  - rewrite list_lookup_alter_ne in Hk by done. by apply (Hr k).
Qed.
Lemma concat_alter {A} (l : list (list A)) i j x : Forall (fun r => length r = 16%nat) l -> (i < length l)%nat -> (j < 16)%nat ->
  concat (alter (fun r => <[j := x]> r) i l) = <[(i * 16 + j)%nat := x]> (concat l).
Proof.
  intros Hr. revert i. induction Hr as [|r l Hr0 Hr IH]; intros i Hi Hj; [cbn in Hi; lia|]. destruct i as [|i].
  - change (alter (fun r => <[j := x]> r) 0%nat (r :: l)) with (<[j := x]> r :: l). cbn [concat]. rewrite insert_app_l by (cbn; lia). done.
  - change (alter (fun r => <[j := x]> r) (S i) (r :: l)) with (r :: alter (fun r => <[j := x]> r) i l). cbn [concat length] in *.
    rewrite IH by lia. replace (S i * 16 + j)%nat with (length r + (i * 16 + j))%nat by lia. by rewrite insert_app_r.
Qed.
Lemma concat_lookup {A} (l : list (list A)) i j d : Forall (fun r => length r = 16%nat) l -> (i < length l)%nat -> (j < 16)%nat ->
  concat l !! (i * 16 + j)%nat = Some (nth j (nth i l []) d).
Proof.
  intros Hr. revert i. induction Hr as [|r l Hr0 Hr IH]; intros i Hi Hj; [cbn in Hi; lia|]. destruct i as [|i]; cbn [concat nth length] in *.
  - rewrite lookup_app_l by lia. rewrite nth_lookup. cbn. destruct (r !! j) eqn:E; [done|]. apply lookup_ge_None_1 in E. lia.
  - rewrite lookup_app_r by lia. replace (S i * 16 + j - length r)%nat with (i * 16 + j)%nat by lia. apply IH; lia.
Qed.

(** ** The invariant *)
Definition names (d : nat) (x : option nat) : bool := bool_decide (x = Some d).
Definition users (f : Files) (d : nat) : Z := count (names d) (concat (task_files f)).
Definition is_end (p : nat) (write : bool) (o : OpenFile) : bool :=
  truth (refs o) && bool_decide (file_pipe o = Some p) && Bool.eqb (writable o) write.
Definition ends (f : Files) (p : nat) (write : bool) : Z := count (is_end p write) (descriptions f).
Definition valid_name (x : option nat) : Prop := match x with Some d => (d < 48)%nat | None => True end.
(** [delta]: how many references each description counts beyond its descriptors. *)
Record balanced (f : Files) (delta : nat -> Z) : Prop := {
  b_descriptions : length (descriptions f) = 48%nat;
  b_pipes : length (pipes f) = 24%nat /\ Forall pipe_ok (pipes f);
  b_pending : length (pending_io f) = 3%nat;
  b_files : rows_ok (task_files f) /\ Forall valid_name (concat (task_files f));
  b_flags : rows_ok (task_flags f);
  b_task : (file_task f < 3)%nat;
  b_refs : forall d, (d < 48)%nat -> refs (description f d) = users f d + delta d;
  b_ends : forall p, (p < 24)%nat -> readers (pipe_at f p) = ends f p false /\ writers (pipe_at f p) = ends f p true;
  b_open : forall d p, (d < 48)%nat -> refs (description f d) <> 0 -> file_pipe (description f d) = Some p -> (p < 24)%nat }.
Definition files_ok (f : Files) : Prop := balanced f (fun _ => 0).
Definition bump (d : nat) (v : Z) (delta : nat -> Z) : nat -> Z := fun i => if decide (i = d) then delta i + v else delta i.

Lemma balanced_ext f d1 d2 : (forall d, (d < 48)%nat -> d1 d = d2 d) -> balanced f d1 -> balanced f d2.
Proof. intros E [? ? ? ? ? ? Hr ? ?]. constructor; try done. intros d Hd. rewrite <- E by done. by apply Hr. Qed.
Lemma users_bounds f delta d : balanced f delta -> 0 <= users f d <= 48.
Proof.
  intros Hf. destruct (b_files _ _ Hf) as [[Hl Hr] _]. unfold users. pose proof (count_bounds (names d) (concat (task_files f))) as Hc.
  assert (zlen (concat (task_files f)) = 48) as E; [|lia]. destruct (task_files f) as [|a [|b [|c [|? ?]]]]; try done.
  rewrite !Forall_cons in Hr. destruct Hr as (? & ? & ? & _). unfold zlen. cbn [concat]. rewrite !length_app. cbn [length]. lia.
Qed.
Lemma description_put f d o i : (d < length (descriptions f))%nat ->
  description (put_description d o f) i = if decide (i = d) then o else description f i.
Proof.
  intros Hd. unfold description, put_description. cbn [descriptions]. rewrite !nth_lookup. destruct (decide (i = d)) as [->|Hne].
  - by rewrite list_lookup_insert_eq.
  - by rewrite list_lookup_insert_ne.
Qed.
Lemma description_lookup f delta d : balanced f delta -> (d < 48)%nat -> descriptions f !! d = Some (description f d).
Proof.
  intros Hf Hd. unfold description. rewrite nth_lookup. destruct (descriptions f !! d) eqn:E; [done|].
  apply lookup_ge_None_1 in E. pose proof (b_descriptions _ _ Hf). lia.
Qed.
Lemma pipe_lookup f delta p : balanced f delta -> (p < 24)%nat -> pipes f !! p = Some (pipe_at f p) /\ pipe_ok (pipe_at f p).
Proof.
  intros Hf Hp. destruct (b_pipes _ _ Hf) as [Hl Hok]. assert (pipes f !! p = Some (pipe_at f p)) as E.
  { unfold pipe_at. rewrite nth_lookup. destruct (pipes f !! p) eqn:E; [done|]. apply lookup_ge_None_1 in E. lia. }
  split; [done|]. by apply (Forall_lookup_1 _ _ _ _ Hok E).
Qed.
Lemma slot_lookup f delta slot fd : balanced f delta -> (slot < 3)%nat -> 0 <= fd < 16 ->
  concat (task_files f) !! (slot * 16 + Z.to_nat fd)%nat = Some (slot_file f slot fd) /\ valid_name (slot_file f slot fd).
Proof.
  intros Hf Hs Hfd. destruct (b_files _ _ Hf) as [[Hl Hr] Hv].
  assert (concat (task_files f) !! (slot * 16 + Z.to_nat fd)%nat = Some (slot_file f slot fd)) as E by (apply concat_lookup; [done|lia|lia]).
  split; [done|]. by apply (Forall_lookup_1 _ _ _ _ Hv E).
Qed.
Lemma ends_put f delta d o p w : balanced f delta -> (d < 48)%nat ->
  ends (put_description d o f) p w = ends f p w - c_bool (is_end p w (description f d)) + c_bool (is_end p w o).
Proof. intros Hf Hd. unfold ends, put_description. cbn [descriptions]. by rewrite (count_insert _ _ _ _ _ (description_lookup f delta d Hf Hd)). Qed.

(** ** The primitive steps *)
Lemma balanced_io f delta slot io : balanced f delta -> balanced (put_io slot io f) delta.
Proof. intros [? ? ? ? ? ? ? ? ?]. constructor; try done. cbn. by rewrite length_insert. Qed.
Lemma balanced_task f delta slot : balanced f delta -> (slot < 3)%nat -> balanced (put_task slot f) delta.
Proof. intros [? ? ? ? ? ? ? ? ?]. by constructor. Qed.
Lemma balanced_slot f delta slot fd x v : balanced f delta -> (slot < 3)%nat -> 0 <= fd < 16 -> valid_name x ->
  balanced (put_slot slot fd x v f)
    (fun d => delta d + c_bool (names d (slot_file f slot fd)) - c_bool (names d x)).
Proof.
  intros Hf Hs Hfd Hx. pose proof Hf as [? ? ? [[Hl Hr] Hv] ? ? Hrefs ? ?].
  assert (concat (task_files (put_slot slot fd x v f)) = <[(slot * 16 + Z.to_nat fd)%nat := x]> (concat (task_files f))) as E
    by (apply concat_alter; [done|lia|lia]).
  destruct (slot_lookup f delta slot fd Hf Hs Hfd) as [Hlk _].
  constructor; try done.
  - split; [by apply alter_insert_rows|]. rewrite E. by apply Forall_insert.
  - by apply alter_insert_rows.
  - intros d Hd. change (description (put_slot slot fd x v f) d) with (description f d). rewrite Hrefs by done.
    unfold users. rewrite E, (count_insert _ _ _ _ _ Hlk). lia.
Qed.
Lemma is_end_refs p w o r : (refs o <> 0 <-> r <> 0) -> is_end p w (set_refs r o) = is_end p w o.
Proof.
  intros Hr. unfold is_end. cbn [refs set_refs file_pipe]. change (writable (set_refs r o)) with (writable o).
  assert (truth r = truth (refs o)) as ->; [|done]. unfold truth. destruct (Z.eqb_spec r 0), (Z.eqb_spec (refs o) 0); tauto || lia.
Qed.
Lemma balanced_set_refs f delta d r : balanced f delta -> (d < 48)%nat -> refs (description f d) <> 0 -> r <> 0 ->
  balanced (put_description d (set_refs r (description f d)) f) (bump d (r - refs (description f d)) delta).
Proof.
  intros Hf Hd Hn0 Hr0. pose proof Hf as [Hl ? ? ? ? ? Hrefs He Ho]. constructor; try done.
  - cbn. by rewrite length_insert.
  - intros i Hi. rewrite description_put by lia. unfold bump. change (users (put_description _ _ f) i) with (users f i).
    destruct (decide (i = d)) as [->|]; [cbn [refs set_refs]; rewrite Hrefs by done; lia|by apply Hrefs].
  - intros p Hp. change (pipe_at (put_description _ _ f) p) with (pipe_at f p). rewrite !(ends_put f delta) by done.
    rewrite !is_end_refs by tauto. destruct (He p Hp) as [-> ->]. lia.
  - intros i p Hi. rewrite description_put by lia. destruct (decide (i = d)) as [->|]; [|by apply Ho]. cbn [refs set_refs file_pipe]. intros _. by apply Ho.
Qed.
Lemma balanced_share f delta d : balanced f delta -> (d < 48)%nat -> 0 < refs (description f d) < 2 ^ 31 ->
  balanced (share (Some d) f) (bump d 1 delta).
Proof.
  intros Hf Hd Hr. cbn [share]. rewrite u32_small by (unfold is_u32; lia).
  pose proof (balanced_set_refs f delta d (refs (description f d) + 1) Hf Hd ltac:(lia) ltac:(lia)) as Hb.
  eapply balanced_ext; [|exact Hb]. intros i _. unfold bump. destruct (decide (i = d)); lia.
Qed.
Lemma balanced_release f delta d : balanced f delta -> (d < 48)%nat -> 0 < refs (description f d) < 2 ^ 31 ->
  balanced (release d f) (bump d (-1) delta).
Proof.
  intros Hf Hd Hr. pose proof Hf as [Hl [Hpl Hpok] ? ? ? ? Hrefs He Ho]. unfold release. cbv zeta. rewrite u32_small by (unfold is_u32; lia).
  set (o := description f d) in *. set (o' := set_refs (refs o - 1) o).
  change (refs o') with (refs o - 1). change (file_pipe o') with (file_pipe o). change (writable o') with (writable o).
  destruct (decide (refs o = 1)) as [E1|E1].
  2:{ assert (truth (refs o - 1) = true) as -> by (unfold truth; destruct (Z.eqb_spec (refs o - 1) 0); [lia|done]).
      pose proof (balanced_set_refs f delta d (refs o - 1) Hf Hd ltac:(fold o; lia) ltac:(lia)) as Hb. fold o o' in Hb.
      eapply balanced_ext; [|exact Hb]. intros i _. unfold bump. destruct (decide (i = d)); lia. }
  assert (truth (refs o - 1) = false) as -> by (rewrite E1; done).
  assert (forall p w, is_end p w o' = false) as Eo' by (intros; unfold is_end, o'; cbn [refs set_refs]; rewrite E1; done).
  assert (forall p w, is_end p w o = bool_decide (file_pipe o = Some p) && Bool.eqb (writable o) w) as Eo by (intros; unfold is_end; rewrite E1; done).
  assert (forall g, descriptions g = <[d := o']> (descriptions f) -> (forall i, (i < 48)%nat -> description g i = if decide (i = d) then o' else description f i)) as Edesc.
  { intros g Eg i Hi. unfold description. rewrite Eg, !nth_lookup. destruct (decide (i = d)) as [->|]; [by rewrite list_lookup_insert_eq by lia|by rewrite list_lookup_insert_ne]. }
  destruct (file_pipe o) as [p|] eqn:Ep.
  - assert (p < 24)%nat as Hp by (apply (Ho d p Hd); [fold o; lia|done]).
    destruct (pipe_lookup f delta p Hf Hp) as [_ [? ? ?]].
    constructor; try done.
    + cbn. by rewrite length_insert.
    + cbn. split; [by rewrite length_insert|]. apply Forall_insert; [done|by constructor].
    + intros i Hi. match goal with |- context [description ?g i] => rewrite (Edesc g eq_refl i Hi) end. change (users (put_pipe _ _ _) i) with (users f i). unfold bump.
      destruct (decide (i = d)) as [->|]; [unfold o'; cbn [refs set_refs]; unfold o; rewrite Hrefs by done; lia|by apply Hrefs].
    + intros q Hq. rewrite pipe_at_put by (cbn; lia). change (pipe_at (put_description _ _ f)) with (pipe_at f).
      change (ends (put_pipe ?a ?b ?g) ?x ?y) with (ends g x y). rewrite !(ends_put f delta) by done. fold o. rewrite !Eo', !Eo. destruct (He q Hq) as [Er Ew].
      assert (0 <= ends f q false <= 48 /\ 0 <= ends f q true <= 48) as [Hb1 Hb2].
      { split; unfold ends; match goal with |- context [count ?P ?l] => pose proof (count_bounds P l) end; unfold zlen in *; lia. }
      destruct (decide (q = p)) as [->|Hne].
      * rewrite bool_decide_true by done. cbn [andb].
        pose proof (count_pos (is_end p (writable o)) (descriptions f) o) as Hpos. 
        assert (0 < count (is_end p (writable o)) (descriptions f)) as Hpos'.
        { apply Hpos; [apply (list_elem_of_lookup_2 _ d), (description_lookup f delta d Hf Hd)|]. rewrite Eo, bool_decide_true by done. by destruct (writable o). }
        fold (ends f p (writable o)) in Hpos'. unfold drop_end. destruct (writable o); cbn [negb readers writers Bool.eqb c_bool];
          rewrite ?Er, ?Ew, ?u32_small by (unfold is_u32; lia); lia.
      * rewrite (bool_decide_false (Some p = Some q)) by congruence. cbn [andb c_bool]. lia.
    + intros i q Hi. match goal with |- context [description ?g i] => rewrite (Edesc g eq_refl i Hi) end. destruct (decide (i = d)) as [->|]; [unfold o'; cbn [refs set_refs]; lia|by apply Ho].
  - constructor; try done.
    + cbn. by rewrite length_insert.
    + intros i Hi. match goal with |- context [description ?g i] => rewrite (Edesc g eq_refl i Hi) end. change (users (put_description _ _ f) i) with (users f i). unfold bump.
      destruct (decide (i = d)) as [->|]; [unfold o'; cbn [refs set_refs]; unfold o; rewrite Hrefs by done; lia|by apply Hrefs].
    + intros q Hq. change (pipe_at (put_description _ _ f)) with (pipe_at f). rewrite !(ends_put f delta) by done. fold o. rewrite !Eo', !Eo.
      rewrite (bool_decide_false (None = Some q)) by congruence. cbn [andb c_bool]. destruct (He q Hq) as [-> ->]. lia.
    + intros i q Hi. match goal with |- context [description ?g i] => rewrite (Edesc g eq_refl i Hi) end. destruct (decide (i = d)) as [->|]; [unfold o'; cbn [refs set_refs]; lia|by apply Ho].
Qed.

(** ** The operations keep the invariant *)
Lemma refs_users f d : files_ok f -> (d < 48)%nat -> refs (description f d) = users f d.
Proof. intros Hf Hd. rewrite (b_refs _ _ Hf d Hd). lia. Qed.
Lemma names_true d x : names d x = true <-> x = Some d.
Proof. unfold names. apply bool_decide_eq_true. Qed.
Lemma used_refs f delta slot fd d : balanced f delta -> (slot < 3)%nat -> 0 <= fd < 16 -> slot_file f slot fd = Some d ->
  (d < 48)%nat /\ 0 < users f d.
Proof.
  intros Hf Hs Hfd Hd. destruct (slot_lookup f delta slot fd Hf Hs Hfd) as [Hlk Hv]. rewrite Hd in *. split; [exact Hv|].
  apply (count_pos _ _ (Some d)); [by apply (list_elem_of_lookup_2 _ _ _ Hlk)|by apply names_true].
Qed.
Lemma get_file_some f fd d : get_file f fd = Some d -> 0 <= fd -> 0 <= fd < 16 /\ slot_file f (file_task f) fd = Some d.
Proof. unfold get_file, FD_COUNT. destruct (Z.ltb_spec fd 16); [|done]. intros; split; [lia|done]. Qed.
Lemma slot_file_put f delta slot fd x v s i : balanced f delta -> (slot < 3)%nat -> (s < 3)%nat -> 0 <= fd < 16 -> 0 <= i < 16 ->
  slot_file (put_slot slot fd x v f) s i = if decide (s = slot /\ i = fd) then x else slot_file f s i.
Proof.
  intros Hf Hs Hs' Hfd Hi. pose proof Hf as [? ? ? [[Hl Hr] Hv] ? ? ? ? ?].
  assert (rows_ok (task_files (put_slot slot fd x v f))) as [Hl' Hr'] by (by apply alter_insert_rows).
  pose proof (concat_lookup (task_files (put_slot slot fd x v f)) s (Z.to_nat i) None Hr' ltac:(lia) ltac:(lia)) as E.
  fold (slot_file (put_slot slot fd x v f) s i) in E. cbn [task_files put_slot] in E.
  rewrite concat_alter in E by (done || lia). pose proof (concat_lookup (task_files f) s (Z.to_nat i) None Hr ltac:(lia) ltac:(lia)) as E0.
  fold (slot_file f s i) in E0. destruct (decide (s = slot /\ i = fd)) as [[-> ->]|Hne].
  - rewrite list_lookup_insert_eq in E; [congruence|]. by apply lookup_lt_Some in E0.
  - rewrite list_lookup_insert_ne in E by lia. congruence.
Qed.
Lemma release_slots d f : task_files (release d f) = task_files f /\ task_flags (release d f) = task_flags f /\ file_task (release d f) = file_task f /\
  pending_io (release d f) = pending_io f.
Proof. unfold release. cbv zeta. destruct (truth _); [done|]. by destruct (file_pipe _). Qed.

Lemma close_fd_ok f fd : files_ok f -> 0 <= fd -> files_ok (close_fd fd f).2.
Proof.
  intros Hf Hfd. unfold close_fd. destruct (get_file f fd) as [d|] eqn:E; [|done]. apply get_file_some in E as [Hr Hd]; [|done]. cbn [snd].
  destruct (used_refs f _ _ fd d Hf (b_task _ _ Hf) Hr Hd) as [Hd48 Hu]. pose proof (users_bounds f _ d Hf) as Hub. pose proof (refs_users f d Hf Hd48) as Hrefs.
  pose proof (balanced_release f _ d Hf Hd48 ltac:(lia)) as H1. destruct (release_slots d f) as (Etf & _ & Eft & _).
  pose proof (balanced_slot (release d f) _ (file_task f) fd None 0 H1 (b_task _ _ Hf) Hr I) as H2.
  eapply balanced_ext; [|exact H2]. intros i Hi. unfold slot_file. rewrite Etf. fold (slot_file f (file_task f) fd). rewrite Hd.
  unfold bump, names. rewrite (bool_decide_false (None = Some i)) by congruence. cbn [c_bool]. destruct (decide (i = d)) as [->|Hne].
  - by rewrite bool_decide_true.
  - by rewrite bool_decide_false by congruence.
Qed.
Lemma close_fd_same f fd : file_task (close_fd fd f).2 = file_task f.
Proof. unfold close_fd. destruct (get_file f fd); [|done]. cbn. by destruct (release_slots n f) as (_ & _ & -> & _). Qed.
Lemma close_fd_slots f fd s i : files_ok f -> 0 <= fd < 16 -> (s < 3)%nat -> 0 <= i < 16 ->
  slot_file (close_fd fd f).2 s i = if decide (s = file_task f /\ i = fd) then None else slot_file f s i.
Proof.
  intros Hf Hfd Hs Hi. unfold close_fd. destruct (get_file f fd) as [d|] eqn:E.
  - apply get_file_some in E as [_ Hd]; [|lia]. cbn [snd]. destruct (used_refs f _ _ fd d Hf (b_task _ _ Hf) Hfd Hd) as [Hd48 Hu].
    pose proof (users_bounds f _ d Hf) as Hub. pose proof (refs_users f d Hf Hd48) as Hrefs.
    pose proof (balanced_release f _ d Hf Hd48 ltac:(lia)) as H1. rewrite (slot_file_put _ _ _ _ _ _ _ _ H1) by (done || apply Hf).
    unfold slot_file. by destruct (release_slots d f) as (-> & _).
  - cbn [snd]. unfold get_file, FD_COUNT in E. destruct (Z.ltb_spec fd 16); [|lia]. destruct (decide _) as [[-> ->]|]; done.
Qed.
Lemma close_each_ok test n : forall fd f, files_ok f -> 0 <= fd -> files_ok (close_each test n fd f) /\ file_task (close_each test n fd f) = file_task f.
Proof.
  induction n as [|n IH]; intros fd f Hf Hfd; [done|]. cbn [close_each].
  destruct (IH (fd + 1) (if test f fd then (close_fd fd f).2 else f)) as [H1 H2]; [destruct (test f fd); [by apply close_fd_ok|done]|lia|].
  split; [exact H1|]. rewrite H2. destruct (test f fd); [apply close_fd_same|done].
Qed.
Lemma close_each_slots n : forall fd f, files_ok f -> 0 <= fd -> fd + Z.of_nat n <= 16 -> forall s i, (s < 3)%nat -> 0 <= i < 16 ->
  slot_file (close_each is_open n fd f) s i = if decide (s = file_task f /\ fd <= i < fd + Z.of_nat n) then None else slot_file f s i.
Proof.
  induction n as [|n IH]; intros fd f Hf Hfd Hend s i Hs Hi; cbn [close_each].
  { destruct (decide _); [lia|done]. }
  assert (files_ok (if is_open f fd then (close_fd fd f).2 else f)) as Hf' by (destruct (is_open f fd); [apply close_fd_ok; done|done]).
  rewrite IH by (done || lia). assert (file_task (if is_open f fd then (close_fd fd f).2 else f) = file_task f) as -> by (destruct (is_open f fd); [apply close_fd_same|done]).
  assert (slot_file (if is_open f fd then (close_fd fd f).2 else f) s i = if decide (s = file_task f /\ i = fd) then None else slot_file f s i) as ->.
  { destruct (is_open f fd) eqn:E; [apply close_fd_slots; done || lia|]. destruct (decide _) as [[-> ->]|]; [|done]. unfold is_open in E. by destruct (slot_file f (file_task f) fd). }
  repeat destruct (decide _); try lia; done.
Qed.
Lemma linux_syscall_exec_ok f : files_ok f -> files_ok (linux_syscall_exec f).
Proof. intros Hf. by apply close_each_ok. Qed.
Lemma slot_file_task a f s i : slot_file (put_task a f) s i = slot_file f s i.
Proof. done. Qed.
Lemma slot_file_io a io f s i : slot_file (put_io a io f) s i = slot_file f s i.
Proof. done. Qed.
Lemma linux_files_exit_ok slot f : files_ok f -> (slot < 3)%nat ->
  files_ok (linux_files_exit slot f) /\ file_task (linux_files_exit slot f) = file_task f /\
  (forall s i, (s < 3)%nat -> 0 <= i < 16 -> slot_file (linux_files_exit slot f) s i = if decide (s = slot) then None else slot_file f s i).
Proof.
  intros Hf Hs. unfold linux_files_exit. cbv zeta. set (f1 := put_task slot _).
  assert (files_ok f1) as H1 by (apply balanced_task; [by apply balanced_io|done]).
  destruct (close_each_ok is_open (Z.to_nat FD_COUNT) 0 f1 H1 ltac:(lia)) as [H2 _]. split; [|split; [done|]].
  - apply balanced_task; [done|]. apply Hf.
  - intros s i Hs' Hi. rewrite slot_file_task. assert (Z.to_nat FD_COUNT = 16%nat) as -> by done.
    rewrite close_each_slots by (done || lia). unfold f1. rewrite slot_file_task, slot_file_io. cbn [file_task put_task].
    repeat destruct (decide _); try lia; done.
Qed.

(** A descriptor that is free takes another reference to a description. *)
Lemma slot_then_share f slot fd d v : files_ok f -> (slot < 3)%nat -> 0 <= fd < 16 -> slot_file f slot fd = None -> (d < 48)%nat -> 0 < users f d ->
  files_ok (share (Some d) (put_slot slot fd (Some d) v f)).
Proof.
  intros Hf Hs Hfd Hfree Hd Hu. pose proof (balanced_slot f _ slot fd (Some d) v Hf Hs Hfd Hd) as H1. rewrite Hfree in H1.
  pose proof (users_bounds f _ d Hf) as Hub. pose proof (refs_users f d Hf Hd) as Hrefs.
  pose proof (balanced_share _ _ d H1 Hd) as H2. change (description (put_slot slot fd (Some d) v f) d) with (description f d) in H2.
  specialize (H2 ltac:(lia)). eapply balanced_ext; [|exact H2]. intros i Hi. unfold bump, names.
  rewrite (bool_decide_false (None = Some i)) by congruence. cbn [c_bool]. destruct (decide (i = d)) as [->|Hne].
  - by rewrite bool_decide_true.
  - by rewrite bool_decide_false by congruence.
Qed.
Lemma share_slots x f : task_files (share x f) = task_files f /\ task_flags (share x f) = task_flags f /\ file_task (share x f) = file_task f /\ pending_io (share x f) = pending_io f.
Proof. by destruct x. Qed.
Lemma put_same_none f delta slot fd v : balanced f delta -> (slot < 3)%nat -> 0 <= fd < 16 -> slot_file f slot fd = None ->
  balanced (put_slot slot fd None v f) delta.
Proof.
  intros Hf Hs Hfd Hfree. pose proof (balanced_slot f delta slot fd None v Hf Hs Hfd I) as H1. rewrite Hfree in H1.
  eapply balanced_ext; [|exact H1]. intros i _. cbn. lia.
Qed.
Lemma fork_each_ok parent child n : (parent < 3)%nat -> (child < 3)%nat -> parent <> child -> forall fd f, files_ok f -> 0 <= fd -> fd + Z.of_nat n <= 16 ->
  (forall i, fd <= i < 16 -> slot_file f child i = None) ->
  files_ok (fork_each parent child n fd f) /\ file_task (fork_each parent child n fd f) = file_task f /\
  (forall s i, (s < 3)%nat -> 0 <= i < 16 -> slot_file (fork_each parent child n fd f) s i =
     if decide (s = child /\ fd <= i < fd + Z.of_nat n) then slot_file f parent i else slot_file f s i).
Proof.
  intros Hp Hc Hne. induction n as [|n IH]; intros fd f Hf Hfd Hend Hfree; cbn [fork_each].
  { split; [done|]. split; [done|]. intros s i _ _. destruct (decide _); [lia|done]. }
  cbv zeta. set (x := slot_file f parent fd). set (f1 := share x (put_slot child fd x (slot_flags f parent fd) f)).
  assert (files_ok f1) as H1.
  { unfold f1. destruct x as [d|] eqn:Ex; unfold x in Ex.
    - destruct (used_refs f _ parent fd d Hf Hp ltac:(lia) Ex) as [Hd Hu]. apply slot_then_share; (done || lia || (apply Hfree; lia)).
    - cbn [share]. apply (put_same_none f); (done || lia || (apply Hfree; lia)). }
  assert (forall s i, (s < 3)%nat -> 0 <= i < 16 -> slot_file f1 s i = if decide (s = child /\ i = fd) then x else slot_file f s i) as E.
  { intros s i Hs Hi. unfold f1, slot_file. destruct (share_slots x (put_slot child fd x (slot_flags f parent fd) f)) as (-> & _).
    apply (slot_file_put f _ child fd x (slot_flags f parent fd) s i Hf); (done || lia). }
  destruct (IH (fd + 1) f1 H1 ltac:(lia) ltac:(lia)) as (I1 & I2 & I3).
  { intros i Hi. rewrite E by (done || lia). rewrite decide_False by lia. apply Hfree. lia. }
  split; [exact I1|]. split; [rewrite I2; unfold f1; by destruct x|]. intros s i Hs Hi. rewrite I3 by done. rewrite !E by done.
  destruct (decide (parent = child /\ i = fd)) as [[? _]|_]; [done|]. unfold x.
  destruct (decide (i = fd)) as [->|Hi']; repeat destruct (decide _); try lia; done.
Qed.
Lemma linux_files_fork_ok parent child f : files_ok f -> (parent < 3)%nat -> (child < 3)%nat -> parent <> child ->
  (forall i, 0 <= i < 16 -> slot_file f child i = None) ->
  files_ok (linux_files_fork parent child f) /\ file_task (linux_files_fork parent child f) = file_task f /\
  (forall s i, (s < 3)%nat -> 0 <= i < 16 -> slot_file (linux_files_fork parent child f) s i = if decide (s = child) then slot_file f parent i else slot_file f s i).
Proof.
  intros Hf Hp Hc Hne Hfree. unfold linux_files_fork.
  destruct (fork_each_ok parent child 16 Hp Hc Hne 0 (put_io child (set_active false (io_at f child)) f) (balanced_io _ _ _ _ Hf) ltac:(lia) ltac:(lia) Hfree)
    as (H1 & H2 & H3). change (Z.to_nat FD_COUNT) with 16%nat. split; [exact H1|]. split; [by rewrite H2|]. intros s i Hs Hi. rewrite H3 by done.
  repeat destruct (decide _); try lia; done.
Qed.

(** ** New descriptions *)
Lemma balanced_fresh f delta d o : balanced f delta -> (d < 48)%nat -> refs (description f d) = 0 -> refs o = 1 -> file_pipe o = None ->
  balanced (put_description d o f) (bump d 1 delta).
Proof.
  intros Hf Hd H0 H1 Hp. pose proof Hf as [Hl ? ? ? ? ? Hrefs He Ho]. constructor; try done.
  - cbn. by rewrite length_insert.
  - intros i Hi. rewrite description_put by lia. change (users (put_description _ _ f) i) with (users f i). unfold bump.
    destruct (decide (i = d)) as [->|]; [rewrite H1; specialize (Hrefs d Hd); lia|by apply Hrefs].
  - intros p Hp'. change (pipe_at (put_description _ _ f) p) with (pipe_at f p). rewrite !(ends_put f delta) by done.
    assert (forall w, is_end p w (description f d) = false) as -> by (intros; unfold is_end; by rewrite H0).
    assert (forall w, is_end p w (description f d) = false) as -> by (intros; unfold is_end; by rewrite H0).
    assert (forall w, is_end p w o = false) as E by (intros; unfold is_end; rewrite Hp, (bool_decide_false (None = Some p)) by congruence; by rewrite andb_false_r).
    rewrite !E. cbn [c_bool]. destruct (He p Hp') as [-> ->]. lia.
  - intros i p Hi. rewrite description_put by lia. destruct (decide (i = d)) as [->|]; [congruence|by apply Ho].
Qed.
Lemma open_ok f d o fd v : files_ok f -> (d < 48)%nat -> refs (description f d) = 0 -> refs o = 1 -> file_pipe o = None ->
  0 <= fd < 16 -> slot_file f (file_task f) fd = None -> files_ok (put_slot (file_task f) fd (Some d) v (put_description d o f)).
Proof.
  intros Hf Hd H0 H1 Hp Hfd Hfree. pose proof (balanced_fresh f _ d o Hf Hd H0 H1 Hp) as Hb.
  pose proof (balanced_slot (put_description d o f) _ (file_task f) fd (Some d) v Hb (b_task _ _ Hf) Hfd Hd) as H2.
  change (slot_file (put_description d o f) (file_task f) fd) with (slot_file f (file_task f) fd) in H2. rewrite Hfree in H2.
  eapply balanced_ext; [|exact H2]. intros i _. unfold bump, names. rewrite (bool_decide_false (None = Some i)) by congruence. cbn [c_bool].
  destruct (decide (i = d)) as [->|]; [by rewrite bool_decide_true|by rewrite bool_decide_false by congruence].
Qed.

Lemma two_fds_spec n : forall i f, Forall (fun fd => i <= fd < i + Z.of_nat n /\ slot_file f (file_task f) fd = None) (two_fds n i f) /\ NoDup (two_fds n i f).
Proof.
  induction n as [|n IH]; intros i f; [split; constructor|]. cbn [two_fds]. destruct (IH (i + 1) f) as [IH1 IH2].
  assert (Forall (fun fd => i <= fd < i + Z.of_nat (S n) /\ slot_file f (file_task f) fd = None) (two_fds n (i + 1) f)) as H1
    by (eapply Forall_impl; [exact IH1|]; intros fd [? ?]; split; [lia|done]).
  destruct (is_open f i) eqn:E; [done|]. split.
  - constructor; [|done]. split; [lia|]. unfold is_open in E. by destruct (slot_file f (file_task f) i).
  - apply NoDup_cons. split; [|done]. intros Hin. rewrite Forall_forall in IH1. specialize (IH1 i Hin). lia.
Qed.
Lemma free_descriptions_spec l : forall i, Forall (fun d => (i <= d)%nat /\ exists o, l !! (d - i)%nat = Some o /\ refs o = 0) (free_descriptions l i) /\ NoDup (free_descriptions l i).
Proof.
  induction l as [|o l IH]; intros i; [split; constructor|]. cbn [free_descriptions]. destruct (IH (S i)) as [IH1 IH2].
  assert (Forall (fun d => (i <= d)%nat /\ exists o', (o :: l) !! (d - i)%nat = Some o' /\ refs o' = 0) (free_descriptions l (S i))) as H1.
  { eapply Forall_impl; [exact IH1|]. intros d (? & o' & Hlk & ?). split; [lia|]. exists o'. split; [|done]. by replace (d - i)%nat with (S (d - S i)) by lia. }
  unfold truth. destruct (Z.eqb_spec (refs o) 0) as [E|E]; cbn [negb]; [|done]. split.
  - constructor; [|done]. split; [lia|]. exists o. rewrite Nat.sub_diag. done.
  - apply NoDup_cons. split; [|done]. intros Hin. rewrite Forall_forall in IH1. destruct (IH1 i Hin). lia.
Qed.
Lemma free_pipe_spec l : forall i p, free_pipe l i = Some p -> (i <= p)%nat /\ exists x, l !! (p - i)%nat = Some x /\ readers x = 0 /\ writers x = 0.
Proof.
  induction l as [|x l IH]; intros i p Hp; [done|]. cbn [free_pipe] in Hp. destruct (negb (truth (readers x)) && negb (truth (writers x))) eqn:E.
  - injection Hp as ->. split; [lia|]. exists x. rewrite Nat.sub_diag. unfold truth in E. rewrite !negb_involutive in E. bool_to_prop. done.
  - destruct (IH (S i) p Hp) as (? & y & Hy & ?). split; [lia|]. exists y. by replace (p - i)%nat with (S (p - S i)) by lia.
Qed.

Lemma is_end_pipe_end p w fl q r : is_end q r (pipe_end p w fl) = bool_decide (p = q) && Bool.eqb w r.
Proof.
  unfold is_end. cbn [refs file_pipe pipe_end truth negb Z.eqb andb]. assert (writable (pipe_end p w fl) = w) as ->.
  { unfold writable. cbn [flags pipe_end]. unfold O_ACCMODE, O_WRONLY, O_NONBLOCK, truth. rewrite Z.land_lor_distr_l, <- Z.land_assoc.
    change (Z.land 2048 3) with 0. rewrite Z.land_0_r, Z.lor_0_r. by destruct w. }
  f_equal. destruct (decide (p = q)) as [->|]; [by rewrite !bool_decide_true|by rewrite !bool_decide_false by congruence].
Qed.
Lemma balanced_new_pipe f delta p d0 d1 fl data : balanced f delta -> (p < 24)%nat -> readers (pipe_at f p) = 0 -> writers (pipe_at f p) = 0 ->
  (d0 < 48)%nat -> (d1 < 48)%nat -> d0 <> d1 -> refs (description f d0) = 0 -> refs (description f d1) = 0 -> length data = 4096%nat ->
  balanced (put_description d1 (pipe_end p true fl) (put_description d0 (pipe_end p false fl)
    (put_pipe p {| readers := 1; writers := 1; pipe_head := 0; pipe_used := 0; pipe_data := data |} f)))
    (bump d1 1 (bump d0 1 delta)).
Proof.
  intros Hf Hp Hr Hw Hd0 Hd1 Hne E0 E1 Hdata. pose proof Hf as [Hl [Hpl Hpok] ? ? ? ? Hrefs He Ho].
  set (x := {| readers := 1; writers := 1; pipe_head := 0; pipe_used := 0; pipe_data := data |}). set (f1 := put_pipe p x f).
  set (f2 := put_description d0 _ f1).
  assert (forall i, description f2 i = if decide (i = d0) then pipe_end p false fl else description f i) as Ed2
    by (intros i; unfold f2; rewrite description_put by (cbn; lia); done).
  assert (forall i, description (put_description d1 (pipe_end p true fl) f2) i = if decide (i = d1) then pipe_end p true fl else description f2 i) as Ed3
    by (intros i; rewrite description_put by (cbn; rewrite length_insert; lia); done).
  constructor; try done.
  - cbn. by rewrite !length_insert.
  - cbn. split; [by rewrite length_insert|]. apply Forall_insert; [done|]. constructor; [done|unfold PIPE_SIZE; cbn; lia|unfold PIPE_SIZE; cbn; lia].
  - intros i Hi. rewrite Ed3, Ed2. change (users _ i) with (users f i). unfold bump.
    destruct (decide (i = d1)) as [->|]; [|destruct (decide (i = d0)) as [->|]; [|by apply Hrefs]].
    + rewrite decide_False by done. cbn [refs pipe_end]. specialize (Hrefs d1 Hd1). lia.
    + cbn [refs pipe_end]. specialize (Hrefs d0 Hd0). lia.
  - intros q Hq. change (pipe_at (put_description _ _ f2) q) with (pipe_at f1 q). unfold f1. rewrite pipe_at_put by lia.
    assert (forall w, ends (put_description d1 (pipe_end p true fl) f2) q w = ends f q w + c_bool (is_end q w (pipe_end p false fl)) + c_bool (is_end q w (pipe_end p true fl))) as Eends.
    { intros w. unfold ends. cbn [descriptions put_description f2 put_pipe f1].
      assert (descriptions f !! d0 = Some (description f d0)) as L0 by (by apply (description_lookup f delta)).
      assert (<[d0 := pipe_end p false fl]> (descriptions f) !! d1 = Some (description f d1)) as L1
        by (rewrite list_lookup_insert_ne by done; by apply (description_lookup f delta)).
      rewrite (count_insert _ _ _ _ _ L1), (count_insert _ _ _ _ _ L0). unfold is_end at 2 4. rewrite E0, E1. cbn [truth negb Z.eqb andb c_bool]. lia. }
    rewrite !Eends, !is_end_pipe_end. destruct (He q Hq) as [Er Ew]. destruct (decide (q = p)) as [->|Hqp].
    + rewrite bool_decide_true by done. cbn [andb Bool.eqb c_bool readers writers x]. lia.
    + rewrite bool_decide_false by congruence. cbn [andb c_bool]. lia.
  - intros i q Hi. rewrite Ed3, Ed2. repeat destruct (decide _); [intros _ [= <-]; done|intros _ [= <-]; done|by apply Ho].
Qed.
Lemma new_pipe_ok fl f fd0 fd1 f' : files_ok f -> new_pipe fl f = inr (fd0, fd1, f') ->
  files_ok f' /\ file_task f' = file_task f /\ 0 <= fd0 < 16 /\ 0 <= fd1 < 16 /\ fd0 <> fd1 /\
  (forall s i, (s < 3)%nat -> 0 <= i < 16 -> s <> file_task f -> slot_file f' s i = slot_file f s i) /\ pending_io f' = pending_io f.
Proof.
  intros Hf Hn. unfold new_pipe in Hn.
  destruct (two_fds_spec (Z.to_nat FD_COUNT) 0 f) as [Hfds Hnd]. destruct (two_fds _ 0 f) as [|a [|b fds]] eqn:Efds; [done|done|].
  destruct (free_descriptions_spec (descriptions f) 0) as [Hds Hndd]. destruct (free_descriptions _ 0) as [|d0 [|d1 ds]] eqn:Eds; [done|done|].
  destruct (free_pipe (pipes f) 0) as [p|] eqn:Ep; [|done]. injection Hn as -> -> <-.
  apply free_pipe_spec in Ep as (_ & x & Hx & Hr & Hw). rewrite Nat.sub_0_r in Hx.
  rewrite !Forall_cons in Hfds. rewrite !Forall_cons in Hds. destruct Hfds as ([Ha Hfa] & [Hb Hfb] & _). destruct Hds as ((_ & o0 & Ho0 & Er0) & (_ & o1 & Ho1 & Er1) & _).
  rewrite Nat.sub_0_r in Ho0, Ho1. change (0 + Z.of_nat (Z.to_nat FD_COUNT)) with 16 in Ha, Hb.
  apply NoDup_cons in Hnd as [Hab _]. rewrite not_elem_of_cons in Hab. apply NoDup_cons in Hndd as [Hdd _]. rewrite not_elem_of_cons in Hdd.
  pose proof (b_descriptions _ _ Hf) as Hl. pose proof (proj1 (b_pipes _ _ Hf)) as Hpl.
  pose proof (lookup_lt_Some _ _ _ Ho0). pose proof (lookup_lt_Some _ _ _ Ho1). pose proof (lookup_lt_Some _ _ _ Hx).
  assert (pipe_at f p = x) as Ex by (unfold pipe_at; by apply nth_lookup_Some).
  assert (description f d0 = o0 /\ description f d1 = o1) as [E0 E1] by (unfold description; split; by apply nth_lookup_Some).
  set (cl := if truth (Z.land fl O_CLOEXEC) then 1 else 0). set (pp := {| readers := 1; writers := 1; pipe_head := 0; pipe_used := 0; pipe_data := pipe_data (pipe_at f p) |}).
  pose proof (balanced_new_pipe f _ p d0 d1 fl (pipe_data (pipe_at f p)) Hf ltac:(lia) ltac:(by rewrite Ex) ltac:(by rewrite Ex) ltac:(lia) ltac:(lia) (proj1 Hdd)
    ltac:(by rewrite E0) ltac:(by rewrite E1) (pipe_data_length _ (proj2 (pipe_lookup f _ p Hf ltac:(lia))))) as Hb0. fold pp in Hb0.
  set (g := put_description d1 (pipe_end p true fl) (put_description d0 (pipe_end p false fl) (put_pipe p pp f))) in *.
  assert (forall s i, slot_file g s i = slot_file f s i) as Eg by done.
  pose proof (balanced_slot g _ (file_task f) fd0 (Some d0) cl Hb0 (b_task _ _ Hf) Ha ltac:(cbn; lia)) as Hb1. rewrite Eg, Hfa in Hb1.
  assert (slot_file (put_slot (file_task f) fd0 (Some d0) cl g) (file_task f) fd1 = None) as Efd1.
  { rewrite (slot_file_put _ _ _ _ _ _ _ _ Hb0) by (done || apply Hf). rewrite decide_False by (intros [_ E]; destruct Hab as [Hab _]; congruence). by rewrite Eg. }
  pose proof (balanced_slot _ _ (file_task f) fd1 (Some d1) cl Hb1 (b_task _ _ Hf) Hb ltac:(cbn; lia)) as Hb2. rewrite Efd1 in Hb2.
  split; [|split; [done|split; [done|split; [done|split; [apply Hab|split; [|done]]]]]].
  - eapply balanced_ext; [|exact Hb2]. intros i _. unfold bump, names. rewrite (bool_decide_false (None = Some i)) by congruence. cbn [c_bool].
    destruct Hdd as [Hdd _]. destruct (decide (i = d1)) as [->|]; [|destruct (decide (i = d0)) as [->|]].
    + rewrite (bool_decide_true (Some d1 = Some d1)), (bool_decide_false (Some d0 = Some d1)) by congruence. rewrite decide_False by done. cbn [c_bool]. lia.
    + rewrite (bool_decide_false (Some d1 = Some d0)), (bool_decide_true (Some d0 = Some d0)) by congruence. cbn [c_bool]. lia.
    + rewrite !bool_decide_false by congruence. cbn [c_bool]. lia.
  - intros s i Hs Hi Hne. transitivity (slot_file (put_slot (file_task f) fd1 (Some d1) cl (put_slot (file_task f) fd0 (Some d0) cl g)) s i); [done|].
    rewrite (slot_file_put _ _ _ _ _ _ _ _ Hb1) by (done || apply Hf). rewrite decide_False by (intros [E _]; congruence).
    rewrite (slot_file_put _ _ _ _ _ _ _ _ Hb0) by (done || apply Hf). rewrite decide_False by (intros [E _]; congruence). apply Eg.
Qed.
