(* ===== verification/LinuxTask.v ===== *)
(** * Tasks and their scheduler (src/linux_task.c)

    Three slots share one arena of physical memory: the running task has it,
    the others have a snapshot each.  A task gives it up when it waits, blocks on a
    pipe, yields or ends. *)
From Stdlib Require Import String.
From S2P Require Import Prelude CString LinuxMemory LinuxKernel LinuxFiles.

Definition ARENA_SIZE : Z := APP_STACK_TOP - APP_LOAD_MIN.
Definition zero_frame : LinuxTrapFrame :=
  {| edi := 0; esi := 0; ebp := 0; saved_esp := 0; ebx := 0; edx := 0; ecx := 0; eax := 0; gs := 0; fs := 0; es := 0; ds := 0;
     eip := 0; cs := 0; eflags := 0; user_esp := 0; ss := 0 |}.
Definition set_eax (v : Z) (r : LinuxTrapFrame) : LinuxTrapFrame :=
  {| edi := edi r; esi := esi r; ebp := ebp r; saved_esp := saved_esp r; ebx := ebx r; edx := edx r; ecx := ecx r; eax := v;
     gs := gs r; fs := fs r; es := es r; ds := ds r; eip := eip r; cs := cs r; eflags := eflags r; user_esp := user_esp r; ss := ss r |}.
Definition no_memory : LinuxMemoryState := {| state_base := 0; state_heap_base := 0; state_heap_break := 0 |}.
Definition no_task : Task :=
  {| task_state := UNUSED; pid := 0; parent := 0; status := 0; wait_pid := 0; wait_status := 0; task_frame := zero_frame; task_memory := no_memory; task_cwd := [] |}.
Definition task_at (t : Tasks) (i : nat) : Task := nth i (tasks t) no_task.
Definition put_task_at (i : nat) (x : Task) (t : Tasks) : Tasks :=
  {| tasks := <[i := x]> (tasks t); current := current t; next_pid := next_pid t; root_status := root_status t |}.
Definition set_current (i : nat) (t : Tasks) : Tasks := {| tasks := tasks t; current := i; next_pid := next_pid t; root_status := root_status t |}.
Definition set_next_pid (p : Z) (t : Tasks) : Tasks := {| tasks := tasks t; current := current t; next_pid := p; root_status := root_status t |}.
Definition set_root_status (s : Z) (t : Tasks) : Tasks := {| tasks := tasks t; current := current t; next_pid := next_pid t; root_status := s |}.
Definition set_state (s : TaskState) (x : Task) : Task :=
  {| task_state := s; pid := pid x; parent := parent x; status := status x; wait_pid := wait_pid x; wait_status := wait_status x;
     task_frame := task_frame x; task_memory := task_memory x; task_cwd := task_cwd x |}.
Definition set_status (v : Z) (x : Task) : Task :=
  {| task_state := task_state x; pid := pid x; parent := parent x; status := v; wait_pid := wait_pid x; wait_status := wait_status x;
     task_frame := task_frame x; task_memory := task_memory x; task_cwd := task_cwd x |}.
Definition set_parent (v : Z) (x : Task) : Task :=
  {| task_state := task_state x; pid := pid x; parent := v; status := status x; wait_pid := wait_pid x; wait_status := wait_status x;
     task_frame := task_frame x; task_memory := task_memory x; task_cwd := task_cwd x |}.
Definition set_wait (p s : Z) (x : Task) : Task :=
  {| task_state := task_state x; pid := pid x; parent := parent x; status := status x; wait_pid := p; wait_status := s;
     task_frame := task_frame x; task_memory := task_memory x; task_cwd := task_cwd x |}.
Definition set_saved (r : LinuxTrapFrame) (m : LinuxMemoryState) (cwd : list Z) (x : Task) : Task :=
  {| task_state := task_state x; pid := pid x; parent := parent x; status := status x; wait_pid := wait_pid x; wait_status := wait_status x;
     task_frame := r; task_memory := m; task_cwd := cwd |}.
Definition set_frame (r : LinuxTrapFrame) (x : Task) : Task := set_saved r (task_memory x) (task_cwd x) x.
Definition update (i : nat) (f : Task -> Task) (t : Tasks) : Tasks := put_task_at i (f (task_at t i)) t.
Definition slots : list nat := [0; 1; 2]%nat.

Definition linux_task_init : Tasks :=
  {| tasks := {| task_state := RUNNING; pid := 1; parent := 0; status := 0; wait_pid := 0; wait_status := 0; task_frame := zero_frame; task_memory := no_memory; task_cwd := [] |}
              :: replicate 2 no_task; current := 0; next_pid := 2; root_status := 0 |}.
Definition live (x : Task) : bool := negb (bool_decide (task_state x = UNUSED)).
Definition has_state (s : TaskState) (x : Task) : bool := bool_decide (task_state x = s).
Definition matches (p c : Task) (wanted : Z) : bool := live c && (parent c =? pid p) && ((wanted <=? 0) || (pid c =? wanted)).

(** ** Snapshots: copies between regions of physical memory *)
Definition snapshot (slot : nat) : Z := APP_STACK_TOP + Z.of_nat slot * ARENA_SIZE.
Definition copy_range (dst src n : Z) (y : Z -> Z) : Z -> Z := fun a => if (dst <=? a) && (a <? dst + n) then y (src + (a - dst)) else y a.
Definition copy_in (dst : Z) (bs : list Z) (y : Z -> Z) : Z -> Z := fun a => if (dst <=? a) && (a <? dst + zlen bs) then byte_at bs (a - dst) else y a.
Definition set_bytes (y : Z -> Z) (m : Memory) : Memory := set_heap (heap_break m) y m.

(** A waiting parent takes its first ended child; the status goes to its
    snapshot. *)
Fixpoint take_child (i : nat) (js : list nat) (t : Tasks) (y : Z -> Z) : Tasks * (Z -> Z) :=
  match js with
  | [] => (t, y)
  | j :: js' =>
      let p := task_at t i in
      let c := task_at t j in
      if negb (has_state ZOMBIE c) || negb (matches p c (wait_pid p)) then take_child i js' t y
      else
        let y := if truth (wait_status p) then copy_in (u32 (snapshot i + u32 (wait_status p - state_base (task_memory p)))) (le32_bytes (u32 (status c))) y else y in
        let t := update i (fun x => set_state READY (set_frame (set_eax (u32 (pid c)) (task_frame x)) x)) t in
        (update j (set_state UNUSED) t, y)
  end.
Fixpoint wake_waiters (ps : list nat) (t : Tasks) (y : Z -> Z) : Tasks * (Z -> Z) :=
  match ps with
  | [] => (t, y)
  | i :: ps' =>
      let '(t, y) := if has_state WAITING (task_at t i) then take_child i slots t y else (t, y) in
      wake_waiters ps' t y
  end.

Section Run.
Context {W : Type} `{Layout} `{Services W}.

Definition save_current : KM W unit :=
  r ← get regs;
  m ← get mem;
  t ← get sched;
  cwd ← call (fs_getcwd 4096);
  let '(n, path) := (cwd : Z * list Z) in
  if n <? 0 then panic
  else
    put_sched (update (current t) (set_saved r (linux_memory_capture m) path) t);;
    put_mem (set_bytes (copy_range (snapshot (current t)) APP_LOAD_MIN ARENA_SIZE (bytes m)) m).

(** The slot to run next, if any: the others in turn, the current one last. *)
Definition ready (f : Files) (t : Tasks) (slot : nat) : bool :=
  has_state READY (task_at t slot) || (has_state IO_WAITING (task_at t slot) && linux_io_ready slot f).
Fixpoint next_slot (n : nat) (step : nat) (f : Files) (t : Tasks) : option nat :=
  match n with
  | O => None
  | S n' => let slot := ((current t + step) mod 3)%nat in if ready f t slot then Some slot else next_slot n' (S step) f t
  end.
Definition switch_to (slot : nat) : KM W unit :=
  t ← get sched;
  m ← get mem;
  let m := linux_memory_leave m in
  let m := set_bytes (copy_range APP_LOAD_MIN (snapshot slot) ARENA_SIZE (bytes m)) m in
  put_mem (linux_memory_resume (task_memory (task_at t slot)) m);;
  failed ← call (fs_cd (task_cwd (task_at t slot)));
  if (failed : bool) then panic
  else
    t ← get sched;
    put_sched (update slot (set_state RUNNING) (set_current slot t));;
    f ← get files;
    put_files (linux_files_switch slot f);;
    put_regs (task_frame (task_at t slot)).

(** Nothing can run: the launch ends, with 125 if tasks are stuck. *)
Definition blocked (x : Task) : bool := has_state IO_WAITING x || has_state WAITING x.
Definition end_launch : KM W unit :=
  t ← get sched;
  (if existsb (fun i => blocked (task_at t i)) slots then call (fun w => (tt, println "Linux processes blocked with no runnable peer"%string w));; put_sched (set_root_status 125 t) else mret tt : KM W unit);;
  f ← get files;
  put_files (fold_left (fun f i => linux_files_exit i f) slots f);;
  t ← get sched;
  leave_user (root_status t).

(** The children of an ended task go to the first task while it lives. *)
Definition reparent (ended : Task) (t : Tasks) : Tasks :=
  fold_left (fun t i => if live (task_at t i) && (parent (task_at t i) =? pid ended)
                        then update i (set_parent (if has_state ZOMBIE (task_at t 0) then 0 else 1)) t else t) [1; 2]%nat t.
Definition exit_status (v : Z) : Z := if truth (Z.land v 127) then 128 + Z.land v 127 else Z.shiftr v 8.
Definition end_current (v : Z) (t : Tasks) : Tasks :=
  let t := update (current t) (fun x => set_state ZOMBIE (set_status v x)) t in
  let t := if (current t =? 0)%nat then set_root_status (exit_status v) t else t in
  reparent (task_at t (current t)) t.
(** [schedule] and [exit_task] call each other; the fuel bounds the depth. *)
Fixpoint schedule (fuel : nat) : KM W unit :=
  match fuel with
  | O => panic
  | S fuel' =>
      t ← get sched;
      m ← get mem;
      let '(t, y) := wake_waiters slots t (bytes m) in
      put_sched t;; put_mem (set_bytes y m);;
      f ← get files;
      match next_slot 3 1 f t with
      | None => end_launch
      | Some slot =>
          let io := has_state IO_WAITING (task_at t slot) in
          switch_to slot;;
          if negb io then mret tt
          else
            result ← linux_io_resume;
            if result =? LINUX_IO_WAIT then
              t ← get sched;
              put_sched (update slot (set_state IO_WAITING) t);; schedule fuel'
            else if result =? LINUX_IO_SIGPIPE then
              t ← get sched;
              put_sched (end_current 13 t);;
              f ← get files;
              put_files (linux_files_exit (current t) f);; schedule fuel'
            else r ← get regs; put_regs (set_eax (u32 result) r)
      end
  end.
Definition SCHEDULE_FUEL : nat := 16.
Definition run_schedule : KM W unit := schedule SCHEDULE_FUEL.
Definition exit_task (v : Z) : KM W unit :=
  t ← get sched;
  put_sched (end_current v t);;
  f ← get files;
  put_files (linux_files_exit (current t) f);; run_schedule.

(** ** System calls on tasks *)
Definition free_task (t : Tasks) : option nat := List.find (fun i => negb (live (task_at t i))) slots.
Definition fork_task : KM W Z :=
  t ← get sched;
  match free_task t with
  | None => mret (-11)
  | Some child =>
      if next_pid t =? 0x7fffffff then mret (-11)
      else
        let p := current t in
        let new_pid := next_pid t in
        put_sched (set_next_pid (new_pid + 1) t);;
        r ← get regs;
        put_regs (set_eax (u32 new_pid) r);;
        save_current;;
        t ← get sched;
        let t := update p (set_state READY) t in
        let t := put_task_at child {| task_state := RUNNING; pid := new_pid; parent := pid (task_at t p); status := 0; wait_pid := 0; wait_status := 0;
                                      task_frame := zero_frame; task_memory := no_memory; task_cwd := [] |} t in
        f ← get files;
        put_sched (set_current child t);;
        put_files (linux_files_switch child (linux_files_fork p child f));;
        r ← get regs;
        put_regs (set_eax 0 r);; mret 0
  end.
(** Whether the task has a child to wait for, and one that has ended. *)
Definition children (p : Task) (wanted : Z) (t : Tasks) : list nat := List.filter (fun i => matches p (task_at t i) wanted) slots.
Definition ended_child (p : Task) (wanted : Z) (t : Tasks) : option nat := List.find (fun i => has_state ZOMBIE (task_at t i)) (children p wanted t).
Definition wait_task : KM W Z :=
  r ← get regs;
  let wanted := s32 (ebx r) in
  if truth (Z.land (edx r) (u32 (Z.lnot 1))) then mret (-22)
  else if wanted <? -1 then mret (-38)
  else
    ok ← user_range (ecx r) 4;
    if truth (ecx r) && negb (ok : bool) then mret (-14)
    else
      t ← get sched;
      let p := task_at t (current t) in
      match ended_child p wanted t with
      | Some i =>
          let c := task_at t i in
          (if truth (ecx r) then store_bytes (ecx r) (le32_bytes (u32 (status c))) else mret tt : KM W unit);;
          put_sched (update i (set_state UNUSED) t);; mret (pid c)
      | None =>
          if zlen (children p wanted t) =? 0 then mret (-10)
          else if truth (Z.land (edx r) 1) then mret 0
          else
            put_sched (update (current t) (set_wait wanted (ecx r)) t);;
            save_current;;
            t ← get sched;
            put_sched (update (current t) (set_state WAITING) t);; run_schedule;;
            r ← get regs; mret (s32 (eax r))
      end.
Definition NR_exit : Z := 1.
Definition NR_fork : Z := 2.
Definition NR_waitpid : Z := 7.
Definition NR_getpid : Z := 20.
Definition NR_getppid : Z := 64.
Definition NR_sched_yield : Z := 158.
Definition NR_exit_group : Z := 252.
Definition return_eax (v : Z) : KM W unit := r ← get regs; put_regs (set_eax (u32 v) r).
(** Whether the call was one of these. *)
Definition linux_task_syscall : KM W bool :=
  r ← get regs;
  let n := eax r in
  if n =? NR_fork then e ← fork_task; (if truth e then return_eax e else mret tt : KM W unit);; mret true
  else if n =? NR_waitpid then v ← wait_task; return_eax v;; mret true
  else if (n =? NR_exit) || (n =? NR_exit_group) then exit_task (Z.shiftl (Z.land (ebx r) 255) 8);; mret true
  else if n =? NR_getpid then t ← get sched; return_eax (pid (task_at t (current t)));; mret true
  else if n =? NR_getppid then t ← get sched; return_eax (parent (task_at t (current t)));; mret true
  else if n =? NR_sched_yield then
    return_eax 0;; save_current;;
    t ← get sched;
    put_sched (update (current t) (set_state READY) t);; run_schedule;; mret true
  else mret false.
Definition linux_task_fault_from_regs : KM W unit := exit_task 11.
Definition linux_task_io_result (result : Z) : KM W unit :=
  if result =? LINUX_IO_SIGPIPE then exit_task 13
  else
    save_current;;
    t ← get sched;
    put_sched (update (current t) (set_state IO_WAITING) t);; run_schedule.
End Run.
