(* ===== verification/LinuxExec.v ===== *)
(** * Starting programs (src/linux_exec.c)

    The arguments of a new program are staged in kernel memory, then the
    arena is rebuilt: zeros, the segments of the image, and at the top the
    strings, the path, the program headers if no segment holds them, and the
    words of the initial stack. *)
From Stdlib Require Import String.
From S2P Require Import Prelude CString ElfFormat LinuxMemory LinuxKernel LinuxFiles LinuxTask.

Definition VECTOR_MAX : Z := 64.
Definition STRING_MAX : Z := 8192.
Definition EXEC_PATH_MAX : Z := 128.

Definition set_plan (p : ElfPlan) (s : Staged) : Staged :=
  {| plan := p; staged_strings := staged_strings s; exec_path := exec_path s; offsets := offsets s; argc := argc s; envc := envc s |}.
Definition set_strings (l : list Z) (s : Staged) : Staged :=
  {| plan := plan s; staged_strings := l; exec_path := exec_path s; offsets := offsets s; argc := argc s; envc := envc s |}.
Definition set_path (l : list Z) (s : Staged) : Staged :=
  {| plan := plan s; staged_strings := staged_strings s; exec_path := l; offsets := offsets s; argc := argc s; envc := envc s |}.
Definition set_offset (i v : Z) (s : Staged) : Staged :=
  {| plan := plan s; staged_strings := staged_strings s; exec_path := exec_path s; offsets := <[Z.to_nat i := v]> (offsets s); argc := argc s; envc := envc s |}.
(** One of the two counts: the one of the arguments or of the environment. *)
Definition set_count (environment : bool) (v : Z) (s : Staged) : Staged :=
  {| plan := plan s; staged_strings := staged_strings s; exec_path := exec_path s; offsets := offsets s;
     argc := if environment then argc s else v; envc := if environment then v else envc s |}.
Definition set_staged (s : Staged) (e : Exec) : Exec := {| staged := s; exec_active := exec_active e; pending_entry := pending_entry e; pending_stack := pending_stack e |}.
Definition set_exec_active (b : bool) (e : Exec) : Exec := {| staged := staged e; exec_active := b; pending_entry := pending_entry e; pending_stack := pending_stack e |}.
Definition set_pending (entry stack : Z) (e : Exec) : Exec := {| staged := staged e; exec_active := exec_active e; pending_entry := entry; pending_stack := stack |}.
(** The number of bytes staged. *)
Definition used (s : Staged) : Z := zlen (staged_strings s).

Section Exec.
Context {W : Type} `{Layout} `{Services W}.
Definition stage (f : Staged -> Staged) : KM W unit := e ← get exec; put_exec (set_staged (f (staged e)) e).
Definition push (c : Z) : KM W unit := stage (fun s => set_strings (staged_strings s ++ [c]) s).

(** ** Staging *)
(** The bytes of a user string; [n]: the room left. *)
Fixpoint stage_user (n : nat) (address : Z) : KM W Z :=
  match n with
  | O => mret (-7)
  | S n' =>
      ok ← user_range address 1;
      if negb (ok : bool) then mret (-14)
      else
        c ← load_bytes 1 address;
        push (byte_at c 0);;
        if byte_at c 0 =? 0 then mret 0 else stage_user n' (u32 (address + 1))
  end.
Definition room (s : Staged) : nat := Z.to_nat (STRING_MAX - used s).
Definition stage_string (address i : Z) : KM W Z :=
  stage (fun s => set_offset i (used s) s);;
  e ← get exec;
  stage_user (room (staged e)) address.
(** The bytes of a kernel string, its end included. *)
Fixpoint stage_kernel (n : nat) (text : list Z) : KM W Z :=
  match n with
  | O => mret (-7)
  | S n' =>
      push (head_char text);;
      if head_char text =? 0 then mret 0 else stage_kernel n' (tail text)
  end.
Definition stage_text (text : list Z) (i : Z) : KM W Z :=
  stage (fun s => set_offset i (used s) s);;
  e ← get exec;
  stage_kernel (room (staged e)) text.
(** [n]: the entries left, [count] those staged. *)
Fixpoint stage_entries (n : nat) (address first count : Z) (environment : bool) : KM W Z :=
  ok ← user_range address 4;
  if negb (ok : bool) then mret (-14)
  else
    text ← load32 address;
    if text =? 0 then mret 0
    else
      match n with
      | O => mret (-7)
      | S n' =>
          error ← stage_string text (first + count);
          if truth error then mret error
          else
            stage (set_count environment (count + 1));;
            stage_entries n' (u32 (address + 4)) first (count + 1) environment
      end.
Definition stage_vector (address first : Z) (environment : bool) : KM W Z :=
  stage (set_count environment 0);;
  if address =? 0 then mret 0 else stage_entries (Z.to_nat VECTOR_MAX) address first 0 environment.

(** ** Installing the image *)
Definition segment_bytes (image : list Z) (s : ElfSegment) : list Z := take (Z.to_nat (file_size s)) (drop (Z.to_nat (offset s)) image).
Definition place_segments (image : list Z) (delta : Z) (l : list ElfSegment) (y : Z -> Z) : Z -> Z :=
  fold_left (fun y s => copy_in (u32 (address s - delta)) (segment_bytes image s) y) l y.
Definition clear_arena (y : Z -> Z) : Z -> Z := fun a => if (APP_LOAD_MIN <=? a) && (a <? APP_STACK_TOP) then 0 else y a.
Definition segments_end (l : list ElfSegment) (e : Z) : Z :=
  fold_left (fun e s => if e <? u32 (address s + memory_size s) then u32 (address s + memory_size s) else e) l e.
Definition auxv (phdr phnum entry uid execfn : Z) : list Z :=
  [3; phdr; 4; 32; 5; phnum; 6; 4096; 7; 0; 8; 0; 9; entry; 11; uid; 12; uid; 13; uid; 14; uid; 23; 0; 31; execfn; 0; 0].
(** The words at the initial stack pointer. *)
Definition stack_words (s : Staged) (strings : Z) (aux : list Z) : list Z :=
  argc s :: map (fun o => u32 (strings + o)) (take (Z.to_nat (argc s)) (offsets s)) ++
  [0] ++ map (fun o => u32 (strings + o)) (take (Z.to_nat (envc s)) (drop (Z.to_nat VECTOR_MAX) (offsets s))) ++ [0] ++ aux.
Definition words_bytes (l : list Z) : list Z := concat (map le32_bytes l).
Definition align_down (n a : Z) : Z := Z.land n (u32 (Z.lnot (a - 1))).
(** The strings, then the path below them, then the headers if needed:
    stack pointer, addresses of the path and of the headers, memory. *)
Definition place_strings (s : Staged) (image : list Z) (y : Z -> Z) : Z * Z * Z * Z * (Z -> Z) :=
  let p := plan s in
  let delta := u32 (base p - APP_LOAD_MIN) in
  let y := place_segments image delta (segments p) (clear_arena y) in
  let sp := u32 (APP_STACK_TOP - used s) in
  let y := copy_in sp (staged_strings s) y in
  let strings := u32 (sp + delta) in
  let path := cstr (exec_path s) ++ [0] in
  let sp := u32 (sp - zlen path) in
  let y := copy_in sp path y in
  let execfn := u32 (sp + delta) in
  if phdr p =? 0 then
    let sp := align_down (u32 (sp - phnum p * 32)) 4 in
    (sp, strings, execfn, u32 (sp + delta), copy_in sp (take (Z.to_nat (phnum p * 32)) (drop (Z.to_nat (phoff p)) image)) y)
  else (sp, strings, execfn, phdr p, y).
Definition install_image (image : list Z) : KM W Z :=
  e ← get exec;
  m ← get mem;
  let s := staged e in
  let p := plan s in
  let delta := u32 (base p - APP_LOAD_MIN) in
  let '(sp, strings, execfn, headers, y) := place_strings s image (bytes m) in
  uid ← call permissions_uid;
  let words := stack_words s strings (auxv headers (phnum p) (entry p) (u32 uid) execfn) in
  let sp := align_down (u32 (sp - zlen words * 4)) 16 in
  put_mem (linux_memory_enter (base p) (segments_end (segments p) (base p)) (set_bytes (copy_in sp (words_bytes words) y) m));;
  mret (u32 (sp + delta)).

(** ** Launching *)
(** The assembly that enters the program; it comes back with the status that
    [linux_leave_user] was given. *)
Context (linux_enter_user : Z -> Z -> KM W Z).
Fixpoint stage_arguments (l : list (option (list Z))) (i : Z) : KM W Z :=
  match l with
  | [] => mret 0
  | None :: _ => mret (-22)
  | Some text :: l' =>
      error ← stage_text text i;
      if truth error then mret error else stage_arguments l' (i + 1)
  end.
(** The name of the program is the first argument, cut to the buffer. *)
Definition name_path (l : list (option (list Z))) (path : list Z) : list Z :=
  match l with
  | Some name :: _ => let n := Z.min (strlen name) (EXEC_PATH_MAX - 1) in splice (splice path 0 (take (Z.to_nat n) name)) n [0]
  | _ => path
  end.
(** The result, and the status of the program if it ran.  [argv] is [None] for NULL; [status]: whether that pointer is not NULL. *)
Definition linux_run_image (image : list Z) (size count : Z) (argv : option (list (option (list Z)))) (status : bool) : KM W (Z * option Z) :=
  e ← get exec;
  if exec_active e || negb status || (count <? 0) || (VECTOR_MAX <? count) || (truth count && negb (bool_decide (is_Some argv))) then mret (-22, None)
  else
    cwd ← call (fs_getcwd 4096);
    let '(n, previous) := (cwd : Z * list Z) in
    if n <? 0 then mret (n, None)
    else
      let '(error, p) := validate_into (Some image) size (plan (staged e)) in
      stage (set_plan p);;
      match error with
      | Some text => call (fun w => (tt, println text (println "Linux ELF: "%string w)));; mret (-8, None)
      | None =>
          if legacy p then mret (-8, None)
          else
            let l := take (Z.to_nat count) (default [] argv) in
            stage (fun s => set_path (splice (exec_path s) 0 [0]) (set_strings [] (set_count true 0 (set_count false count s))));;
            error ← stage_arguments l 0;
            if truth error then mret (error, None)
            else
              stage (fun s => set_path (name_path l (exec_path s)) s);;
              e ← get exec;
              put_exec (set_pending 0 (pending_stack e) (set_exec_active true e));;
              put_files linux_syscall_reset;;
              put_sched linux_task_init;;
              sp ← install_image image;
              e ← get exec;
              result ← linux_enter_user (entry (plan (staged e))) sp;
              m ← get mem;
              put_mem (linux_memory_leave m);;
              e ← get exec;
              put_exec (set_exec_active false e);;
              failed ← call (fs_cd previous);
              mret (if failed : bool then -5 else 0, Some result)
      end.
Definition linux_run (path : list Z) (count : Z) (argv : option (list (option (list Z)))) (status : bool) : KM W (Z * option Z) :=
  e ← get exec;
  if exec_active e then mret (-16, None)
  else
    r ← call (fs_load_executable path);
    let '(size, image) := (r : Z * list Z) in
    if size <? 0 then mret (size, None) else linux_run_image image size count argv status.

(** ** Replacing the program *)
Fixpoint copy_exec_path (n : nat) (i address : Z) : KM W Z :=
  match n with
  | O => mret (-36)
  | S n' =>
      ok ← user_range address 1;
      if negb (ok : bool) then mret (-14)
      else
        c ← load_bytes 1 address;
        stage (fun s => set_path (splice (exec_path s) i [byte_at c 0]) s);;
        if byte_at c 0 =? 0 then mret 0 else copy_exec_path n' (i + 1) (u32 (address + 1))
  end.
(** An empty argument list becomes one empty argument. *)
Definition stage_empty : KM W Z :=
  e ← get exec;
  if truth (argc (staged e)) then mret 0
  else
    error ← stage_text [] 0;
    if truth error then mret error else stage (set_count false 1);; mret 0.
Definition linux_execve (path argv envp : Z) : KM W Z :=
  e ← get exec;
  if negb (exec_active e) then mret (-22)
  else
    error ← copy_exec_path (Z.to_nat EXEC_PATH_MAX) 0 path;
    if truth error then mret error
    else
      e ← get exec;
      let name := cstr (exec_path (staged e)) in
      error ← call (fs_exec_check name);
      if truth error then mret error
      else
        r ← call (fs_load_executable name);
        let '(size, image) := (r : Z * list Z) in
        if size <? 0 then mret size
        else
          e ← get exec;
          let '(invalid, p) := validate_into (Some image) size (plan (staged e)) in
          stage (set_plan p);;
          if bool_decide (is_Some invalid) || legacy p then mret (-8)
          else
            stage (set_strings []);;
            error ← stage_vector argv 0 false;
            if truth error then mret error
            else
              error ← stage_vector envp VECTOR_MAX true;
              if truth error then mret error
              else
                error ← stage_empty;
                if truth error then mret error
                else
                  m ← get mem;
                  put_mem (linux_memory_leave m);;
                  sp ← install_image image;
                  e ← get exec;
                  put_exec (set_pending (entry (plan (staged e))) sp e);;
                  f ← get files;
                  put_files (linux_syscall_exec f);; mret 0.
Definition entry_frame (entry stack : Z) : LinuxTrapFrame :=
  {| edi := 0; esi := 0; ebp := 0; saved_esp := 0; ebx := 0; edx := 0; ecx := 0; eax := 0; gs := 0x23; fs := 0x23; es := 0x23; ds := 0x23;
     eip := entry; cs := 0x1b; eflags := 2; user_esp := stack; ss := 0x23 |}.
Definition linux_exec_apply : KM W unit :=
  e ← get exec;
  if pending_entry e =? 0 then mret tt
  else put_regs (entry_frame (pending_entry e) (pending_stack e));; put_exec (set_pending 0 (pending_stack e) e).
End Exec.
