(* ===== verification/LinuxSyscall.v ===== *)
(** * The system calls (src/linux_syscall.c, src/linux_idt.c)

    The dispatcher and the calls on files; calls on tasks are taken out
    before it, and a call that has to wait goes back to the scheduler. *)
From Stdlib Require Import String.
From S2P Require Import Prelude CString ElfFormat LinuxMemory LinuxKernel LinuxFiles LinuxTask LinuxExec.

Record LinuxSyscallFrame := { sys_eax : Z; sys_ebx : Z; sys_ecx : Z; sys_edx : Z; sys_esi : Z; sys_edi : Z; sys_ebp : Z }.
Definition NR_read : Z := 3.
Definition NR_write : Z := 4.
Definition NR_open : Z := 5.
Definition NR_close : Z := 6.
Definition NR_execve : Z := 11.
Definition NR_chdir : Z := 12.
Definition NR_lseek : Z := 19.
Definition NR_getuid : Z := 24.
Definition NR_access : Z := 33.
Definition NR_dup : Z := 41.
Definition NR_pipe : Z := 42.
Definition NR_brk : Z := 45.
Definition NR_getgid : Z := 47.
Definition NR_geteuid : Z := 49.
Definition NR_getegid : Z := 50.
Definition NR_ioctl : Z := 54.
Definition NR_fcntl : Z := 55.
Definition NR_dup2 : Z := 63.
Definition NR_getpgrp : Z := 65.
Definition NR_uname : Z := 122.
Definition NR_getdents : Z := 141.
Definition NR_readv : Z := 145.
Definition NR_writev : Z := 146.
Definition NR_getcwd : Z := 183.
Definition NR_getuid32 : Z := 199.
Definition NR_getgid32 : Z := 200.
Definition NR_geteuid32 : Z := 201.
Definition NR_getegid32 : Z := 202.
Definition NR_pipe2 : Z := 331.
Definition path_r : Z := 114.
Definition path_w : Z := 119.
Definition path_x : Z := 120.
Definition slash : Z := 47.
Definition is_one_of (n : Z) (l : list Z) : bool := existsb (Z.eqb n) l.

Section Syscalls.
Context {W : Type} `{Layout} `{Services W}.

(** The error or zero, and the path before its end. *)
Fixpoint copy_chars (n : nat) (address : Z) (out : list Z) : KM W (Z * list Z) :=
  match n with
  | O => mret (- ENAMETOOLONG, out)
  | S n' =>
      ok ← user_range address 1;
      if negb (ok : bool) then mret (- EFAULT, out)
      else
        c ← load_bytes 1 address;
        if byte_at c 0 =? 0 then mret (match out with [] => - ENOENT | _ => 0 end, out)
        else copy_chars n' (u32 (address + 1)) (out ++ [byte_at c 0])
  end.
Definition copy_path (address : Z) : KM W (Z * list Z) := copy_chars (Z.to_nat PATH_SIZE) address [].

(** ** Reading and writing *)
Definition wrong_mode (o : OpenFile) (writing : bool) : bool :=
  if writing then Z.land (flags o) O_ACCMODE =? 0 else Z.land (flags o) O_ACCMODE =? O_WRONLY.
Definition update_description (d : nat) (g : OpenFile -> OpenFile) : KM W unit :=
  f ← get files; put_files (put_description d (g (description f d)) f).
Definition transfer (fd address count : Z) (writing : bool) : KM W Z :=
  f ← get files;
  match get_file f fd with
  | None => mret (- EBADF)
  | Some d =>
      let o := description f d in
      if wrong_mode o writing then mret (- EBADF)
      else if is_directory o then mret (- EISDIR)
      else if bool_decide (is_Some (file_pipe o)) then pipe_transfer fd address count writing false
      else if count =? 0 then mret 0
      else
        ok ← user_range address count;
        if negb (ok : bool) then mret (- EFAULT)
        else if terminal o then
          if negb writing then c ← call getch; store_bytes address [u8 c];; mret 1
          else
            data ← load_bytes (Z.to_nat count) address;
            call (fun w => (tt, fold_left (fun w c => print_char c w) data w));; mret (s32 count)
        else if negb writing then
          r ← call (fs_read (file_name o) (position o) count);
          let '(got, data) := (r : Z * list Z) in
          store_bytes address data;;
          if got <? 0 then mret (- EIO) else update_description d (fun o => set_position (u32 (position o + got)) o);; mret got
        else
          data ← load_bytes (Z.to_nat count) address;
          last ← call (fs_pwrite (file_name o) (position o) data (truth (Z.land (flags o) O_APPEND)));
          if last <? 0 then mret last else update_description d (set_position (u32 last));; mret (s32 count)
  end.
(** Whether the lengths of the vectors pass: their sum fits an int. *)
Fixpoint sum_vectors (n : nat) (address sum : Z) : KM W bool :=
  match n with
  | O => mret true
  | S n' => l ← load32 (u32 (address + 4)); if u32 (0x7fffffff - sum) <? l then mret false else sum_vectors n' (u32 (address + 8)) (u32 (sum + l))
  end.
(** The vectors are read again as they are used. *)
Fixpoint transfer_vectors (n : nat) (fd address total : Z) (writing : bool) : KM W Z :=
  match n with
  | O => mret (s32 total)
  | S n' =>
      a ← load32 address; l ← load32 (u32 (address + 4));
      result ← transfer fd a l writing;
      if result <? 0 then mret (if truth total then s32 total else result)
      else
        let total := u32 (total + result) in
        l ← load32 (u32 (address + 4));
        if u32 result <? l then mret (s32 total) else transfer_vectors n' fd (u32 (address + 8)) total writing
  end.
Definition sys_vectors (a b c : Z) (writing : bool) : KM W Z :=
  f ← get files;
  match get_file f a with
  | None => mret (- EBADF)
  | Some d =>
      if bool_decide (is_Some (file_pipe (description f d))) then pipe_transfer a b c writing true
      else if 1024 <? c then mret (- EINVAL)
      else if c =? 0 then mret 0
      else
        ok ← user_range b (c * 8);
        if negb (ok : bool) then mret (- EFAULT)
        else
          fits ← sum_vectors (Z.to_nat c) b 0;
          if negb (fits : bool) then mret (- EINVAL) else transfer_vectors (Z.to_nat c) a b 0 writing
  end.

(** ** Opening *)
(** A path relative to the current directory; the error or zero. *)
Definition absolute_path (path : list Z) : KM W (Z * list Z) :=
  if head_char path =? slash then mret (0, path)
  else
    r ← call (fs_getcwd PATH_SIZE);
    let '(length, cwd) := (r : Z * list Z) in
    if length <? 0 then mret (length, path)
    else
      let prefix := u32 (length - 1) in
      let start := take (Z.to_nat prefix) cwd ++ (if 1 <? prefix then [slash] else []) in
      if PATH_SIZE <=? zlen start + strlen path then mret (- ENAMETOOLONG, path) else mret (0, start ++ path).
Definition open_flags : Z := Z.lor O_ACCMODE (Z.lor O_CREAT (Z.lor O_EXCL (Z.lor O_TRUNC (Z.lor O_APPEND (Z.lor O_NONBLOCK (Z.lor O_DIRECTORY O_CLOEXEC)))))).
(** The calls are made only as far as they are needed. *)
Definition forbidden (wanted : bool) (path : list Z) (operation : Z) : KM W bool :=
  if wanted then allowed ← call (check_permission path operation); mret (negb (allowed : bool)) else mret false.
Definition either (a b : KM W bool) : KM W bool := x ← a; if x : bool then mret true else b.
Definition opened (b : Z) (directory : bool) (path : list Z) : OpenFile :=
  {| refs := 1; position := 0; flags := Z.land b (Z.lor O_ACCMODE (Z.lor O_APPEND (Z.lor O_NONBLOCK O_DIRECTORY)));
     terminal := false; is_directory := directory; file_pipe := None; file_name := path |}.
(** Create and truncate as asked; the error or zero. *)
Definition prepare_file (path : list Z) (b : Z) (directory : bool) : KM W Z :=
  size ← (if directory then mret 0 else call (fs_file_size path) : KM W Z);
  if truth (Z.land b O_DIRECTORY) && negb directory then mret (if size <? 0 then - ENOENT else -20)
  else if (0 <=? size) && truth (Z.land b O_CREAT) && truth (Z.land b O_EXCL) then mret (-17)
  else
    error ← (if size <? 0 then
               if negb (truth (Z.land b O_CREAT)) then mret (- ENOENT)
               else e ← call (fs_write path []); mret (if truth e then - EIO else 0)
             else mret 0 : KM W Z);
    if truth error then mret error
    else if truth (Z.land b O_TRUNC) && truth (Z.land b O_ACCMODE) then e ← call (fs_write path []); mret (if truth e then - EIO else 0)
    else mret 0.
Definition sys_open (a b : Z) : KM W Z :=
  r ← copy_path a;
  let '(error, path) := (r : Z * list Z) in
  if truth error then mret error
  else
    r ← absolute_path path;
    let '(error, path) := (r : Z * list Z) in
    if truth error then mret error
    else if Z.land b O_ACCMODE =? 3 then mret (- EINVAL)
    else if truth (Z.land b (u32 (Z.lnot open_flags))) then mret (- EINVAL)
    else
      f ← get files;
      let fd := free_fd 0 f in
      if fd <? 0 then mret fd
      else
        match free_descriptions (descriptions f) 0 with
        | [] => mret (- EMFILE)
        | d :: _ =>
            denied ← either (forbidden (negb (Z.land b O_ACCMODE =? 1)) path path_r) (forbidden (negb (Z.land b O_ACCMODE =? 0)) path path_w);
            if denied : bool then mret (-13)
            else
              directory ← call (fs_is_dir path);
              if directory && (truth (Z.land b O_ACCMODE) || truth (Z.land b (Z.lor O_CREAT O_TRUNC))) then mret (- EISDIR)
              else
                error ← prepare_file path b directory;
                if truth error then mret error
                else
                  f ← get files;
                  put_files (put_slot (file_task f) fd (Some d) (if truth (Z.land b O_CLOEXEC) then 1 else 0) (put_description d (opened b directory path) f));;
                  mret fd
        end.

(** ** Descriptors *)
(** The descriptor [fd] now names the description too. *)
Definition point (fd : Z) (d : nat) (f : Files) : Files := share (Some d) (put_slot (file_task f) fd (Some d) 0 f).
Definition dup_to (a fd : Z) (d : nat) (f : Files) : Z * Files :=
  if fd <? 0 then (fd, f)
  else if fd =? a then (fd, f)
  else (fd, point fd d (if is_open f fd then (close_fd fd f).2 else f)).
Definition sys_dup (a b : Z) (two : bool) (f : Files) : Z * Files :=
  match get_file f a with
  | None => (- EBADF, f)
  | Some d => dup_to a (if two then (if b <? FD_COUNT then b else - EBADF) else free_fd 0 f) d f
  end.
Definition status_flags : Z := Z.lor O_ACCMODE (Z.lor O_APPEND (Z.lor O_NONBLOCK O_DIRECTORY)).
Definition sys_fcntl (a b c : Z) (f : Files) : Z * Files :=
  match get_file f a with
  | None => (- EBADF, f)
  | Some d =>
      let o := description f d in
      if b =? 0 then
        if FD_COUNT <=? c then (- EINVAL, f)
        else let fd := free_fd c f in if fd <? 0 then (fd, f) else (fd, point fd d f)
      else if b =? 1 then (slot_flags f (file_task f) a, f)
      else if b =? 2 then (0, put_slot (file_task f) a (Some d) (Z.land c 1) f)
      else if b =? 3 then (s32 (flags o), f)
      else if b =? 4 then
        if truth (Z.land c (u32 (Z.lnot status_flags))) then (- EINVAL, f)
        else if terminal o && truth (Z.land c O_NONBLOCK) then (- EINVAL, f)
        else (0, put_description d (set_file_flags (Z.lor (Z.land (flags o) (Z.lor O_ACCMODE O_DIRECTORY)) (Z.land c (Z.lor O_APPEND O_NONBLOCK))) o) f)
      else if (b =? 1032) && bool_decide (is_Some (file_pipe o)) then (PIPE_SIZE, f)
      else (- EINVAL, f)
  end.
Definition on_files (g : Files -> Z * Files) : KM W Z := f ← get files; let '(r, f') := g f in put_files f';; mret r.
Definition sys_lseek (a b c : Z) : KM W Z :=
  f ← get files;
  match get_file f a with
  | None => mret (- EBADF)
  | Some d =>
      let o := description f d in
      if terminal o || bool_decide (is_Some (file_pipe o)) then mret (- ESPIPE)
      else if 2 <? c then mret (- EINVAL)
      else
        size ← call (fs_file_size (file_name o));
        if size <? 0 then mret (- EIO)
        else
          let pos := (if c =? 2 then u32 size else if c =? 1 then position o else 0) + s32 b in
          if pos <? 0 then mret (- EINVAL)
          else if 0x7fffffff <? pos then mret (-75)
          else update_description d (set_position pos);; mret pos
  end.

(** ** Directories and the system *)
Definition sys_getdents (a b c : Z) : KM W Z :=
  f ← get files;
  match get_file f a with
  | None => mret (- EBADF)
  | Some d =>
      let o := description f d in
      if negb (is_directory o) then mret (-20)
      else
        ok ← user_range b c;
        if negb (ok : bool) then mret (- EFAULT)
        else
          r ← call (fs_getdents (file_name o) c (position o));
          let '(result, data, pos) := (r : Z * list Z * Z) in
          store_bytes b data;; update_description d (set_position pos);; mret result
  end.
Definition sys_getcwd (a b : Z) : KM W Z :=
  if b =? 0 then mret (- EINVAL)
  else
    ok ← user_range a b;
    if negb (ok : bool) then mret (- EFAULT)
    else
      r ← call (fs_getcwd b);
      let '(n, cwd) := (r : Z * list Z) in
      if n <? 0 then mret n else store_bytes a (cwd ++ [0]);; mret n.
Definition sys_chdir (a : Z) : KM W Z :=
  r ← copy_path a;
  let '(error, path) := (r : Z * list Z) in
  if truth error then mret error else failed ← call (fs_cd path); mret (if failed : bool then - ENOENT else 0).
Definition sys_access (a b : Z) : KM W Z :=
  r ← copy_path a;
  let '(error, path) := (r : Z * list Z) in
  if truth error then mret error
  else if truth (Z.land b (u32 (Z.lnot 7))) then mret (- EINVAL)
  else
    denied ← either (forbidden (truth (Z.land b 4)) path path_r)
                    (either (forbidden (truth (Z.land b 2)) path path_w) (forbidden (truth (Z.land b 1)) path path_x));
    if denied : bool then mret (-13)
    else
      size ← call (fs_file_size path);
      if 0 <=? size then mret 0 else directory ← call (fs_is_dir path); mret (if directory : bool then 0 else - ENOENT).
Definition sys_ioctl (a b c : Z) : KM W Z :=
  f ← get files;
  match get_file f a with
  | None => mret (- EBADF)
  | Some d =>
      match file_pipe (description f d) with
      | Some p =>
          if b =? 0x541b then
            ok ← user_range c 4;
            if negb (ok : bool) then mret (- EFAULT) else store_bytes c (le32_bytes (pipe_used (pipe_at f p)));; mret 0
          else mret (- ENOTTY)
      | None => mret (- ENOTTY)
      end
  end.
Definition text_bytes (s : string) : list Z := map (fun c => Z.of_nat (Ascii.nat_of_ascii c)) (list_ascii_of_string s).
Definition uname_values : list string := ["Barnix"; "barnix"; "0.1"; "Linux ABI experimental"; "i686"; ""]%string.
Fixpoint store_texts (l : list string) (address : Z) : KM W unit :=
  match l with
  | [] => mret tt
  | s :: l' => store_bytes address (text_bytes s ++ [0]);; store_texts l' (u32 (address + 65))
  end.
Definition sys_uname (a : Z) : KM W Z :=
  ok ← user_range a (6 * 65);
  if negb (ok : bool) then mret (- EFAULT)
  else store_bytes a (replicate 390 0);; store_texts uname_values a;; mret 0.

(** ** The dispatcher *)
Definition linux_syscall_dispatch (frame : option LinuxSyscallFrame) : KM W Z :=
  match frame with
  | None => mret (- EINVAL)
  | Some r =>
      let n := sys_eax r in
      let a := sys_ebx r in let b := sys_ecx r in let c := sys_edx r in
      if (n =? NR_exit) || (n =? NR_exit_group) then leave_user (Z.land a 255)
      else if n =? NR_execve then linux_execve a b c
      else if n =? NR_brk then m ← get mem; let '(top, m') := linux_memory_brk a m in put_mem m';; mret (s32 top)
      else if (n =? NR_getpid) || (n =? NR_getpgrp) then mret 1
      else if n =? NR_getppid then mret 0
      else if is_one_of n [NR_getuid; NR_geteuid; NR_getgid; NR_getegid; NR_getuid32; NR_getgid32; NR_geteuid32; NR_getegid32] then call permissions_uid
      else if n =? NR_read then transfer a b c false
      else if n =? NR_write then transfer a b c true
      else if n =? NR_pipe then create_pipe a 0
      else if n =? NR_pipe2 then create_pipe a b
      else if n =? NR_close then on_files (close_fd a)
      else if n =? NR_open then sys_open a b
      else if n =? NR_dup then on_files (sys_dup a b false)
      else if n =? NR_dup2 then on_files (sys_dup a b true)
      else if n =? NR_fcntl then on_files (sys_fcntl a b c)
      else if n =? NR_lseek then sys_lseek a b c
      else if n =? NR_getdents then sys_getdents a b c
      else if n =? NR_getcwd then sys_getcwd a b
      else if n =? NR_chdir then sys_chdir a
      else if n =? NR_access then sys_access a b
      else if n =? NR_ioctl then sys_ioctl a b c
      else if n =? NR_uname then sys_uname a
      else if n =? NR_readv then sys_vectors a b c false
      else if n =? NR_writev then sys_vectors a b c true
      else mret (- ENOSYS)
  end.
Definition syscall_frame (r : LinuxTrapFrame) : LinuxSyscallFrame :=
  {| sys_eax := eax r; sys_ebx := ebx r; sys_ecx := ecx r; sys_edx := edx r; sys_esi := esi r; sys_edi := edi r; sys_ebp := ebp r |}.
Definition linux_syscall_from_regs : KM W unit :=
  handled ← linux_task_syscall;
  if handled : bool then mret tt
  else
    r ← get regs;
    result ← linux_syscall_dispatch (Some (syscall_frame r));
    if (result =? LINUX_IO_WAIT) || (result =? LINUX_IO_SIGPIPE) then linux_task_io_result result
    else return_eax result;; linux_exec_apply.
End Syscalls.
