(* ===== verification/LinuxDescriptors.v ===== *)
(** * Descriptors under any sequence of calls

    Every operation on descriptors keeps the reference counts of the
    descriptions and of the ends of pipes exact; so does any sequence of them,
    over the three programs. *)
From S2P Require Import Prelude CString ElfFormat LinuxMemory LinuxKernel LinuxFiles LinuxPipes LinuxRefs LinuxTask LinuxExec LinuxSyscall.

(** ** Descriptions and flags *)
Lemma balanced_description f delta d o : balanced f delta ->
  refs o = refs (description f d) -> file_pipe o = file_pipe (description f d) -> writable o = writable (description f d) -> balanced (put_description d o f) delta.
Proof.
  intros Hf Hr Hp Hw. pose proof Hf as [Hl ? ? ? ? ? Hrefs He Ho]. destruct (decide (d < 48)%nat) as [Hd|Hd].
  2:{ assert (put_description d o f = f) as ->; [|done]. unfold put_description. rewrite list_insert_ge by lia. by destruct f. }
  constructor; try done.
  - cbn. by rewrite length_insert.
  - intros i Hi. rewrite description_put by lia. change (users (put_description d o f) i) with (users f i). destruct (decide (i = d)) as [->|]; [rewrite Hr|]; by apply Hrefs.
  - intros p Hp'. change (pipe_at (put_description d o f) p) with (pipe_at f p). rewrite !(ends_put f delta) by done.
    assert (forall w, is_end p w o = is_end p w (description f d)) as E by (intros w; unfold is_end; by rewrite Hr, Hp, Hw). rewrite !E. destruct (He p Hp') as [-> ->]. lia.
  - intros i p Hi. rewrite description_put by lia. destruct (decide (i = d)) as [->|]; [rewrite Hr, Hp|]; by apply Ho.
Qed.
Lemma flags_ok f fd v : files_ok f -> 0 <= fd < 16 -> files_ok (put_slot (file_task f) fd (slot_file f (file_task f) fd) v f).
Proof.
  intros Hf Hfd. destruct (slot_lookup f _ (file_task f) fd Hf (b_task _ _ Hf) Hfd) as [_ Hv].
  pose proof (balanced_slot f _ (file_task f) fd (slot_file f (file_task f) fd) v Hf (b_task _ _ Hf) Hfd Hv) as H1.
  eapply balanced_ext; [|exact H1]. intros d _. lia.
Qed.

(** ** Duplicating and opening *)
Lemma first_fd_spec n : forall i f fd, first_fd n i f = Some fd -> i <= fd < i + Z.of_nat n /\ slot_file f (file_task f) fd = None.
Proof.
  induction n as [|n IH]; intros i f fd; [done|]. cbn [first_fd]. destruct (slot_file f (file_task f) i) as [d|] eqn:E.
  - intros Hfd. destruct (IH _ _ _ Hfd). split; [lia|done].
  - intros [= <-]. split; [lia|done].
Qed.
Lemma free_fd_spec minimum f : 0 <= minimum < 16 -> free_fd minimum f = - EMFILE \/ minimum <= free_fd minimum f < 16 /\ slot_file f (file_task f) (free_fd minimum f) = None.
Proof.
  intros Hm. unfold free_fd, FD_COUNT. destruct (first_fd _ minimum f) as [fd|] eqn:E; [|by left]. right. apply first_fd_spec in E as [? ?]. split; [lia|done].
Qed.
(** Closing the target does not drop the last reference to what is duplicated. *)
Lemma close_users f fd d a : files_ok f -> 0 <= fd < 16 -> 0 <= a < 16 -> a <> fd -> slot_file f (file_task f) a = Some d -> 0 < users (close_fd fd f).2 d.
Proof.
  intros Hf Hfd Ha Hne Hd. apply (used_refs _ _ (file_task f) a d (close_fd_ok f fd Hf ltac:(lia))); [apply Hf|done|].
  rewrite close_fd_slots by (done || apply Hf). by rewrite decide_False by (intros [_ ?]; done).
Qed.
Lemma point_ok f fd d : files_ok f -> 0 <= fd < 16 -> slot_file f (file_task f) fd = None -> (d < 48)%nat -> 0 < users f d -> files_ok (point fd d f).
Proof. intros Hf Hfd Hfree Hd Hu. apply slot_then_share; done || apply Hf. Qed.
Lemma sys_dup_ok a b two f : files_ok f -> 0 <= a -> 0 <= b -> files_ok (sys_dup a b two f).2.
Proof.
  intros Hf Ha Hb. unfold sys_dup. destruct (get_file f a) as [d|] eqn:E; [|done]. apply get_file_some in E as [Ha16 Hd]; [|done].
  unfold dup_to. set (fd := if two then _ else _). destruct (Z.ltb_spec fd 0) as [|Hfd0]; [done|]. destruct (Z.eqb_spec fd a) as [|Hne]; [done|]. cbn [snd].
  assert (0 <= fd < 16) as Hfd.
  { unfold fd, FD_COUNT, EBADF in *. destruct two; [destruct (Z.ltb_spec b 16); lia|]. destruct (free_fd_spec 0 f ltac:(lia)) as [E|[? _]]; [rewrite E in Hfd0; done|lia]. }
  destruct (is_open f fd) eqn:Eo.
  - pose proof (close_fd_ok f fd Hf ltac:(lia)) as Hc. destruct (used_refs f _ _ a d Hf (b_task _ _ Hf) Ha16 Hd) as [Hd48 _]. apply point_ok.
    + done.
    + done.
    + rewrite close_fd_same, close_fd_slots by (done || apply Hf). by rewrite decide_True.
    + done.
    + by apply (close_users f fd d a).
  - apply point_ok; try done; [|by apply (used_refs f _ (file_task f) a d Hf (b_task _ _ Hf))..]. unfold is_open in Eo. by destruct (slot_file f (file_task f) fd).
Qed.
Lemma status_bits fl c : Z.land (Z.lor (Z.land fl (Z.lor O_ACCMODE O_DIRECTORY)) (Z.land c (Z.lor O_APPEND O_NONBLOCK))) O_ACCMODE = Z.land fl O_ACCMODE.
Proof.
  rewrite Z.land_lor_distr_l, <- !Z.land_assoc. change (Z.land (Z.lor O_ACCMODE O_DIRECTORY) O_ACCMODE) with O_ACCMODE.
  change (Z.land (Z.lor O_APPEND O_NONBLOCK) O_ACCMODE) with 0. by rewrite Z.land_0_r, Z.lor_0_r.
Qed.
Lemma sys_fcntl_ok a b c f : files_ok f -> 0 <= a -> 0 <= c -> files_ok (sys_fcntl a b c f).2.
Proof.
  intros Hf Ha Hc. unfold sys_fcntl. destruct (get_file f a) as [d|] eqn:E; [|done]. apply get_file_some in E as [Ha16 Hd]; [|done].
  destruct (b =? 0).
  { unfold FD_COUNT. destruct (Z.leb_spec 16 c); [done|]. destruct (Z.ltb_spec (free_fd c f) 0); [done|]. cbn [snd].
    destruct (free_fd_spec c f ltac:(lia)) as [E|[? Hfree]]; [unfold EMFILE in E; lia|]. destruct (used_refs f _ _ a d Hf (b_task _ _ Hf) Ha16 Hd). apply point_ok; lia || done. }
  destruct (b =? 1); [done|]. destruct (b =? 2); [cbn [snd]; rewrite <- Hd; by apply flags_ok|]. destruct (b =? 3); [done|].
  destruct (b =? 4); [|destruct (_ && _); done]. destruct (truth _); [done|]. destruct (_ && _); [done|].
  cbn [snd]. apply balanced_description; try done. unfold writable. cbn [flags set_file_flags]. by rewrite status_bits.
Qed.

(** ** Any sequence of calls *)
Lemma below_all (n : nat) (P : nat -> Prop) : Forall P (List.seq 0 n) -> forall i, (i < n)%nat -> P i.
Proof. intros Hall i Hi. rewrite Forall_forall in Hall. apply Hall. apply elem_of_seq. lia. Qed.
Lemma reset_ok : files_ok linux_syscall_reset.
Proof. constructor.
  - reflexivity.
  - split; [reflexivity|]. change (pipes _) with (replicate 24 no_pipe). apply Forall_replicate. constructor; vm_compute; [done|split; done|split; done].
  - reflexivity.
  - split; [split; [reflexivity|repeat constructor]|]. change (concat _) with ([Some 0%nat; Some 1%nat; Some 2%nat] ++ replicate 45 None). apply Forall_app. split.
    + repeat constructor; unfold valid_name; lia.
    + by apply Forall_replicate.
  - split; [reflexivity|repeat constructor].
  - cbn. lia.
  - apply (below_all 48 (fun d => refs (description linux_syscall_reset d) = users linux_syscall_reset d + 0)). vm_compute. repeat constructor.
  - apply below_all. vm_compute. repeat constructor.
  - intros d p Hd. revert p. revert d Hd. apply (below_all 48 (fun d => forall p, refs (description linux_syscall_reset d) <> 0 -> file_pipe (description linux_syscall_reset d) = Some p -> (p < 24)%nat)).
    vm_compute. repeat (constructor; [by intros|]). constructor. Qed.

(** What changes the tables: the calls of the running program (close, dup and
    dup2, fcntl, the end of a successful open, pipe), the exec of the loader,
    and the switch, fork and exit of the scheduler; a fork goes to a slot whose
    descriptors were closed. *)
Inductive files_step : Files -> Files -> Prop :=
  | step_close fd f : 0 <= fd -> files_step f (close_fd fd f).2
  | step_dup a b two f : 0 <= a -> 0 <= b -> files_step f (sys_dup a b two f).2
  | step_fcntl a b c f : 0 <= a -> 0 <= c -> files_step f (sys_fcntl a b c f).2
  | step_open b directory path d l v f : 0 <= free_fd 0 f -> free_descriptions (descriptions f) 0 = d :: l ->
      files_step f (put_slot (file_task f) (free_fd 0 f) (Some d) v (put_description d (opened b directory path) f))
  | step_pipe fl f fd0 fd1 f' : new_pipe fl f = inr (fd0, fd1, f') -> files_step f f'
  | step_exec f : files_step f (linux_syscall_exec f)
  | step_switch slot f : (slot < 3)%nat -> files_step f (linux_files_switch slot f)
  | step_fork parent child f : (parent < 3)%nat -> (child < 3)%nat -> parent <> child ->
      (forall i, 0 <= i < 16 -> slot_file f child i = None) -> files_step f (linux_files_fork parent child f)
  | step_exit slot f : (slot < 3)%nat -> files_step f (linux_files_exit slot f).
Lemma open_call_ok f b directory path d l v : files_ok f -> 0 <= free_fd 0 f -> free_descriptions (descriptions f) 0 = d :: l ->
  files_ok (put_slot (file_task f) (free_fd 0 f) (Some d) v (put_description d (opened b directory path) f)).
Proof.
  intros Hf Hfd Hd. destruct (free_fd_spec 0 f ltac:(lia)) as [E|[Hr Hfree]]; [rewrite E in Hfd; done|].
  destruct (free_descriptions_spec (descriptions f) 0) as [Hds _]. rewrite Hd in Hds.
  apply Forall_cons in Hds as [(_ & o & Ho & Er) _]. rewrite Nat.sub_0_r in Ho.
  pose proof (lookup_lt_Some _ _ _ Ho). pose proof (b_descriptions _ _ Hf).
  apply open_ok; [done|lia| |done|done|done|done]. unfold description. by rewrite (nth_lookup_Some _ _ _ _ Ho).
Qed.
Lemma files_step_ok f f' : files_step f f' -> files_ok f -> files_ok f'.
Proof.
  intros [fd g Hfd|a b two g Ha Hb|a b c g Ha Hc|b dir path d l v g Hfd Hd|fl g fd0 fd1 g' E|g|slot g Hs|parent child g Hp Hc Hne Hfree|slot g Hs] Hf.
  - by apply close_fd_ok.
  - by apply sys_dup_ok.
  - by apply sys_fcntl_ok.
  - by apply (open_call_ok g b dir path d l v).
  - by apply (new_pipe_ok fl g fd0 fd1).
  - by apply linux_syscall_exec_ok.
  - by apply balanced_task.
  - by apply linux_files_fork_ok.
  - by apply linux_files_exit_ok.
Qed.


(** A program makes a pipe, forks and exits: its child still holds both ends. *)
Definition piped : Files := match new_pipe 0 linux_syscall_reset with inr (_, _, f) => f | inl _ => linux_syscall_reset end.
Definition forked : Files := linux_files_exit 0 (linux_files_fork 0 1 piped).
Lemma slot_all_free f slot : forallb (fun i => match slot_file f slot (Z.of_nat i) with None => true | Some _ => false end) (List.seq 0 16) = true ->
  forall i, 0 <= i < 16 -> slot_file f slot i = None.
Proof.
  rewrite forallb_forall. intros H i Hi. specialize (H (Z.to_nat i)). rewrite Z2Nat.id in H by lia.
  destruct (slot_file f slot i); [|done]. discriminate H. apply in_seq. lia.
Qed.
Lemma forked_run : rtc files_step linux_syscall_reset forked.
Proof.
  apply (rtc_l _ _ piped); [by apply (step_pipe 0 _ 3 4)|].
  apply (rtc_l _ _ (linux_files_fork 0 1 piped)); [|by apply rtc_once, step_exit; lia].
  apply step_fork; [lia..|done|]. apply slot_all_free. by vm_compute.
Qed.
