(* ===== verification/LinuxImage.v ===== *)
(** * The memory of a started program

    Where installing an image puts the segments, the strings and the words
    of the initial stack. *)
From Stdlib Require Import String.
From S2P Require Import Prelude CString ElfFormat LinuxMemory LinuxMemoryProofs LinuxKernel LinuxFiles LinuxPipes LinuxTask LinuxExec.

(** ** Copies that do not overlap *)
Definition copy_all (l : list (Z * list Z)) (y : Z -> Z) : Z -> Z := fold_left (fun y c => copy_in c.1 c.2 y) l y.
Definition span (lo hi : Z) (c : Z * list Z) : Prop := lo <= c.1 /\ c.1 + zlen c.2 <= hi.
Definition apart (c d : Z * list Z) : Prop := c.1 + zlen c.2 <= d.1 \/ d.1 + zlen d.2 <= c.1.
Lemma copy_in_out dst bs y pa : pa < dst \/ dst + zlen bs <= pa -> copy_in dst bs y pa = y pa.
Proof. intros Hpa. unfold copy_in. destruct (Z.leb_spec dst pa), (Z.ltb_spec pa (dst + zlen bs)); cbn [andb]; done || lia. Qed.
Lemma copy_in_at dst bs y pa : dst <= pa < dst + zlen bs -> copy_in dst bs y pa = byte_at bs (pa - dst).
Proof. intros Hpa. unfold copy_in. ztrue (dst <=? pa). by ztrue (pa <? dst + zlen bs). Qed.
Lemma copy_all_out l : forall y pa, Forall (fun c => pa < c.1 \/ c.1 + zlen c.2 <= pa) l -> copy_all l y pa = y pa.
Proof.
  induction l as [|c l IH]; intros y pa Hl; [done|]. apply Forall_cons in Hl as [Hc Hl]. change (copy_all (c :: l) y) with (copy_all l (copy_in c.1 c.2 y)).
  rewrite IH by done. by apply copy_in_out.
Qed.
Lemma copy_all_at l : forall y c pa, ForallOrdPairs apart l -> c ∈ l -> c.1 <= pa < c.1 + zlen c.2 -> copy_all l y pa = byte_at c.2 (pa - c.1).
Proof.
  induction l as [|d l IH]; intros y c pa Hl Hc Hpa; [by apply elem_of_nil in Hc|]. inversion Hl as [|? ? Hd Hl']; subst. change (copy_all (d :: l) y) with (copy_all l (copy_in d.1 d.2 y)).
  apply elem_of_cons in Hc as [->|Hc]; [|by apply (IH _ c)]. rewrite copy_all_out; [by apply copy_in_at|].
  eapply Forall_impl; [exact Hd|]. intros e [?|?]; lia.
Qed.
Lemma copy_all_app a b y : copy_all (a ++ b) y = copy_all b (copy_all a y).
Proof. apply fold_left_app. Qed.
Lemma clear_out y pa : ~ (APP_LOAD_MIN <= pa < APP_STACK_TOP) -> clear_arena y pa = y pa.
Proof. intros Hpa. unfold clear_arena. destruct (Z.leb_spec APP_LOAD_MIN pa), (Z.ltb_spec pa APP_STACK_TOP); cbn [andb]; done || lia. Qed.
Lemma clear_in y pa : APP_LOAD_MIN <= pa < APP_STACK_TOP -> clear_arena y pa = 0.
Proof. intros Hpa. unfold clear_arena. ztrue (APP_LOAD_MIN <=? pa). by ztrue (pa <? APP_STACK_TOP). Qed.

(** ** Alignment *)
Lemma land_not n k : is_u32 n -> 0 <= k <= 32 -> Z.land n (u32 (Z.lnot (2 ^ k - 1))) = n / 2 ^ k * 2 ^ k.
Proof.
  intros Hn Hk. unfold u32. rewrite <- Z.land_ones, Z.land_assoc by lia. replace (2 ^ k - 1) with (Z.ones k) by (rewrite Z.ones_equiv; lia).
  rewrite <- Z.ldiff_land, Z.ldiff_ones_r, shl, shr, Z.land_ones by lia. unfold is_u32 in Hn. pose proof (Z.pow_pos_nonneg 2 k ltac:(lia) ltac:(lia)) as Hp.
  apply Z.mod_small. pose proof (Z.div_pos n (2 ^ k) ltac:(lia) Hp). pose proof (Z.mul_div_le n (2 ^ k) Hp). nia.
Qed.
Lemma align_down_4 n : is_u32 n -> align_down n 4 = n / 4 * 4.
Proof. intros Hn. apply (land_not n 2 Hn). lia. Qed.
Lemma align_down_16 n : is_u32 n -> align_down n 16 = n / 16 * 16.
Proof. intros Hn. apply (land_not n 4 Hn). lia. Qed.

(** ** What is installed *)
(** What validation ensures of an image. *)
Record loadable (image : list Z) (p : ElfPlan) : Prop := {
  load_aligned : base p mod 4194304 = 0;
  load_window : 0x01000000 <= base p <= 0xbfc00000;
  load_segments : Forall (segment_ok (zlen image) (base p) (base p + 4194304 - 65536)) (segments p);
  load_disjoint : ForallOrdPairs disjoint_ranges (segments p);
  load_entry : 0 < entry p;
  load_phnum : 0 < phnum p <= 32;
  load_phoff : 0 <= phoff p /\ phoff p + phnum p * 32 <= zlen image }.
Lemma validate_loadable image size plan0 p : bytes_ok image -> zlen image = size -> is_u32 size -> validate_into (Some image) size plan0 = (None, p) -> loadable image p.
Proof.
  intros Hi Hs Hu E. destruct (validate_into_sound image size plan0 p Hi Hs Hu E) as ((Epn & Epo & Hpo & Hpn) & (Hal & Hwin & Htop) & Hsegs & Hpairs & Hcount & Hentry & Htable & _).
  unfold ElfFormat.APP_LOAD_MIN, ElfFormat.APP_STACK_TOP, ElfFormat.APP_STACK_SIZE, ELF_MAX_SEGMENTS in *. rewrite Htop in Hsegs. subst size. constructor; try done; try lia.
  destruct Hentry as (h & _ & _ & _ & Hs & Hc). rewrite Forall_forall in Hsegs. specialize (Hsegs _ Hs). unfold segment_ok, contains in *. lia.
Qed.
(** The staging area while a program is being started. *)
Record staged_ok (s : Staged) : Prop := {
  staged_used : used s <= STRING_MAX;
  staged_path : zlen (exec_path s) = EXEC_PATH_MAX;
  staged_offsets : zlen (offsets s) = 2 * VECTOR_MAX;
  staged_argc : 0 <= argc s <= VECTOR_MAX;
  staged_envc : 0 <= envc s <= VECTOR_MAX }.

Section Image.
Context (image : list Z) (s : Staged) (Hload : loadable image (plan s)) (Hstaged : staged_ok s).
Local Abbreviation p := (plan s).
Definition path_bytes : list Z := cstr (exec_path s) ++ [0].
Definition strings_at : Z := APP_STACK_TOP - used s.
Definition path_at : Z := strings_at - zlen path_bytes.
Definition own_headers : bool := phdr p =? 0.
Definition headers_at : Z := (path_at - phnum p * 32) / 4 * 4.
Definition below_strings : Z := if own_headers then headers_at else path_at.
Definition header_bytes : list Z := take (Z.to_nat (phnum p * 32)) (drop (Z.to_nat (phoff p)) image).
Definition segment_copy (g : ElfSegment) : Z * list Z := (APP_LOAD_MIN + (address g - base p), segment_bytes image g).
Definition copies : list (Z * list Z) :=
  map segment_copy (segments p) ++ [(strings_at, staged_strings s); (path_at, path_bytes)] ++ (if own_headers then [(headers_at, header_bytes)] else []).
(** A physical address of the arena as the program sees it. *)
Definition seen (pa : Z) : Z := base p + (pa - APP_LOAD_MIN).

Lemma path_length : 1 <= zlen path_bytes <= 129.
Proof.
  unfold path_bytes. rewrite zlen_app. change (zlen [0]) with 1. pose proof (zlen_nonneg (cstr (exec_path s))). pose proof (staged_path _ Hstaged).
  assert (forall l, zlen (cstr l) <= zlen l) as Hc; [|pose proof (Hc (exec_path s)); unfold EXEC_PATH_MAX in *; lia].
  induction l as [|c l IH]; [done|]. cbn [cstr]. destruct (truth c); rewrite ?zlen_cons; [lia|]. change (zlen []) with 0. pose proof (zlen_nonneg l). lia.
Qed.
Lemma header_length : zlen header_bytes = phnum p * 32.
Proof. pose proof (load_phoff _ _ Hload). pose proof (load_phnum _ _ Hload). unfold header_bytes, zlen in *. rewrite length_take, length_drop. lia. Qed.
Lemma places : 0x013f0000 + 50000 <= below_strings /\ below_strings <= path_at /\ path_at < strings_at <= APP_STACK_TOP /\
  path_at + zlen path_bytes = strings_at /\ (own_headers = true -> headers_at + phnum p * 32 <= path_at).
Proof.
  pose proof path_length. pose proof (zlen_nonneg (staged_strings s)). pose proof (staged_used _ Hstaged). pose proof (load_phnum _ _ Hload).
  unfold below_strings, headers_at, path_at, strings_at, used, STRING_MAX, APP_STACK_TOP in *. destruct own_headers; dm_lia.
Qed.
Lemma segment_place g : g ∈ segments p -> APP_LOAD_MIN <= (segment_copy g).1 /\ (segment_copy g).1 + memory_size g <= 0x013f0000 /\
  zlen (segment_copy g).2 = file_size g /\ file_size g <= memory_size g /\ 0 <= file_size g /\ 0 <= offset g /\ offset g + file_size g <= zlen image.
Proof.
  intros Hg. pose proof (load_segments _ _ Hload) as Hs. rewrite Forall_forall in Hs. specialize (Hs g Hg). unfold segment_ok in Hs.
  cbn [segment_copy fst snd]. unfold segment_bytes, zlen, APP_LOAD_MIN in *. rewrite length_take, length_drop. lia.
Qed.
Lemma place_segments_eq l y : (forall g, g ∈ l -> g ∈ segments p) -> place_segments image (u32 (base p - APP_LOAD_MIN)) l y = copy_all (map segment_copy l) y.
Proof.
  pose proof (load_window _ _ Hload) as Hw. revert y. induction l as [|g l IH]; intros y Hl; [done|].
  change (place_segments image (u32 (base p - APP_LOAD_MIN)) (g :: l) y) with
    (place_segments image (u32 (base p - APP_LOAD_MIN)) l (copy_in (u32 (address g - u32 (base p - APP_LOAD_MIN))) (segment_bytes image g) y)).
  rewrite IH by (intros; apply Hl; by right). cbn [map]. change (copy_all (segment_copy g :: ?l) y) with (copy_all l (copy_in (segment_copy g).1 (segment_copy g).2 y)).
  destruct (segment_place g (Hl g ltac:(left))) as (H1 & H2 & H3 & _). cbn [segment_copy fst snd] in *. f_equal.
  pose proof (load_segments _ _ Hload) as Hs. rewrite Forall_forall in Hs. specialize (Hs g (Hl g ltac:(left))). unfold segment_ok in Hs.
  unfold APP_LOAD_MIN in *. rewrite (u32_small (base p - _)) by (unfold is_u32; lia). rewrite u32_small by (unfold is_u32; lia). f_equal. lia.
Qed.
Lemma copies_span : Forall (span APP_LOAD_MIN APP_STACK_TOP) copies /\ Forall (fun c => c.1 + zlen c.2 <= 0x013f0000 \/ below_strings <= c.1) copies.
Proof.
  pose proof places as (H1 & H2 & H3 & H4 & H5). pose proof path_length. pose proof header_length as Eh. pose proof (load_phnum _ _ Hload).
  assert (Forall (fun c => span APP_LOAD_MIN APP_STACK_TOP c /\ (c.1 + zlen c.2 <= 0x013f0000 \/ below_strings <= c.1)) copies) as Hall.
  2:{ split; (eapply Forall_impl; [exact Hall|]); by intros c []. }
  unfold span, APP_LOAD_MIN, APP_STACK_TOP in *. apply Forall_app. split; [|apply Forall_app; split].
  - apply Forall_map, Forall_forall. intros g Hg. destruct (segment_place g Hg) as (? & ? & ? & ? & ? & _). unfold APP_LOAD_MIN in *. lia.
  - apply Forall_cons. split; [|apply Forall_singleton]; cbn [fst snd]; unfold strings_at, used, APP_STACK_TOP in *; lia.
  - unfold below_strings in *. destruct own_headers; [|apply Forall_nil_2]. apply Forall_singleton. cbn [fst snd]. rewrite Eh. specialize (H5 eq_refl). unfold strings_at, APP_STACK_TOP in *.
    pose proof (zlen_nonneg (staged_strings s)). unfold used in *. lia.
Qed.
Lemma segments_apart : ForallOrdPairs apart (map segment_copy (segments p)).
Proof.
  pose proof (load_disjoint _ _ Hload) as Hd. assert (forall g, g ∈ segments p -> file_size g <= memory_size g /\ zlen (segment_copy g).2 = file_size g) as Hs.
  { intros g Hg. destruct (segment_place g Hg) as (? & ? & ? & ? & _). done. }
  revert Hd Hs. generalize (segments p). intros l Hd. induction Hd as [|g l Hg Hl IH]; intros Hs; [apply FOP_nil|]. cbn [map]. apply FOP_cons.
  - apply Forall_map, Forall_forall. intros h Hh. rewrite Forall_forall in Hg. specialize (Hg h Hh). destruct (Hs g ltac:(left)), (Hs h ltac:(by right)). unfold apart, disjoint_ranges in *. cbn [segment_copy fst] in *. lia.
  - apply IH. intros h Hh. apply Hs. by right.
Qed.
Lemma apart_app l1 l2 : ForallOrdPairs apart l1 -> ForallOrdPairs apart l2 -> Forall (fun c => Forall (apart c) l2) l1 -> ForallOrdPairs apart (l1 ++ l2).
Proof.
  induction 1 as [|c l1 Hc Hl1 IH]; intros H2 H12; [done|]. apply Forall_cons in H12 as [Hc2 H12]. cbn. apply FOP_cons; [by apply Forall_app|by apply IH].
Qed.
Lemma copies_apart : ForallOrdPairs apart copies.
Proof.
  pose proof places as (H1 & H2 & H3 & H4 & H5). pose proof header_length as Eh. unfold copies. apply apart_app; [apply segments_apart| |].
  - apply apart_app; [|destruct own_headers; [|apply FOP_nil]; apply FOP_cons; [apply Forall_nil_2|apply FOP_nil]|].
    + apply FOP_cons; [|apply FOP_cons; [apply Forall_nil_2|apply FOP_nil]]. apply Forall_singleton. unfold apart. cbn [fst snd]. lia.
    + destruct own_headers; [|by repeat apply Forall_cons_2]. specialize (H5 eq_refl). pose proof path_length. apply Forall_cons_2; [|apply Forall_cons_2; [|apply Forall_nil_2]];
        (apply Forall_singleton; unfold apart; cbn [fst snd]; rewrite Eh; lia).
  - apply Forall_map, Forall_forall. intros g Hg. destruct (segment_place g Hg) as (? & ? & ? & ? & _). apply Forall_app. unfold below_strings in *.
    split; [apply Forall_cons_2; [|apply Forall_singleton]; unfold apart; left; cbn [fst snd] in *; lia|].
    destruct own_headers; [|apply Forall_nil_2]. apply Forall_singleton. unfold apart. left. cbn [fst snd] in *. lia.
Qed.
Lemma place_strings_eq y : place_strings s image y =
  (below_strings, seen strings_at, seen path_at, if own_headers then seen headers_at else phdr p, copy_all copies (clear_arena y)).
Proof.
  pose proof places as (H1 & H2 & H3 & H4 & H5). pose proof (load_window _ _ Hload) as Hw. pose proof (load_phnum _ _ Hload) as Hn. pose proof path_length as Hpl.
  pose proof (zlen_nonneg (staged_strings s)) as Hu. unfold place_strings. cbv zeta.
  rewrite place_segments_eq by done. fold path_bytes. unfold APP_STACK_TOP, APP_LOAD_MIN in *.
  assert (forall x, 0 <= x < 0x01400001 -> u32 (x + u32 (base p - 16777216)) = seen x) as Eseen.
  { intros x Hx. rewrite (u32_small (base p - _)) by (unfold is_u32; lia). unfold seen, APP_LOAD_MIN. rewrite u32_small by (unfold is_u32; lia). lia. }
  assert (u32 (20971520 - used s) = strings_at) as -> by (unfold strings_at, APP_STACK_TOP in *; apply u32_small; unfold is_u32; lia).
  assert (u32 (strings_at - zlen path_bytes) = path_at) as -> by (unfold path_at in *; apply u32_small; unfold is_u32; lia).
  rewrite !Eseen by lia. unfold copies, copy_all. rewrite fold_left_app. fold (copy_all (map segment_copy (segments p)) (clear_arena y)). unfold below_strings, own_headers in *.
  destruct (phdr p =? 0); [|done]. specialize (H5 eq_refl).
  assert (align_down (u32 (path_at - phnum p * 32)) 4 = headers_at) as ->.
  { assert (is_u32 (path_at - phnum p * 32)) by (unfold is_u32; lia). rewrite u32_small by done. by apply align_down_4. }
  rewrite !Eseen by lia. done.
Qed.
Lemma segments_end_bounds : base p <= segments_end (segments p) (base p) <= base p + 4194304 - 65536.
Proof.
  pose proof (load_window _ _ Hload) as Hw. pose proof (load_segments _ _ Hload) as Hs.
  assert (forall e, base p <= e <= base p + 4194304 - 65536 -> base p <= segments_end (segments p) e <= base p + 4194304 - 65536) as Hall; [|apply Hall; lia].
  induction Hs as [|g l Hg Hl IH]; intros e He; [done|].
  change (segments_end (g :: l) e) with (segments_end l (if e <? u32 (address g + memory_size g) then u32 (address g + memory_size g) else e)). unfold segment_ok in Hg.
  rewrite u32_small by (unfold is_u32; lia). apply IH. destruct (Z.ltb_spec e (address g + memory_size g)); lia.
Qed.

(** ** The initial stack *)
Definition stack_at (uid : Z) : list Z := stack_words s (seen strings_at) (auxv (if own_headers then seen headers_at else phdr p) (phnum p) (entry p) (u32 uid) (seen path_at)).
Definition stack_pointer (uid : Z) : Z := (below_strings - zlen (stack_at uid) * 4) / 16 * 16.
Lemma stack_length uid : zlen (stack_at uid) = argc s + envc s + 31.
Proof.
  pose proof (staged_offsets _ Hstaged). pose proof (staged_argc _ Hstaged). pose proof (staged_envc _ Hstaged). unfold stack_at, stack_words, auxv, VECTOR_MAX in *.
  rewrite zlen_cons, !zlen_app. unfold zlen in *. cbn [length]. rewrite !length_map, !length_take, length_drop. lia.
Qed.
Lemma zlen_words l : zlen (words_bytes l) = zlen l * 4.
Proof. unfold words_bytes. induction l as [|x l IH]; [done|]. cbn [map concat]. rewrite zlen_app, IH, zlen_cons. change (zlen (le32_bytes x)) with 4. lia. Qed.
Lemma stack_bounds uid : 0x013f0000 + 40000 <= stack_pointer uid /\ stack_pointer uid + zlen (stack_at uid) * 4 <= below_strings /\ stack_pointer uid mod 16 = 0.
Proof.
  pose proof places as (H1 & H2 & H3 & H4 & H5). pose proof (stack_length uid). pose proof (staged_argc _ Hstaged). pose proof (staged_envc _ Hstaged). unfold stack_pointer, VECTOR_MAX in *. dm_lia.
Qed.
Definition all_copies (uid : Z) : list (Z * list Z) := copies ++ [(stack_pointer uid, words_bytes (stack_at uid))].
Lemma all_copies_apart uid : ForallOrdPairs apart (all_copies uid).
Proof.
  apply apart_app; [apply copies_apart|apply FOP_cons; [apply Forall_nil_2|apply FOP_nil]|]. destruct (stack_bounds uid) as (H1 & H2 & _). destruct copies_span as [_ Hs].
  eapply Forall_impl; [exact Hs|]. intros c Hc. cbn beta in Hc. apply Forall_singleton. unfold apart. cbn [fst snd]. rewrite zlen_words. lia.
Qed.
Lemma all_copies_span uid : Forall (span APP_LOAD_MIN APP_STACK_TOP) (all_copies uid).
Proof.
  destruct (stack_bounds uid) as (H1 & H2 & _). pose proof places as (H3 & H4 & H5 & _). destruct copies_span as [Hs _]. apply Forall_app. split; [done|]. apply Forall_singleton.
  unfold span, APP_LOAD_MIN, APP_STACK_TOP in *. cbn [fst snd]. rewrite zlen_words. lia.
Qed.
End Image.

(** ** Installing *)
Section Install.
Context {W : Type} `{Layout} `{Services W}.
Implicit Types k : K W.
Definition installed_bytes (image : list Z) (s : Staged) (uid : Z) (y : Z -> Z) : Z -> Z := copy_all (all_copies image s uid) (clear_arena y).
Definition installed_memory (image : list Z) (s : Staged) (uid : Z) (m : Memory) : Memory :=
  linux_memory_enter (base (plan s)) (segments_end (segments (plan s)) (base (plan s))) (set_bytes (installed_bytes image s uid (bytes m)) m).
Lemma install_image_run image k : let s := staged (exec k) in loadable image (plan s) -> staged_ok s ->
  let uid := (permissions_uid (world k)).1 in
  install_image image k =
    (Ret (seen s (stack_pointer s uid)), Build_K (installed_memory image s uid (mem k)) (files k) (sched k) (exec k) (regs k) (permissions_uid (world k)).2).
Proof.
  intros s Hl Hs uid. unfold install_image, mbind, km_bind, get, call. fold s. rewrite (place_strings_eq image s Hl Hs). unfold uid.
  destruct (permissions_uid (world k)) as [u w] eqn:Eu. cbn [fst snd]. unfold put_mem, mret, km_ret. cbv beta iota zeta.
  fold (stack_at s u). destruct (stack_bounds image s Hl Hs u) as (H1 & H2 & _). pose proof (places image s Hl Hs) as (_ & H4 & H5 & _). pose proof (load_window _ _ Hl) as Hw.
  pose proof (zlen_nonneg (stack_at s u)). unfold APP_STACK_TOP in H5.
  assert (align_down (u32 (below_strings s - zlen (stack_at s u) * 4)) 16 = stack_pointer s u) as E.
  { assert (is_u32 (below_strings s - zlen (stack_at s u) * 4)) by (unfold is_u32; unfold stack_pointer in *; dm_lia). rewrite u32_small by done. by apply align_down_16. }
  rewrite E. f_equal.
  - f_equal. unfold seen, APP_LOAD_MIN. rewrite (u32_small (base (plan s) - _)) by (unfold is_u32; lia). rewrite u32_small by (unfold is_u32; lia). lia.
  - unfold installed_memory, installed_bytes, all_copies. by rewrite copy_all_app.
Qed.
Lemma installed_outside image s uid y pa : loadable image (plan s) -> staged_ok s -> ~ (APP_LOAD_MIN <= pa < APP_STACK_TOP) -> installed_bytes image s uid y pa = y pa.
Proof.
  intros Hl Hs Hpa. unfold installed_bytes. rewrite copy_all_out; [by apply clear_out|]. eapply Forall_impl; [by apply all_copies_span|].
  intros c [? ?]. lia.
Qed.
Lemma installed_running image s uid m : loadable image (plan s) -> mmio_ok m -> ~ base (plan s) / 4194304 ∈ mmio_indices m -> running (installed_memory image s uid m).
Proof.
  intros Hl Hm Hn. pose proof (load_window _ _ Hl). apply enter_running; [|by destruct Hm; constructor|done|].
  - split; [apply Hl|lia].
  - pose proof (segments_end_bounds image s Hl). unfold APP_STACK_SIZE. lia.
Qed.
(** A byte of a copy, as the program sees it. *)
Lemma installed_byte image s uid m c i : loadable image (plan s) -> staged_ok s -> c ∈ all_copies image s uid -> 0 <= i < zlen c.2 ->
  user_byte (installed_memory image s uid m) (seen s (c.1 + i)) = byte_at c.2 i.
Proof.
  intros Hl Hs Hc Hi. unfold user_byte, installed_memory. cbn [bytes user_base linux_memory_enter set_bytes set_heap]. unfold installed_bytes.
  rewrite (copy_all_at _ _ c); [f_equal; unfold seen; lia|by apply all_copies_apart|done|unfold seen; lia].
Qed.
Lemma installed_run image s uid m c : loadable image (plan s) -> staged_ok s -> c ∈ all_copies image s uid ->
  map (user_byte (installed_memory image s uid m)) (seqZ (seen s c.1) (zlen c.2)) = c.2.
Proof.
  intros Hl Hs Hc. rewrite <- (map_byte_at c.2 0) at 2 by lia. rewrite <- (Z.add_0_l (seen s c.1)), map_seqZ_shift. apply map_seqZ_ext. intros i Hi. rewrite Z.sub_0_r.
  rewrite <- (installed_byte image s uid m c i) by (done || lia). f_equal. unfold seen. lia.
Qed.
(** The part of a segment that the file does not fill. *)
Lemma installed_zero image s uid m g i : loadable image (plan s) -> staged_ok s -> g ∈ segments (plan s) -> file_size g <= i < memory_size g ->
  user_byte (installed_memory image s uid m) (address g + i) = 0.
Proof.
  intros Hl Hs Hg Hi. unfold user_byte, installed_memory. cbn [bytes user_base linux_memory_enter set_bytes set_heap]. unfold installed_bytes.
  destruct (segment_place image s Hl g Hg) as (H1 & H2 & _ & _ & H5 & _). cbn [segment_copy fst] in *. rewrite copy_all_out; [apply clear_in; unfold APP_STACK_TOP; lia|].
  destruct (stack_bounds image s Hl Hs uid) as (H7 & _). pose proof (places image s Hl Hs) as (H8 & _). destruct (copies_span image s Hl Hs) as [_ Hsp]. apply Forall_app. split; [|apply Forall_singleton; cbn [fst snd]; left; lia].
  apply Forall_forall. intros c Hc. rewrite Forall_forall in Hsp. destruct (Hsp c Hc) as [Hlow|]; [|left; lia]. unfold copies in Hc. apply elem_of_app in Hc as [Hc|Hc].
  - apply list_elem_of_fmap in Hc as (h & -> & Hh). destruct (segment_place image s Hl h Hh) as (K1 & K2 & K3 & K4 & K5 & _). rewrite K3. cbn [segment_copy fst].
    apply list_elem_of_In in Hg, Hh. destruct (ForallOrdPairs_In (load_disjoint _ _ Hl) g h Hg Hh) as [<-|[Hgh|Hgh]]; [right; lia| |]; unfold disjoint_ranges in Hgh; lia.
  - pose proof (places image s Hl Hs) as (_ & H9 & H10 & _ & H11). pose proof (path_length s Hs). pose proof (zlen_nonneg c.2). left. unfold below_strings in *. apply elem_of_app in Hc as [Hc|Hc].
    + apply elem_of_cons in Hc as [->|Hc%list_elem_of_singleton]; [|subst c]; cbn [fst snd] in *; destruct (own_headers s); lia.
    + destruct (own_headers s); [|by apply elem_of_nil in Hc]. apply list_elem_of_singleton in Hc as ->. cbn [fst snd] in *. lia.
Qed.
Lemma seen_aligned s a : base (plan s) mod 4194304 = 0 -> a mod 16 = 0 -> seen s a mod 16 = 0.
Proof.
  intros Hb Ha. unfold seen. apply Z.mod_divide in Hb as [q Hb]; [|lia]. apply Z.mod_divide in Ha as [r ->]; [|lia]. rewrite Hb. unfold APP_LOAD_MIN.
  apply Z.mod_divide; [lia|]. exists (q * 262144 + r - 1048576). lia.
Qed.
Lemma segment_byte image g i : 0 <= i < file_size g -> 0 <= offset g -> offset g + file_size g <= zlen image ->
  byte_at (segment_bytes image g) i = byte_at image (offset g + i).
Proof.
  intros Hi Ho Hf. unfold byte_at, segment_bytes. rewrite !nth_lookup, lookup_take_lt, lookup_drop by lia. by replace (Z.to_nat (offset g) + Z.to_nat i)%nat with (Z.to_nat (offset g + i)) by lia.
Qed.

End Install.

(** ** A small image *)
#[local] Existing Instance sample_layout.
(** A file system with a root and nothing else. *)
#[local] Instance bare_services : Services unit := {|
  fs_getcwd c w := if c <? 2 then (-34, [], w) else (2, [47], w);
  fs_cd _ w := (false, w); fs_is_dir _ w := (true, w); fs_file_size _ w := (-2, w); fs_read _ _ _ w := (-2, [], w);
  fs_pwrite _ _ _ _ w := (-2, w); fs_write _ _ w := (-2, w); fs_getdents _ _ o w := (0, [], o, w); fs_exec_check _ w := (-2, w);
  fs_load_executable _ w := (-2, [], w); check_permission _ _ w := (true, w); permissions_uid w := (0, w); getch w := (10, w);
  print_char _ w := w; println _ w := w |}.
Definition start_frame : LinuxTrapFrame := {| edi := 0; esi := 0; ebp := 0; saved_esp := 0; ebx := 0x08048000; edx := 0; ecx := 0; eax := 0;
  gs := 0x23; fs := 0x23; es := 0x23; ds := 0x23; eip := 0x08048100; cs := 0x1b; eflags := 2; user_esp := 0x083ff000; ss := 0x23 |}.
Lemma tiny_bytes : bytes_ok tiny_elf /\ zlen tiny_elf = 88 /\ is_u32 88.
Proof. split; [repeat constructor; by vm_compute|split; [reflexivity|split; by vm_compute]]. Qed.
Definition staged_machine : K unit :=
  Build_K card_memory linux_syscall_reset linux_task_init
    (set_staged {| plan := tiny_plan; staged_strings := [97; 0]; exec_path := [97; 0] ++ replicate 126 0; offsets := replicate 128 0; argc := 1; envc := 0 |} no_exec) start_frame tt.
Lemma tiny_loadable : loadable tiny_elf tiny_plan.
Proof. destruct tiny_bytes as (H1 & H2 & H3). apply (validate_loadable tiny_elf 88 tiny_plan tiny_plan H1 H2 H3). vm_compute. reflexivity. Qed.
