(* ===== verification/Font.v ===== *)
(** * The font of the console (src/font.c)

    The 5x7 glyphs of Latin and Cyrillic text, and the row of a glyph that the console
    draws.  The part of the file that loads the same glyphs into the character generator of
    the VGA is port input and output and is not modelled. *)
From S2P Require Import Prelude Utf8.

(** Code points and their rows. *)
Definition glyphs : list (Z * list Z) :=
  [(0x0410, [14; 17; 17; 31; 17; 17; 17]); (0x0411, [31; 16; 16; 30; 17; 17; 30]);
   (0x0412, [30; 17; 17; 30; 17; 17; 30]); (0x0413, [31; 16; 16; 16; 16; 16; 16]);
   (0x0414, [14; 10; 10; 10; 10; 31; 17]); (0x0415, [31; 16; 16; 30; 16; 16; 31]);
   (0x0416, [21; 21; 21; 14; 21; 21; 21]); (0x0417, [14; 17; 1; 6; 1; 17; 14]);
   (0x0418, [17; 17; 19; 21; 25; 17; 17]); (0x0419, [10; 4; 17; 19; 21; 25; 17]);
   (0x041a, [17; 18; 20; 24; 20; 18; 17]); (0x041b, [7; 9; 9; 9; 9; 9; 17]);
   (0x041c, [17; 27; 21; 21; 17; 17; 17]); (0x041d, [17; 17; 17; 31; 17; 17; 17]);
   (0x041e, [14; 17; 17; 17; 17; 17; 14]); (0x041f, [31; 17; 17; 17; 17; 17; 17]);
   (0x0420, [30; 17; 17; 30; 16; 16; 16]); (0x0421, [14; 17; 16; 16; 16; 17; 14]);
   (0x0422, [31; 4; 4; 4; 4; 4; 4]); (0x0423, [17; 17; 17; 15; 1; 17; 14]); (0x0424, [4; 14; 21; 21; 21; 14; 4]);
   (0x0425, [17; 17; 10; 4; 10; 17; 17]); (0x0426, [18; 18; 18; 18; 18; 31; 1]);
   (0x0427, [17; 17; 17; 15; 1; 1; 1]); (0x0428, [21; 21; 21; 21; 21; 21; 31]);
   (0x0429, [21; 21; 21; 21; 21; 31; 1]); (0x042a, [24; 8; 8; 14; 9; 9; 14]);
   (0x042b, [17; 17; 17; 29; 21; 21; 29]); (0x042c, [16; 16; 16; 30; 17; 17; 30]);
   (0x042d, [14; 17; 1; 7; 1; 17; 14]); (0x042e, [18; 21; 21; 29; 21; 21; 18]);
   (0x042f, [15; 17; 17; 15; 5; 9; 17]); (0x0401, [10; 0; 31; 16; 30; 16; 31]);
   (0x0430, [0; 0; 14; 1; 15; 17; 15]); (0x0431, [3; 12; 16; 30; 17; 17; 14]);
   (0x0432, [0; 0; 30; 17; 30; 17; 30]); (0x0433, [0; 0; 31; 16; 16; 16; 16]);
   (0x0434, [0; 0; 14; 10; 10; 31; 17]); (0x0435, [0; 0; 14; 17; 31; 16; 14]);
   (0x0436, [0; 0; 21; 21; 14; 21; 21]); (0x0437, [0; 0; 30; 1; 6; 1; 30]); (0x0438, [0; 0; 17; 19; 21; 25; 17]);
   (0x0439, [10; 4; 17; 19; 21; 25; 17]); (0x043a, [0; 0; 17; 18; 28; 18; 17]); (0x043b, [0; 0; 7; 9; 9; 9; 17]);
   (0x043c, [0; 0; 17; 27; 21; 17; 17]); (0x043d, [0; 0; 17; 17; 31; 17; 17]);
   (0x043e, [0; 0; 14; 17; 17; 17; 14]); (0x043f, [0; 0; 31; 17; 17; 17; 17]);
   (0x0440, [0; 0; 30; 17; 17; 30; 16]); (0x0441, [0; 0; 14; 17; 16; 17; 14]); (0x0442, [0; 0; 31; 4; 4; 4; 4]);
   (0x0443, [0; 0; 17; 17; 15; 1; 14]); (0x0444, [0; 4; 14; 21; 21; 14; 4]); (0x0445, [0; 0; 17; 10; 4; 10; 17]);
   (0x0446, [0; 0; 18; 18; 18; 31; 1]); (0x0447, [0; 0; 17; 17; 15; 1; 1]); (0x0448, [0; 0; 21; 21; 21; 21; 31]);
   (0x0449, [0; 0; 21; 21; 21; 31; 1]); (0x044a, [0; 0; 24; 8; 14; 9; 14]); (0x044b, [0; 0; 17; 17; 29; 21; 29]);
   (0x044c, [0; 0; 16; 16; 30; 17; 30]); (0x044d, [0; 0; 14; 17; 7; 17; 14]); (0x044e, [0; 0; 18; 21; 29; 21; 18]);
   (0x044f, [0; 0; 15; 17; 15; 5; 9]); (0x0451, [0; 10; 14; 17; 31; 16; 14]);
   (0x2116, [20; 30; 21; 29; 21; 20; 23])].
Definition latin : list (list Z) :=
  [[14; 17; 17; 31; 17; 17; 17]; [30; 17; 17; 30; 17; 17; 30]; [14; 17; 16; 16; 16; 17; 14];
   [30; 17; 17; 17; 17; 17; 30]; [31; 16; 16; 30; 16; 16; 31]; [31; 16; 16; 30; 16; 16; 16];
   [14; 17; 16; 23; 17; 17; 14]; [17; 17; 17; 31; 17; 17; 17]; [14; 4; 4; 4; 4; 4; 14];
   [1; 1; 1; 1; 17; 17; 14]; [17; 18; 20; 24; 20; 18; 17]; [16; 16; 16; 16; 16; 16; 31];
   [17; 27; 21; 17; 17; 17; 17]; [17; 25; 25; 21; 19; 19; 17]; [14; 17; 17; 17; 17; 17; 14];
   [30; 17; 17; 30; 16; 16; 16]; [14; 17; 17; 17; 21; 18; 13]; [30; 17; 17; 30; 20; 18; 17];
   [15; 16; 16; 14; 1; 1; 30]; [31; 4; 4; 4; 4; 4; 4]; [17; 17; 17; 17; 17; 17; 14];
   [17; 17; 17; 17; 17; 10; 4]; [17; 17; 17; 21; 21; 27; 17]; [17; 17; 10; 4; 10; 17; 17];
   [17; 17; 10; 4; 4; 4; 4]; [31; 1; 2; 4; 8; 16; 31]; [14; 17; 19; 21; 25; 17; 14]; [4; 12; 20; 4; 4; 4; 31];
   [14; 17; 1; 2; 4; 0; 31]; [30; 1; 1; 14; 1; 1; 30]; [2; 6; 10; 18; 31; 2; 2]; [31; 16; 30; 17; 17; 17; 30];
   [14; 17; 16; 14; 1; 17; 14]; [30; 17; 17; 30; 17; 17; 30]; [31; 1; 2; 4; 8; 16; 31];
   [14; 17; 1; 7; 1; 17; 14]; [17; 17; 17; 15; 1; 17; 14]].
Definition lower : list (list Z) :=
  [[0; 0; 14; 1; 15; 17; 15]; [16; 16; 30; 17; 17; 17; 30]; [0; 0; 14; 16; 16; 17; 14];
   [1; 1; 15; 17; 17; 17; 15]; [0; 0; 14; 17; 31; 16; 14]; [6; 9; 8; 28; 8; 8; 8]; [0; 0; 15; 17; 15; 1; 14];
   [16; 16; 30; 17; 17; 17; 17]; [4; 0; 12; 4; 4; 4; 14]; [2; 0; 6; 2; 2; 18; 12];
   [16; 16; 18; 20; 24; 20; 18]; [12; 4; 4; 4; 4; 4; 14]; [0; 0; 26; 21; 21; 17; 17];
   [0; 0; 30; 17; 17; 17; 17]; [0; 0; 14; 17; 17; 17; 14]; [0; 0; 30; 17; 30; 16; 16];
   [0; 0; 15; 17; 15; 1; 1]; [0; 0; 22; 25; 16; 16; 16]; [0; 0; 15; 16; 14; 1; 30]; [8; 8; 28; 8; 8; 9; 6];
   [0; 0; 17; 17; 17; 19; 13]; [0; 0; 17; 17; 17; 10; 4]; [0; 0; 17; 17; 21; 21; 10];
   [0; 0; 17; 10; 4; 10; 17]; [0; 0; 17; 17; 15; 1; 14]; [0; 0; 31; 2; 4; 8; 31]].
Definition digits : list (list Z) :=
  [[14; 17; 19; 21; 25; 17; 14]; [4; 12; 4; 4; 4; 4; 14]; [14; 17; 1; 2; 4; 8; 31]; [30; 1; 1; 14; 1; 1; 30];
   [2; 6; 10; 18; 31; 2; 2]; [31; 16; 30; 1; 1; 17; 14]; [6; 8; 16; 30; 17; 17; 14]; [31; 1; 2; 4; 8; 8; 8];
   [14; 17; 17; 14; 17; 17; 14]; [14; 17; 17; 15; 1; 2; 28]].
Definition row_of (t : list (list Z)) (i row : Z) : Z := u8 (Z.shiftl (byte_at (nth (Z.to_nat i) t []) row) 2).
(** The rows of a punctuation character, from the top. *)
Definition punctuation : list (Z * list Z) :=
  [
   (32, [0; 0; 0; 0; 0; 0; 0]);
   (46, [0; 0; 0; 0; 0; 0; 12]);
   (44, [0; 0; 0; 0; 0; 4; 8]);
   (58, [0; 0; 12; 0; 0; 12; 0]);
   (59, [0; 0; 12; 0; 0; 8; 4]);
   (45, [0; 0; 0; 28; 0; 0; 0]);
   (95, [0; 0; 0; 0; 0; 0; 28]);
   (47, [4; 8; 8; 16; 32; 32; 64]);
   (92, [64; 32; 32; 16; 8; 8; 4]);
   (40, [4; 4; 8; 8; 8; 4; 4]);
   (41, [8; 8; 4; 4; 4; 8; 8]);
   (91, [31; 28; 28; 28; 28; 28; 31]);
   (93, [28; 28; 28; 28; 28; 28; 28]);
   (43, [0; 0; 4; 28; 4; 0; 0]);
   (61, [0; 0; 28; 0; 28; 0; 0]);
   (33, [4; 4; 4; 4; 4; 0; 4]);
   (63, [28; 2; 4; 8; 0; 0; 4]);
   (62, [0; 16; 8; 4; 8; 16; 0]);
   (60, [0; 2; 4; 8; 4; 2; 0]);
   (36, [4; 14; 20; 12; 5; 14; 4]);
   (37, [25; 9; 2; 4; 8; 18; 19]);
   (94, [4; 10; 0; 0; 0; 0; 0]);
   (38, [12; 18; 12; 10; 17; 17; 14]);
   (42, [0; 10; 4; 31; 4; 10; 0]);
   (64, [0; 14; 17; 23; 16; 15; 0]);
   (124, [4; 4; 4; 4; 4; 4; 4]);
   (126, [0; 0; 10; 20; 0; 0; 0]);
   (35, [10; 28; 14; 14; 14; 28; 10]);
   (34, [20; 0; 0; 0; 0; 0; 0]);
   (39, [4; 0; 0; 0; 0; 0; 0])].
Definition rows_at (t : list (Z * list Z)) (code : Z) : list Z :=
  match List.find (fun g => g.1 =? code) t with Some g => g.2 | None => [] end.
Definition latin_row (code row : Z) : Z :=
  if (97 <=? code) && (code <=? 122) then row_of lower (code - 97) row
  else if (65 <=? code) && (code <=? 90) then row_of latin (code - 65) row
  else if (48 <=? code) && (code <=? 57) then row_of digits (code - 48) row
  else byte_at (rows_at punctuation code) row.
Definition console_glyph_row (code y : Z) : Z :=
  if code =? 0xdf then if y <? 8 then 255 else 0
  else if (y <? 1) || (14 <? y) then 0
  else
    let row := (y - 1) / 2 in
    if (32 <=? code) && (code <? 127) then latin_row code row
    else
      match List.find (fun g => text_glyph g.1 =? code) glyphs with
      | Some g => u8 (Z.shiftl (byte_at g.2 row) 2)
      | None => 0
      end.

(** ** Facts of the table *)
Definition glyph_rows (code : Z) : list Z := map (console_glyph_row code) (seqZ 0 16).
(** The printable ASCII characters without a glyph of their own. *)
Definition blank : list Z := [96; 123; 125].
Definition drawn_as (c d : Z) : bool := (c =? d) || (bool_decide (c ∈ blank) && bool_decide (d ∈ blank)) || negb (bool_decide (glyph_rows c = glyph_rows d)).
Lemma all_pairs (n : Z) (P : Z -> Z -> bool) : forallb (fun c => forallb (P c) (seqZ 33 n)) (seqZ 33 n) = true -> forall c d, 33 <= c < 33 + n -> 33 <= d < 33 + n -> P c d = true.
Proof.
  intros Hall c d Hc Hd. rewrite forallb_forall in Hall. assert (In c (seqZ 33 n)) as Hin by (apply list_elem_of_In, elem_of_seqZ; lia). specialize (Hall c Hin).
  rewrite forallb_forall in Hall. apply Hall, list_elem_of_In, elem_of_seqZ. lia.
Qed.
(** C36: Two visible ASCII characters look the same only when they are equal, or when both are the
    backquote or a brace: these have no rows in the table and are drawn as blanks. *)
Theorem glyphs_legible c d : 33 <= c <= 126 -> 33 <= d <= 126 -> glyph_rows c = glyph_rows d <-> c = d \/ c ∈ blank /\ d ∈ blank.
Proof.
  intros Hc Hd. split.
  - intros E. pose proof (all_pairs 94 drawn_as ltac:(vm_compute; reflexivity) c d ltac:(lia) ltac:(lia)) as Hp. unfold drawn_as in Hp. rewrite (bool_decide_true _ E), orb_false_r in Hp.
    apply orb_true_iff in Hp as [Hp|Hp]; [left; by apply Z.eqb_eq|right]. apply andb_true_iff in Hp as [H1%bool_decide_eq_true H2%bool_decide_eq_true]. done.
  - intros [->|[H1 H2]]; [done|]. unfold blank in *. rewrite !elem_of_cons in H1, H2. destruct H1 as [->|[->|[->|H1]]]; [..|by apply elem_of_nil in H1].
    all: destruct H2 as [->|[->|[->|H2]]]; [vm_compute; reflexivity..|by apply elem_of_nil in H2].
Qed.
Lemma glyphs_legible_witness : glyph_rows 65 = glyph_rows 66 <-> 65 = 66 \/ 65 ∈ blank /\ 66 ∈ blank.
Proof. apply (glyphs_legible 65 66); lia. Defined.
