(* ===== verification/ConsoleVideo.v ===== *)
(** * The screen of the console (src/console_video.c)

    The console is an array of cells, a character with its attribute each.  In
    graphics mode the cells are drawn into the linear framebuffer of the
    boot loader, only where they changed. *)
From S2P Require Import Prelude Font LinuxMemory.

Definition CELLS : Z := 2000.
Record MultibootInfo := {
  mb_flags : Z; framebuffer_low : Z; framebuffer_high : Z; framebuffer_pitch : Z; framebuffer_width : Z; framebuffer_height : Z;
  framebuffer_bpp : Z; framebuffer_type : Z; red_position : Z; red_size : Z; green_position : Z; green_size : Z; blue_position : Z; blue_size : Z }.
(** The variables that [console_video_init] sets together; without a
    framebuffer the cells are the text memory of the VGA. *)
Record Geometry := {
  framebuffer : Z; pitch : Z; width : Z; height : Z; bytes_per_pixel : Z; colors : list Z; origin_x : Z; origin_y : Z }.
(** [screen]: the bytes of memory that hold the framebuffer; [hw_mode]: the
    cursor start register of the VGA. *)
Record Video := {
  console_cells : list Z; previous : list Z; geometry : option Geometry; graphic_active : bool; graphic_previous : list Z;
  cursor : Z; visible : bool; previous_cursor : Z; screen : Z -> Z; hw_mode : Z }.
Definition set_cells (l : list Z) (v : Video) : Video :=
  {| console_cells := l; previous := previous v; geometry := geometry v; graphic_active := graphic_active v; graphic_previous := graphic_previous v;
     cursor := cursor v; visible := visible v; previous_cursor := previous_cursor v; screen := screen v; hw_mode := hw_mode v |}.
Definition set_previous (l : list Z) (v : Video) : Video :=
  {| console_cells := console_cells v; previous := l; geometry := geometry v; graphic_active := graphic_active v; graphic_previous := graphic_previous v;
     cursor := cursor v; visible := visible v; previous_cursor := previous_cursor v; screen := screen v; hw_mode := hw_mode v |}.
Definition set_graphic (b : bool) (v : Video) : Video :=
  {| console_cells := console_cells v; previous := previous v; geometry := geometry v; graphic_active := b; graphic_previous := graphic_previous v;
     cursor := cursor v; visible := visible v; previous_cursor := previous_cursor v; screen := screen v; hw_mode := hw_mode v |}.
Definition set_pixels (l : list Z) (y : Z -> Z) (v : Video) : Video :=
  {| console_cells := console_cells v; previous := previous v; geometry := geometry v; graphic_active := graphic_active v; graphic_previous := l;
     cursor := cursor v; visible := visible v; previous_cursor := previous_cursor v; screen := y; hw_mode := hw_mode v |}.
Definition set_screen (y : Z -> Z) (v : Video) : Video := set_pixels (graphic_previous v) y v.
Definition place_cursor (c : Z) (v : Video) : Video :=
  {| console_cells := console_cells v; previous := previous v; geometry := geometry v; graphic_active := graphic_active v; graphic_previous := graphic_previous v;
     cursor := c; visible := visible v; previous_cursor := previous_cursor v; screen := screen v; hw_mode := hw_mode v |}.
Definition set_previous_cursor (c : Z) (v : Video) : Video :=
  {| console_cells := console_cells v; previous := previous v; geometry := geometry v; graphic_active := graphic_active v; graphic_previous := graphic_previous v;
     cursor := cursor v; visible := visible v; previous_cursor := c; screen := screen v; hw_mode := hw_mode v |}.
Definition set_visible (b : bool) (mode : Z) (v : Video) : Video :=
  {| console_cells := console_cells v; previous := previous v; geometry := geometry v; graphic_active := graphic_active v; graphic_previous := graphic_previous v;
     cursor := cursor v; visible := b; previous_cursor := previous_cursor v; screen := screen v; hw_mode := mode |}.
Definition console_graphics (v : Video) : bool := bool_decide (is_Some (geometry v)).

(** ** Starting up *)
Definition palette : list (Z * Z * Z) :=
  [(0, 0, 0); (0, 0, 170); (0, 170, 0); (0, 170, 170); (170, 0, 0); (170, 0, 170); (170, 85, 0); (170, 170, 170);
   (85, 85, 85); (85, 85, 255); (85, 255, 85); (85, 255, 255); (255, 85, 85); (255, 85, 255); (255, 255, 85); (255, 255, 255)].
Definition color_of (info : MultibootInfo) (c : Z * Z * Z) : Z :=
  let '(r, g, b) := c in Z.lor (Z.lor (u32 (Z.shiftl r (red_position info))) (u32 (Z.shiftl g (green_position info)))) (u32 (Z.shiftl b (blue_position info))).
Definition usable (info : MultibootInfo) : bool :=
  has_bits (mb_flags info) (Z.shiftl 1 12) && (framebuffer_type info =? 1) && (framebuffer_high info =? 0) &&
  ((framebuffer_bpp info =? 24) || (framebuffer_bpp info =? 32)) && (640 <=? framebuffer_width info) && (400 <=? framebuffer_height info) &&
  (framebuffer_width info <=? 8192) && (framebuffer_height info <=? 8192) && (red_size info =? 8) && (green_size info =? 8) && (blue_size info =? 8) &&
  (red_position info <=? framebuffer_bpp info - 8) && (green_position info <=? framebuffer_bpp info - 8) && (blue_position info <=? framebuffer_bpp info - 8).
(** [memset] of a line of the framebuffer. *)
Definition clear_line (g : Geometry) (s : Z -> Z) (y : Z) : Z -> Z :=
  let start := u32 (framebuffer g + y * pitch g) in
  fun a => if (start <=? a) && (a <? start + width g * bytes_per_pixel g) then 0 else s a.
Definition geometry_of (info : MultibootInfo) : Geometry :=
  {| framebuffer := framebuffer_low info; pitch := framebuffer_pitch info; width := framebuffer_width info; height := framebuffer_height info;
     bytes_per_pixel := framebuffer_bpp info / 8; colors := map (color_of info) palette;
     origin_x := (framebuffer_width info - 640) / 2; origin_y := (framebuffer_height info - 400) / 2 |}.
Definition console_video_init `{Layout} (info : option MultibootInfo) (v : Video) (m : Memory) : Video * Memory :=
  match info with
  | None => (v, m)
  | Some info =>
      if negb (usable info) then (v, m)
      else
        let bpp := framebuffer_bpp info / 8 in
        let stride := framebuffer_pitch info in
        if (stride <? framebuffer_width info * bpp) || (65536 <? stride) then (v, m)
        else
          let '(error, m) := linux_memory_map_mmio (framebuffer_low info) (u32 (stride * framebuffer_height info)) m in
          if truth error then (v, m)
          else
            let g := geometry_of info in
            ({| console_cells := replicate (Z.to_nat CELLS) 0x0720; previous := replicate (Z.to_nat CELLS) 0xffff; geometry := Some g;
                graphic_active := graphic_active v; graphic_previous := graphic_previous v; cursor := cursor v; visible := visible v;
                previous_cursor := previous_cursor v; screen := fold_left (clear_line g) (seqZ 0 (height g)) (screen v); hw_mode := hw_mode v |}, m)
  end.

(** ** Drawing *)
Definition set_byte_at (s : Z -> Z) (w : Z * Z) : Z -> Z := set_cell s w.1 w.2.
Definition store_all (l : list (Z * Z)) (s : Z -> Z) : Z -> Z := fold_left set_byte_at l s.
Definition pixel_writes (g : Geometry) (at_ color : Z) : list (Z * Z) :=
  map (fun b => (u32 (at_ + b), u8 (Z.shiftr color (b * 8)))) (seqZ 0 (bytes_per_pixel g)).
(** The stores that draw a cell, the cursor as its two lowest rows. *)
Definition line_at (g : Geometry) (i y : Z) : Z :=
  u32 (framebuffer g + (origin_y g + i / 80 * 16 + y) * pitch g + (origin_x g + i mod 80 * 8) * bytes_per_pixel g).
Definition row_bits (cell y : Z) (active : bool) : Z := if active && (14 <=? y) then 255 else console_glyph_row (Z.land cell 255) y.
Definition foreground (g : Geometry) (cell : Z) : Z := nth (Z.to_nat (Z.land (Z.shiftr cell 8) 15)) (colors g) 0.
Definition background (g : Geometry) (cell : Z) : Z := nth (Z.to_nat (Z.land (Z.shiftr cell 12) 15)) (colors g) 0.
Definition pixel_color (g : Geometry) (cell y x : Z) (active : bool) : Z :=
  if has_bits (row_bits cell y active) (Z.shiftr 128 x) then foreground g cell else background g cell.
Definition cell_writes (g : Geometry) (cell i : Z) (active : bool) : list (Z * Z) :=
  flat_map (fun y => flat_map (fun x => pixel_writes g (u32 (line_at g i y + x * bytes_per_pixel g)) (pixel_color g cell y x active)) (seqZ 0 8)) (seqZ 0 16).
Definition present_cell (g : Geometry) (active : Z) (v : Video) (i : Z) : Video :=
  let cell := nth (Z.to_nat i) (console_cells v) 0 in
  if (cell =? nth (Z.to_nat i) (previous v) 0) && negb (i =? active) && negb (i =? previous_cursor v) then v
  else set_screen (store_all (cell_writes g cell i (i =? active)) (screen v)) (set_previous (<[Z.to_nat i := cell]> (previous v)) v).
Definition console_present (v : Video) : Video :=
  match geometry v with
  | None => v
  | Some g =>
      if graphic_active v then v
      else
        let active := if visible v then cursor v else -1 in
        set_previous_cursor active (fold_left (present_cell g active) (seqZ 0 CELLS) v)
  end.
Definition console_video_cursor (x y : Z) (v : Video) : Video :=
  console_present (place_cursor (if (0 <=? x) && (x <? 80) && (0 <=? y) && (y <? 25) then y * 80 + x else -1) v).
Definition console_cursor_visible (value : bool) (v : Video) : Video :=
  let mode := hw_mode v in
  console_present (set_visible value (if console_graphics v then mode else if value then Z.ldiff mode 0x20 else Z.lor mode 0x20) v).
Definition console_blit (source : option (list Z)) (v : Video) : Video :=
  match source with
  | None => v
  | Some l => console_present (set_cells (take (Z.to_nat CELLS) l) (console_cursor_visible false v))
  end.

(** ** Pictures of 640x400 pixels *)
Definition graphic_pixel (g : Geometry) (pixels : list Z) (active : bool) (a : list Z * (Z -> Z)) (index : Z) : list Z * (Z -> Z) :=
  let '(seen, s) := a in
  let color := Z.land (byte_at pixels index) 15 in
  if active && (byte_at seen index =? color) then (seen, s)
  else
    let at_ := u32 (framebuffer g + (origin_y g + index / 640) * pitch g + (origin_x g + index mod 640) * bytes_per_pixel g) in
    (<[Z.to_nat index := color]> seen, store_all (pixel_writes g at_ (nth (Z.to_nat color) (colors g) 0)) s).
Definition console_graphic_blit (pixels : option (list Z)) (v : Video) : Z * Video :=
  match pixels with
  | None => (0, console_present (set_previous (replicate (Z.to_nat CELLS) 0xffff) (set_graphic false v)))
  | Some pixels =>
      match geometry v with
      | None => (-1, v)
      | Some g =>
          let '(seen, s) := fold_left (graphic_pixel g pixels (graphic_active v)) (seqZ 0 (640 * 400)) (graphic_previous v, screen v) in
          (0, set_graphic true (set_pixels seen s v))
      end
  end.
