(* ===== verification/ConsoleVideoProofs.v ===== *)
(** * The screen shows the console

    Redrawing only the cells that changed shows the same screen as drawing
    them all, inside the framebuffer. *)
From S2P Require Import Prelude Font LinuxMemory LinuxMemoryProofs ConsoleVideo.

(** ** Places of pixels *)
Record geometry_ok (g : Geometry) : Prop := {
  geo_width : 640 <= width g <= 8192;
  geo_height : 400 <= height g <= 8192;
  geo_bytes : 3 <= bytes_per_pixel g <= 4;
  geo_pitch : width g * bytes_per_pixel g <= pitch g <= 65536;
  geo_memory : 0 <= framebuffer g /\ framebuffer g + pitch g * height g <= 2 ^ 32;
  geo_origin : origin_x g = (width g - 640) / 2 /\ origin_y g = (height g - 400) / 2 }.
(** Byte [b] of the pixel in column [x] and line [y] of the window. *)
Definition pixel_at (g : Geometry) (x y b : Z) : Z := framebuffer g + (origin_y g + y) * pitch g + (origin_x g + x) * bytes_per_pixel g + b.
Definition in_window (g : Geometry) (a : Z) : Prop := exists x y b, 0 <= x < 640 /\ 0 <= y < 400 /\ 0 <= b < bytes_per_pixel g /\ a = pixel_at g x y b.
Lemma origin_bounds g : geometry_ok g -> 0 <= origin_x g /\ origin_x g + 640 <= width g /\ 0 <= origin_y g /\ origin_y g + 400 <= height g.
Proof. intros [? ? ? ? ? [-> ->]]. dm_lia. Qed.
Lemma column_bounds g x b : geometry_ok g -> 0 <= x < 640 -> 0 <= b < bytes_per_pixel g -> 0 <= (origin_x g + x) * bytes_per_pixel g + b < pitch g.
Proof. intros Hg Hx Hb. pose proof (origin_bounds g Hg). destruct Hg as [? ? ? ? ? _]. nia. Qed.
Lemma pixel_range g x y b : geometry_ok g -> 0 <= x < 640 -> 0 <= y < 400 -> 0 <= b < bytes_per_pixel g ->
  framebuffer g <= pixel_at g x y b < framebuffer g + pitch g * height g.
Proof.
  intros Hg Hx Hy Hb. pose proof (column_bounds g x b Hg Hx Hb). pose proof (origin_bounds g Hg). destruct Hg as [? ? ? ? ? _]. unfold pixel_at.
  assert (0 <= (origin_y g + y) * pitch g /\ (origin_y g + y) * pitch g + pitch g <= pitch g * height g) by nia. lia.
Qed.
Lemma pixel_inj g x y b x' y' b' : geometry_ok g -> 0 <= x < 640 -> 0 <= x' < 640 -> 0 <= b < bytes_per_pixel g -> 0 <= b' < bytes_per_pixel g ->
  pixel_at g x y b = pixel_at g x' y' b' -> x = x' /\ y = y' /\ b = b'.
Proof.
  intros Hg Hx Hx' Hb Hb' E. pose proof (column_bounds g x b Hg Hx Hb). pose proof (column_bounds g x' b' Hg Hx' Hb'). unfold pixel_at in E.
  assert (y = y') as -> by nia. assert ((origin_x g + x) * bytes_per_pixel g + b = (origin_x g + x') * bytes_per_pixel g + b') by lia. assert (x = x') as -> by nia. lia.
Qed.

(** ** Stores *)
Lemma store_all_app l1 l2 s : store_all (l1 ++ l2) s = store_all l2 (store_all l1 s).
Proof. apply fold_left_app. Qed.
Lemma store_all_out l : forall s a, a ∉ l.*1 -> store_all l s a = s a.
Proof.
  induction l as [|[b v] l IH]; intros s a Ha; [done|]. cbn in Ha. apply not_elem_of_cons in Ha as [Hne Ha]. change (store_all ((b, v) :: l) s) with (store_all l (set_cell s b v)).
  rewrite IH by done. unfold set_cell. by destruct (Z.eqb_spec a b).
Qed.
Lemma store_all_in l a v : forall s, (a, v) ∈ l -> (forall w, (a, w) ∈ l -> w = v) -> store_all l s a = v.
Proof.
  induction l as [|[b w] l IH] using rev_ind; intros s Hin Hv; [by apply elem_of_nil in Hin|]. rewrite store_all_app. change (store_all [(b, w)] ?t) with (set_cell t b w). unfold set_cell.
  destruct (Z.eqb_spec a b) as [->|Hne]; [apply Hv, elem_of_app; right; by left|]. apply elem_of_app in Hin as [Hin|Hin%list_elem_of_singleton]; [|congruence].
  apply IH; [done|]. intros w' Hw'. apply Hv, elem_of_app. by left.
Qed.
Definition color_byte (color b : Z) : Z := u8 (Z.shiftr color (b * 8)).
(** The stores of a cell are its pixels. *)
Lemma cell_write_iff g cell i active a v : geometry_ok g -> 0 <= i < CELLS ->
  (a, v) ∈ cell_writes g cell i active <->
  exists x y b, 0 <= x < 8 /\ 0 <= y < 16 /\ 0 <= b < bytes_per_pixel g /\ a = pixel_at g (i mod 80 * 8 + x) (i / 80 * 16 + y) b /\ v = color_byte (pixel_color g cell y x active) b.
Proof.
  intros Hg Hi. unfold CELLS in Hi. unfold cell_writes. rewrite list_elem_of_In, in_flat_map.
  assert (forall x y b, 0 <= x < 8 -> 0 <= y < 16 -> 0 <= b < bytes_per_pixel g ->
    u32 (u32 (line_at g i y + x * bytes_per_pixel g) + b) = pixel_at g (i mod 80 * 8 + x) (i / 80 * 16 + y) b) as Haddr.
  { intros x y b Hx Hy Hb. assert (0 <= i / 80 * 16 + y < 400 /\ 0 <= i mod 80 * 8 + x < 640 /\ 0 <= i mod 80 * 8 < 640) as (Hr & Hc & Hc0) by dm_lia.
    pose proof (pixel_range g _ _ b Hg Hc Hr Hb) as H1. pose proof (pixel_range g _ _ 0 Hg Hc Hr ltac:(lia)) as H2. pose proof (pixel_range g _ _ 0 Hg Hc0 Hr ltac:(lia)) as H3.
    pose proof (geo_memory _ Hg). unfold line_at, pixel_at in *. rewrite (u32_small (framebuffer g + _ + _)) by (unfold is_u32; lia).
    rewrite (u32_small (_ + x * _)) by (unfold is_u32; lia). rewrite u32_small by (unfold is_u32; lia). lia. }
  split.
  - intros (y & Hy & Hin). apply in_flat_map in Hin as (x & Hx & Hin). unfold pixel_writes in Hin. apply in_map_iff in Hin as (b & E & Hb). apply list_elem_of_In, elem_of_seqZ in Hy, Hx, Hb.
    injection E as <- <-. exists x, y, b. split_and!; try lia; [apply Haddr; lia|done].
  - intros (x & y & b & Hx & Hy & Hb & -> & ->). exists y. split; [apply list_elem_of_In, elem_of_seqZ; lia|]. apply in_flat_map. exists x. split; [apply list_elem_of_In, elem_of_seqZ; lia|].
    apply in_map_iff. exists b. split; [by rewrite Haddr|apply list_elem_of_In, elem_of_seqZ; lia].
Qed.

(** ** What the screen shows *)
Definition shown (g : Geometry) (s : Z -> Z) (cell i : Z) (active : bool) : Prop :=
  forall x y b, 0 <= x < 8 -> 0 <= y < 16 -> 0 <= b < bytes_per_pixel g ->
    s (pixel_at g (i mod 80 * 8 + x) (i / 80 * 16 + y) b) = color_byte (pixel_color g cell y x active) b.
Lemma cell_pixel_inj g i j x y b x' y' b' : geometry_ok g -> 0 <= i < CELLS -> 0 <= j < CELLS -> 0 <= x < 8 -> 0 <= x' < 8 -> 0 <= y < 16 -> 0 <= y' < 16 ->
  0 <= b < bytes_per_pixel g -> 0 <= b' < bytes_per_pixel g ->
  pixel_at g (i mod 80 * 8 + x) (i / 80 * 16 + y) b = pixel_at g (j mod 80 * 8 + x') (j / 80 * 16 + y') b' -> i = j /\ x = x' /\ y = y' /\ b = b'.
Proof.
  unfold CELLS. intros Hg Hi Hj Hx Hx' Hy Hy' Hb Hb' E. apply pixel_inj in E as (E1 & E2 & ->); try done; [|dm_lia..].
  assert (i mod 80 = j mod 80 /\ x = x') as [E3 ->] by dm_lia. assert (i / 80 = j / 80 /\ y = y') as [E4 ->] by dm_lia.
  split; [|done]. rewrite (Z.div_mod i 80), (Z.div_mod j 80) by lia. congruence.
Qed.
Lemma shown_draw g s cell i active : geometry_ok g -> 0 <= i < CELLS -> shown g (store_all (cell_writes g cell i active) s) cell i active.
Proof.
  intros Hg Hi x y b Hx Hy Hb. apply store_all_in.
  - apply (cell_write_iff g cell i active _ _ Hg Hi). by exists x, y, b.
  - intros w Hw. apply (cell_write_iff g cell i active _ _ Hg Hi) in Hw as (x' & y' & b' & Hx' & Hy' & Hb' & E & ->).
    by destruct (cell_pixel_inj g i i x y b x' y' b' Hg Hi Hi Hx Hx' Hy Hy' Hb Hb' E) as (_ & -> & -> & ->).
Qed.
Lemma draw_out g s cell i active a : geometry_ok g -> 0 <= i < CELLS ->
  (forall x y b, 0 <= x < 8 -> 0 <= y < 16 -> 0 <= b < bytes_per_pixel g -> a <> pixel_at g (i mod 80 * 8 + x) (i / 80 * 16 + y) b) ->
  store_all (cell_writes g cell i active) s a = s a.
Proof.
  intros Hg Hi Hout. apply store_all_out. intros Hin. apply list_elem_of_fmap in Hin as ([a' v] & -> & Hin).
  apply (cell_write_iff g cell i active _ _ Hg Hi) in Hin as (x & y & b & Hx & Hy & Hb & E & _). by apply (Hout x y b Hx Hy Hb).
Qed.
Lemma shown_other g s cell i active cell' j active' : geometry_ok g -> 0 <= i < CELLS -> 0 <= j < CELLS -> i <> j ->
  shown g s cell' j active' -> shown g (store_all (cell_writes g cell i active) s) cell' j active'.
Proof.
  intros Hg Hi Hj Hne Hs x y b Hx Hy Hb. rewrite draw_out; [by apply Hs|done|done|]. intros x' y' b' Hx' Hy' Hb' E. apply Hne. symmetry.
  by destruct (cell_pixel_inj g j i x y b x' y' b' Hg Hj Hi Hx Hx' Hy Hy' Hb Hb' E).
Qed.

(** ** Drawing what changed *)
Definition cell_at (l : list Z) (i : Z) : Z := nth (Z.to_nat i) l 0.
(** A cell that was drawn before is still on the screen. *)
Definition kept_cell (g : Geometry) (v : Video) (i : Z) : Prop :=
  cell_at (previous v) i = 0xffff \/ shown g (screen v) (cell_at (previous v) i) i (i =? previous_cursor v).
Record video_ok (g : Geometry) (v : Video) : Prop := {
  video_geometry : geometry v = Some g;
  video_shape : geometry_ok g;
  video_cells : zlen (console_cells v) = CELLS;
  video_previous : zlen (previous v) = CELLS;
  video_kept : graphic_active v = false -> forall i, 0 <= i < CELLS -> kept_cell g v i }.
(** [k] cells are drawn, of those that [v0] has. *)
Record drawn (g : Geometry) (active : Z) (v0 : Video) (k : Z) (v : Video) : Prop := {
  drawn_cells : console_cells v = console_cells v0;
  drawn_cursor : previous_cursor v = previous_cursor v0;
  drawn_rest : geometry v = geometry v0 /\ graphic_active v = graphic_active v0 /\ graphic_previous v = graphic_previous v0 /\ cursor v = cursor v0 /\ visible v = visible v0 /\ hw_mode v = hw_mode v0;
  drawn_length : zlen (previous v) = CELLS;
  drawn_before : forall i, 0 <= i < k -> cell_at (previous v) i = cell_at (console_cells v0) i /\ shown g (screen v) (cell_at (console_cells v0) i) i (i =? active);
  drawn_after : forall i, k <= i < CELLS -> kept_cell g v i;
  drawn_outside : forall a, ~ in_window g a -> screen v a = screen v0 a }.
Lemma cell_at_insert l i x j : 0 <= i < zlen l -> 0 <= j -> cell_at (<[Z.to_nat i := x]> l) j = if j =? i then x else cell_at l j.
Proof.
  unfold zlen, cell_at. intros Hi Hj. rewrite !nth_lookup. destruct (Z.eqb_spec j i) as [->|Hne]; [by rewrite list_lookup_insert_eq by lia|by rewrite list_lookup_insert_ne by lia].
Qed.
Lemma cell_window g i x y b : 0 <= i < CELLS -> 0 <= x < 8 -> 0 <= y < 16 -> 0 <= b < bytes_per_pixel g -> in_window g (pixel_at g (i mod 80 * 8 + x) (i / 80 * 16 + y) b).
Proof. unfold CELLS. intros Hi Hx Hy Hb. exists (i mod 80 * 8 + x), (i / 80 * 16 + y), b. split; [dm_lia|]. split; [dm_lia|]. done. Qed.
Lemma present_cell_step g active v0 k v : geometry_ok g -> zlen (console_cells v0) = CELLS -> cell_at (console_cells v0) k <> 0xffff -> 0 <= k < CELLS ->
  drawn g active v0 k v -> drawn g active v0 (k + 1) (present_cell g active v k).
Proof.
  intros Hg Hlen Hcell Hk [Ec Ecur Er Hl Hb Ha Ho]. unfold present_cell. rewrite Ec. fold (cell_at (console_cells v0) k). fold (cell_at (previous v) k). rewrite Ecur.
  set (c := cell_at (console_cells v0) k) in *. destruct (_ && _) eqn:E.
  - bool_to_prop. constructor; try done.
    + intros i Hi. destruct (Z.eq_dec i k) as [->|]; [|apply Hb; lia]. split; [done|]. fold c. destruct (Ha k ltac:(lia)) as [?|Hs]; [congruence|].
      rewrite Ecur in Hs. replace (cell_at (previous v) k) with c in Hs by congruence. zfalse (k =? active). by rewrite (proj2 (Z.eqb_neq k (previous_cursor v0))) in Hs.
    + intros i Hi. apply Ha. lia.
  - constructor; cbn [console_cells previous_cursor previous screen geometry graphic_active graphic_previous cursor visible hw_mode set_screen set_pixels set_previous]; try done.
    + unfold zlen in *. by rewrite length_insert.
    + intros i Hi. rewrite cell_at_insert by lia. destruct (Z.eqb_spec i k) as [->|Hne].
      * split; [done|]. by apply shown_draw.
      * destruct (Hb i ltac:(lia)) as [? Hs]. split; [done|]. apply shown_other; [done|done|lia|done|done].
    + intros i Hi. unfold kept_cell. cbn [console_cells previous_cursor previous screen set_screen set_pixels set_previous]. rewrite cell_at_insert by lia. zfalse (i =? k).
      destruct (Ha i ltac:(lia)) as [?|Hs]; [by left|right]. apply shown_other; [done|done|lia|lia|done].
    + intros a Hout. rewrite draw_out; [by apply Ho|done|done|]. intros x y b Hx Hy Hbb ->. by apply Hout, cell_window.
Qed.
Lemma present_cells g active v0 n : geometry_ok g -> zlen (console_cells v0) = CELLS -> (forall i, 0 <= i < CELLS -> cell_at (console_cells v0) i <> 0xffff) ->
  forall k v, 0 <= k -> k + Z.of_nat n = CELLS -> drawn g active v0 k v -> drawn g active v0 CELLS (fold_left (present_cell g active) (seqZ k (Z.of_nat n)) v).
Proof.
  intros Hg Hlen Hcells. induction n as [|n IH]; intros k v Hk Hn Hd; [by replace CELLS with k by lia|]. rewrite seqZ_cons by lia. cbn [fold_left].
  replace (Z.pred (Z.of_nat (S n))) with (Z.of_nat n) by lia. replace (Z.succ k) with (k + 1) by lia. apply IH; [lia|lia|]. apply present_cell_step; [done|done|apply Hcells; lia|lia|done].
Qed.
(** The cursor that is drawn. *)
Definition active_cursor (v : Video) : Z := if visible v then cursor v else -1.
Lemma present_drawn g v : video_ok g v -> graphic_active v = false -> (forall i, 0 <= i < CELLS -> cell_at (console_cells v) i <> 0xffff) ->
  exists v1, drawn g (active_cursor v) v CELLS v1 /\ console_present v = set_previous_cursor (active_cursor v) v1.
Proof.
  intros [Eg Hg Hc Hp Hk] Ea Hcells. unfold console_present. rewrite Eg, Ea. eexists. split; [|done].
  apply (present_cells g (active_cursor v) v (Z.to_nat CELLS) Hg Hc Hcells 0 v); try done. constructor; try done.
  - intros i Hi. lia.
  - intros i Hi. by apply Hk.
Qed.
Lemma present_shows g v : video_ok g v -> graphic_active v = false -> (forall i, 0 <= i < CELLS -> cell_at (console_cells v) i <> 0xffff) ->
  let v' := console_present v in
  (forall i, 0 <= i < CELLS -> shown g (screen v') (cell_at (console_cells v) i) i (i =? active_cursor v)) /\
  (forall a, ~ in_window g a -> screen v' a = screen v a) /\ video_ok g v'.
Proof.
  intros Hv Ea Hcells v'. destruct (present_drawn g v Hv Ea Hcells) as (v1 & [Ec Ecur Er Hl Hb Ha Ho] & E). unfold v'. rewrite E. clear v' E. destruct Hv as [Eg Hg Hc Hp Hk].
  split; [intros i Hi; by apply Hb|]. split; [exact Ho|]. constructor; cbn [geometry console_cells previous graphic_active set_previous_cursor].
  - destruct Er as (-> & _). done.
  - done.
  - by rewrite Ec.
  - done.
  - intros _ i Hi. right. cbn [screen previous previous_cursor set_previous_cursor]. destruct (Hb i Hi) as [-> Hs]. exact Hs.
Qed.
(** C7: the screen shows the console.  Although only the cells that changed and the two
    places of the cursor are drawn, afterwards every cell of the console is on the screen in its
    colours, underlined where the cursor is; not a byte outside the window of 640x400
    pixels has changed, and the next drawing may rely on this one. *)
Theorem console_present_shows g v : video_ok g v -> graphic_active v = false -> (forall i, 0 <= i < CELLS -> cell_at (console_cells v) i <> 0xffff) ->
  let v' := console_present v in
  (forall i, 0 <= i < CELLS -> shown g (screen v') (cell_at (console_cells v) i) i (i =? active_cursor v)) /\
  (forall a, ~ in_window g a -> screen v' a = screen v a) /\ video_ok g v'.
Proof. exact (present_shows g v). Qed.

(** ** A picture of 1024x768 pixels *)
Definition PIXELS : Z := 640 * 400.
Definition sample_info : MultibootInfo :=
  {| mb_flags := 0x1000; framebuffer_low := 0xe0000000; framebuffer_high := 0; framebuffer_pitch := 4096; framebuffer_width := 1024; framebuffer_height := 768;
     framebuffer_bpp := 32; framebuffer_type := 1; red_position := 16; red_size := 8; green_position := 8; green_size := 8; blue_position := 0; blue_size := 8 |}.
Definition text_video : Video :=
  {| console_cells := replicate (Z.to_nat CELLS) 0x0741; previous := replicate (Z.to_nat CELLS) 0; geometry := None; graphic_active := false;
     graphic_previous := replicate (Z.to_nat PIXELS) 0; cursor := -1; visible := true; previous_cursor := -1; screen := fun a => a mod 256; hw_mode := 0x0d |}.
Definition sample_geometry : Geometry := geometry_of sample_info.
Definition sample_video : Video :=
  {| console_cells := replicate (Z.to_nat CELLS) 0x0741; previous := replicate (Z.to_nat CELLS) 0xffff; geometry := Some sample_geometry; graphic_active := false;
     graphic_previous := replicate (Z.to_nat PIXELS) 0; cursor := 81; visible := true; previous_cursor := -1; screen := fun _ => 0; hw_mode := 0x0d |}.
Lemma sample_geometry_ok : geometry_ok sample_geometry.
Proof. constructor; vm_compute; repeat split; done. Qed.
Lemma replicate_cell n c i : 0 <= i < Z.of_nat n -> cell_at (replicate n c) i = c.
Proof. intros Hi. unfold cell_at. rewrite nth_lookup, lookup_replicate_2 by lia. done. Qed.
#[local] Opaque Z.to_nat.
Lemma sample_video_ok : video_ok sample_geometry sample_video.
Proof.
  constructor; [done|exact sample_geometry_ok|by apply zlen_replicate|by apply zlen_replicate|].
  intros _ i Hi. left. apply replicate_cell. rewrite Z2Nat.id; done.
Qed.
Lemma console_present_shows_witness : let v' := console_present sample_video in
  shown sample_geometry (screen v') 0x0741 81 true /\ video_ok sample_geometry v'.
Proof.
  assert (forall i, 0 <= i < CELLS -> cell_at (console_cells sample_video) i = 0x0741) as Hc by (intros i Hi; apply replicate_cell; rewrite Z2Nat.id; done).
  destruct (console_present_shows sample_geometry sample_video sample_video_ok eq_refl) as (H1 & _ & H3); [intros i Hi; by rewrite Hc|].
  split; [|exact H3]. specialize (H1 81 ltac:(unfold CELLS; lia)). rewrite Hc in H1 by (unfold CELLS; lia). exact H1.
Defined.
