(* ===== verification/Console.v ===== *)
(** * Text output and line input (src/barnix.c)

    The text cursor over the cells of the console, printing of UTF-8 text, and
    the line editor with its history and completion.  A store outside an
    array is an outcome of the model, [None]. *)
From Stdlib Require Import String.
From S2P Require Import Prelude CString Utf8 Font LinuxMemory ConsoleVideo State.

Definition VGA_WIDTH : Z := 80.
Definition VGA_HEIGHT : Z := 25.
Definition CYAN : Z := 3.
Definition GREEN : Z := 2.
Definition YELLOW : Z := 14.
Definition WHITE : Z := 15.
Definition newline : Z := 10.
Record Console := {
  video : Video; cursor_x : Z; cursor_y : Z; theme_background : Z; theme_foreground : Z; output_decoder : Utf8Decoder; hw_cursor : Z;
  input_history : list (list Z); input_history_count : Z }.
Definition set_video (v : Video) (c : Console) : Console :=
  {| video := v; cursor_x := cursor_x c; cursor_y := cursor_y c; theme_background := theme_background c; theme_foreground := theme_foreground c;
     output_decoder := output_decoder c; hw_cursor := hw_cursor c; input_history := input_history c; input_history_count := input_history_count c |}.
Definition move_to (x y : Z) (c : Console) : Console :=
  {| video := video c; cursor_x := x; cursor_y := y; theme_background := theme_background c; theme_foreground := theme_foreground c;
     output_decoder := output_decoder c; hw_cursor := hw_cursor c; input_history := input_history c; input_history_count := input_history_count c |}.
Definition set_hw_cursor (p : Z) (c : Console) : Console :=
  {| video := video c; cursor_x := cursor_x c; cursor_y := cursor_y c; theme_background := theme_background c; theme_foreground := theme_foreground c;
     output_decoder := output_decoder c; hw_cursor := p; input_history := input_history c; input_history_count := input_history_count c |}.
Definition set_decoder (d : Utf8Decoder) (c : Console) : Console :=
  {| video := video c; cursor_x := cursor_x c; cursor_y := cursor_y c; theme_background := theme_background c; theme_foreground := theme_foreground c;
     output_decoder := d; hw_cursor := hw_cursor c; input_history := input_history c; input_history_count := input_history_count c |}.
Definition set_theme (background foreground : Z) (c : Console) : Console :=
  {| video := video c; cursor_x := cursor_x c; cursor_y := cursor_y c; theme_background := background; theme_foreground := foreground;
     output_decoder := output_decoder c; hw_cursor := hw_cursor c; input_history := input_history c; input_history_count := input_history_count c |}.
Definition set_history (h : list (list Z)) (n : Z) (c : Console) : Console :=
  {| video := video c; cursor_x := cursor_x c; cursor_y := cursor_y c; theme_background := theme_background c; theme_foreground := theme_foreground c;
     output_decoder := output_decoder c; hw_cursor := hw_cursor c; input_history := h; input_history_count := n |}.
Definition input_history_clear (c : Console) : Console := set_history (replicate 16 (replicate 128 0)) 0 c.

(** ** The cells under the cursor *)
Definition console_attribute (color : Z) (c : Console) : Z :=
  Z.lor (Z.shiftl (theme_background c) 4) (if color =? WHITE then theme_foreground c else Z.land color 15).
Definition cell_of (color ch : Z) (c : Console) : Z := u16 (Z.lor (u16 (Z.shiftl (console_attribute color c) 8)) ch).
(** [vga_buffer[i] = w]. *)
Definition store_cell (i w : Z) (c : Console) : option Console :=
  if (0 <=? i) && (i <? CELLS) then Some (set_video (set_cells (<[Z.to_nat i := w]> (console_cells (video c))) (video c)) c) else None.
Definition console_theme (background foreground : Z) (c : Console) : Console :=
  let c := set_theme (Z.land background 7) (Z.land foreground 15) c in
  let cells := map (fun w => cell_of WHITE (Z.land w 255) c) (console_cells (video c)) in
  set_video (console_present (set_cells cells (video c))) c.
Definition set_cursor (x y : Z) (c : Console) : Console :=
  let c := move_to x y (set_video (console_cursor_visible true (video c)) c) in
  if console_graphics (video c) then set_video (console_video_cursor x y (video c)) c else set_hw_cursor (u16 (y * VGA_WIDTH + x)) c.
(** The screen moves up one line. *)
Definition scroll (c : Console) : Console :=
  set_video (set_cells (drop 80 (console_cells (video c)) ++ replicate 80 (cell_of WHITE 32 c)) (video c)) c.
Definition putchar (ch color : Z) (c : Console) : option Console :=
  c ← (if ch =? newline then Some (move_to 0 (cursor_y c + 1) c)
       else if ch =? 13 then Some (move_to 0 (cursor_y c) c)
       else
         c ← store_cell (cursor_y c * VGA_WIDTH + cursor_x c) (cell_of color ch c) c;
         Some (move_to (cursor_x c + 1) (cursor_y c) c));
  let c := if VGA_WIDTH <=? cursor_x c then move_to 0 (cursor_y c + 1) c else c in
  let c := if VGA_HEIGHT <=? cursor_y c then move_to (cursor_x c) (VGA_HEIGHT - 1) (scroll c) else c in
  Some (set_cursor (cursor_x c) (cursor_y c) c).
Definition clear (c : Console) : Console :=
  set_cursor 0 0 (move_to 0 0 (set_video (set_cells (replicate (Z.to_nat CELLS) (cell_of WHITE 32 c)) (video c)) c)).

(** ** Printing *)
Fixpoint put_codes (codes : list Z) (color : Z) (c : Console) : option Console :=
  match codes with
  | [] => Some c
  | code :: codes' => c ← putchar (text_glyph code) color c; put_codes codes' color c
  end.
Fixpoint print_bytes (s : list Z) (color : Z) (c : Console) : option Console :=
  match s with
  | [] => Some c
  | b :: s' =>
      let '(d, codes) := utf8_feed (output_decoder c) b in
      c ← put_codes codes color (set_decoder d c); print_bytes s' color c
  end.
Definition print (color : Z) (s : list Z) (c : Console) : option Console := print_bytes (cstr s) color c.
Definition println (color : Z) (s : list Z) (c : Console) : option Console := c ← print color s c; print color [newline] c.
Definition printll (color : Z) (s : list Z) (c : Console) : option Console := c ← print GREEN (text "[OK] ") c; println color s c.
Definition console_finish_line (c : Console) : option Console := if truth (cursor_x c) then print WHITE [newline] c else Some c.
Definition print_int (color value : Z) (c : Console) : option Console := print color (itoa value) c.
Definition print_uint (color value : Z) (c : Console) : option Console := print color (utoa value) c.
Definition print_hex (color value : Z) (c : Console) : option Console := c ← print color (text "0x") c; print color (xtoa value) c.
Definition banner (title : list Z) (c : Console) : option Console :=
  c ← println CYAN (text "========================================") c;
  c ← print YELLOW (text " ") c;
  c ← println WHITE title c;
  println CYAN (text "========================================") c.

(** ** Reading a line *)
Definition KEY_UP : Z := 0x100.
Definition KEY_DOWN : Z := 0x101.
(** [buffer]: the whole array; [pos]: the bytes of it in use. *)
Record Line := { buffer : list Z; pos : Z; history_position : Z; start_x : Z; start_y : Z }.
Definition set_buffer (b : list Z) (p : Z) (l : Line) : Line :=
  {| buffer := b; pos := p; history_position := history_position l; start_x := start_x l; start_y := start_y l |}.
Definition set_position (h : Z) (l : Line) : Line :=
  {| buffer := buffer l; pos := pos l; history_position := h; start_x := start_x l; start_y := start_y l |}.
(** [buffer[i] = v]. *)
Definition store_char (i v : Z) (b : list Z) : option (list Z) := if (0 <=? i) && (i <? zlen b) then Some (<[Z.to_nat i := v]> b) else None.
Fixpoint store_cells (idx : list Z) (w : Z) (c : Console) : option Console :=
  match idx with
  | [] => Some c
  | i :: idx' => c ← store_cell i w c; store_cells idx' w c
  end.
(** The cells of three lines from where the input starts. *)
Definition erased (l : Line) : list Z :=
  flat_map (fun y => if y <? VGA_HEIGHT then map (fun x => y * VGA_WIDTH + x) (seqZ (if y =? start_y l then start_x l else 0) (VGA_WIDTH - (if y =? start_y l then start_x l else 0))) else [])
    [start_y l; start_y l + 1; start_y l + 2].
Definition redraw (l : Line) (c : Console) : option Console :=
  c ← store_cells (erased l) (cell_of WHITE 32 c) c;
  print WHITE (buffer l) (set_cursor (start_x l) (start_y l) c).
Definition history_at (c : Console) (i : Z) : list Z := nth (Z.to_nat i) (input_history c) [].
Definition from_history (up : bool) (l : Line) (c : Console) : option (Line * Console) :=
  let n := input_history_count c in
  let h := history_position l in
  if (if up then 0 <? h else h <? n) then
    let h := if up then h - 1 else h + 1 in
    b ← (if h <? n then strcpy (buffer l) (history_at c h) else store_char 0 0 (buffer l));
    let l := set_buffer b (strlen b) (set_position h l) in
    c ← redraw l c; Some (l, c)
  else Some (l, c).
Definition commands : list (list Z) :=
  map text ["ls"; "pwd"; "df"; "diskinfo"; "devices"; "clear"; "touch"; "rm"; "mkdir"; "cd"; "rmdir"; "stat"; "cp"; "mv"; "write"; "append"; "cat"; "echo"; "panic"; "sync";
    "mount"; "format"; "unmount"; "help"; "init"; "macro"; "bnm"; "get"; "git"; "true"; "false"; "linux"; "su"; "sudo"; "chmod"; "useradd"; "whoami"; "theme"; "snake"; "pong";
    "paint"; "fdisk"]%string.
Fixpoint skip_while (p : Z -> bool) (s : list Z) : list Z := match s with c :: s' => if p c then skip_while p s' else s | [] => [] end.
(** Whether only the first word has been typed. *)
Definition first_word (l : Line) : bool :=
  zlen (skip_while (fun c => negb (c =? 32)) (skip_while (fun c => c =? 32) (take (Z.to_nat (pos l)) (buffer l)))) =? 0.
Definition complete (l : Line) (c : Console) : option (Line * Console) :=
  if first_word l then
    let found := List.filter (fun name => strncmp name (buffer l) (Z.to_nat (pos l)) =? 0) commands in
    l ← (match found with
         | [name] => b ← strcpy (buffer l) name; Some (set_buffer b (strlen b) l)
         | _ => Some l
         end);
    c ← redraw l c; Some (l, c)
  else Some (l, c).
(** A finished line goes to the history, unless it has a password or is the last one again. *)
Fixpoint shift_history (n : nat) (h : list (list Z)) : option (list (list Z)) :=
  match n with
  | S n' => match h with
            | a :: (b :: _) as t => a' ← strcpy a b; t' ← shift_history n' (tail h); Some (a' :: t')
            | _ => Some h
            end
  | O => Some h
  end.
Definition remember (l : Line) (c : Console) : option Console :=
  let n := input_history_count c in
  if truth (pos l) && negb (bool_decide (is_Some (strstr (buffer l) (text "passwd="))))
     && ((n =? 0) || negb (strcmp (history_at c (n - 1)) (buffer l) =? 0)) then
    shifted ← (if n =? 16 then h ← shift_history 15 (input_history c); Some (h, 15) else Some (input_history c, n));
    let '(h, n) := shifted in
    slot ← h !! Z.to_nat n;
    s ← strcpy slot (buffer l);
    Some (set_history (<[Z.to_nat n := s]> h) (n + 1) c)
  else Some c.
(** Where the character before [p] starts. *)
Fixpoint char_start (fuel : nat) (b : list Z) (p : Z) : Z :=
  match fuel with
  | O => p
  | S fuel' => let p := p - 1 in if (0 <? p) && (Z.land (byte_at b p) 0xc0 =? 0x80) then char_start fuel' b p else p
  end.
Definition backspace (l : Line) (c : Console) : option (Line * Console) :=
  if 0 <? pos l then
    let p := char_start (Z.to_nat (pos l)) (buffer l) (pos l) in
    b ← store_char p 0 (buffer l);
    let c := if (cursor_x c =? 0) && (0 <? cursor_y c) then move_to VGA_WIDTH (cursor_y c - 1) c else c in
    let c := if 0 <? cursor_x c then move_to (cursor_x c - 1) (cursor_y c) c else c in
    c ← store_cell (cursor_y c * VGA_WIDTH + cursor_x c) (cell_of WHITE 32 c) c;
    Some (set_buffer b p l, set_cursor (cursor_x c) (cursor_y c) c)
  else Some (l, c).
Fixpoint store_chars (bs : list Z) (p : Z) (b : list Z) : option (list Z) :=
  match bs with
  | [] => Some b
  | v :: bs' => b ← store_char p v b; store_chars bs' (p + 1) b
  end.
Definition insert_char (ch : Z) (l : Line) (c : Console) : option (Line * Console) :=
  let encoded := utf8_encode ch in
  if pos l + zlen encoded <? zlen (buffer l) then
    b ← store_chars encoded (pos l) (buffer l);
    let p := pos l + zlen encoded in
    b ← store_char p 0 b;
    c ← putchar (text_glyph ch) WHITE c;
    Some (set_buffer b p l, c)
  else Some (l, c).
(** One key; [true]: the line is finished. *)
Definition input_key (ch : Z) (l : Line) (c : Console) : option (bool * Line * Console) :=
  if (ch =? KEY_UP) || (ch =? KEY_DOWN) then r ← from_history (ch =? KEY_UP) l c; Some (false, r.1, r.2)
  else if (ch =? 9) && (0 <? pos l) then r ← complete l c; Some (false, r.1, r.2)
  else if ch =? newline then
    b ← store_char (pos l) 0 (buffer l);
    let l := set_buffer b (pos l) l in
    c ← putchar newline WHITE c;
    c ← remember l c;
    Some (true, l, c)
  else if ch =? 8 then r ← backspace l c; Some (false, r.1, r.2)
  else if (32 <=? ch) && negb (ch =? 127) then r ← insert_char ch l c; Some (false, r.1, r.2)
  else Some (false, l, c).
(** The keys that come in; the rest of them once the line is finished. *)
Fixpoint input_keys (keys : list Z) (l : Line) (c : Console) : option (bool * Line * Console * list Z) :=
  match keys with
  | [] => Some (false, l, c, [])
  | ch :: keys' =>
      r ← input_key ch l c;
      let '(finished, l, c) := r in
      if finished : bool then Some (true, l, c, keys') else input_keys keys' l c
  end.
Definition start_line (max_length : Z) (c : Console) : Line :=
  {| buffer := replicate (Z.to_nat max_length) 0; pos := 0; history_position := input_history_count c; start_x := cursor_x c; start_y := cursor_y c |}.
Definition input (max_length : Z) (prompt : list Z) (keys : list Z) (c : Console) : option (bool * Line * Console * list Z) :=
  c ← print WHITE prompt c; input_keys keys (start_line max_length c) c.
