(* ===== verification/ConsoleProofs.v ===== *)
(** * The console stays on its screen

    Printing and line input never store outside the cells, the line or the
    history, whatever the text and the keys are, and what is printed is on the screen. *)
From Stdlib Require Import String.
From S2P Require Import Prelude CString Utf8 Font LinuxMemory ConsoleVideo ConsoleVideoProofs State Console.

(** ** The invariant *)
Definition plain (w : Z) : Prop := 0 <= w < 0x8000.
Record screen_ok (v : Video) : Prop := {
  screen_cells : zlen (console_cells v) = CELLS;
  screen_plain : Forall plain (console_cells v);
  screen_video : forall g, geometry v = Some g -> video_ok g v }.
(** A slot of the history holds a text that ends in it. *)
Definition slot_ok (s : list Z) : Prop := zlen s = 128 /\ bytes_ok s /\ strlen s < 128.
Record history_ok (h : list (list Z)) (n : Z) : Prop := {
  history_length : length h = 16%nat;
  history_slots : Forall slot_ok h;
  history_count : 0 <= n <= 16 }.
Record console_ok (c : Console) : Prop := {
  ok_screen : screen_ok (video c);
  ok_x : 0 <= cursor_x c < VGA_WIDTH;
  ok_y : 0 <= cursor_y c < VGA_HEIGHT;
  ok_theme : 0 <= theme_background c <= 7 /\ 0 <= theme_foreground c <= 15;
  ok_history : history_ok (input_history c) (input_history_count c) }.
(** What printing leaves. *)
Definition same_input (c c' : Console) : Prop :=
  input_history c' = input_history c /\ input_history_count c' = input_history_count c /\
  theme_background c' = theme_background c /\ theme_foreground c' = theme_foreground c.
Lemma same_input_trans a b c : same_input a b -> same_input b c -> same_input a c.
Proof. intros (? & ? & ? & ?) (? & ? & ? & ?). repeat split; congruence. Qed.

(** ** Drawing keeps the cells *)
#[local] Opaque Z.to_nat.
Lemma present_fold_same g active l : forall v, console_cells (fold_left (present_cell g active) l v) = console_cells v /\ geometry (fold_left (present_cell g active) l v) = geometry v.
Proof.
  induction l as [|i l IH]; intros v; [done|]. cbn [fold_left]. destruct (IH (present_cell g active v i)) as [-> ->]. unfold present_cell. by destruct (_ && _).
Qed.
Lemma present_eq g v : geometry v = Some g -> graphic_active v = false ->
  console_present v = set_previous_cursor (active_cursor v) (fold_left (present_cell g (active_cursor v)) (seqZ 0 CELLS) v).
Proof. intros Eg Ea. unfold console_present. rewrite Eg, Ea. reflexivity. Qed.
Lemma present_same v : console_cells (console_present v) = console_cells v /\ geometry (console_present v) = geometry v.
Proof.
  destruct (geometry v) as [g|] eqn:Eg; [|unfold console_present; by rewrite Eg]. destruct (graphic_active v) eqn:Ea; [unfold console_present; by rewrite Eg, Ea|].
  rewrite (present_eq g v Eg Ea). generalize (seqZ 0 CELLS). intros l. destruct (present_fold_same g (active_cursor v) l v) as [E1 E2]. split; [exact E1|exact (eq_trans E2 Eg)].
Qed.
Lemma plain_cell v i : screen_ok v -> 0 <= i < CELLS -> plain (cell_at (console_cells v) i).
Proof.
  intros [Hl Hp _] Hi. unfold cell_at. unfold zlen in Hl. destruct (nth_in_or_default (Z.to_nat i) (console_cells v) 0) as [Hin| ->]; [|unfold plain; lia].
  rewrite Forall_forall in Hp. apply Hp. by apply list_elem_of_In.
Qed.
Lemma present_screen v : screen_ok v -> screen_ok (console_present v).
Proof.
  intros Hv. destruct (present_same v) as [Ec Eg]. pose proof Hv as [Hl Hp Hg]. constructor; rewrite ?Ec; [done|done|]. intros g E. rewrite Eg in E. pose proof (Hg g E) as Hok.
  destruct (graphic_active v) eqn:Ea.
  - unfold console_present. by rewrite E, Ea.
  - destruct (present_shows g v Hok Ea) as (_ & _ & ?); [|done]. intros i Hi Hc. pose proof (plain_cell v i Hv Hi) as Hpl. unfold plain in Hpl. lia.
Qed.
Lemma screen_set_cells l v : screen_ok v -> zlen l = CELLS -> Forall plain l -> screen_ok (set_cells l v).
Proof. intros [_ _ Hg] Hl Hp. constructor; try done. intros g E. destruct (Hg g E) as [? ? ? ? ?]. by constructor. Qed.
Lemma screen_set_visible b m v : screen_ok v -> screen_ok (set_visible b m v).
Proof. intros [? ? Hg]. constructor; try done. intros g E. destruct (Hg g E) as [? ? ? ? ?]. by constructor. Qed.
Lemma screen_place_cursor p v : screen_ok v -> screen_ok (place_cursor p v).
Proof. intros [? ? Hg]. constructor; try done. intros g E. destruct (Hg g E) as [? ? ? ? ?]. by constructor. Qed.
Lemma cursor_visible_ok b v : screen_ok v -> screen_ok (console_cursor_visible b v).
Proof. intros Hv. apply present_screen, screen_set_visible, Hv. Qed.
Lemma video_cursor_ok x y v : screen_ok v -> screen_ok (console_video_cursor x y v).
Proof. intros Hv. apply present_screen, screen_place_cursor, Hv. Qed.
Lemma cursor_visible_cells b v : console_cells (console_cursor_visible b v) = console_cells v.
Proof. unfold console_cursor_visible. destruct (present_same (set_visible b (if console_graphics v then hw_mode v else if b then Z.ldiff (hw_mode v) 0x20 else Z.lor (hw_mode v) 0x20) v)) as [-> _]. done. Qed.
Lemma video_cursor_cells x y v : console_cells (console_video_cursor x y v) = console_cells v.
Proof. unfold console_video_cursor. by rewrite (proj1 (present_same _)). Qed.
(** Placing the cursor on the screen. *)
Lemma set_cursor_spec x y c : screen_ok (video c) -> 0 <= theme_background c <= 7 /\ 0 <= theme_foreground c <= 15 -> history_ok (input_history c) (input_history_count c) ->
  0 <= x < VGA_WIDTH -> 0 <= y < VGA_HEIGHT -> let c' := set_cursor x y c in
  console_ok c' /\ same_input c c' /\ console_cells (video c') = console_cells (video c) /\ cursor_x c' = x /\ cursor_y c' = y /\ output_decoder c' = output_decoder c.
Proof.
  intros Hv Ht Hh Hx Hy c'. unfold c', set_cursor. pose proof (cursor_visible_ok true _ Hv) as Hv1. cbn [video move_to set_video].
  destruct (console_graphics _); (split; [constructor; cbn; try done|]); try (by apply video_cursor_ok); (split; [done|]);
    cbn [video set_video set_hw_cursor move_to]; rewrite ?video_cursor_cells, cursor_visible_cells; done.
Qed.

(** ** Characters *)
Lemma cell_of_plain color ch c : 0 <= theme_background c <= 7 /\ 0 <= theme_foreground c <= 15 -> is_byte ch -> plain (cell_of color ch c).
Proof.
  intros [Hb Hf] Hch. unfold is_byte in Hch. unfold cell_of, console_attribute, plain. rewrite (shl 4) by lia. change (2 ^ 4) with 16.
  assert (0 <= (if color =? WHITE then theme_foreground c else Z.land color 15) < 2 ^ 4) as Hlow.
  { destruct (color =? WHITE); [lia|]. change 15 with (2 ^ 4 - 1). rewrite land_mask by lia. apply Z.mod_pos_bound. lia. }
  set (low := if color =? WHITE then _ else _) in *. change (2 ^ 4) with 16 in Hlow.
  assert (Z.lor (theme_background c * 16) low = theme_background c * 16 + low) as -> by (apply (lor_low 4); [lia|exact Hlow|apply (Z.mod_mul _ 16); lia]).
  rewrite (shl 8) by lia. change (2 ^ 8) with 256. unfold u16. rewrite (Z.mod_small ((_ + low) * 256)) by lia.
  assert (Z.lor ((theme_background c * 16 + low) * 256) ch = (theme_background c * 16 + low) * 256 + ch) as -> by (apply (lor_low 8); [lia|exact Hch|apply (Z.mod_mul _ 256); lia]).
  rewrite Z.mod_small by lia. lia.
Qed.
Lemma store_cell_ok i w c : console_ok c -> 0 <= i < CELLS -> plain w -> exists c', store_cell i w c = Some c' /\ console_ok c' /\ same_input c c' /\
  cursor_x c' = cursor_x c /\ cursor_y c' = cursor_y c /\ output_decoder c' = output_decoder c /\ console_cells (video c') = <[Z.to_nat i := w]> (console_cells (video c)).
Proof.
  intros [Hv Hx Hy Ht Hh] Hi Hw. unfold store_cell. ztrue (0 <=? i). ztrue (i <? CELLS). cbn [andb]. eexists. split; [done|]. split; [|done].
  constructor; try done. cbn [video set_video]. apply screen_set_cells; [done| |]; [unfold zlen; rewrite length_insert; apply (screen_cells _ Hv)|].
  apply Forall_insert; [apply (screen_plain _ Hv)|done].
Qed.
Lemma text_glyph_byte code : 0 <= code -> is_byte (text_glyph code).
Proof.
  intros Hc. unfold text_glyph, question, is_byte. destruct (Z.ltb_spec code 128); [lia|]. destruct (_ && _); [apply u8_range|]. destruct (_ && _); [apply u8_range|].
  repeat match goal with |- context [if ?b then _ else _] => destruct b end; lia.
Qed.
(** The state after the character is stored, before the cursor is brought back. *)
Record nearly_ok (c : Console) : Prop := {
  near_screen : screen_ok (video c);
  near_x : 0 <= cursor_x c <= VGA_WIDTH;
  near_y : 0 <= cursor_y c <= VGA_HEIGHT;
  near_theme : 0 <= theme_background c <= 7 /\ 0 <= theme_foreground c <= 15;
  near_history : history_ok (input_history c) (input_history_count c) }.
Definition settle (c : Console) : Console :=
  let c := if VGA_WIDTH <=? cursor_x c then move_to 0 (cursor_y c + 1) c else c in
  let c := if VGA_HEIGHT <=? cursor_y c then move_to (cursor_x c) (VGA_HEIGHT - 1) (scroll c) else c in
  set_cursor (cursor_x c) (cursor_y c) c.
Lemma scroll_screen c : nearly_ok c -> screen_ok (video (scroll c)).
Proof.
  intros [Hv _ _ Ht _]. unfold scroll. cbn [video set_video]. apply screen_set_cells; [done| |].
  - pose proof (screen_cells _ Hv) as Hl. unfold zlen in *. rewrite length_app, length_drop, length_replicate. unfold CELLS in *. lia.
  - apply Forall_app. split; [apply Forall_drop, (screen_plain _ Hv)|]. apply Forall_replicate. apply cell_of_plain; [done|unfold is_byte; lia].
Qed.
Lemma settle_ok c : nearly_ok c -> (cursor_x c = VGA_WIDTH -> cursor_y c < VGA_HEIGHT) -> let c' := settle c in
  console_ok c' /\ same_input c c' /\ output_decoder c' = output_decoder c.
Proof.
  intros Hc Hxy c'. pose proof Hc as [Hv Hx Hy Ht Hh]. unfold c', settle. unfold VGA_WIDTH, VGA_HEIGHT in *.
  set (c1 := if 80 <=? cursor_x c then move_to 0 (cursor_y c + 1) c else c).
  assert (nearly_ok c1 /\ 0 <= cursor_x c1 < 80 /\ same_input c c1 /\ output_decoder c1 = output_decoder c) as (Hc1 & Hx1 & Hs1 & Hd1).
  { unfold c1. destruct (Z.leb_spec 80 (cursor_x c)); [|split; [exact Hc|split; [lia|done]]]. split; [constructor; cbn; try done; unfold VGA_HEIGHT; lia|]. split; [cbn; lia|done]. }
  clearbody c1. set (c2 := if 25 <=? cursor_y c1 then move_to (cursor_x c1) (25 - 1) (scroll c1) else c1). cbv zeta.
  assert (screen_ok (video c2) /\ 0 <= cursor_x c2 < 80 /\ 0 <= cursor_y c2 < 25 /\ same_input c1 c2 /\ output_decoder c2 = output_decoder c1) as (Hv2 & Hx2 & Hy2 & Hs2 & Hd2).
  { pose proof (near_y _ Hc1) as Hy1. unfold VGA_HEIGHT in Hy1. unfold c2. destruct (Z.leb_spec 25 (cursor_y c1)); [|split; [apply Hc1|split; [exact Hx1|split; [lia|done]]]].
    split; [cbn [video move_to]; by apply scroll_screen|]. split; [exact Hx1|]. split; [cbn; lia|done]. }
  clearbody c2. pose proof (same_input_trans _ _ _ Hs1 Hs2) as Hs. destruct Hs as (E1 & E2 & E3 & E4).
  destruct (set_cursor_spec (cursor_x c2) (cursor_y c2) c2 Hv2) as (Hok & Hs' & _ & _ & _ & Hd'); [by rewrite E3, E4|by rewrite E1, E2|done|done|].
  split; [done|]. split; [|congruence]. apply (same_input_trans c c2); [repeat split; done|done].
Qed.
Lemma putchar_ok ch color c : console_ok c -> is_byte ch -> exists c', putchar ch color c = Some c' /\ console_ok c' /\ same_input c c' /\ output_decoder c' = output_decoder c.
Proof.
  intros Hc Hch. pose proof Hc as [Hv Hx Hy Ht Hh]. unfold VGA_WIDTH, VGA_HEIGHT in *. unfold putchar. fold newline. destruct (ch =? newline).
  { cbn [mbind option_bind]. eexists. split; [reflexivity|]. change (let c' := settle (move_to 0 (cursor_y c + 1) c) in console_ok c' /\ same_input c c' /\ output_decoder c' = output_decoder c).
    destruct (settle_ok (move_to 0 (cursor_y c + 1) c)) as (H1 & H2 & H3); [constructor; cbn; unfold VGA_WIDTH, VGA_HEIGHT; try done; lia|cbn; unfold VGA_WIDTH; lia|done]. }
  destruct (ch =? 13).
  { cbn [mbind option_bind]. eexists. split; [reflexivity|]. change (let c' := settle (move_to 0 (cursor_y c) c) in console_ok c' /\ same_input c c' /\ output_decoder c' = output_decoder c).
    destruct (settle_ok (move_to 0 (cursor_y c) c)) as (H1 & H2 & H3); [constructor; cbn; unfold VGA_WIDTH, VGA_HEIGHT; try done; lia|cbn; unfold VGA_WIDTH; lia|done]. }
  destruct (store_cell_ok (cursor_y c * VGA_WIDTH + cursor_x c) (cell_of color ch c) c Hc) as (c1 & E & [Hv1 Hx1 Hy1 Ht1 Hh1] & Hs1 & Ex & Ey & Ed & _);
    [unfold VGA_WIDTH, CELLS; lia|by apply cell_of_plain|]. unfold VGA_WIDTH, VGA_HEIGHT in *. rewrite E. cbn [mbind option_bind]. eexists. split; [reflexivity|].
  change (let c' := settle (move_to (cursor_x c1 + 1) (cursor_y c1) c1) in console_ok c' /\ same_input c c' /\ output_decoder c' = output_decoder c). rewrite <- Ed.
  destruct (settle_ok (move_to (cursor_x c1 + 1) (cursor_y c1) c1)) as (H1 & H2 & H3); [constructor; cbn; unfold VGA_WIDTH, VGA_HEIGHT; try done; lia|cbn; unfold VGA_HEIGHT; lia|].
  split; [done|]. split; [|done]. eapply same_input_trans; [exact Hs1|]. exact H2.
Qed.
Lemma put_codes_ok codes color : Forall is_scalar codes -> forall c, console_ok c -> exists c', put_codes codes color c = Some c' /\ console_ok c' /\ same_input c c' /\ output_decoder c' = output_decoder c.
Proof.
  induction 1 as [|code codes Hcode _ IH]; intros c Hc; [by exists c|]. cbn [put_codes]. destruct (putchar_ok (text_glyph code) color c Hc (text_glyph_byte _ (proj1 (proj1 Hcode)))) as (c1 & -> & Hc1 & Hs1 & Hd1).
  cbn [mbind option_bind]. destruct (IH c1 Hc1) as (c2 & -> & Hc2 & Hs2 & Hd2). exists c2. split; [done|]. split; [done|]. split; [by eapply same_input_trans|congruence].
Qed.
Definition printer_ok (c : Console) : Prop := console_ok c /\ decoder_ok (output_decoder c).
Lemma set_decoder_ok d c : console_ok c -> console_ok (set_decoder d c).
Proof. intros [? ? ? ? ?]. by constructor. Qed.
Lemma print_bytes_ok color s : bytes_ok s -> forall c, printer_ok c -> exists c', print_bytes s color c = Some c' /\ printer_ok c' /\ same_input c c'.
Proof.
  induction 1 as [|b s Hb _ IH]; intros c [Hc Hd]; [by exists c|]. cbn [print_bytes]. pose proof (feed_ok (output_decoder c) b Hd Hb) as Hf.
  destruct (utf8_feed (output_decoder c) b) as [d codes]. destruct Hf as (Hd1 & Hcodes & _). destruct (put_codes_ok codes color Hcodes (set_decoder d c) (set_decoder_ok d c Hc)) as (c1 & -> & Hc1 & Hs1 & Ed1).
  cbn [mbind option_bind]. destruct (IH c1) as (c2 & -> & Hc2 & Hs2); [split; [done|by rewrite Ed1]|]. exists c2. split; [done|]. split; [done|]. by eapply same_input_trans.
Qed.
Lemma cstr_bytes s : bytes_ok s -> bytes_ok (cstr s).
Proof. induction 1 as [|b s Hb _ IH]; [constructor|]. cbn [cstr]. destruct (truth b); [by constructor|constructor]. Qed.
Lemma print_ok color s c : bytes_ok s -> printer_ok c -> exists c', print color s c = Some c' /\ printer_ok c' /\ same_input c c'.
Proof. intros Hs Hc. apply print_bytes_ok; [by apply cstr_bytes|done]. Qed.

(** ** Strings in their arrays *)
Lemma strlen_end b p : 0 <= p -> byte_at b p = 0 -> strlen b <= p.
Proof.
  revert p. induction b as [|c b IH]; intros p Hp E; [done|]. cbn [strlen]. destruct (truth c) eqn:Ec; [|lia].
  destruct (Z.eq_dec p 0) as [->|Hne]; [change (byte_at (c :: b) 0) with c in E; by subst|].
  assert (byte_at b (p - 1) = 0) as E'.
  { unfold byte_at in *. replace (Z.to_nat p) with (S (Z.to_nat (p - 1))) in E by lia. exact E. }
  specialize (IH (p - 1) ltac:(lia) E'). lia.
Qed.
Lemma cstr_nul_free s : no_nul (cstr s).
Proof. induction s as [|c s IH]; [constructor|]. cbn [cstr]. destruct (truth c) eqn:E; [|constructor]. constructor; [|done]. unfold truth in E. bool_to_prop. done. Qed.
Lemma strcpy_ok dest src : bytes_ok dest -> bytes_ok src -> strlen src < zlen dest ->
  exists b, strcpy dest src = Some b /\ zlen b = zlen dest /\ bytes_ok b /\ strlen b = strlen src.
Proof.
  intros Hd Hs Hl. rewrite strcpy_spec. ztrue (strlen src <? zlen dest). eexists. split; [done|].
  assert (no_nul (cstr src)) as Hn by apply cstr_nul_free. split; [|split].
  - rewrite strlen_cstr in Hl. rewrite zlen_app, zlen_cons. unfold zlen in *. rewrite length_drop. lia.
  - apply Forall_app. split; [by apply cstr_bytes|]. constructor; [unfold is_byte; lia|by apply Forall_drop].
  - by rewrite !strlen_cstr, cstr_app_nul.
Qed.
Lemma store_char_ok i v b : 0 <= i < zlen b -> is_byte v -> bytes_ok b ->
  exists b', store_char i v b = Some b' /\ zlen b' = zlen b /\ bytes_ok b' /\ byte_at b' i = v /\ forall j, 0 <= j -> j <> i -> byte_at b' j = byte_at b j.
Proof.
  intros Hi Hv Hb. unfold store_char. ztrue (0 <=? i). ztrue (i <? zlen b). cbn [andb]. eexists. split; [done|]. split; [unfold zlen; by rewrite length_insert|].
  split; [by apply Forall_insert|]. split; [pose proof (cell_at_insert b i v i Hi ltac:(lia)) as E; by rewrite Z.eqb_refl in E|].
  intros j Hj Hne. pose proof (cell_at_insert b i v j Hi Hj) as E. by rewrite (proj2 (Z.eqb_neq j i) Hne) in E.
Qed.

(** ** The line editor *)
Record line_ok (n : Z) (l : Line) (c : Console) : Prop := {
  line_buffer : zlen (buffer l) = n /\ bytes_ok (buffer l);
  line_pos : 0 <= pos l < n;
  line_end : byte_at (buffer l) (pos l) = 0;
  line_history : 0 <= history_position l <= input_history_count c;
  line_start : 0 <= start_x l < VGA_WIDTH /\ 0 <= start_y l < VGA_HEIGHT }.
Definition fits (n : Z) (c : Console) : Prop := Forall (fun s => strlen s < n) (input_history c).
Lemma line_same n l c c' : line_ok n l c -> same_input c c' -> line_ok n l c'.
Proof. intros [? ? ? ? ?] (_ & E & _). constructor; try done. by rewrite E. Qed.
Lemma fits_same n c c' : fits n c -> same_input c c' -> fits n c'.
Proof. unfold fits. intros Hf (-> & _). exact Hf. Qed.
Lemma store_cells_ok idx w : Forall (fun i => 0 <= i < CELLS) idx -> plain w -> forall c, printer_ok c -> exists c', store_cells idx w c = Some c' /\ printer_ok c' /\ same_input c c'.
Proof.
  intros Hidx Hw. induction Hidx as [|i idx Hi _ IH]; intros c [Hc Hd]; [by exists c|]. cbn [store_cells].
  destruct (store_cell_ok i w c Hc Hi Hw) as (c1 & -> & Hc1 & Hs1 & _ & _ & Ed & _). cbn [mbind option_bind].
  destruct (IH c1) as (c2 & -> & Hc2 & Hs2); [split; [done|by rewrite Ed]|]. exists c2. split; [done|]. split; [done|]. by eapply same_input_trans.
Qed.
Lemma erased_range n l c : line_ok n l c -> Forall (fun i => 0 <= i < CELLS) (erased l).
Proof.
  intros [_ _ _ _ [Hx Hy]]. apply Forall_forall. intros i Hi. apply list_elem_of_In, in_flat_map in Hi as (y & Hy' & Hi). unfold VGA_WIDTH, VGA_HEIGHT, CELLS in *.
  destruct (Z.ltb_spec y 25); [|done]. apply in_map_iff in Hi as (x & <- & Hx'). apply list_elem_of_In, elem_of_seqZ in Hx'.
  assert (start_y l <= y) by (cbn in Hy'; intuition lia). destruct (y =? start_y l); lia.
Qed.
Lemma redraw_ok n l c : line_ok n l c -> printer_ok c -> exists c', redraw l c = Some c' /\ printer_ok c' /\ same_input c c'.
Proof.
  intros Hl Hc. unfold redraw. assert (plain (cell_of WHITE 32 c)) as Hw by (apply cell_of_plain; [apply Hc|unfold is_byte; lia]).
  destruct (store_cells_ok _ _ (erased_range n l c Hl) Hw c Hc) as (c1 & -> & [Hc1 Hd1] & Hs1). cbn [mbind option_bind].
  destruct Hc1 as [Hv _ _ Ht Hh]. destruct Hl as [[_ Hb] _ _ _ [Hx Hy]]. destruct (set_cursor_spec (start_x l) (start_y l) c1 Hv Ht Hh Hx Hy) as (Hc2 & Hs2 & _ & _ & _ & Ed2).
  destruct (print_ok WHITE (buffer l) (set_cursor (start_x l) (start_y l) c1) Hb) as (c3 & -> & Hc3 & Hs3); [split; [done|by rewrite Ed2]|].
  exists c3. split; [done|]. split; [done|]. eapply same_input_trans; [exact Hs1|]. by eapply same_input_trans.
Qed.
(** What a key leaves. *)
Definition key_done (n : Z) (c : Console) (r : option (Line * Console)) : Prop :=
  match r with Some (l', c') => line_ok n l' c' /\ printer_ok c' /\ same_input c c' | None => False end.
Lemma redraw_done n l c : line_ok n l c -> printer_ok c -> key_done n c (c' ← redraw l c; Some (l, c')).
Proof. intros Hl Hc. destruct (redraw_ok n l c Hl Hc) as (c' & -> & Hc' & Hs). cbn. split; [by eapply line_same|done]. Qed.
Lemma byte_at_strlen b : byte_at b (strlen b) = 0.
Proof.
  induction b as [|c b IH]; [done|]. cbn [strlen]. destruct (truth c) eqn:E; [|unfold truth in E; bool_to_prop; by subst].
  unfold byte_at in *. pose proof (strlen_nonneg b). by replace (Z.to_nat (1 + strlen b)) with (S (Z.to_nat (strlen b))) by lia.
Qed.
Lemma line_copied n l c b p : line_ok n l c -> zlen b = n -> bytes_ok b -> strlen b < n -> 0 <= p <= input_history_count c -> line_ok n (set_buffer b (strlen b) (set_position p l)) c.
Proof. intros [_ _ _ _ ?] Hb Hby Hs Hp. constructor; cbn [buffer pos history_position start_x start_y set_buffer set_position]; try done; [pose proof (strlen_nonneg b); lia|apply byte_at_strlen]. Qed.
Lemma from_history_done n up l c : line_ok n l c -> printer_ok c -> fits n c -> key_done n c (from_history up l c).
Proof.
  intros Hl Hc Hf. unfold from_history. cbv zeta. destruct (if up then _ else _) eqn:Eup; [|done]. set (h := if up then history_position l - 1 else history_position l + 1).
  pose proof Hl as [[Hlen Hb] Hp _ Hh _]. assert (0 <= h <= input_history_count c) as Hh' by (unfold h; destruct up; bool_to_prop; lia).
  assert (exists b, (if h <? input_history_count c then strcpy (buffer l) (history_at c h) else store_char 0 0 (buffer l)) = Some b /\ zlen b = n /\ bytes_ok b /\ strlen b < n) as (b & -> & Hb1 & Hb2 & Hb3).
  { destruct (Z.ltb_spec h (input_history_count c)).
    - pose proof (ok_history _ (proj1 Hc)) as [Hhl Hhs Hhc]. assert (history_at c h ∈ input_history c) as Hin by (unfold history_at; apply list_elem_of_In, nth_In; lia).
      unfold fits in Hf. rewrite Forall_forall in Hf, Hhs. specialize (Hf _ Hin). destruct (Hhs _ Hin) as (_ & Hby & _).
      destruct (strcpy_ok (buffer l) (history_at c h) Hb Hby ltac:(lia)) as (b & E & E1 & E2 & E3). exists b. split; [done|]. split; [lia|]. split; [done|lia].
    - destruct (store_char_ok 0 0 (buffer l) ltac:(lia) ltac:(unfold is_byte; lia) Hb) as (b & E & E1 & E2 & E3 & _). exists b. split; [done|]. split; [lia|]. split; [done|].
      pose proof (strlen_end b 0 ltac:(lia) E3). lia. }
  cbn [mbind option_bind]. apply redraw_done; [by apply line_copied|done].
Qed.
Lemma commands_ok : Forall (fun s => bytes_ok s /\ strlen s < 9) commands.
Proof. unfold bytes_ok. apply (bool_decide_unpack _). vm_compute. exact I. Qed.
Lemma complete_done n l c : 9 <= n -> line_ok n l c -> printer_ok c -> key_done n c (complete l c).
Proof.
  intros Hn Hl Hc. unfold complete. destruct (first_word l); [|done]. cbv zeta. destruct (List.filter _ commands) as [|name [|? ?]] eqn:Ef; try (by apply redraw_done).
  assert (In name commands) as Hin by (assert (In name [name]) as Hin by (by left); rewrite <- Ef in Hin; exact (proj1 (proj1 (filter_In _ _ _) Hin))). pose proof commands_ok as Hcm. rewrite Forall_forall in Hcm.
  destruct (Hcm name) as [Hby Hlt]; [by apply list_elem_of_In|]. pose proof Hl as [[Hlen Hb] _ _ Hh _].
  destruct (strcpy_ok (buffer l) name Hb Hby ltac:(lia)) as (b & -> & E1 & E2 & E3). cbn [mbind option_bind]. apply redraw_done; [|done].
  change (set_buffer b (strlen b) l) with (set_buffer b (strlen b) (set_position (history_position l) l)). apply line_copied; [done|lia|done|lia|done].
Qed.
Lemma char_start_range fuel b : forall p, 0 < p -> (0 < fuel)%nat -> 0 <= char_start fuel b p < p.
Proof.
  induction fuel as [|fuel IH]; intros p Hp Hf; [lia|]. cbn [char_start]. cbv zeta. destruct ((0 <? p - 1) && _) eqn:E; [|lia]. bool_to_prop.
  destruct fuel as [|fuel]; [cbn [char_start]; lia|]. specialize (IH (p - 1) ltac:(lia) ltac:(lia)). lia.
Qed.
Lemma backspace_done n l c : line_ok n l c -> printer_ok c -> key_done n c (backspace l c).
Proof.
  intros Hl [Hc Hd]. unfold backspace. destruct (Z.ltb_spec 0 (pos l)); [|by split; [|split]]. pose proof Hl as [[Hlen Hb] Hp _ Hh Hst]. cbv zeta.
  pose proof (char_start_range (Z.to_nat (pos l)) (buffer l) (pos l) ltac:(lia) ltac:(lia)) as Hr. set (p := char_start _ _ _) in *.
  destruct (store_char_ok p 0 (buffer l) ltac:(lia) ltac:(unfold is_byte; lia) Hb) as (b & -> & E1 & E2 & E3 & _). cbn [mbind option_bind].
  pose proof (ok_x _ Hc) as Hx. pose proof (ok_y _ Hc) as Hy. unfold VGA_WIDTH, VGA_HEIGHT in *.
  set (c1 := if (cursor_x c =? 0) && (0 <? cursor_y c) then move_to 80 (cursor_y c - 1) c else c). set (c2 := if 0 <? cursor_x c1 then move_to (cursor_x c1 - 1) (cursor_y c1) c1 else c1).
  assert (exists x y, c2 = move_to x y c /\ 0 <= x < 80 /\ 0 <= y < 25) as (x & y & E & Hx2 & Hy2).
  { unfold c2, c1. destruct ((cursor_x c =? 0) && (0 <? cursor_y c)) eqn:Eq; bool_to_prop; cbn [cursor_x cursor_y move_to].
    - exists 79, (cursor_y c - 1). split; [done|lia].
    - destruct (Z.ltb_spec 0 (cursor_x c)); [exists (cursor_x c - 1), (cursor_y c); split; [done|lia]|exists (cursor_x c), (cursor_y c); split; [by destruct c|lia]]. }
  clearbody c2. subst c2. assert (console_ok (move_to x y c)) as Hc2 by (destruct Hc; by constructor).
  destruct (store_cell_ok (y * 80 + x) (cell_of WHITE 32 (move_to x y c)) (move_to x y c) Hc2) as (c3 & E3' & Hc3 & Hs3 & Ex3 & Ey3 & Ed3 & _); [unfold CELLS; lia|apply cell_of_plain; [apply Hc2|unfold is_byte; lia]|].
  cbn [cursor_x cursor_y move_to] in *. rewrite E3'. cbn [mbind option_bind]. rewrite Ex3, Ey3. destruct Hc3 as [Hv3 _ _ Ht3 Hh3].
  destruct (set_cursor_spec x y c3 Hv3 Ht3 Hh3 Hx2 Hy2) as (Hc4 & Hs4 & _ & _ & _ & Ed4).
  assert (same_input c (set_cursor x y c3)) as Hs by (eapply same_input_trans; [exact Hs3|exact Hs4]). split; [|split; [split; [done|by rewrite Ed4, Ed3]|done]].
  eapply line_same; [|exact Hs]. constructor; cbn [buffer pos history_position start_x start_y set_buffer]; try done; [split; [lia|done]|lia].
Qed.
Lemma encode_bytes c : bytes_ok (utf8_encode c) /\ 1 <= zlen (utf8_encode c) <= 4.
Proof.
  unfold utf8_encode, question. repeat match goal with |- context [if ?b then _ else _] => destruct b end; (split; [repeat (apply Forall_cons; split; [first [apply u8_range|unfold is_byte; lia]|]); apply Forall_nil_2|]); by vm_compute.
Qed.
Lemma store_chars_ok bs : bytes_ok bs -> forall p b, bytes_ok b -> 0 <= p -> p + zlen bs <= zlen b -> exists b', store_chars bs p b = Some b' /\ zlen b' = zlen b /\ bytes_ok b' /\
  b' = take (Z.to_nat p) b ++ bs ++ drop (Z.to_nat (p + zlen bs)) b.
Proof.
  induction 1 as [|v bs Hv _ IH]; intros p b Hb Hp Hend.
  - exists b. split; [done|]. split; [done|]. split; [done|]. change (zlen []) with 0. rewrite Z.add_0_r. cbn [app]. by rewrite take_drop.
  - rewrite zlen_cons in Hend. pose proof (zlen_nonneg bs). cbn [store_chars]. unfold store_char. ztrue (0 <=? p). ztrue (p <? zlen b). cbn [andb mbind option_bind].
    assert (zlen (<[Z.to_nat p := v]> b) = zlen b) as El by (unfold zlen; by rewrite length_insert).
    destruct (IH (p + 1) (<[Z.to_nat p := v]> b)) as (b' & -> & E1 & E2 & ->); [by apply Forall_insert|lia|lia|]. eexists. split; [done|]. split; [lia|]. split; [done|].
    replace (Z.to_nat (p + 1)) with (S (Z.to_nat p)) by lia. replace (Z.to_nat (p + 1 + zlen bs)) with (Z.to_nat (p + zlen (v :: bs))) by (rewrite zlen_cons; lia).
    rewrite zlen_cons. rewrite (take_S_r _ _ v) by (apply list_lookup_insert_eq; unfold zlen in *; lia). rewrite take_insert_ge, drop_insert_lt by lia. by rewrite <- app_assoc.
Qed.
Lemma insert_done n ch l c : 0 <= ch -> line_ok n l c -> printer_ok c -> key_done n c (insert_char ch l c).
Proof.
  intros Hch Hl [Hc Hd]. unfold insert_char. cbv zeta. pose proof Hl as [[Hlen Hb] Hp _ Hh Hst]. destruct (encode_bytes ch) as [He1 He2].
  destruct (Z.ltb_spec (pos l + zlen (utf8_encode ch)) (zlen (buffer l))); [|by split; [|split]].
  destruct (store_chars_ok _ He1 (pos l) (buffer l) Hb ltac:(lia) ltac:(lia)) as (b & -> & E1 & E2 & _). cbn [mbind option_bind].
  destruct (store_char_ok (pos l + zlen (utf8_encode ch)) 0 b ltac:(lia) ltac:(unfold is_byte; lia) E2) as (b' & -> & E3 & E4 & E5 & _). cbn [mbind option_bind].
  destruct (putchar_ok (text_glyph ch) WHITE c Hc (text_glyph_byte ch Hch)) as (c' & -> & Hc' & Hs & Ed). cbn [mbind option_bind key_done].
  split; [|split; [split; [done|by rewrite Ed]|done]]. eapply line_same; [|exact Hs]. constructor; cbn [buffer pos history_position start_x start_y set_buffer]; try done; [split; [lia|done]|lia].
Qed.
Lemma shift_history_ok n : forall h, length h = S n -> Forall slot_ok h -> exists h', shift_history n h = Some h' /\ length h' = S n /\ Forall slot_ok h' /\
  forall k, Forall (fun s => strlen s < k) h -> Forall (fun s => strlen s < k) h'.
Proof.
  induction n as [|n IH]; intros h Hl Hh; [by exists h|]. destruct h as [|a [|b t]]; try done. cbn [shift_history tail].
  apply Forall_cons in Hh as [[Ha1 [Ha2 Ha3]] Hh]. pose proof Hh as Hh'. apply Forall_cons in Hh' as [[Hb1 [Hb2 Hb3]] _].
  destruct (strcpy_ok a b Ha2 Hb2 ltac:(lia)) as (s & -> & E1 & E2 & E3). cbn [mbind option_bind]. destruct (IH (b :: t)) as (h' & -> & El & Hs & Hk); [cbn in *; lia|done|]. cbn [mbind option_bind].
  eexists. split; [done|]. split; [cbn; lia|]. split; [apply Forall_cons; split; [|done]; split; [lia|split; [done|lia]]|].
  intros k Hf. apply Forall_cons in Hf as [_ Hf]. apply Forall_cons. split; [apply Forall_cons in Hf as [? _]; lia|by apply Hk].
Qed.
Lemma printer_set_history h n c : history_ok h n -> printer_ok c -> printer_ok (set_history h n c).
Proof. intros Hh [[? ? ? ? _] ?]. by split; [constructor|]. Qed.
Lemma fits_console c : printer_ok c -> fits 128 c.
Proof. intros [Hc _]. eapply Forall_impl; [apply (history_slots _ _ (ok_history _ Hc))|]. intros s (_ & _ & H). exact H. Qed.
(** The line goes to the history or is dropped; nothing else changes. *)
Lemma remember_ok k l c : bytes_ok (buffer l) -> strlen (buffer l) < 128 -> strlen (buffer l) < k -> printer_ok c -> fits k c -> exists c', remember l c = Some c' /\ printer_ok c' /\ fits k c'.
Proof.
  intros Hb Hl Hlk Hc Hf. unfold remember. cbv zeta. destruct (_ && _); [|by exists c]. pose proof (ok_history _ (proj1 Hc)) as [Hhl Hhs Hhc].
  assert (exists h n, (if input_history_count c =? 16 then h ← shift_history 15 (input_history c); Some (h, 15) else Some (input_history c, input_history_count c)) = Some (h, n) /\
    length h = 16%nat /\ Forall slot_ok h /\ 0 <= n < 16 /\ Forall (fun s => strlen s < k) h) as (h & n & -> & Hl' & Hs' & Hn & Hk').
  { destruct (Z.eqb_spec (input_history_count c) 16).
    - destruct (shift_history_ok 15 (input_history c) Hhl Hhs) as (h & -> & ? & ? & Hk). exists h, 15. split; [done|]. split; [done|]. split; [done|]. split; [lia|by apply Hk].
    - exists (input_history c), (input_history_count c). split; [done|]. split; [done|]. split; [done|]. split; [lia|done]. }
  cbn [mbind option_bind]. destruct (lookup_lt_is_Some_2 h (Z.to_nat n) ltac:(lia)) as [slot Eslot]. rewrite Eslot. cbn [mbind option_bind].
  pose proof Hs' as Hsl. rewrite Forall_forall in Hsl. destruct (Hsl slot) as (E1 & E2 & E3); [by eapply list_elem_of_lookup_2|].
  destruct (strcpy_ok slot (buffer l) E2 Hb ltac:(lia)) as (s & -> & F1 & F2 & F3). cbn [mbind option_bind]. eexists. split; [done|]. split; [|apply Forall_insert; [done|lia]]. apply printer_set_history; [|done].
  constructor; [by rewrite length_insert| |lia]. apply Forall_insert; [done|]. split; [lia|split; [done|lia]].
Qed.
(** What a key leaves: the editor goes on, or the line is finished and ends in its buffer. *)
Definition keyed (n : Z) (c : Console) (r : option (bool * Line * Console)) : Prop :=
  match r with
  | Some (false, l', c') => line_ok n l' c' /\ printer_ok c' /\ same_input c c'
  | Some (true, l', c') => zlen (buffer l') = n /\ bytes_ok (buffer l') /\ strlen (buffer l') < n /\ printer_ok c' /\ fits n c'
  | None => False
  end.
Lemma key_keyed n c r : key_done n c r -> keyed n c (p ← r; Some (false, p.1, p.2)).
Proof. by destruct r as [[l' c']|]. Qed.
Lemma input_key_ok n ch l c : 9 <= n <= 128 -> 0 <= ch -> line_ok n l c -> printer_ok c -> fits n c -> keyed n c (input_key ch l c).
Proof.
  intros Hn Hch Hl Hc Hf. unfold input_key. destruct (_ || _); [by apply key_keyed, from_history_done|]. destruct (_ && _); [by apply key_keyed, complete_done; [lia|..]|].
  destruct (Z.eqb_spec ch newline).
  - pose proof Hl as [[Hlen Hb] Hp _ _ _]. destruct (store_char_ok (pos l) 0 (buffer l) ltac:(lia) ltac:(unfold is_byte; lia) Hb) as (b & -> & E1 & E2 & E3 & _). cbn [mbind option_bind].
    destruct Hc as [Hc Hd]. destruct (putchar_ok newline WHITE c Hc ltac:(unfold is_byte, newline; lia)) as (c1 & -> & Hc1 & Hs1 & Ed1). cbn [mbind option_bind]. cbv zeta.
    pose proof (strlen_end b (pos l) ltac:(lia) E3) as He.
    destruct (remember_ok n (set_buffer b (pos l) l) c1) as (c2 & -> & Hc2); [done|cbn [buffer set_buffer]; lia..|split; [done|by rewrite Ed1]|by eapply fits_same|]. cbn [mbind option_bind keyed buffer set_buffer]. split; [lia|]. split; [done|]. split; [lia|done].
  - destruct (ch =? 8); [by apply key_keyed, backspace_done|]. destruct (_ && _); [by apply key_keyed, insert_done|]. by split; [|split].
Qed.
Definition lined (n : Z) (keys : list Z) (r : option (bool * Line * Console * list Z)) : Prop :=
  exists finished l' c' keys', r = Some (finished, l', c', keys') /\ zlen (buffer l') = n /\ strlen (buffer l') < n /\ bytes_ok (buffer l') /\ printer_ok c' /\ fits n c' /\
    exists used, (if finished then length used <> 0%nat else keys' = []) /\ keys = used ++ keys'.
Lemma input_keys_ok n keys : 9 <= n <= 128 -> Forall (fun k => 0 <= k) keys -> forall l c, line_ok n l c -> printer_ok c -> fits n c -> lined n keys (input_keys keys l c).
Proof.
  intros Hn. induction 1 as [|ch keys Hch _ IH]; intros l c Hl Hc Hf.
  - exists false, l, c, []. split; [done|]. destruct Hl as [[? ?] ? He _ _]. split; [done|]. split; [pose proof (strlen_end (buffer l) (pos l) ltac:(lia) He); lia|]. split; [done|]. split; [done|]. split; [done|by exists []].
  - cbn [input_keys]. pose proof (input_key_ok n ch l c Hn Hch Hl Hc Hf) as Hk. destruct (input_key ch l c) as [[[finished l'] c']|]; [|done]. cbn [mbind option_bind]. destruct finished; cbn [keyed] in Hk.
    + destruct Hk as (H1 & H2 & H3 & H4 & H5). exists true, l', c', keys. do 6 (split; [done|]). by exists [ch].
    + destruct Hk as (Hl' & Hc' & Hs). destruct (IH l' c' Hl' Hc' ltac:(by eapply fits_same)) as (f & l2 & c2 & k2 & E1 & E2 & E3 & E4 & E5 & E6 & used & E7 & E8).
      exists f, l2, c2, k2. do 6 (split; [done|]). exists (ch :: used). split; [by destruct f|by rewrite E8].
Qed.
Lemma start_line_ok n c : 9 <= n -> console_ok c -> line_ok n (start_line n c) c.
Proof.
  intros Hn Hc. constructor; cbn [start_line buffer pos history_position start_x start_y].
  - split; [apply zlen_replicate; lia|apply zeros_ok].
  - lia.
  - apply (replicate_cell (Z.to_nat n) 0 0). lia.
  - pose proof (history_count _ _ (ok_history _ Hc)). lia.
  - split; apply Hc.
Qed.
(** C35: printing is safe: any text, valid UTF-8 or not, in any colour, is printed without a
    store outside the cells; the cursor stays on the screen, scrolling as needed, and what
    the console holds is what the screen shows. *)
Theorem print_safe color s c : bytes_ok s -> printer_ok c -> exists c', print color s c = Some c' /\ printer_ok c' /\ same_input c c'.
Proof. exact (print_ok color s c). Qed.
(** C9: reading a line is safe: whatever keys come, with history, completion and editing, nothing is
    stored outside the line, the cells or the history; the line always ends inside its array,
    and so do the texts of the history. *)
Theorem input_safe n prompt keys c : 9 <= n <= 128 -> bytes_ok prompt -> Forall (fun k => 0 <= k) keys -> printer_ok c -> fits n c ->
  lined n keys (input n prompt keys c).
Proof.
  intros Hn Hp Hk Hc Hf. unfold input. destruct (print_ok WHITE prompt c Hp Hc) as (c1 & -> & Hc1 & Hs). cbn [mbind option_bind].
  apply input_keys_ok; [done|done|apply start_line_ok; [lia|apply Hc1]|done|by eapply fits_same].
Qed.

(** ** Editing refines a list of characters *)
(** A key that types a character, or the one that takes the last back. *)
Definition typed_char (k : Z) : Prop := is_scalar k /\ 32 <= k /\ k <> 127 /\ k <> KEY_UP /\ k <> KEY_DOWN.
Definition plain_key (k : Z) : Prop := k = 8 \/ typed_char k.
Definition encode_text (t : list Z) : list Z := concat (map utf8_encode t).
Definition type_key (n : Z) (t : list Z) (k : Z) : list Z :=
  if k =? 8 then removelast t else if zlen (encode_text t) + zlen (utf8_encode k) <? n then t ++ [k] else t.
Definition continuation (b : Z) : bool := Z.land b 0xc0 =? 0x80.
Lemma encode_text_snoc t k : encode_text (t ++ [k]) = encode_text t ++ utf8_encode k.
Proof. unfold encode_text. rewrite map_app, concat_app. cbn [map concat]. by rewrite app_nil_r. Qed.
Lemma cont_true x : continuation (128 + x mod 64) = true.
Proof. unfold continuation. rewrite is_cont by (unfold is_byte; dm_lia). apply andb_true_iff. rewrite Z.leb_le, Z.ltb_lt. dm_lia. Qed.
Lemma lead_false b : is_byte b -> 192 <= b \/ b < 128 -> continuation b = false.
Proof. intros Hb Ho. unfold continuation. rewrite is_cont by done. apply andb_false_iff. rewrite Z.leb_gt, Z.ltb_ge. lia. Qed.
(** A character is a first byte and continuation bytes, none of them zero. *)
Lemma encode_shape c : is_scalar c -> 32 <= c -> exists b bs, utf8_encode c = b :: bs /\ continuation b = false /\ Forall (fun x => continuation x = true) bs /\ no_nul (b :: bs).
Proof.
  intros Hc H32. pose proof Hc as [? ?]. assert (forall l, Forall (fun x => continuation x = true) l -> no_nul l) as Hnn.
  { intros l. induction 1 as [|x l Hx _ IH]; constructor; [|done]. intros ->. done. }
  assert (forall b bs, utf8_encode c = b :: bs -> is_byte b -> (192 <= b \/ b < 128) -> b <> 0 -> Forall (fun x => continuation x = true) bs ->
    exists b bs, utf8_encode c = b :: bs /\ continuation b = false /\ Forall (fun x => continuation x = true) bs /\ no_nul (b :: bs)) as Hsh.
  { intros b bs E Hb Ho Hz Hbs. exists b, bs. split; [done|]. split; [by apply lead_false|]. split; [done|]. constructor; [done|by apply Hnn]. }
  destruct (Z.lt_ge_cases c 0x80); [|destruct (Z.lt_ge_cases c 0x800); [|destruct (Z.lt_ge_cases c 0x10000)]].
  - apply (Hsh c []); [unfold utf8_encode; ztrue (c <? 0x80); by rewrite u8_small by (unfold is_byte; lia)|unfold is_byte; lia|lia|lia|constructor].
  - apply (Hsh _ _ (encode_2 c ltac:(lia))); [unfold is_byte; dm_lia|dm_lia|dm_lia|by repeat (constructor; [apply cont_true|])].
  - apply (Hsh _ _ (encode_3 c ltac:(lia) Hc)); [unfold is_byte; dm_lia|dm_lia|dm_lia|by repeat (constructor; [apply cont_true|])].
  - apply (Hsh _ _ (encode_4 c ltac:(lia))); [unfold is_byte; dm_lia|dm_lia|dm_lia|by repeat (constructor; [apply cont_true|])].
Qed.
Lemma char_start_at b q k : forall fuel, 0 <= q -> continuation (byte_at b q) = false -> (forall j, q < j < q + 1 + Z.of_nat k -> continuation (byte_at b j) = true) ->
  (k < fuel)%nat -> char_start fuel b (q + 1 + Z.of_nat k) = q.
Proof.
  induction k as [|k IH]; intros fuel Hq H0 Hc Hf; (destruct fuel as [|fuel]; [lia|]); cbn [char_start]; cbv zeta.
  - replace (q + 1 + Z.of_nat 0 - 1) with q by lia. fold (continuation (byte_at b q)). by rewrite H0, andb_false_r.
  - replace (q + 1 + Z.of_nat (S k) - 1) with (q + 1 + Z.of_nat k) by lia. fold (continuation (byte_at b (q + 1 + Z.of_nat k))). rewrite Hc by lia. ztrue (0 <? q + 1 + Z.of_nat k). cbn [andb].
    apply IH; [done|done|intros j Hj; apply Hc; lia|lia].
Qed.
(** The bytes of the line in use are the text. *)
Definition holds (l : Line) (t : list Z) : Prop := take (Z.to_nat (pos l)) (buffer l) = encode_text t /\ pos l = zlen (encode_text t).
Lemma holds_byte l t i : holds l t -> 0 <= i < pos l -> byte_at (buffer l) i = byte_at (encode_text t) i.
Proof. intros [<- _] Hi. unfold byte_at. rewrite !nth_lookup, lookup_take_lt by lia. done. Qed.
Lemma cstr_holds n l t c : line_ok n l c -> holds l t -> Forall typed_char t -> cstr (buffer l) = encode_text t.
Proof.
  intros [[Hl _] Hp He _ _] [Ht Hpos] Hc. assert (no_nul (encode_text t)) as Hn.
  { clear - Hc. unfold encode_text. induction Hc as [|k t (Hk & H32 & _) _ IH]; [constructor|]. cbn [map concat]. apply Forall_app. split; [|done].
    by destruct (encode_shape k Hk H32) as (b & bs & -> & _ & _ & ?). }
  rewrite <- (take_drop (Z.to_nat (pos l)) (buffer l)), Ht. assert (exists r, drop (Z.to_nat (pos l)) (buffer l) = 0 :: r) as [r ->]; [|by apply cstr_app_nul].
  exists (drop (S (Z.to_nat (pos l))) (buffer l)). apply drop_S. unfold byte_at in He. rewrite nth_lookup in He. unfold zlen in Hl.
  destruct (lookup_lt_is_Some_2 (buffer l) (Z.to_nat (pos l)) ltac:(lia)) as [x Ex]. rewrite Ex in He |- *. cbn in He. by subst.
Qed.
Lemma insert_holds n k l c t l' c' : line_ok n l c -> holds l t -> insert_char k l c = Some (l', c') -> holds l' (if zlen (encode_text t) + zlen (utf8_encode k) <? n then t ++ [k] else t).
Proof.
  intros [[Hlen Hb] Hp _ _ _] [Ht Hpos] E. unfold insert_char in E. cbv zeta in E. destruct (encode_bytes k) as [He1 He2]. rewrite Hlen in E. rewrite <- Hpos.
  destruct (Z.ltb_spec (pos l + zlen (utf8_encode k)) n); [|injection E as <- <-; by split].
  destruct (store_chars_ok _ He1 (pos l) (buffer l) Hb ltac:(lia) ltac:(lia)) as (b & Eb & E1 & E2 & E3). rewrite Eb in E. cbn [mbind option_bind] in E.
  unfold store_char in E. destruct (_ && _) eqn:Er; [|done]. cbn [mbind option_bind] in E. destruct (putchar _ _ c) as [c1|]; [|done]. cbn [mbind option_bind] in E. injection E as <- <-.
  unfold holds. cbn [buffer pos set_buffer]. rewrite encode_text_snoc. split; [|rewrite zlen_app; lia]. rewrite take_insert_ge by lia. rewrite E3, app_assoc, <- Ht.
  rewrite take_app_le.
  - rewrite take_ge; [done|]. rewrite length_app, length_take. unfold zlen in *. lia.
  - rewrite length_app, length_take. unfold zlen in *. lia.
Qed.
Lemma backspace_holds n l c t l' c' : line_ok n l c -> holds l t -> Forall typed_char t -> backspace l c = Some (l', c') -> holds l' (removelast t).
Proof.
  intros Hl Hh Hc E. pose proof Hh as [Ht Hpos]. pose proof Hl as [[Hlen Hb] Hp _ _ _]. unfold backspace in E. destruct t as [|k t _] using rev_ind.
  { change (encode_text []) with ([] : list Z) in Hpos. change (zlen ([] : list Z)) with 0 in Hpos. rewrite Hpos in E. change (0 <? 0) with false in E. by injection E as <- <-. }
  rewrite removelast_last. apply Forall_app in Hc as [Hct Hck]. apply Forall_singleton in Hck as (Hk & H32 & _). destruct (encode_shape k Hk H32) as (b0 & bs & Eenc & Hb0 & Hbs & _).
  rewrite encode_text_snoc in Hpos, Ht. rewrite zlen_app, Eenc, zlen_cons in Hpos. pose proof (zlen_nonneg bs). pose proof (zlen_nonneg (encode_text t)). destruct (Z.ltb_spec 0 (pos l)); [|lia]. cbv zeta in E.
  assert (forall j, 0 <= j < pos l -> byte_at (buffer l) j = byte_at (encode_text t ++ b0 :: bs) j) as Hby.
  { intros j Hj. rewrite <- Eenc, <- encode_text_snoc. by apply holds_byte. }
  assert (char_start (Z.to_nat (pos l)) (buffer l) (pos l) = zlen (encode_text t)) as Ecs.
  { assert (pos l = zlen (encode_text t) + 1 + Z.of_nat (length bs)) as Ep by (unfold zlen in *; lia). rewrite Ep at 2. apply char_start_at; [lia| | |unfold zlen in *; lia].
    - rewrite Hby by lia. unfold byte_at. rewrite nth_lookup, lookup_app_r by (unfold zlen; lia). replace (Z.to_nat (zlen (encode_text t)) - length (encode_text t))%nat with 0%nat by (unfold zlen; lia). done.
    - intros j Hj. rewrite Hby by lia. unfold byte_at. rewrite nth_lookup, lookup_app_r by (unfold zlen in *; lia).
      replace (Z.to_nat j - length (encode_text t))%nat with (S (Z.to_nat j - length (encode_text t) - 1)) by (unfold zlen in *; lia). cbn [lookup list_lookup].
      destruct (lookup_lt_is_Some_2 bs (Z.to_nat j - length (encode_text t) - 1)) as [x Ex]; [unfold zlen in *; lia|]. rewrite Forall_forall in Hbs.
      change (continuation (default 0 (bs !! (Z.to_nat j - length (encode_text t) - 1)%nat)) = true). rewrite Ex. apply Hbs. by eapply list_elem_of_lookup_2. }
  rewrite Ecs in E. unfold store_char in E. destruct ((0 <=? zlen (encode_text t)) && (zlen (encode_text t) <? zlen (buffer l))); [|done]. cbn [mbind option_bind] in E. destruct (store_cell _ _ _) as [c1|]; [|done]. cbn [mbind option_bind] in E. injection E as <- <-.
  split; [|done]. cbn [buffer pos set_buffer]. rewrite take_insert_ge by lia.
  assert (take (Z.to_nat (zlen (encode_text t))) (buffer l) = take (Z.to_nat (zlen (encode_text t))) (take (Z.to_nat (pos l)) (buffer l))) as -> by (rewrite take_take; f_equal; lia).
  rewrite Ht. apply take_app_length'. unfold zlen. lia.
Qed.
Lemma type_key_typed n t k : Forall typed_char t -> plain_key k -> Forall typed_char (type_key n t k).
Proof.
  intros Ht Hk. unfold type_key. destruct (Z.eqb_spec k 8) as [->|Hne].
  - destruct t as [|x t _] using rev_ind; [constructor|]. rewrite removelast_last. by apply Forall_app in Ht as [? _].
  - destruct Hk as [|Hk]; [done|]. destruct (_ <? _); [|done]. apply Forall_app. split; [done|by apply Forall_singleton].
Qed.
Lemma plain_input n k l c t : line_ok n l c -> printer_ok c -> holds l t -> Forall typed_char t -> plain_key k ->
  exists l' c', input_key k l c = Some (false, l', c') /\ line_ok n l' c' /\ printer_ok c' /\ same_input c c' /\ holds l' (type_key n t k).
Proof.
  intros Hl Hc Hh Ht Hk. assert (k <> KEY_UP /\ k <> KEY_DOWN /\ k <> 9 /\ k <> newline) as (K1 & K2 & K3 & K4) by (unfold KEY_UP, KEY_DOWN, newline; destruct Hk as [->|(? & ? & ? & ? & ?)]; unfold KEY_UP, KEY_DOWN in *; lia).
  unfold input_key. zfalse (k =? KEY_UP). zfalse (k =? KEY_DOWN). zfalse (k =? 9). zfalse (k =? newline). cbn [orb andb]. unfold type_key. destruct (Z.eqb_spec k 8) as [->|K5].
  - pose proof (backspace_done n l c Hl Hc) as Hd. destruct (backspace l c) as [[l' c']|] eqn:E; [|done]. destruct Hd as (H1 & H2 & H3). cbn [mbind option_bind fst snd]. exists l', c'. split; [done|].
    split; [done|]. split; [done|]. split; [done|]. exact (backspace_holds n l c t l' c' Hl Hh Ht E).
  - destruct Hk as [|(Hk & H32 & H127 & _)]; [done|]. ztrue (32 <=? k). zfalse (k =? 127). cbn [negb andb]. pose proof (insert_done n k l c ltac:(lia) Hl Hc) as Hd.
    destruct (insert_char k l c) as [[l' c']|] eqn:E; [|done]. destruct Hd as (H1 & H2 & H3). cbn [mbind option_bind fst snd]. exists l', c'. split; [done|].
    split; [done|]. split; [done|]. split; [done|]. exact (insert_holds n k l c t l' c' Hl Hh E).
Qed.
Lemma typing n keys : 9 <= n <= 128 -> Forall plain_key keys -> forall l c t, line_ok n l c -> printer_ok c -> holds l t -> Forall typed_char t ->
  exists l' c', input_keys (keys ++ [newline]) l c = Some (true, l', c', []) /\ cstr (buffer l') = encode_text (fold_left (type_key n) keys t).
Proof.
  intros Hn. induction 1 as [|k keys Hk _ IH]; intros l c t Hl Hc Hh Ht.
  - cbn [app input_keys fold_left]. unfold input_key. change ((newline =? KEY_UP) || (newline =? KEY_DOWN)) with false. change (newline =? 9) with false. cbn [andb]. change (newline =? newline) with true. cbv iota.
    pose proof Hl as [[Hlen Hb] Hp He _ _]. unfold store_char. ztrue (0 <=? pos l). ztrue (pos l <? zlen (buffer l)). cbn [andb mbind option_bind].
    assert (<[Z.to_nat (pos l) := 0]> (buffer l) = buffer l) as ->.
    { apply list_insert_id. unfold byte_at in He. rewrite nth_lookup in He. unfold zlen in Hlen. destruct (lookup_lt_is_Some_2 (buffer l) (Z.to_nat (pos l)) ltac:(lia)) as [x Ex]. rewrite Ex in He |- *. cbn in He. by subst. }
    destruct Hc as [Hc Hd]. destruct (putchar_ok newline WHITE c Hc ltac:(unfold is_byte, newline; lia)) as (c1 & -> & Hc1 & Hs1 & Ed1). cbn [mbind option_bind]. cbv zeta.
    pose proof (strlen_end (buffer l) (pos l) ltac:(lia) He).
    assert (printer_ok c1) as Hp1 by (split; [done|by rewrite Ed1]).
    destruct (remember_ok 128 (set_buffer (buffer l) (pos l) l) c1) as (c2 & -> & Hc2); [done|cbn [buffer set_buffer]; lia..|done|by apply fits_console|]. cbn [mbind option_bind].
    eexists _, _. split; [done|]. cbn [buffer set_buffer]. by eapply cstr_holds.
  - cbn [app input_keys fold_left]. destruct (plain_input n k l c t Hl Hc Hh Ht Hk) as (l' & c' & -> & Hl' & Hc' & Hs & Hh'). cbn [mbind option_bind].
    apply IH; [done|done|done|by apply type_key_typed].
Qed.
(** C8: line editing is editing of a list of characters: typed characters are appended while
    their UTF-8 bytes fit, backspace takes the last whole character back, however many bytes it has,
    and at the end of the line the array holds the UTF-8 text of the list. *)
Theorem input_edits n prompt keys c : 9 <= n <= 128 -> bytes_ok prompt -> Forall plain_key keys -> printer_ok c ->
  exists l c', input n prompt (keys ++ [newline]) c = Some (true, l, c', []) /\ cstr (buffer l) = encode_text (fold_left (type_key n) keys []).
Proof.
  intros Hn Hp Hk Hc. unfold input. destruct (print_ok WHITE prompt c Hp Hc) as (c1 & -> & Hc1 & _). cbn [mbind option_bind].
  apply typing; [done|done|apply start_line_ok; [lia|apply Hc1]|done| |constructor]. by split.
Qed.

(** ** A console after boot *)
Definition sample_console : Console :=
  {| video := text_video; cursor_x := 5; cursor_y := 24; theme_background := 0; theme_foreground := 15; output_decoder := utf8_init; hw_cursor := 0;
     input_history := replicate 16 (replicate 128 0); input_history_count := 0 |}.
Lemma sample_history : history_ok (replicate 16 (replicate 128 0)) 0.
Proof.
  constructor; [by rewrite length_replicate| |lia]. apply Forall_replicate. split; [|split; [apply zeros_ok|]].
  - exact (zlen_replicate 128 0 ltac:(lia)).
  - pose proof (strlen_end (replicate 128 0) 0 ltac:(lia) (replicate_cell 128 0 0 ltac:(lia))). lia.
Qed.
Lemma sample_printer : printer_ok sample_console.
Proof.
  split; [constructor|].
  - constructor; [by apply zlen_replicate| |done]. apply Forall_replicate. unfold plain. lia.
  - cbn. unfold VGA_WIDTH. lia.
  - cbn. unfold VGA_HEIGHT. lia.
  - cbn. lia.
  - exact sample_history.
  - unfold decoder_ok. cbn. lia.
Qed.
Lemma sample_fits : fits 32 sample_console.
Proof. apply Forall_replicate. pose proof (strlen_end (replicate 128 0) 0 ltac:(lia) (replicate_cell 128 0 0 ltac:(lia))). lia. Qed.
(** A text with a broken character and a new line on the last line of the screen. *)
Lemma print_safe_witness : exists c', print CYAN [72; 0xd0; 0x96; 0xff; 10; 105] sample_console = Some c' /\ printer_ok c' /\ same_input sample_console c'.
Proof. apply (print_safe CYAN [72; 0xd0; 0x96; 0xff; 10; 105] sample_console); [|exact sample_printer]. unfold bytes_ok. apply (bool_decide_unpack _). vm_compute. exact I. Defined.
Lemma input_safe_witness : lined 32 [108; 9; KEY_UP; 0x416; 8; 0x104; 10; 65] (input 32 (text "Login: ") [108; 9; KEY_UP; 0x416; 8; 0x104; 10; 65] sample_console).
Proof.
  apply (input_safe 32 (text "Login: ") [108; 9; KEY_UP; 0x416; 8; 0x104; 10; 65] sample_console); [lia| | |exact sample_printer|exact sample_fits].
  - unfold bytes_ok. apply (bool_decide_unpack _). vm_compute. exact I.
  - repeat (apply Forall_cons; split; [by vm_compute|]). apply Forall_nil_2.
Defined.
(** "a", a Cyrillic letter and a smiley are typed, and two characters are taken back. *)
Lemma input_edits_witness : exists l c', input 32 [] ([97; 0x416; 0x1f642; 8; 8; 98] ++ [newline]) sample_console = Some (true, l, c', []) /\ cstr (buffer l) = [97; 98].
Proof.
  apply (input_edits 32 [] [97; 0x416; 0x1f642; 8; 8; 98] sample_console); [lia|constructor| |exact sample_printer].
  repeat (apply Forall_cons; split; [first [left; reflexivity|right; unfold typed_char, is_scalar, KEY_UP, KEY_DOWN; lia]|]). apply Forall_nil_2.
Defined.
(** The arrow and editing keys are not characters, but are put into the line as such. *)
Lemma keys_inserted : utf8_encode 0x102 = [0xc4; 0x82] /\ typed_char 0x102 /\ typed_char 0x107.
Proof. split; [reflexivity|]. unfold typed_char, is_scalar, KEY_UP, KEY_DOWN. lia. Qed.
