(* ===== verification/Stdio.v ===== *)
(** * Standard input and output of native programs (src/barnixiolib/stdio.c)

    Formatted output, lines of input and streams, over the functions that the kernel
    gives to native programs.  A file name that a program passes is taken to stay as it is while
    its stream is open; counts stay below 2^31. *)
From Stdlib Require Import String.
From S2P Require Import Prelude CString State.

(** ** Formatted output *)
Inductive Arg : Set := AInt (value : Z) | AStr (text : option (list Z)).
(** The digits of a number, the lowest first: at least one. *)
Definition digits (value : Z) : list Z := if value =? 0 then [48] else digits10 10 value.
Definition decimal (value : Z) : list Z :=
  if value <? 0 then 45 :: rev (digits (u32 (- value))) else rev (digits value).
Definition NULL_TEXT : list Z := text "(null)".
(** What a conversion prints; [None]: it takes an argument of another kind. *)
Definition conversion (kind : Z) (args : list Arg) : option (list Z * list Arg) :=
  if kind =? 100 then match args with AInt v :: args' => Some (decimal (s32 v), args') | _ => None end
  else if kind =? 117 then match args with AInt v :: args' => Some (rev (digits (u32 v)), args') | _ => None end
  else if kind =? 99 then match args with AInt v :: args' => Some ([u8 v], args') | _ => None end
  else if kind =? 115 then match args with AStr t :: args' => Some (default NULL_TEXT t, args') | _ => None end
  else if kind =? 37 then Some ([37], args)
  else Some ([37; kind], args).
(** The characters in the order in which they are stored or sent.  A single percent sign at the
    end is a conversion whose kind is the end of the text. *)
Fixpoint format_output (format : list Z) (args : list Arg) : option (list Z) :=
  match format with
  | [] => Some []
  | c :: format' =>
      if c =? 37 then
        match format' with
        | [] => '(out, _) ← conversion 0 args; Some out
        | kind :: rest => '(out, args) ← conversion kind args; more ← format_output rest args; Some (out ++ more)
        end
      else more ← format_output format' args; Some (c :: more)
  end.
(** A character goes to its place if there is room for the end of the text behind it. *)
Fixpoint store_chars (buffer : list Z) (capacity written : Z) (out : list Z) : option (list Z) :=
  match out with
  | [] => Some buffer
  | c :: out' =>
      if written + 1 <? capacity then
        if zlen buffer <=? written then None else store_chars (<[Z.to_nat written := c]> buffer) capacity (written + 1) out'
      else store_chars buffer capacity (written + 1) out'
  end.
(** The buffer afterwards and the count; [None]: a store outside the buffer. *)
Definition vsnprintf (buffer : list Z) (size : Z) (format : list Z) (args : list Arg) : option (list Z * Z) :=
  let capacity := s32 size in
  out ← format_output format args;
  buffer ← store_chars buffer capacity 0 out;
  let n := zlen out in
  if 0 <? capacity then
    let last := if n <? capacity then n else capacity - 1 in
    if zlen buffer <=? last then None else Some (<[Z.to_nat last := 0]> buffer, n)
  else Some (buffer, n).

(** ** Arguments and input *)
Fixpoint number (t : list Z) (result : Z) : Z * list Z :=
  match t with
  | c :: t' => if (48 <=? schar c) && (schar c <=? 57) then number t' (s32 (result * 10 + schar c - 48)) else (result, t)
  | [] => (result, [])
  end.
Definition signed (t : list Z) : Z * list Z := match t with c :: t' => if c =? 45 then (-1, t') else (1, t) | [] => (1, []) end.
Definition argument_value (arguments : list (list Z)) (index : Z) : option (list Z) :=
  if index <? 0 then None else arguments !! Z.to_nat index.
Definition argument_int (arguments : list (list Z)) (index : Z) : option Z :=
  t ← argument_value arguments index;
  let '(sign, digits) := signed t in
  let '(value, rest) := number digits 0 in
  if (zlen digits =? zlen rest) || negb (zlen rest =? 0) then None else Some (s32 (sign * value)).
(** A line from the keys that are typed; [None]: they do not end it yet. *)
Fixpoint read_line (keys : list Z) (limit : Z) (line : list Z) : option (list Z * list Z) :=
  if zlen line + 1 <? limit then
    match keys with
    | [] => None
    | key :: keys' =>
        if key =? 10 then Some (line, keys')
        else if key =? 8 then read_line keys' limit (take (length line - 1) line)
        else if (32 <=? key) && (key <? 127) then read_line keys' limit (line ++ [key])
        else read_line keys' limit line
    end
  else Some (line, keys).
Definition blank (c : Z) : bool := (c =? 32) || (c =? 9) || (c =? 10).
Fixpoint skip_space (t : list Z) : list Z := match t with c :: t' => if blank c then skip_space t' else t | [] => [] end.
Fixpoint word (t : list Z) : list Z * list Z :=
  match t with
  | c :: t' => if (c =? 32) || (c =? 9) then ([], t) else let '(w, rest) := word t' in (c :: w, rest)
  | [] => ([], [])
  end.
Inductive Value : Set := VInt (value : Z) | VChar (c : Z) | VStr (t : list Z).
(** The values assigned, in order. *)
Fixpoint scan (format input : list Z) : list Value :=
  match format with
  | [] => []
  | c :: format' =>
      if c =? 32 then scan format' (skip_space input)
      else if negb (c =? 37) then
        match input with i :: input' => if i =? c then scan format' input' else [] | [] => [] end
      else
        match format' with
        | [] => []
        | kind :: rest =>
            if kind =? 100 then
              let '(sign, digits) := signed (skip_space input) in
              let '(value, input') := number digits 0 in
              if zlen digits =? zlen input' then [] else VInt (s32 (sign * value)) :: scan rest input'
            else if kind =? 99 then
              match skip_space input with i :: input' => VChar i :: scan rest input' | [] => [] end
            else if kind =? 115 then
              match skip_space input with
              | [] => []
              | _ => let '(w, input') := word (skip_space input) in VStr w :: scan rest input'
              end
            else []
        end
  end.
Definition scanf (keys format : list Z) : option (list Value * list Z) := '(line, keys) ← read_line keys 256 []; Some (scan format line, keys).

(** ** Streams *)
(** What the kernel's functions do for files and the screen. *)
Class Kernel (W : Type) := {
  file_size : list Z -> W -> Z * W;
  file_read : list Z -> Z -> Z -> W -> (Z * list Z) * W;
  file_write : list Z -> list Z -> W -> Z * W;
  file_append : list Z -> list Z -> W -> Z * W;
  print_text : list Z -> W -> W }.
Record Stream : Set := { name : option (list Z); position : Z; append : Z }.
Definition closed : Stream := {| name := None; position := 0; append := 0 |}.
Definition console_stream : Stream := {| name := Some []; position := 0; append := 0 |}.
(** The streams of the console, then the four that programs open. *)
Record Io (W : Type) : Type := { streams : list Stream; world : W }.
Arguments streams {W}.
Arguments world {W}.
Definition stdin : nat := 0.
Definition stdout : nat := 1.
Definition stderr : nat := 2.
Definition io_start {W} (w : W) : Io W := {| streams := replicate 3 console_stream ++ replicate 4 closed; world := w |}.
Definition EOF : Z := -1.

Section Streams.
Context {W : Type} `{HK : Kernel W}.
Implicit Type s : Io W.
Definition stream_at (i : option nat) s : Stream := match i with Some i => default closed (streams s !! i) | None => closed end.
Definition set_stream (i : nat) (f : Stream) s : Io W := {| streams := <[i := f]> (streams s); world := world s |}.
Definition set_world (w : W) s : Io W := {| streams := streams s; world := w |}.
Definition moved (f : Stream) (p : Z) : Stream := {| name := name f; position := p; append := append f |}.

Definition barnix_fread (size count : Z) (i : nat) s : (Z * list Z) * Io W :=
  let f := stream_at (Some i) s in
  match name f with
  | None => (0, [], s)
  | Some n =>
      if (size =? 0) || (count =? 0) then (0, [], s)
      else
        let '(got, data, w) := file_read n (position f) (u32 (size * count)) (world s) in
        let s := set_world w s in
        if got <=? 0 then (0, [], s) else (got / size, data, set_stream i (moved f (u32 (position f + got))) s)
  end.
(** The data holds at least [size * count] bytes. *)
Definition barnix_fwrite (data : list Z) (size count : Z) (i : nat) s : Z * Io W :=
  let f := stream_at (Some i) s in
  match name f with
  | None => (0, s)
  | Some n =>
      if (size =? 0) || (count =? 0) then (0, s)
      else
        let bytes := u32 (size * count) in
        let data := take (Z.to_nat bytes) data in
        let '(result, w) := (if truth (append f) || truth (position f) then file_append n data (world s) else file_write n data (world s)) in
        let s := set_world w s in
        if truth result then (0, s) else (count, set_stream i (moved f (u32 (position f + bytes))) s)
  end.
Definition putchar (c : Z) s : Z * Io W := (c, set_world (print_text (if u8 c =? 0 then [] else [u8 c]) (world s)) s).
Definition fputc (c : Z) (i : option nat) s : Z * Io W :=
  match i with
  | Some i =>
      if (i =? stdout)%nat || (i =? stderr)%nat then putchar c s
      else match name (stream_at (Some i) s) with
           | None => (EOF, s)
           | Some _ => let '(n, s) := barnix_fwrite [u8 c] 1 1 i s in (if n =? 1 then c else EOF, s)
           end
  | None => (EOF, s)
  end.
(** Failures of single characters are not noticed. *)
Fixpoint send (out : list Z) (i : nat) s : Io W := match out with c :: out' => send out' i (snd (fputc c (Some i) s)) | [] => s end.
Definition fprintf (i : option nat) (format : list Z) (args : list Arg) s : option (Z * Io W) :=
  out ← format_output format args; Some (zlen out, match i with Some i => send out i s | None => s end).
Fixpoint fputs_from (t : list Z) (n : Z) (i : option nat) s : Z * Io W :=
  match t with
  | c :: t' => let '(r, s) := fputc c i s in if r =? EOF then (EOF, s) else fputs_from t' (n + 1) i s
  | [] => (n, s)
  end.
Definition fputs (t : list Z) (i : option nat) s : Z * Io W := fputs_from t 0 i s.
Definition fgetc (i : nat) s : Z * Io W :=
  let '(n, data, s) := barnix_fread 1 1 i s in (if n =? 1 then match data with c :: _ => c | [] => 0 end else EOF, s).
Definition feof (i : option nat) s : bool := match name (stream_at i s) with None => true | Some _ => false end.
Definition SEEK_CUR : Z := 1.
Definition SEEK_END : Z := 2.
Definition fseek (i : nat) (offset origin : Z) s : Z * Io W :=
  let f := stream_at (Some i) s in
  match name f with
  | None => (-1, s)
  | Some n =>
      if offset <? 0 then (-1, s)
      else
        let '(base, s) :=
          (if origin =? SEEK_CUR then (s32 (position f), s)
           else if origin =? SEEK_END then let '(size, w) := file_size n (world s) in (size, set_world w s)
           else (0, s)) in
        let p := s32 (base + offset) in
        if p <? 0 then (-1, s) else (0, set_stream i (moved f (u32 p)) s)
  end.
Definition ftell (i : option nat) s : Z := match name (stream_at i s) with Some _ => s32 (position (stream_at i s)) | None => -1 end.
Definition fclose (i : nat) s : Z * Io W :=
  let f := stream_at (Some i) s in
  match name f with
  | None => (-1, s)
  | Some _ => (0, set_stream i {| name := None; position := position f; append := append f |} s)
  end.
(** The search for a stream that is not open; a stream whose file cannot be made is passed over. *)
Fixpoint open_from (left i : nat) (n : list Z) (mode : Z) s : option nat * Io W :=
  match left with
  | O => (None, s)
  | S left' =>
      match name (stream_at (Some i) s) with
      | Some _ => open_from left' (S i) n mode s
      | None =>
          let f := {| name := Some n; position := 0; append := c_bool (mode =? 97) |} in
          let '(refused, s) := (if mode =? 119 then let '(r, w) := file_write n [] (world s) in (truth r, set_world w s) else (false, s)) in
          if refused then open_from left' (S i) n mode (set_stream i {| name := None; position := 0; append := append f |} s)
          else if mode =? 97 then
            let '(size, w) := file_size n (world s) in
            (Some i, set_stream i (if 0 <=? size then moved f size else f) (set_world w s))
          else (Some i, set_stream i f s)
      end
  end.
Definition fopen (n mode : list Z) s : option nat * Io W :=
  match mode with
  | [] => (None, s)
  | m :: _ =>
      let '(size, w) := file_size n (world s) in
      let s := set_world w s in
      let existing := 0 <=? size in
      if (m =? 114) && negb existing then (None, s)
      else
        let '(refused, s) := (if (m =? 97) && negb existing then let '(r, w) := file_write n [] (world s) in (truth r, set_world w s) else (false, s)) in
        if refused then (None, s) else open_from 4 3 n m s
  end.
End Streams.
