(* ===== verification/StdioProofs.v ===== *)
(** * What native programs print, read and write

    Bounds of formatted output, round trips of numbers and of formatted text, and
    what a stream leaves in its file. *)
From Stdlib Require Import String.
From S2P Require Import Prelude CString State Stdio.

(** ** Formatted output stays in its buffer *)
Lemma store_rest buffer capacity written out : capacity <= written + 1 -> store_chars buffer capacity written out = Some buffer.
Proof.
  revert written. induction out as [|c out IH]; intros written Hc; cbn [store_chars]; [done|].
  zfalse (written + 1 <? capacity). apply IH. lia.
Qed.
Lemma store_chars_fill out : forall buffer capacity written, 0 <= written -> written < capacity <= zlen buffer ->
  let m := Z.to_nat (Z.min (zlen out) (capacity - 1 - written)) in
  store_chars buffer capacity written out =
    Some (take (Z.to_nat written) buffer ++ take m out ++ drop (Z.to_nat written + m) buffer).
Proof.
  induction out as [|c out IH]; intros buffer capacity written Hw Hc; cbn zeta.
  - cbn [store_chars]. change (zlen []) with 0. rewrite Z.min_l by lia. change (Z.to_nat 0) with 0%nat.
    by rewrite Nat.add_0_r, take_0, app_nil_l, take_drop.
  - cbn [store_chars]. destruct (written + 1 <? capacity) eqn:E; bool_to_prop.
    + zfalse (zlen buffer <=? written). rewrite IH by (unfold zlen in *; rewrite ?length_insert; lia).
      rewrite zlen_cons. set (m := Z.to_nat (Z.min (zlen out) (capacity - 1 - (written + 1)))).
      replace (Z.to_nat (Z.min (1 + zlen out) (capacity - 1 - written))) with (S m) by (unfold m; pose proof (zlen_nonneg out); lia).
      replace (Z.to_nat (written + 1)) with (S (Z.to_nat written)) by lia. f_equal.
      rewrite drop_insert_lt by lia. rewrite (take_S_r _ _ c) by (apply list_lookup_insert_eq; unfold zlen in Hc; lia).
      rewrite take_insert_ge by lia. cbn [take]. rewrite <- app_assoc. cbn [app]. do 4 f_equal. lia.
    + rewrite store_rest by lia. replace (Z.min (zlen (c :: out)) (capacity - 1 - written)) with 0 by (pose proof (zlen_nonneg (c :: out)); lia).
      change (Z.to_nat 0) with 0%nat. by rewrite Nat.add_0_r, take_0, app_nil_l, take_drop.
Qed.

(** C22: Formatted output to a buffer stores as much of the text as fits before a
    terminating zero, touches nothing else, and returns the length of the whole text. *)
Theorem vsnprintf_fills buffer size format args out
  (Hs : 0 < size < 2 ^ 31) (Hb : size <= zlen buffer) (Ho : format_output format args = Some out) :
  let m := Z.to_nat (Z.min (zlen out) (size - 1)) in
  vsnprintf buffer size format args = Some (take m out ++ [0] ++ drop (S m) buffer, zlen out).
Proof.
  cbn zeta. set (m := Z.to_nat (Z.min (zlen out) (size - 1))). unfold vsnprintf. rewrite Ho. cbn [mbind option_bind].
  rewrite s32_small by lia. rewrite store_chars_fill by lia. cbn [mbind option_bind].
  replace (Z.to_nat (Z.min (zlen out) (size - 1 - 0))) with m by (unfold m; do 2 f_equal; lia).
  change (Z.to_nat 0) with 0%nat. rewrite take_0. cbn [app Nat.add]. ztrue (0 <? size).
  pose proof (zlen_nonneg out) as Hn.
  replace (if zlen out <? size then zlen out else size - 1) with (Z.of_nat m) by (unfold m; destruct (zlen out <? size) eqn:E; bool_to_prop; lia).
  assert (Lm : length (take m out) = m) by (rewrite length_take; unfold m, zlen in *; lia).
  assert (Lb : zlen (take m out ++ drop m buffer) = zlen buffer).
  { unfold zlen in *. rewrite length_app, Lm, length_drop. unfold m. lia. }
  rewrite Lb. zfalse (zlen buffer <=? Z.of_nat m). unfold zlen in *. rewrite Nat2Z.id. do 2 f_equal.
  destruct (drop m buffer) as [|b rest] eqn:D; [apply (f_equal length) in D; rewrite length_drop in D; cbn in D; lia|].
  rewrite <- Lm at 1. rewrite <- (Nat.add_0_r (length (take m out))), insert_app_r. cbn [insert list_insert].
  replace (S m) with (m + 1)%nat by lia. rewrite <- drop_drop, D. done.
Qed.
Lemma vsnprintf_fills_witness :
  vsnprintf (replicate 12 7) 9 (text "%d of %s") [AInt 42; AStr (Some (text "1000"))] = Some (text "42 of 10" ++ [0; 7; 7; 7], 10).
Proof. rewrite (vsnprintf_fills _ _ _ _ (text "42 of 1000")); [reflexivity|lia|vm_compute; congruence|reflexivity]. Defined.

(** ** Streams and their files *)
(** What programs rely on of the kernel's files: 0 means that it was done. *)
Class KernelLaws (W : Type) `{Kernel W} := {
  contents : W -> list Z -> option (list Z);
  write_law n d w w' : file_write n d w = (0, w') -> contents w' n = Some d;
  append_law n d w w' old : file_append n d w = (0, w') -> contents w n = Some old -> contents w' n = Some (old ++ d);
  size_law n w size w' : file_size n w = (size, w') ->
    contents w' n = contents w n /\ (forall c, contents w n = Some c -> size = zlen c);
  read_law n o k w got data w' c : contents w n = Some c -> 0 <= o -> 0 < k -> file_read n o k w = ((got, data), w') ->
    contents w' n = Some c /\ data = take (Z.to_nat k) (drop (Z.to_nat o) c) /\ got = zlen data }.

(** A program that writes pieces one after the other, and one that reads with a
    buffer of [k] bytes until nothing comes. *)
Fixpoint write_all {W} `{Kernel W} (pieces : list (list Z)) (i : nat) (s : Io W) : bool * Io W :=
  match pieces with
  | d :: pieces' => let '(n, s) := barnix_fwrite d 1 (zlen d) i s in if n =? zlen d then write_all pieces' i s else (false, s)
  | [] => (true, s)
  end.
Fixpoint read_all {W} `{Kernel W} (fuel : nat) (k : Z) (i : nat) (s : Io W) : option (list Z) * Io W :=
  match fuel with
  | O => (None, s)
  | S fuel' =>
      let '(n, data, s) := barnix_fread 1 k i s in
      if n =? 0 then (Some [], s) else let '(more, s) := read_all fuel' k i s in (app data <$> more, s)
  end.

Section Files.
Context {W : Type} `{HL : KernelLaws W}.
Implicit Type s : Io W.
(** An open stream on a file. *)
Definition opened (i : nat) (n : list Z) (p : Z) s : Prop :=
  (i < length (streams s))%nat /\ stream_at (Some i) s = {| name := Some n; position := p; append := 0 |}.
Lemma opened_set i n p s w :
  (i < length (streams s))%nat -> opened i n p (set_stream i {| name := Some n; position := p; append := 0 |} (set_world w s)).
Proof. intros Hi. split; cbn [streams set_stream set_world]; [by rewrite length_insert|]. unfold stream_at. cbn. by rewrite list_lookup_insert_eq. Qed.

Lemma write_all_appends pieces : forall i n p s s' old, opened i n p s -> 0 <= p -> (p = 0 -> old = []) ->
  contents (world s) n = Some old -> Forall (fun d => 0 < zlen d) pieces -> p + zlen (concat pieces) < 2 ^ 32 ->
  write_all pieces i s = (true, s') -> contents (world s') n = Some (old ++ concat pieces).
Proof.
  induction pieces as [|d pieces IH]; intros i n p s s' old Ho Hp H0 Hc Hd Hl; cbn [write_all].
  { intros [= <-]. by rewrite app_nil_r. }
  apply Forall_cons in Hd as [Hd Hds]. cbn [concat] in *. rewrite zlen_app in Hl. pose proof (zlen_nonneg (concat pieces)) as Hz.
  unfold barnix_fwrite. destruct Ho as [Hi Ho]. rewrite Ho. cbn [name append position]. zfalse (zlen d =? 0). cbn [Z.eqb orb].
  rewrite Z.mul_1_l, u32_small by (unfold is_u32; lia).
  replace (take (Z.to_nat (zlen d)) d) with d by (unfold zlen; by rewrite Nat2Z.id, firstn_all).
  change (truth 0) with false. cbn [orb].
  destruct (if truth p then _ else _) as [result w] eqn:Er. destruct (truth result) eqn:Et.
  { replace (0 =? zlen d) with false by (symmetry; apply Z.eqb_neq; lia). done. }
  unfold truth in Et. bool_to_prop. subst result. rewrite Z.eqb_refl, u32_small by (unfold is_u32; lia).
  intros Hw. rewrite app_assoc. eapply (IH i n (p + zlen d)); [by apply opened_set|lia|lia| |done|lia|exact Hw].
  cbn [world set_stream set_world]. destruct (truth p) eqn:Ep; [by eapply append_law|].
  unfold truth in Ep. bool_to_prop. rewrite (H0 Ep). by eapply write_law.
Qed.

Lemma open_new left i n s j s' : (i + left <= length (streams s))%nat -> open_from left i n 119 s = (Some j, s') ->
  opened j n 0 s' /\ contents (world s') n = Some [] /\ length (streams s') = length (streams s).
Proof.
  revert i s. induction left as [|left IH]; intros i s Hi; cbn [open_from]; [done|].
  destruct (name (stream_at (Some i) s)); [intros H1; apply (IH (S i)); [lia|done]|].
  cbn [Z.eqb Pos.eqb c_bool]. destruct (file_write n [] (world s)) as [r w] eqn:Ew. destruct (truth r) eqn:Er.
  - intros H1. apply (IH (S i)) in H1; [|cbn [streams set_stream set_world]; rewrite length_insert; lia].
    cbn [streams set_stream set_world] in H1. by rewrite length_insert in H1.
  - intros [= <- <-]. unfold truth in Er. bool_to_prop. subst r. split; [apply opened_set; lia|].
    split; [by apply write_law in Ew|cbn [streams set_stream set_world]; by rewrite length_insert].
Qed.
Lemma open_old left i n s j s' : (i + left <= length (streams s))%nat -> open_from left i n 114 s = (Some j, s') ->
  opened j n 0 s' /\ world s' = world s.
Proof.
  revert i s. induction left as [|left IH]; intros i s Hi; cbn [open_from]; [done|].
  destruct (name (stream_at (Some i) s)); [intros H1; apply (IH (S i)); [lia|done]|].
  cbn [Z.eqb Pos.eqb c_bool]. intros [= <- <-]. split; [|done].
  pose proof (opened_set i n 0 s (world s) ltac:(lia)) as O. by destruct s.
Qed.

Lemma read_all_gives fuel : forall k i n p s c, 0 < k < 2 ^ 31 -> opened i n p s -> 0 <= p <= zlen c -> zlen c < 2 ^ 31 ->
  contents (world s) n = Some c -> zlen c - p < Z.of_nat fuel -> fst (read_all fuel k i s) = Some (drop (Z.to_nat p) c).
Proof.
  induction fuel as [|fuel IH]; intros k i n p s c Hk [Hi Ho] Hp Hc Hf Hn; [lia|]. cbn [read_all].
  unfold barnix_fread. rewrite Ho. cbn [name position]. zfalse (k =? 0). cbn [Z.eqb orb]. rewrite Z.mul_1_l, u32_small by (unfold is_u32; lia).
  destruct (file_read n p k (world s)) as [[got data] w] eqn:Er.
  destruct (read_law _ _ _ _ _ _ _ _ Hf (proj1 Hp) (proj1 Hk) Er) as (Hw & -> & ->).
  set (data := take (Z.to_nat k) (drop (Z.to_nat p) c)). destruct (zlen data <=? 0) eqn:El; bool_to_prop.
  - cbn [Z.eqb fst]. f_equal. unfold data, zlen in *. rewrite length_take, length_drop in El.
    symmetry. apply nil_length_inv. rewrite length_drop. lia.
  - rewrite Z.div_1_r. zfalse (zlen data =? 0). unfold moved. cbn [name append position].
    assert (Ld : zlen data <= zlen c - p) by (unfold data, zlen in *; rewrite length_take, length_drop; lia).
    rewrite u32_small by (unfold is_u32; lia).
    assert (0 <= p + zlen data <= zlen c) as Hp2 by lia. assert (zlen c - (p + zlen data) < Z.of_nat fuel) as Hn2 by lia.
    specialize (IH k i n (p + zlen data) _ c Hk (opened_set i n (p + zlen data) s w Hi) Hp2 Hc Hw Hn2).
    destruct (read_all fuel k i _) as [more s2]. cbn [fst] in *. rewrite IH. cbn [fmap option_fmap option_map]. f_equal.
    replace (Z.to_nat (p + zlen data)) with (Z.to_nat p + length data)%nat by (unfold zlen; lia).
    rewrite <- drop_drop. set (r := drop (Z.to_nat p) c) in *. rewrite <- (take_drop (Z.to_nat k) r) at 2. unfold data. f_equal.
    destruct (decide (Z.to_nat k <= length r)%nat) as [Hk2|Hk2]; [by rewrite length_take_le|].
    by rewrite !drop_ge by (rewrite ?length_take; lia).
Qed.

Lemma fwrite_streams d size count i s : length (streams (snd (barnix_fwrite d size count i s))) = length (streams s).
Proof.
  unfold barnix_fwrite. destruct (name (stream_at (Some i) s)); [|done]. destruct ((size =? 0) || (count =? 0)); [done|].
  destruct (if truth (append (stream_at (Some i) s)) || _ then _ else _) as [r w]. destruct (truth r); [done|]. cbn [snd streams set_stream set_world]. by rewrite length_insert.
Qed.
Lemma write_all_streams pieces i s : length (streams (snd (write_all pieces i s))) = length (streams s).
Proof.
  revert s. induction pieces as [|d pieces IH]; intros s; cbn [write_all]; [done|].
  pose proof (fwrite_streams d 1 (zlen d) i s) as L. destruct (barnix_fwrite d 1 (zlen d) i s) as [r s']. cbn [snd] in L.
  destruct (r =? zlen d); [by rewrite IH|done].
Qed.
Lemma fclose_keeps i s : world (snd (fclose i s)) = world s /\ length (streams (snd (fclose i s))) = length (streams s).
Proof. unfold fclose. destruct (name (stream_at (Some i) s)); [|done]. cbn [snd streams set_stream]. by rewrite length_insert. Qed.

End Files.

(** A store of files for a program to run on. *)
#[export] Instance shelf : Kernel (list (list Z * list Z)) := {
  file_size n w := (match find (fun f => bool_decide (fst f = n)) w with Some f => zlen (snd f) | None => -1 end, w);
  file_read n o k w := (match find (fun f => bool_decide (fst f = n)) w with
                        | Some f => let d := take (Z.to_nat k) (drop (Z.to_nat o) (snd f)) in (zlen d, d) | None => (-1, []) end, w);
  file_write n d w := (0, (n, d) :: w);
  file_append n d w := match find (fun f => bool_decide (fst f = n)) w with Some f => (0, (n, snd f ++ d) :: w) | None => (-1, w) end;
  print_text _ w := w }.
#[export] Instance shelf_laws : KernelLaws (list (list Z * list Z)).
Proof.
  refine {| contents w n := snd <$> find (fun f => bool_decide (fst f = n)) w |}; cbn.
  - intros n d w w' [= <-]. cbn. by rewrite bool_decide_eq_true_2.
  - intros n d w w' old. destruct (find _ w) as [f|] eqn:Ef; [|done]. intros [= <-]. cbn. rewrite bool_decide_eq_true_2 by done. by intros [= <-].
  - intros n w size w' [= <- <-]. split; [done|]. intros c. destruct (find _ w) as [f|]; [|done]. by intros [= <-].
  - intros n o k w got data w' c. destruct (find _ w) as [f|] eqn:Ef; [|done]. intros [= <-] _ _ [= <- <- <-]. by rewrite Ef.
Defined.
